(* ===== verification/_CoqProject ===== *)
-Q . S2P
Prelude.v
Proto.v
Abi.v
Header.v
Iface.v
Tables.v
Elf.v
Kernel.v
KernelInv.v
KernelFrame.v
KernelPanic.v
KernelProps.v
KernelHal.v
HalVirt.v
ProtoCmd.v
Guest.v
GuestProps.v
GuestStream.v
Client.v
ClientProps.v
ClientConn.v
Arith.v
ArithBn.v
ArithMod.v
ArithProps.v
Crypto.v
Storage.v
StorageProps.v
HostFs.v
RpcFsProps.v
Supplicant.v
SupplicantProps.v
LoadTa.v
UteeProp.v
UteeMem.v
Utee.v
UteeAbi.v
UteeArith.v
UteeProps.v
UteeStore.v
Alloc.v
Icache.v
Virtq.v
Pci.v
Boot.v
Hello.v
HalTz.v
EndToEnd.v
