(* ===== verification/Prelude.v ===== *)
(** * RUSTEE: a verified model of the trusted execution environment

    RUSTEE is a TEE in Rust.  A client application on the host writes a message
    into a 16 MiB bounce pool and enters the TEE over virtio-vsock; a guest at
    EL1 decodes the message, hands it to the TEE kernel, which routes it to a
    pseudo-TA or to a user TA it loaded from the host, and writes the answer
    back.  The host is not trusted by the guest; a TA is not trusted by the
    kernel.  This library models that path end to end and proves what each part
    promises.

    ** Files, parts of the program and how they correspond

    - [Prelude]: machine integers at their width, results with an explicit panic
      ([res]), slices, little- and big-endian words, loops, tactics.
    - [Proto] (src/crates/rustee-proto/src/lib.rs): call frames, PDU headers,
      message header and parameters, [write_msg], [decode_msg], the fast SMCCC
      answers.
    - [Abi] (src/crates/rustee-os/src/abi.rs, src/crates/rustee-utee/src/
      kernel_abi.rs, types of src/crates/rustee-hal/src/lib.rs): kernel commands
      and results, parameters, their raw GP form on both sides.
    - [Header] (src/crates/rustee-os/src/header.rs, src/crates/rustee-utee/src/
      header.rs): TA header and signed envelope.
    - [Iface]: the interfaces the kernel is generic over, as type classes: the
      HAL ([HalOps], trait [Hal] with its address spaces and shared memory), the
      crypto provider, pseudo-TAs ([PtaOps]) and the code of user TAs
      ([TaCode]).  TA code and cryptography are not in this repository: they are
      parameters, and no theorem assumes anything of them but what is named.
    - [Tables] (session.rs, instance.rs, pta.rs, early TAs of loader.rs): slot
      tables with id counters, refined to finite maps.
    - [Elf] (elf.rs, loader.rs): section and symbol walks, loading and mapping
      of a TA image, signature verification.
    - [Kernel] (src/crates/rustee-os/src/lib.rs): the record [Kernel] with the
      fields of the struct, one definition per method; a call returns an answer
      and the new kernel or panics in a kernel state ([kres]).
    - [KernelInv], [KernelFrame], [KernelPanic], [KernelHal]: the kernel's
      invariant and its preservation by every call and by panics; what a call
      leaves alone; what is known where a call panics, whichever entry point ran;
      what a call does to the HAL and which answers it can give.
    - [KernelProps]: the kernel's properties.
    - [HalVirt] (src/crates/rustee-hal-virt/src/lib.rs, vsock.rs, rng.rs): the
      virt HAL.  Its [virt_hal] is an instance of [HalOps], so the kernel's
      theorems hold on it.
    - [ProtoCmd] (src/guest/rustee-guest/src/proto_cmd.rs): message to command,
      result to message, the LOAD_TA exchange.
    - [Guest], [GuestProps], [GuestStream] (src/guest/rustee-guest/src/main.rs):
      the main loop as a function on received packets; the kernel on the virt HAL;
      the PDUs the loop is handed from a stream cut into packets.
    - [Client], [ClientProps] (src/crates/gp-client/src/lib.rs, wire.rs): the
      client API, its transports, and that what it sends is what the guest
      executes.
    - [ClientConn] (same files): connecting to the guest with the system calls of
      the class [Libc], and the C entry points.
    - [Arith] (src/crates/rustee-crypto/src/arith.rs): big integers in arrays of
      words (sign, length, limbs), one definition per function with the loops as
      fixpoints; [ArithBn] and [ArithMod] relate the arrays to integers,
      [ArithProps] states the results.
    - [Crypto] (src/crates/rustee-crypto/src/lib.rs, provider.rs): the software
      provider.  The RustCrypto crates it calls are the class [CryptoCrates];
      what the theorems use of them is the class [CryptoLaws].
    - [Storage], [StorageProps] (src/crates/rustee-storage/src/lib.rs, rpc.rs):
      objects and the directory, encrypted over a file interface ([FsRpc]), and
      whole files over descriptors ([FsClient]).  [RpcFsProps]: what [RpcFs] relies
      on ([FsClientLaws]) and gives, with the client of the crate's tests.
    - [HostFs]: the host file system the supplicant works on: directories, files
      and symbolic links, path resolution, and what [PathBuf::join],
      [create_dir_all] and [OpenOptions::open] do on it.
    - [Supplicant], [SupplicantProps] (src/host/rustee-supplicant/src/lib.rs):
      the host's server of RPCs on [HostFs].
    - [LoadTa]: a TA image from the supplicant's directory to the guest, through
      the client's transport.
    - [UteeProp], [UteeMem], [Utee], [UteeAbi], [UteeArith]
      (src/crates/rustee-utee/src): the runtime a TA links.  Its property sets
      (property.rs); its heap and memory calls (mem.rs); the state of an instance
      as the record [Core], with one definition per call of runtime.rs, param.rs,
      client.rs, time_api.rs, crypto_api.rs and ta.rs; the C entry points
      (c_abi.rs); the big-number forwards (arith.rs).  What the kernel plugs in is
      the class [UteeEnv], a Rust TA the class [TaImpl].  [UteeProps] states what
      the calls promise, [UteeStore] puts the storage behind them.
    - [Alloc] (src/guest/rustee-guest/src/heap.rs, the allocator of
      src/ta/hello-rs/src/lib.rs): bump allocators, with callers interleaved turn
      by turn of their compare-and-exchange loop.
    - [Icache] ([sync_icache] of src/crates/rustee-hal-virt/src/lib.rs): cache
      maintenance for a copied image, on caches that move on their own.
    - [Virtq] (src/guest/rustee-guest/src/virtio.rs): the split virtqueues next to
      a device that moves on its own, as step relations.
    - [Pci] (pci.rs, virtio.rs, mmu.rs, uart.rs of the guest): BARs, the set-up of
      virtio devices, the page tables, the console; registers are the class [Bus].
    - [Boot] (src/guest/rustee-guest/src/main.rs): [rust_main] and [run] up to the
      loop, with the log of everything written to hardware.
    - [Hello] (src/ta/hello-rs/src/lib.rs, src/crates/rustee-utee/src/header.rs): the
      sample TA, an instance of [TaImpl], and the header it is built with.
    - [HalTz] (src/crates/rustee-hal-tz/src/lib.rs): the stub HAL, an instance of
      [HalOps].
    - [EndToEnd]: the sample TA's code behind the kernel, the kernel behind the
      guest's loop, the guest behind a link that cuts bytes into packets, and the
      client on the other end.

    ** What the theorems show

    Kernel: every reachable state is consistent (sessions, instances, counts,
    locks); a single-instance TA has one instance; cancellation is permanent; a
    TA panic, in whatever entry point, touches only its own instance and
    sessions; closing does what it should and nothing else; the LOAD_TA request
    and its reply; what a TA is given lies inside the buffers named; nothing
    runs before the notices of REE entropy are printed.  Loader: the mapped
    memory is the one the program headers describe; a signed image is accepted
    only with digest and signature.  Codecs: round trips, and no panic on
    hostile input (an index or a slice out of range is a panic of the model).
    HAL: a PDU writes only its window of the pool, a call completes in its own
    window, shared buffers stay in the pool.  Guest: every call is answered
    once, with its own sequence number, unless the kernel panics; the PDUs of
    the stream arrive whole and in order however it is cut, at most one per
    packet; it comes up in order, the notices before the host can reach it.
    Client: its messages are decoded as the command meant, and connecting leaves
    no descriptor open when it fails.  Across the stack: the guest loads exactly
    the file a UUID names, and a client's calls to the sample TA return, byte
    for byte, what that TA computes.  Big integers: the operations are those of
    the integers when results fit and operands stay below the sizes each theorem
    names, where Euclid's loop ends and inverses and powers are right; the
    primality check is a Fermat test.  Provider: the modes invert, a GCM
    decryption that fails leaves the buffer as it was.  Storage: what is stored
    is what opens; files are stored whole or an error is returned.  Supplicant:
    with no links below its root, nothing outside it changes.  TA runtime: the
    property table types the getters, walks over properties and objects are
    complete, the heap hands out no memory twice, a reallocation keeps the data,
    session handles are known while they are open, the persistent time runs with
    the clock, a TA reports what its header says, and its object enumerator what
    the storage holds.  Drivers: allocated blocks never overlap however callers
    interleave, the transmit queue is a FIFO of packets whose buffers stay live,
    the receive buffer has one owner, device windows lie apart, the page tables
    map what the drivers use, and a copied image is what the core executes (with
    cache lines of 64 bytes or a multiple).  A group of theorems states defects:
    signed TAs never open, a bad buffer ends a session, dead or refused
    instances keep their slots, an unchecked offset panics, ids are reused after
    the counter wraps, value results are lost, the client ignores results,
    division of full-width numbers is wrong, a second object makes both
    unreadable, FS messages move no data, the seventeenth session of a TA ends
    it, the least 32-bit integer cannot be read back, a TA's allocator aligns
    offsets only, the 64-bit MMIO window is not mapped where the source says, a
    PDU that shares a packet with another waits, a link below the supplicant's
    root leads outside, short cache lines stay stale.

    ** Conventions and bounds

    Arithmetic that the source leaves unchecked panics on overflow (builds with
    overflow checks), [wrapping_], [saturating_] and [checked_] operations are
    written out.  Recursion is structural or over an explicit list; the loops
    with fuel are [enter_loop] in [Client], whose fuel is the number of PDUs the
    peer sends; [egcd_loop] in [Arith], whose 8192 turns are proved enough for
    operands below 127 limbs; [walk] in [HostFs], which follows at most 40
    symbolic links, the host's own limit; [put_loop] and [read_loop] in
    [Storage], for which one turn more than there are full chunks of 4096 bytes
    is proved enough; [recycle_loop] in [Virtq], with one turn per entry of the
    used ring, proved enough; [cache_lines] in [Icache], with one turn per 64
    bytes, proved enough; the bounded waits [rng_loop], [probe_loop] and
    [await_reset], whose bounds are the source's; and [write_byte] in [Pci], a
    wait on the device the source does not bound.  Theorems on id freshness
    assume fewer than 2^32 - 1 calls, the point where the counters wrap.

    ** Not modelled

    The exception vectors and the boot assembly of the guest, the Linux driver,
    the command-line programs, the function-pointer shims and the
    thread-local storage under the TA runtime's state, and the code of the crates
    the crypto provider calls. *)
From Stdlib Require Import ZArith Lia Ascii String.
From stdpp Require Import base list gmap numbers.

Local Open Scope Z_scope.

(** * Machine integers

    A Rust integer of width [w] is a [Z] in [[0, 2^w)]; the aliases below only
    record the width the source declares.  [usize] is 64 bits wide (the guest is
    aarch64 and the hosts are 64-bit). *)

Abbreviation u8 := Z (only parsing).
Abbreviation u16 := Z (only parsing).
Abbreviation u32 := Z (only parsing).
Abbreviation u64 := Z (only parsing).
Abbreviation usize := Z (only parsing).
Abbreviation bytes := (list Z) (only parsing).

Definition wrap (w x : Z) : Z := x mod 2 ^ w.
Definition in_width (w x : Z) : Prop := 0 <= x < 2 ^ w.
Definition in_widthb (w x : Z) : bool := (0 <=? x) && (x <? 2 ^ w).

(** [x as u32], [x as u16], [x as u8]: truncation. *)
Definition as_u8 (x : Z) : Z := wrap 8 x.
Definition as_u16 (x : Z) : Z := wrap 16 x.
Definition as_u32 (x : Z) : Z := wrap 32 x.

Definition U16_MAX : Z := 2 ^ 16 - 1.
Definition U32_MAX : Z := 2 ^ 32 - 1.
Definition U64_MAX : Z := 2 ^ 64 - 1.

(** [saturating_add], [saturating_sub], [checked_add], [wrapping_add] at width [w]. *)
Definition sat_add (w x y : Z) : Z := Z.min (x + y) (2 ^ w - 1).
Definition sat_sub (x y : Z) : Z := Z.max (x - y) 0.
Definition checked_add (w x y : Z) : option Z :=
  if x + y <? 2 ^ w then Some (x + y) else None.
Definition wrapping_add (w x y : Z) : Z := wrap w (x + y).
Definition wrapping_sub (w x y : Z) : Z := wrap w (x - y).

Lemma wrap_id w x : in_width w x -> wrap w x = x.
Proof. intros H. apply Z.mod_small, H. Qed.

Lemma wrap_width w x : 0 <= w -> in_width w (wrap w x).
Proof. intros H. apply Z.mod_pos_bound. lia. Qed.

Lemma in_widthb_spec w x : in_widthb w x = true <-> in_width w x.
Proof. unfold in_widthb, in_width. rewrite andb_true_iff. lia. Qed.

#[export] Instance in_width_dec w x : Decision (in_width w x).
Proof. unfold in_width. apply _. Defined.

(** * Results

    A Rust call returns a value, returns an error, or panics.  [res E A] is
    [Result<A, E>] with the panic made explicit: an index or slice out of
    range, an [unwrap] of [None] or an overflowing [+] (builds with overflow
    checks). *)

Inductive res (E A : Type) : Type :=
| Ok (a : A)
| Err (e : E)
| Panic.
Arguments Ok {E A} a.
Arguments Err {E A} e.
Arguments Panic {E A}.

Definition rbind {E A B} (r : res E A) (k : A -> res E B) : res E B :=
  match r with Ok a => k a | Err e => Err e | Panic => Panic end.

Definition map_err {E F A} (f : E -> F) (r : res E A) : res F A :=
  match r with Ok a => Ok a | Err e => Err (f e) | Panic => Panic end.

(** [opt.ok_or(e)?] *)
Definition ok_or {E A} (o : option A) (e : E) : res E A :=
  match o with Some a => Ok a | None => Err e end.

(** [opt.unwrap()] and panicking index or arithmetic. *)
Definition or_panic {E A} (o : option A) : res E A :=
  match o with Some a => Ok a | None => Panic end.

(** [r.ok()] *)
Definition res_ok {E A} (r : res E A) : option A :=
  match r with Ok a => Some a | _ => None end.

Declare Scope rust_scope.
Delimit Scope rust_scope with rust.
Notation "'let?' x ':=' c 'in' k" := (rbind c (fun x => k))
  (at level 10, x pattern, c at level 200, k at level 200) : rust_scope.

Create HintDb rust.
#[export] Hint Unfold rbind map_err ok_or or_panic res_ok : rust.

(** * Slices

    [&[u8]] and [Vec<u8>] are lists; positions and lengths are [usize] values. *)

Definition zlen {A} (l : list A) : Z := Z.of_nat (length l).

(** [l[off..off+n]], for a range the surrounding code has checked. *)
Definition sub {A} (l : list A) (off n : Z) : list A :=
  take (Z.to_nat n) (drop (Z.to_nat off) l).

(** [l.get(a..b)] *)
Definition get_range {A} (l : list A) (a b : Z) : option (list A) :=
  if (0 <=? a) && (a <=? b) && (b <=? zlen l) then Some (sub l a (b - a)) else None.

(** [&l[a..b]]: panics out of range. *)
Definition index_range {E A} (l : list A) (a b : Z) : res E (list A) :=
  or_panic (get_range l a b).

(** [&l[..n]] and the reads [l[0], .., l[n - 1]] of a loop: panic when [l] is shorter. *)
Definition first_n {E A} (l : list A) (n : Z) : res E (list A) :=
  if zlen l <? n then Panic else Ok (take (Z.to_nat n) l).

(** [l[i] = x]: panics out of range. *)
Definition set_at {E A} (l : list A) (i : Z) (x : A) : res E (list A) :=
  if (0 <=? i) && (i <? zlen l) then Ok (<[Z.to_nat i := x]> l) else Panic.

(** [l.get(a..)] *)
Definition get_from {A} (l : list A) (a : Z) : option (list A) :=
  if (0 <=? a) && (a <=? zlen l) then Some (drop (Z.to_nat a) l) else None.

(** [l[off..off+new.len()].copy_from_slice(new)], for a checked range. *)
Definition splice {A} (l : list A) (off : Z) (new : list A) : list A :=
  take (Z.to_nat off) l ++ new ++ drop (Z.to_nat off + length new) l.

(** [l[i]] at a position the surrounding code has checked. *)
Definition at_ (l : list Z) (i : Z) : Z := nth (Z.to_nat i) l 0.

(** [alloc::vec![0u8; n]] *)
Definition zeros (n : Z) : list Z := replicate (Z.to_nat n) 0.

Definition byte_ok (b : Z) : Prop := in_width 8 b.
Definition bytes_ok (l : list Z) : Prop := Forall byte_ok l.
#[export] Instance bytes_ok_dec l : Decision (bytes_ok l).
Proof. unfold bytes_ok, byte_ok. apply _. Defined.

(** The bytes of a string literal ([b"..."], [str::as_bytes]). *)
Definition str (s : string) : list Z :=
  map (fun ch => Z.of_N (N_of_ascii ch)) (list_ascii_of_string s).

(** Equality of byte strings as a boolean ([==] on slices). *)
Fixpoint beqb (a b : list Z) : bool :=
  match a, b with
  | [], [] => true
  | x :: a', y :: b' => (x =? y) && beqb a' b'
  | _, _ => false
  end.

Lemma beqb_eq a b : beqb a b = true <-> a = b.
Proof.
  revert b. induction a as [|x a IH]; intros [|y b]; simpl; try (split; congruence).
  rewrite andb_true_iff, Z.eqb_eq, IH. split; [intros [-> ->] | intros [= -> ->]]; auto.
Qed.

Lemma beqb_refl a : beqb a a = true.
Proof. by apply beqb_eq. Qed.

Lemma beqb_neq a b : a <> b -> beqb a b = false.
Proof. intros H. destruct (beqb a b) eqn:E; [|done]. by apply beqb_eq in E. Qed.

(** Lengths, the arithmetic normal form every range proof starts from. *)
Lemma zlen_nonneg {A} (l : list A) : 0 <= zlen l.
Proof. unfold zlen. lia. Qed.

Lemma zlen_app {A} (a b : list A) : zlen (a ++ b) = zlen a + zlen b.
Proof. unfold zlen. rewrite length_app. lia. Qed.

Lemma zlen_cons {A} (x : A) (l : list A) : zlen (x :: l) = 1 + zlen l.
Proof. unfold zlen. simpl. lia. Qed.

Lemma zlen_zeros n : 0 <= n -> zlen (zeros n) = n.
Proof. intros. unfold zlen, zeros. rewrite length_replicate. lia. Qed.

Lemma length_sub {A} (l : list A) off n :
  0 <= off -> 0 <= n -> off + n <= zlen l -> length (sub l off n) = Z.to_nat n.
Proof. unfold sub, zlen. intros. rewrite length_take, length_drop. lia. Qed.

Lemma zlen_sub {A} (l : list A) off n :
  0 <= off -> 0 <= n -> off + n <= zlen l -> zlen (sub l off n) = n.
Proof. intros. unfold zlen. rewrite length_sub by done. lia. Qed.

Lemma zlen_drop {A} (l : list A) n : 0 <= n <= zlen l -> zlen (drop (Z.to_nat n) l) = zlen l - n.
Proof. unfold zlen. intros. rewrite length_drop. lia. Qed.

Lemma length_splice {A} (l : list A) off new :
  0 <= off -> off + zlen new <= zlen l -> length (splice l off new) = length l.
Proof.
  unfold splice, zlen. intros. rewrite !length_app, length_take, length_drop. lia.
Qed.

Lemma zlen_splice {A} (l : list A) off new :
  0 <= off -> off + zlen new <= zlen l -> zlen (splice l off new) = zlen l.
Proof. intros. unfold zlen. by rewrite length_splice. Qed.

Lemma lookup_sub {A} (l : list A) off n (i : nat) :
  (i < Z.to_nat n)%nat -> sub l off n !! i = l !! (Z.to_nat off + i)%nat.
Proof. intros. unfold sub. by rewrite lookup_take_lt, lookup_drop by lia. Qed.

Lemma lookup_splice_in {A} (l : list A) off new (i : nat) :
  0 <= off -> off + zlen new <= zlen l ->
  (Z.to_nat off <= i < Z.to_nat off + length new)%nat ->
  splice l off new !! i = new !! (i - Z.to_nat off)%nat.
Proof.
  unfold splice, zlen. intros.
  rewrite lookup_app_r by (rewrite length_take; lia).
  rewrite length_take, lookup_app_l by lia. f_equal. lia.
Qed.

Lemma lookup_splice_out {A} (l : list A) off new (i : nat) :
  0 <= off -> off + zlen new <= zlen l ->
  (i < Z.to_nat off \/ Z.to_nat off + length new <= i)%nat ->
  splice l off new !! i = l !! i.
Proof.
  unfold splice, zlen. intros ?? [?|?].
  - by rewrite lookup_app_l, lookup_take_lt by (rewrite ?length_take; lia).
  - rewrite !lookup_app_r by (rewrite ?length_take, ?length_app; lia).
    rewrite length_take, lookup_drop. f_equal. lia.
Qed.

(** Reading back what was written, and framing a read past a disjoint write. *)
Lemma sub_splice_same {A} (l : list A) off new n :
  n = zlen new -> 0 <= off -> off + n <= zlen l -> sub (splice l off new) off n = new.
Proof.
  intros -> ??. unfold sub, splice, zlen in *.
  rewrite drop_app_ge by (rewrite length_take; lia).
  rewrite length_take, Nat.min_l, Nat.sub_diag, drop_0 by lia.
  rewrite take_app_le, Nat2Z.id by lia. by apply take_ge.
Qed.

Lemma sub_splice_other {A} (l : list A) off new off' n :
  0 <= off -> off + zlen new <= zlen l -> 0 <= off' -> 0 <= n ->
  off' + n <= off \/ off + zlen new <= off' ->
  sub (splice l off new) off' n = sub l off' n.
Proof.
  intros. apply list_eq. intros i.
  destruct (decide (i < Z.to_nat n)%nat).
  - rewrite !lookup_sub, lookup_splice_out by (unfold zlen in *; lia). done.
  - unfold sub. by rewrite !lookup_take_ge by lia.
Qed.

Lemma sub_app_l {A} (a b : list A) n : n = zlen a -> sub (a ++ b) 0 n = a.
Proof.
  intros ->. unfold sub, zlen. rewrite drop_0, Nat2Z.id, take_app_le by lia.
  by apply take_ge.
Qed.

Lemma sub_app_r {A} (a b : list A) off n :
  zlen a <= off -> sub (a ++ b) off n = sub b (off - zlen a) n.
Proof.
  unfold sub, zlen. intros. rewrite drop_app_ge by lia. do 2 f_equal. lia.
Qed.

Lemma sub_all {A} (l : list A) n : n = zlen l -> sub l 0 n = l.
Proof. intros ->. unfold sub, zlen. rewrite drop_0, Nat2Z.id. by apply take_ge. Qed.

(** A range is the concatenation of its two halves. *)
Lemma sub_split {A} (l : list A) off n m k :
  k = n + m -> 0 <= off -> 0 <= n -> 0 <= m -> sub l off k = sub l off n ++ sub l (off + n) m.
Proof.
  intros -> ???. unfold sub.
  replace (Z.to_nat (n + m)) with (Z.to_nat n + Z.to_nat m)%nat by lia.
  replace (Z.to_nat (off + n)) with (Z.to_nat off + Z.to_nat n)%nat by lia.
  rewrite <- drop_drop. generalize (drop (Z.to_nat off) l). intros l'.
  rewrite <- (take_drop (Z.to_nat n) l') at 1.
  destruct (decide (Z.to_nat n <= length l')%nat).
  - rewrite take_app_ge by (rewrite length_take; lia).
    rewrite length_take, Nat.min_l by lia. do 2 f_equal. lia.
  - rewrite !(drop_ge l') by lia. rewrite app_nil_r, take_nil, app_nil_r.
    rewrite !take_ge; rewrite ?length_take; try lia; done.
Qed.

Lemma get_range_some {A} (l : list A) a b :
  0 <= a <= b -> b <= zlen l -> get_range l a b = Some (sub l a (b - a)).
Proof.
  intros. unfold get_range.
  rewrite !(proj2 (Z.leb_le _ _)) by lia. done.
Qed.

Lemma get_range_inv {A} (l : list A) a b s :
  get_range l a b = Some s -> 0 <= a <= b /\ b <= zlen l /\ s = sub l a (b - a).
Proof.
  unfold get_range. destruct (_ && _) eqn:E; [|done]. intros [= <-].
  rewrite !andb_true_iff, !Z.leb_le in E. lia || (split_and!; [lia|lia|lia|done]).
Qed.

(** * Little- and big-endian words

    [to_le n v] is [v.to_le_bytes()] of an [n]-byte integer, [from_le] is
    [from_le_bytes]; the big-endian forms reverse the bytes. *)

Fixpoint to_le (n : nat) (v : Z) : list Z :=
  match n with O => [] | S n' => v mod 256 :: to_le n' (v / 256) end.

Fixpoint from_le (l : list Z) : Z :=
  match l with [] => 0 | b :: t => b + 256 * from_le t end.

Definition to_be (n : nat) (v : Z) : list Z := rev (to_le n v).
Definition from_be (l : list Z) : Z := from_le (rev l).

(** [uNN::from_le_bytes(b[off..off+NN/8].try_into().unwrap())] *)
Definition le16 (b : list Z) (off : Z) : Z := from_le (sub b off 2).
Definition le32 (b : list Z) (off : Z) : Z := from_le (sub b off 4).
Definition le64 (b : list Z) (off : Z) : Z := from_le (sub b off 8).

Lemma length_to_le n v : length (to_le n v) = n.
Proof. revert v. induction n; simpl; auto. Qed.

Lemma zlen_to_le n v : zlen (to_le n v) = Z.of_nat n.
Proof. unfold zlen. by rewrite length_to_le. Qed.

Lemma to_le_ok n v : bytes_ok (to_le n v).
Proof.
  revert v. unfold bytes_ok. induction n; intros v; simpl; [done|].
  constructor; [|done]. unfold byte_ok, in_width. apply Z.mod_pos_bound. lia.
Qed.

Lemma from_le_bound l : bytes_ok l -> 0 <= from_le l < 256 ^ zlen l.
Proof.
  induction 1 as [|b l Hb Hl IH]; [simpl; unfold zlen; simpl; lia|].
  rewrite zlen_cons, Z.pow_add_r, Z.pow_1_r by (unfold zlen; lia).
  unfold byte_ok, in_width in Hb. cbn [from_le]. lia.
Qed.

Lemma from_to_le_mod n v : from_le (to_le n v) = v mod 256 ^ Z.of_nat n.
Proof.
  revert v. induction n as [|n IH]; intros v; simpl to_le; cbn [from_le].
  - by rewrite Z.mod_1_r.
  - rewrite IH, Nat2Z.inj_succ, Z.pow_succ_r by lia.
    rewrite Z.rem_mul_r by lia. lia.
Qed.

Lemma from_to_le n v : 0 <= v < 256 ^ Z.of_nat n -> from_le (to_le n v) = v.
Proof. intros. rewrite from_to_le_mod. by apply Z.mod_small. Qed.

Lemma to_from_le l n : n = length l -> bytes_ok l -> to_le n (from_le l) = l.
Proof.
  intros -> H. induction H as [|b l Hb Hl IH]; [done|]. simpl.
  unfold byte_ok, in_width in Hb.
  rewrite (Z.mul_comm 256), Z.mod_add, Z.mod_small, Z.div_add, Z.div_small by lia.
  by rewrite Z.add_0_l, IH.
Qed.

Lemma from_le_inj a b :
  length a = length b -> bytes_ok a -> bytes_ok b -> from_le a = from_le b -> a = b.
Proof.
  intros Hl Ha Hb E.
  rewrite <- (to_from_le a (length a)), <- (to_from_le b (length a)) by done. by rewrite E.
Qed.

Lemma zlen_to_be n v : zlen (to_be n v) = Z.of_nat n.
Proof. unfold zlen, to_be. by rewrite length_rev, length_to_le. Qed.

Lemma from_to_be n v : 0 <= v < 256 ^ Z.of_nat n -> from_be (to_be n v) = v.
Proof. intros. unfold from_be, to_be. rewrite rev_involutive. by apply from_to_le. Qed.

Lemma bytes_ok_rev l : bytes_ok l -> bytes_ok (rev l).
Proof. apply Forall_rev. Qed.

Lemma from_le_app a b : from_le (a ++ b) = from_le a + 256 ^ zlen a * from_le b.
Proof.
  induction a as [|x a IH]; [unfold zlen; cbn; lia|]. cbn [from_le app]. rewrite IH, zlen_cons.
  pose proof (zlen_nonneg a). rewrite Z.pow_add_r by lia. lia.
Qed.

Lemma from_be_app a b : from_be (a ++ b) = from_be a * 256 ^ zlen b + from_be b.
Proof. unfold from_be. rewrite rev_app_distr, from_le_app. unfold zlen. rewrite length_rev. lia. Qed.

Lemma from_be_cons x l : from_be (x :: l) = x * 256 ^ zlen l + from_be l.
Proof.
  unfold from_be. cbn [rev]. rewrite from_le_app. cbn [from_le].
  replace (zlen (rev l)) with (zlen l) by (unfold zlen; by rewrite length_rev). lia.
Qed.

Lemma from_be_bound l : bytes_ok l -> 0 <= from_be l < 256 ^ zlen l.
Proof.
  intros H. unfold from_be. replace (zlen l) with (zlen (rev l)) by (unfold zlen; by rewrite length_rev).
  by apply from_le_bound, bytes_ok_rev.
Qed.

Lemma to_from_be l n : n = length l -> bytes_ok l -> to_be n (from_be l) = l.
Proof.
  intros -> H. unfold to_be, from_be.
  rewrite to_from_le by (rewrite ?length_rev; auto using bytes_ok_rev).
  apply rev_involutive.
Qed.

Lemma bytes_ok_app a b : bytes_ok (a ++ b) <-> bytes_ok a /\ bytes_ok b.
Proof. apply Forall_app. Qed.

Lemma bytes_ok_sub l off n : bytes_ok l -> bytes_ok (sub l off n).
Proof. intros. unfold bytes_ok, sub. by apply Forall_take, Forall_drop. Qed.

Lemma bytes_ok_splice l off new : bytes_ok l -> bytes_ok new -> bytes_ok (splice l off new).
Proof.
  unfold bytes_ok, splice. intros. rewrite !Forall_app.
  split_and!; auto using Forall_take, Forall_drop.
Qed.

Lemma bytes_ok_zeros n : bytes_ok (zeros n).
Proof. unfold zeros, bytes_ok. apply Forall_replicate. unfold byte_ok, in_width. lia. Qed.

Lemma le_bound b off n :
  bytes_ok b -> 0 <= n -> 0 <= from_le (sub b off n) < 256 ^ n.
Proof.
  intros Hb Hn. pose proof (from_le_bound _ (bytes_ok_sub b off n Hb)) as [H1 H2].
  split; [done|]. eapply Z.lt_le_trans; [exact H2|]. apply Z.pow_le_mono_r; [lia|].
  unfold sub, zlen. rewrite length_take. lia.
Qed.

Lemma le32_bound b off : bytes_ok b -> in_width 32 (le32 b off).
Proof. intros. apply (le_bound b off 4); [done|lia]. Qed.
Lemma le64_bound b off : bytes_ok b -> in_width 64 (le64 b off).
Proof. intros. apply (le_bound b off 8); [done|lia]. Qed.
Lemma le16_bound b off : bytes_ok b -> in_width 16 (le16 b off).
Proof. intros. apply (le_bound b off 2); [done|lia]. Qed.

#[export] Hint Resolve to_le_ok bytes_ok_sub bytes_ok_splice bytes_ok_zeros bytes_ok_rev
  le16_bound le32_bound le64_bound : rust.

(** * Loops

    [rfor n i body s] is [for j in i..i+n { s = body(j, s)?; }]: a panic or an
    error of the body ends the loop. *)

Fixpoint rfor {E T} (n : nat) (i : Z) (body : Z -> T -> res E T) (s : T) : res E T :=
  match n with
  | O => Ok s
  | S n' => rbind (body i s) (rfor n' (i + 1) body)
  end.

(** The invariant rule: an invariant the body re-establishes holds at the end,
    and the loop returns. *)
Lemma rfor_inv {E T} (I : Z -> T -> Prop) (body : Z -> T -> res E T) n i s :
  I i s ->
  (forall j s, i <= j < i + Z.of_nat n -> I j s ->
     exists s', body j s = Ok s' /\ I (j + 1) s') ->
  exists s', rfor n i body s = Ok s' /\ I (i + Z.of_nat n) s'.
Proof.
  revert i s. induction n as [|n IH]; intros i s HI Hb.
  - exists s. split; [done|]. by rewrite Z.add_0_r.
  - destruct (Hb i s ltac:(lia) HI) as (s1 & E1 & HI1).
    destruct (IH (i + 1) s1 HI1) as (s2 & E2 & HI2).
    { intros. apply Hb; [lia|done]. }
    exists s2. cbn [rfor]. rewrite E1. cbn [rbind]. rewrite E2. split; [done|].
    by replace (i + Z.of_nat (S n)) with (i + 1 + Z.of_nat n) by lia.
Qed.

(** Partial form, for loops that may stop with an error: whatever a completed
    loop returns satisfies the invariant. *)
Lemma rfor_ok_inv {E T} (I : T -> Prop) (body : Z -> T -> res E T) n i s s' :
  (forall j s s', I s -> body j s = Ok s' -> I s') ->
  I s -> rfor n i body s = Ok s' -> I s'.
Proof.
  intros Hb. revert i s. induction n as [|n IH]; simpl; intros i s HI; [by intros [= <-]|].
  destruct (body i s) eqn:E1; simpl; [|done..]. eauto.
Qed.

(** * Tactics *)

(** Split a boolean guard of the source into the arithmetic it tests. *)
Ltac bsplit :=
  repeat match goal with
  | H : _ && _ = true |- _ => apply andb_true_iff in H as [??]
  | H : _ || _ = false |- _ => apply orb_false_iff in H as [??]
  | H : negb _ = true |- _ => apply negb_true_iff in H
  | H : negb _ = false |- _ => apply negb_false_iff in H
  | H : (_ =? _) = true |- _ => apply Z.eqb_eq in H
  | H : (_ =? _) = false |- _ => apply Z.eqb_neq in H
  | H : (_ <? _) = true |- _ => apply Z.ltb_lt in H
  | H : (_ <? _) = false |- _ => apply Z.ltb_ge in H
  | H : (_ <=? _) = true |- _ => apply Z.leb_le in H
  | H : (_ <=? _) = false |- _ => apply Z.leb_gt in H
  | H : beqb _ _ = true |- _ => apply beqb_eq in H
  end.

(** Decide the next boolean guard of the goal by linear arithmetic. *)
Ltac btrue b := replace b with true by (symmetry; apply Z.eqb_eq || apply Z.ltb_lt || apply Z.leb_le; lia).
Ltac bfalse b := replace b with false by (symmetry; apply Z.eqb_neq || apply Z.ltb_ge || apply Z.leb_gt; lia).

Ltac decide_guards :=
  repeat match goal with
  | |- context [?a <? ?b] => first [btrue (a <? b) | bfalse (a <? b)]
  | |- context [?a <=? ?b] => first [btrue (a <=? b) | bfalse (a <=? b)]
  | |- context [?a =? ?b] => first [btrue (a =? b) | bfalse (a =? b)]
  end; cbn [negb andb orb].

(** Lengths of the buffers the codecs build. *)
Ltac zlens :=
  rewrite ?zlen_to_le, ?zlen_to_be, ?zlen_app, ?zlen_cons, ?zlen_zeros by lia;
  try (unfold zlen; simpl; lia); try lia.

(** Read a field back from a buffer built by successive [splice]s. *)
Ltac read_back :=
  repeat first
    [ rewrite sub_splice_same; [ | solve [zlens] | lia | rewrite ?zlen_splice by (zlens); zlens ]
    | rewrite sub_splice_other;
      [ | lia | rewrite ?zlen_splice by zlens; zlens | lia | lia | zlens ] ].

(** [x + y] and [x * y] on [usize] with overflow checks. *)
Definition uadd {E} (x y : Z) : res E Z := or_panic (checked_add 64 x y).
Definition umul {E} (x y : Z) : res E Z :=
  or_panic (if x * y <? 2 ^ 64 then Some (x * y) else None).

Lemma uadd_ok {E} x y : x + y < 2 ^ 64 -> @uadd E x y = Ok (x + y).
Proof. intros. unfold uadd, checked_add. rewrite (proj2 (Z.ltb_lt _ _)) by done. done. Qed.

Lemma umul_ok {E} x y : x * y < 2 ^ 64 -> @umul E x y = Ok (x * y).
Proof. intros. unfold umul. rewrite (proj2 (Z.ltb_lt _ _)) by done. done. Qed.

Lemma first_n_ok {E A} (l : list A) n : n <= zlen l -> @first_n E A l n = Ok (take (Z.to_nat n) l).
Proof. intros. unfold first_n. by rewrite (proj2 (Z.ltb_ge _ _)) by lia. Qed.

Lemma set_at_ok {E A} (l : list A) i x : 0 <= i < zlen l -> @set_at E A l i x = Ok (<[Z.to_nat i := x]> l).
Proof. intros. unfold set_at. rewrite (proj2 (Z.leb_le _ _)), (proj2 (Z.ltb_lt _ _)) by lia. done. Qed.

(** ** The errors a computation can end with *)

Definition errs {E A} (P : E -> Prop) (r : res E A) : Prop := match r with Err e => P e | _ => True end.

Lemma errs_bind {E A B} (P : E -> Prop) (r : res E A) (k : A -> res E B) :
  errs P r -> (forall a, errs P (k a)) -> errs P (rbind r k).
Proof. destruct r; cbn; auto. Qed.

Lemma errs_or_panic {E A} (P : E -> Prop) (o : option A) : errs P (or_panic o).
Proof. by destruct o. Qed.

Lemma errs_ok_or {E A} (P : E -> Prop) (o : option A) e : P e -> errs P (ok_or o e).
Proof. by destruct o. Qed.

Lemma errs_rfor {E T} (P : E -> Prop) n i (body : Z -> T -> res E T) s :
  (forall j s, errs P (body j s)) -> errs P (rfor n i body s).
Proof. intros Hb. revert i s. induction n as [|n IH]; intros i s; cbn [rfor]; [done|]. by apply errs_bind. Qed.

(** Walk through a computation, choosing every branch. *)
Ltac errs_walk :=
  repeat lazymatch goal with
  | |- errs _ (rbind _ _) => apply errs_bind; [|intros ?]
  | |- errs _ (or_panic _) => apply errs_or_panic
  | |- errs _ (uadd _ _) => apply errs_or_panic
  | |- errs _ (umul _ _) => apply errs_or_panic
  | |- errs _ (ok_or _ _) => apply errs_ok_or
  | |- errs _ (rfor _ _ _ _) => apply errs_rfor; intros ? ?
  | |- errs _ (if ?b then _ else _) => destruct b
  | |- errs _ (Ok _) => exact I
  end.

Lemma checked_add_Some w x y z : checked_add w x y = Some z -> z = x + y /\ x + y < 2 ^ w.
Proof. unfold checked_add. destruct (Z.ltb_spec (x + y) (2 ^ w)); [by intros [= <-]|done]. Qed.

Lemma checked_add_ok w x y : x + y < 2 ^ w -> checked_add w x y = Some (x + y).
Proof. intros. unfold checked_add. rewrite (proj2 (Z.ltb_lt _ _)) by done. done. Qed.

(** The tail of a buffer from inside a written window. *)
Lemma drop_splice {A} (l : list A) off new (k : nat) :
  0 <= off -> off + zlen new <= zlen l -> (k <= length new)%nat ->
  drop (Z.to_nat off + k) (splice l off new) =
    drop k new ++ drop (Z.to_nat off + length new) l.
Proof.
  unfold splice, zlen. intros.
  rewrite drop_app_ge by (rewrite length_take; lia).
  rewrite length_take, Nat.min_l by lia.
  rewrite drop_app_le by lia. do 2 f_equal. lia.
Qed.

(** Two adjacent writes are one write of the concatenation. *)
Lemma splice_adjacent {A} (l : list A) off off' x y :
  0 <= off -> off' = off + zlen x -> off' + zlen y <= zlen l ->
  splice (splice l off x) off' y = splice l off (x ++ y).
Proof.
  intros ? -> ?. apply list_eq. intros i.
  assert (zlen (splice l off x) = zlen l) as HL by (apply zlen_splice; unfold zlen in *; lia).
  pose proof (zlen_app x y) as Hxy. pose proof (length_app x y) as Hxy'.
  unfold zlen in *.
  destruct (decide (Z.to_nat off <= i < Z.to_nat off + length (x ++ y))%nat) as [Hi|Hi].
  - rewrite (lookup_splice_in l off (x ++ y)) by (unfold zlen; lia).
    destruct (decide (i < Z.to_nat off + length x)%nat).
    + rewrite lookup_splice_out, lookup_splice_in, lookup_app_l by (unfold zlen; lia). done.
    + rewrite lookup_splice_in, lookup_app_r by (unfold zlen; lia). f_equal. lia.
  - rewrite !lookup_splice_out by (unfold zlen; lia). done.
Qed.

Lemma splice_before {A} (l : list A) a b x y : 0 <= a -> b = a + zlen x -> b + zlen y <= zlen l ->
  splice (splice l b y) a x = splice l a (x ++ y).
Proof.
  intros Ha -> Hl. pose proof (zlen_nonneg y). pose proof (zlen_nonneg x).
  rewrite <- (splice_adjacent l a (a + zlen x) x y) by lia.
  apply list_eq. intros i.
  destruct (decide (Z.to_nat a <= i < Z.to_nat (a + zlen x))%nat) as [Hin|Hout].
  - rewrite lookup_splice_in by (rewrite ?zlen_splice by lia; unfold zlen in *; lia).
    rewrite (lookup_splice_out (splice l a x)) by (rewrite ?zlen_splice by lia; unfold zlen in *; lia).
    by rewrite lookup_splice_in by (unfold zlen in *; lia).
  - rewrite lookup_splice_out by (rewrite ?zlen_splice by lia; unfold zlen in *; lia).
    destruct (decide (Z.to_nat (a + zlen x) <= i < Z.to_nat (a + zlen x + zlen y))%nat) as [Hy|Hy].
    + rewrite !lookup_splice_in by (rewrite ?zlen_splice by lia; unfold zlen in *; lia). done.
    + rewrite !lookup_splice_out by (rewrite ?zlen_splice by lia; unfold zlen in *; lia). done.
Qed.

Lemma splice_sub {A} (p q : list A) off new n : n = zlen new -> 0 <= off -> off + n <= zlen q ->
  splice p off (sub (splice q off new) off n) = splice p off new.
Proof. intros -> ??. by rewrite sub_splice_same. Qed.

Lemma splice_sub_same {A} (l : list A) off n :
  0 <= off -> 0 <= n -> off + n <= zlen l -> splice l off (sub l off n) = l.
Proof.
  intros Ho Hn Hl. unfold splice, sub. rewrite length_take, length_drop. unfold zlen in Hl.
  rewrite Nat.min_l by lia. rewrite <- drop_drop, take_drop. apply take_drop.
Qed.

Lemma splice_same {A} (p : list A) off x y : zlen x = zlen y -> 0 <= off -> off + zlen x <= zlen p ->
  splice (splice p off x) off y = splice p off y.
Proof.
  intros E ??. apply list_eq. intros i.
  destruct (decide (Z.to_nat off <= i < Z.to_nat (off + zlen x))%nat).
  - rewrite !lookup_splice_in by (rewrite ?zlen_splice by lia; unfold zlen in *; lia). done.
  - rewrite !lookup_splice_out by (rewrite ?zlen_splice by lia; unfold zlen in *; lia). done.
Qed.

(** A write over a range read from the same place changes only that range. *)
Lemma sub_as_list {A} (l : list A) off n :
  0 <= off -> 0 <= n -> off + n <= zlen l ->
  exists w, sub l off n = w /\ length w = Z.to_nat n.
Proof. intros. eexists. split; [done|]. by apply length_sub. Qed.

(** Open a [Forall] over an explicit list. *)
Ltac inv_forall :=
  repeat match goal with
  | H : Forall _ (_ :: _) |- _ => apply Forall_cons_1 in H as [? H]
  | H : Forall _ [] |- _ => clear H
  end.

(** [(hi << k) | lo] is [hi * 2^k + lo] when [lo] fits in [k] bits. *)
Lemma lor_disjoint_add hi lo k :
  0 <= k -> 0 <= lo < 2 ^ k -> Z.lor (hi * 2 ^ k) lo = hi * 2 ^ k + lo.
Proof.
  intros Hk Hlo.
  assert (Z.land (hi * 2 ^ k) lo = 0) as H0.
  { apply Z.bits_inj'. intros n Hn. rewrite Z.land_spec, Z.bits_0.
    destruct (Z.ltb_spec n k).
    - by rewrite Z.mul_pow2_bits_low by lia.
    - rewrite <- (Z.mod_small lo (2 ^ k)) by lia.
      rewrite Z.mod_pow2_bits_high by lia. apply andb_false_r. }
  by rewrite Z.add_nocarry_lxor, Z.lxor_lor.
Qed.

(** Closed decidable facts, by evaluation. *)
Ltac by_compute := refine (bool_decide_unpack _ _); vm_compute; exact I.
