(* ===== verification/Proto.v ===== *)
(** rustee-proto (src/crates/rustee-proto/src/lib.rs): the REE-facing OP-TEE MSG
    wire.  The 64-byte [CallFrame] with its cookie packing, the 16-byte
    [PduHeader], the MSG header and parameters, [write_msg]/[decode_msg] on the
    bounce pool, and the fast SMCCC answers. *)
From Stdlib Require Import ZArith Lia.
From stdpp Require Import base list numbers.
From S2P Require Import Prelude.

Local Open Scope Z_scope.
Local Open Scope rust_scope.

(** * Constants *)

Definition CALLS_UID_WORDS : list u32 := [0x384fb3e0; 0xe7f811e3; 0xaf630002; 0xa5d5c51b].
Definition OS_UUID_WORDS : list u32 := [0xe819d7df; 0x5ffe45e6; 0xa1133233; 0x49b219aa].
Definition OS_REVISION_MAJOR : u32 := 0.
Definition OS_REVISION_MINOR : u32 := 1.

Definition VSOCK_GUEST_CID : u32 := 3.
Definition VSOCK_PORT : u32 := 7007.
Definition BOUNCE_POOL_SIZE : usize := 16 * 1024 * 1024.
Definition PDU_HDR_LEN : usize := 16.
Definition CALL_FRAME_LEN : usize := 64.
Definition MSG_ARG_ALIGN : usize := 8.

Definition KIND_ENTER : u32 := 1.
Definition KIND_RPC : u32 := 2.
Definition KIND_COMPLETE : u32 := 3.
Definition KIND_RPC_REPLY : u32 := 4.

Definition MSG_CMD_OPEN_SESSION : u32 := 0.
Definition MSG_CMD_INVOKE_COMMAND : u32 := 1.
Definition MSG_CMD_CLOSE_SESSION : u32 := 2.
Definition MSG_CMD_CANCEL : u32 := 3.
Definition MSG_CMD_REGISTER_SHM : u32 := 4.
Definition MSG_CMD_UNREGISTER_SHM : u32 := 5.

Definition ATTR_TYPE_NONE : u64 := 0x0.
Definition ATTR_TYPE_VALUE_INPUT : u64 := 0x1.
Definition ATTR_TYPE_VALUE_OUTPUT : u64 := 0x2.
Definition ATTR_TYPE_VALUE_INOUT : u64 := 0x3.
Definition ATTR_TYPE_RMEM_INPUT : u64 := 0x5.
Definition ATTR_TYPE_TMEM_INPUT : u64 := 0x9.
Definition ATTR_TYPE_TMEM_OUTPUT : u64 := 0xa.
Definition ATTR_TYPE_TMEM_INOUT : u64 := 0xb.
Definition ATTR_TYPE_MASK : u64 := 0xff.
Definition ATTR_META : u64 := Z.shiftl 1 8.

Definition MSG_LOGIN_PUBLIC : u32 := 0.
Definition RPC_CMD_LOAD_TA : u32 := 0.
Definition RPC_CMD_FS : u32 := 2.
Definition RPC_CMD_GET_TIME : u32 := 3.

Definition SMC_CALLS_UID : u32 := 0xBF00FF01.
Definition SMC_CALLS_REVISION : u32 := 0xBF00FF03.
Definition SMC_GET_OS_UUID : u32 := 0xB2000000.
Definition SMC_GET_OS_REVISION : u32 := 0xB2000001.
Definition SMC_GET_SHM_CONFIG : u32 := 0xB2000007.
Definition SMC_EXCHANGE_CAPABILITIES : u32 := 0xB2000009.
Definition SMC_GET_THREAD_COUNT : u32 := 0xB200000F.
Definition SMC_CALL_WITH_ARG : u32 := 0x32000004.
Definition SMC_RETURN_FROM_RPC : u32 := 0x32000003.
Definition SMC_RETURN_OK : u32 := 0.
Definition SMC_RETURN_ENOTAVAIL : u32 := 7.

Definition SEC_CAP_UNREGISTERED_SHM : u32 := Z.shiftl 1 1.
Definition SEC_CAP_DYNAMIC_SHM : u32 := Z.shiftl 1 2.
Definition SEC_CAP_MEMREF_NULL : u32 := Z.shiftl 1 4.
Definition V0_SEC_CAPS : u32 :=
  Z.lor (Z.lor SEC_CAP_UNREGISTERED_SHM SEC_CAP_DYNAMIC_SHM) SEC_CAP_MEMREF_NULL.

Inductive ProtoError := Truncated | BadKind | BadAlign | BadCmd | BounceOob.
#[export] Instance ProtoError_eq_dec : EqDecision ProtoError.
Proof. solve_decision. Defined.

(** * CallFrame: 8 SMCCC-shaped registers *)

Record CallFrame := { cf_r : list u64 }.

Definition CallFrame_default : CallFrame := {| cf_r := replicate 8 0 |}.

Definition CallFrame_wf (f : CallFrame) : Prop :=
  length (cf_r f) = 8%nat /\ Forall (in_width 64) (cf_r f).

Definition reg (f : CallFrame) (i : Z) : u64 := at_ (cf_r f) i.
Definition set_reg (f : CallFrame) (i : Z) (v : u64) : CallFrame :=
  {| cf_r := <[Z.to_nat i := v]> (cf_r f) |}.

(** [(r[1] << 32) | (r[2] & 0xffff_ffff)] on [u64]: the shift drops high bits. *)
Definition cookie (f : CallFrame) : u64 :=
  Z.lor (wrap 64 (Z.shiftl (reg f 1) 32)) (Z.land (reg f 2) 0xffffffff).

Definition set_cookie (f : CallFrame) (c : u64) : CallFrame :=
  set_reg (set_reg f 1 (Z.shiftr c 32)) 2 (Z.land c 0xffffffff).

Definition yielding_enter (c : u64) : CallFrame :=
  set_cookie (set_reg CallFrame_default 0 SMC_CALL_WITH_ARG) c.

Definition return_from_rpc (c : u64) : CallFrame :=
  set_cookie (set_reg CallFrame_default 0 SMC_RETURN_FROM_RPC) c.

(** [for (i, w) in self.r.iter().enumerate() { b[i*8..i*8+8] = w.to_le_bytes() }] *)
Fixpoint put_words (b : list Z) (i : Z) (ws : list u64) : list Z :=
  match ws with
  | [] => b
  | w :: ws' => put_words (splice b (i * 8) (to_le 8 w)) (i + 1) ws'
  end.

Definition CallFrame_encode (f : CallFrame) : list u8 :=
  put_words (zeros CALL_FRAME_LEN) 0 (cf_r f).

Definition CallFrame_decode (b : list u8) : res ProtoError CallFrame :=
  if zlen b <? CALL_FRAME_LEN then Err Truncated
  else Ok {| cf_r := map (fun i => le64 b (i * 8)) [0; 1; 2; 3; 4; 5; 6; 7] |}.

(** * PduHeader *)

Record PduHeader := {
  pdu_kind : u32; pdu_seq : u32; pdu_arg_len : u32; pdu_bounce_len : u32 }.

Definition PduHeader_wf (h : PduHeader) : Prop :=
  In (pdu_kind h) [KIND_ENTER; KIND_RPC; KIND_COMPLETE; KIND_RPC_REPLY] /\
  in_width 32 (pdu_seq h) /\ pdu_arg_len h = CALL_FRAME_LEN /\ in_width 32 (pdu_bounce_len h).

Definition PduHeader_yielding (k s bl : u32) : PduHeader :=
  {| pdu_kind := k; pdu_seq := s; pdu_arg_len := as_u32 CALL_FRAME_LEN; pdu_bounce_len := bl |}.

Definition PduHeader_encode (h : PduHeader) : list u8 :=
  let b := zeros PDU_HDR_LEN in
  let b := splice b 0 (to_le 4 (pdu_kind h)) in
  let b := splice b 4 (to_le 4 (pdu_seq h)) in
  let b := splice b 8 (to_le 4 (pdu_arg_len h)) in
  splice b 12 (to_le 4 (pdu_bounce_len h)).

Definition kind_known (k : u32) : bool :=
  (k =? KIND_ENTER) || (k =? KIND_RPC) || (k =? KIND_COMPLETE) || (k =? KIND_RPC_REPLY).

Definition PduHeader_decode (b : list u8) : res ProtoError PduHeader :=
  if zlen b <? PDU_HDR_LEN then Err Truncated else
  let k := le32 b 0 in
  if negb (kind_known k) then Err BadKind else
  let al := le32 b 8 in
  if negb (al =? CALL_FRAME_LEN) then Err Truncated else
  Ok {| pdu_kind := k; pdu_seq := le32 b 4; pdu_arg_len := al; pdu_bounce_len := le32 b 12 |}.

(** * MSG header and parameters *)

Definition MSG_ARG_HDR_SIZE : usize := 32.
Definition MSG_PARAM_SIZE : usize := 32.

Record MsgArgHdr := {
  m_cmd : u32; m_func : u32; m_session : u32; m_cancel_id : u32;
  m_pad : u32; m_ret : u32; m_ret_origin : u32; m_num_params : u32 }.

Record MsgParam := { p_attr : u64; p_a : u64; p_b : u64; p_c : u64 }.

Definition MsgArgHdr_default : MsgArgHdr :=
  {| m_cmd := 0; m_func := 0; m_session := 0; m_cancel_id := 0;
     m_pad := 0; m_ret := 0; m_ret_origin := 0; m_num_params := 0 |}.
Definition MsgParam_default : MsgParam := {| p_attr := 0; p_a := 0; p_b := 0; p_c := 0 |}.

Definition MsgArgHdr_wf (h : MsgArgHdr) : Prop :=
  Forall (in_width 32) [m_cmd h; m_func h; m_session h; m_cancel_id h; m_pad h; m_ret h; m_ret_origin h; m_num_params h].
Definition MsgParam_wf (p : MsgParam) : Prop :=
  Forall (in_width 64) [p_attr p; p_a p; p_b p; p_c p].

(** [write_u32_le], [write_u64_le], [read_u32_le], [read_u64_le] *)
Definition write_u32_le (out : list u8) (off : usize) (v : u32) : list u8 := splice out off (to_le 4 v).
Definition write_u64_le (out : list u8) (off : usize) (v : u64) : list u8 := splice out off (to_le 8 v).
Definition read_u32_le (bs : list u8) (off : usize) : u32 := le32 bs off.
Definition read_u64_le (bs : list u8) (off : usize) : u64 := le64 bs off.

Definition MsgArgHdr_encode (h : MsgArgHdr) (out : list u8) : res ProtoError (list u8) :=
  if zlen out <? MSG_ARG_HDR_SIZE then Err Truncated else
  let out := write_u32_le out 0 (m_cmd h) in
  let out := write_u32_le out 4 (m_func h) in
  let out := write_u32_le out 8 (m_session h) in
  let out := write_u32_le out 12 (m_cancel_id h) in
  let out := write_u32_le out 16 (m_pad h) in
  let out := write_u32_le out 20 (m_ret h) in
  let out := write_u32_le out 24 (m_ret_origin h) in
  let out := write_u32_le out 28 (m_num_params h) in
  Ok out.

Definition MsgArgHdr_decode (bs : list u8) : res ProtoError MsgArgHdr :=
  if zlen bs <? MSG_ARG_HDR_SIZE then Err Truncated else
  Ok {| m_cmd := read_u32_le bs 0; m_func := read_u32_le bs 4; m_session := read_u32_le bs 8;
        m_cancel_id := read_u32_le bs 12; m_pad := read_u32_le bs 16; m_ret := read_u32_le bs 20;
        m_ret_origin := read_u32_le bs 24; m_num_params := read_u32_le bs 28 |}.

Definition byte_size (h : MsgArgHdr) : usize := MSG_ARG_HDR_SIZE + MSG_PARAM_SIZE * m_num_params h.

Definition MsgParam_encode (p : MsgParam) (out : list u8) : res ProtoError (list u8) :=
  if zlen out <? MSG_PARAM_SIZE then Err Truncated else
  let out := write_u64_le out 0 (p_attr p) in
  let out := write_u64_le out 8 (p_a p) in
  let out := write_u64_le out 16 (p_b p) in
  let out := write_u64_le out 24 (p_c p) in
  Ok out.

Definition MsgParam_decode (bs : list u8) : res ProtoError MsgParam :=
  if zlen bs <? MSG_PARAM_SIZE then Err Truncated else
  Ok {| p_attr := read_u64_le bs 0; p_a := read_u64_le bs 8; p_b := read_u64_le bs 16; p_c := read_u64_le bs 24 |}.

Definition MsgParam_value (at0 x y z : u64) : MsgParam := {| p_attr := at0; p_a := x; p_b := y; p_c := z |}.
Definition MsgParam_tmem (at0 buf_ptr size shm_ref : u64) : MsgParam :=
  {| p_attr := at0; p_a := buf_ptr; p_b := size; p_c := shm_ref |}.
Definition MsgParam_rmem (at0 offs size shm_ref : u64) : MsgParam :=
  {| p_attr := at0; p_a := offs; p_b := size; p_c := shm_ref |}.

(** [p.encode(&mut pool[s..s + n])?]: encode into a sub-slice of the pool. *)
Definition encode_at (enc : list u8 -> res ProtoError (list u8)) (pool : list u8) (s n : usize)
  : res ProtoError (list u8) :=
  let? w := index_range pool s (s + n) in
  let? w' := enc w in
  Ok (splice pool s w').

Fixpoint write_params (pool : list u8) (off i : usize) (params : list MsgParam)
  : res ProtoError (list u8) :=
  match params with
  | [] => Ok pool
  | p :: ps =>
      let s := off + MSG_ARG_HDR_SIZE + i * MSG_PARAM_SIZE in
      let? pool := encode_at (MsgParam_encode p) pool s MSG_PARAM_SIZE in
      write_params pool off (i + 1) ps
  end.

Definition write_msg (pool : list u8) (ck : u64) (hdr : MsgArgHdr) (params : list MsgParam)
  : res ProtoError (list u8 * usize) :=
  if negb (ck mod MSG_ARG_ALIGN =? 0) then Err BadAlign else
  if negb (zlen params =? m_num_params hdr) then Err BadCmd else
  let off := ck in
  let n := byte_size hdr in
  if match checked_add 64 off n with Some e => zlen pool <? e | None => true end
  then Err BounceOob else
  let? pool := encode_at (MsgArgHdr_encode hdr) pool off MSG_ARG_HDR_SIZE in
  let? pool := write_params pool off 0 params in
  Ok (pool, n).

(** [MsgParam::decode(&pool[s..])?] stored at [params[i]]. *)
Definition decode_param_at (pool : list u8) (off i : usize) (params : list MsgParam)
  : res ProtoError (list MsgParam) :=
  let s := off + MSG_ARG_HDR_SIZE + i * MSG_PARAM_SIZE in
  let? tl := or_panic (get_from pool s) in
  let? p := MsgParam_decode tl in
  set_at params i p.

Definition decode_msg (pool : list u8) (ck : u64)
  : res ProtoError (MsgArgHdr * list MsgParam * usize) :=
  if negb (ck mod MSG_ARG_ALIGN =? 0) then Err BadAlign else
  let off := ck in
  let? e := uadd off MSG_ARG_HDR_SIZE in
  if zlen pool <? e then Err BounceOob else
  let? tl := or_panic (get_from pool off) in
  let? hdr := MsgArgHdr_decode tl in
  if 6 <? m_num_params hdr then Err BadCmd else
  let n := byte_size hdr in
  let? e := uadd off n in
  if zlen pool <? e then Err BounceOob else
  let? params := rfor (Z.to_nat (m_num_params hdr)) 0 (decode_param_at pool off)
                      (replicate 6 MsgParam_default) in
  Ok (hdr, params, n).

(** * Fast SMCCC, answered locally *)

Definition answer_fast_smccc (a0 a1 : u32) : option (list u32) :=
  if a0 =? SMC_CALLS_UID then Some CALLS_UID_WORDS
  else if a0 =? SMC_CALLS_REVISION then Some [2; 0; 0; 0]
  else if a0 =? SMC_GET_OS_UUID then Some OS_UUID_WORDS
  else if a0 =? SMC_GET_OS_REVISION then Some [OS_REVISION_MAJOR; OS_REVISION_MINOR; 0; 0]
  else if a0 =? SMC_EXCHANGE_CAPABILITIES then Some [SMC_RETURN_OK; V0_SEC_CAPS; 0; 0]
  else if a0 =? SMC_GET_SHM_CONFIG then Some [SMC_RETURN_ENOTAVAIL; 0; 0; 0]
  else if a0 =? SMC_GET_THREAD_COUNT then Some [SMC_RETURN_OK; 1; 0; 0]
  else None.

(** * The byte images the encoders produce *)

Definition hdr_bytes (h : MsgArgHdr) : list u8 :=
  to_le 4 (m_cmd h) ++ to_le 4 (m_func h) ++ to_le 4 (m_session h) ++ to_le 4 (m_cancel_id h) ++
  to_le 4 (m_pad h) ++ to_le 4 (m_ret h) ++ to_le 4 (m_ret_origin h) ++ to_le 4 (m_num_params h).

Definition param_bytes (p : MsgParam) : list u8 :=
  to_le 8 (p_attr p) ++ to_le 8 (p_a p) ++ to_le 8 (p_b p) ++ to_le 8 (p_c p).

Definition params_bytes (ps : list MsgParam) : list u8 := concat (map param_bytes ps).

Lemma zlen_hdr_bytes h : zlen (hdr_bytes h) = 32.
Proof. reflexivity. Qed.

Lemma zlen_param_bytes p : zlen (param_bytes p) = 32.
Proof. reflexivity. Qed.

Lemma zlen_params_bytes ps : zlen (params_bytes ps) = 32 * zlen ps.
Proof.
  induction ps as [|p ps IH]; [done|].
  unfold params_bytes in *. cbn [map concat].
  rewrite zlen_app, zlen_cons, IH, zlen_param_bytes. lia.
Qed.

Lemma hdr_encode_bytes h w : length w = 32%nat -> MsgArgHdr_encode h w = Ok (hdr_bytes h).
Proof. intros H. do 32 (destruct w as [|? w]; [discriminate|]). destruct w; [|discriminate]. reflexivity. Qed.

Lemma param_encode_bytes p w : length w = 32%nat -> MsgParam_encode p w = Ok (param_bytes p).
Proof. intros H. do 32 (destruct w as [|? w]; [discriminate|]). destruct w; [|discriminate]. reflexivity. Qed.

Lemma from_to_le_u32 v : in_width 32 v -> from_le (to_le 4 v) = v.
Proof. exact (from_to_le 4 v). Qed.

Lemma from_to_le_u64 v : in_width 64 v -> from_le (to_le 8 v) = v.
Proof. exact (from_to_le 8 v). Qed.

Lemma hdr_decode_bytes h tl :
  MsgArgHdr_wf h -> MsgArgHdr_decode (hdr_bytes h ++ tl) = Ok h.
Proof.
  intros Hwf. unfold MsgArgHdr_wf in Hwf.
  inv_forall.
  unfold MsgArgHdr_decode. rewrite zlen_app, zlen_hdr_bytes.
  pose proof (zlen_nonneg tl). unfold MSG_ARG_HDR_SIZE. decide_guards.
  f_equal. destruct h; cbn [m_cmd m_func m_session m_cancel_id m_pad m_ret m_ret_origin m_num_params] in *.
  unfold read_u32_le, le32. f_equal; (etransitivity; [reflexivity | by apply from_to_le_u32]).
Qed.

Lemma param_decode_bytes p tl :
  MsgParam_wf p -> MsgParam_decode (param_bytes p ++ tl) = Ok p.
Proof.
  intros Hwf. unfold MsgParam_wf in Hwf.
  inv_forall.
  unfold MsgParam_decode. rewrite zlen_app, zlen_param_bytes.
  pose proof (zlen_nonneg tl). unfold MSG_PARAM_SIZE. decide_guards.
  f_equal. destruct p; cbn [p_attr p_a p_b p_c] in *.
  unfold read_u64_le, le64. f_equal; (etransitivity; [reflexivity | by apply from_to_le_u64]).
Qed.

Lemma encode_at_splice enc pool s n w' :
  0 <= s -> 0 <= n -> s + n <= zlen pool ->
  (forall w, length w = Z.to_nat n -> enc w = Ok w') ->
  encode_at enc pool s n = Ok (splice pool s w').
Proof.
  intros ??? Henc. unfold encode_at, index_range.
  rewrite get_range_some by lia. cbn [or_panic rbind].
  replace (s + n - s) with n by lia.
  rewrite Henc by (apply length_sub; lia). done.
Qed.

(** The parameter loop writes the concatenated parameter image. *)
Lemma write_params_bytes ps pool off i :
  0 <= off -> 0 <= i -> off + 32 + (i + zlen ps) * 32 <= zlen pool ->
  write_params pool off i ps = Ok (splice pool (off + 32 + i * 32) (params_bytes ps)).
Proof.
  revert pool i. induction ps as [|p ps IH]; intros pool i ? ? Hl; cbn [write_params].
  - f_equal. unfold splice, params_bytes. cbn. rewrite Nat.add_0_r. symmetry. apply take_drop.
  - rewrite zlen_cons in Hl. pose proof (zlen_nonneg ps).
    unfold MSG_ARG_HDR_SIZE, MSG_PARAM_SIZE.
    rewrite (encode_at_splice _ _ _ _ (param_bytes p))
      by (try lia; intros; by apply param_encode_bytes).
    cbn [rbind]. rewrite IH.
    + f_equal. unfold params_bytes. cbn [map concat].
      apply splice_adjacent; [lia| rewrite zlen_param_bytes; lia|].
      fold (params_bytes ps). rewrite zlen_params_bytes. lia.
    + lia.
    + lia.
    + rewrite zlen_splice; [lia|lia|rewrite zlen_param_bytes; lia].
Qed.

(** ** What [write_msg] does

    In range it writes exactly the message image at the cookie. *)
Lemma write_msg_image pool ck hdr ps :
  0 <= ck -> ck mod 8 = 0 -> zlen ps = m_num_params hdr ->
  ck + byte_size hdr <= zlen pool -> zlen pool < 2 ^ 64 ->
  write_msg pool ck hdr ps =
    Ok (splice pool ck (hdr_bytes hdr ++ params_bytes ps), byte_size hdr).
Proof.
  intros Hc Ha Hn Hfit Hpool. pose proof (zlen_nonneg ps).
  unfold write_msg, MSG_ARG_ALIGN. rewrite Ha, Hn, !Z.eqb_refl. cbn [negb].
  rewrite checked_add_ok by lia. decide_guards.
  unfold byte_size, MSG_ARG_HDR_SIZE, MSG_PARAM_SIZE in *.
  rewrite (encode_at_splice _ _ _ _ (hdr_bytes hdr))
    by (try lia; intros; by apply hdr_encode_bytes).
  cbn [rbind].
  rewrite write_params_bytes by (rewrite ?zlen_splice, ?zlen_hdr_bytes; rewrite ?zlen_hdr_bytes; lia).
  cbn [rbind]. do 2 f_equal.
  rewrite Z.mul_0_l, Z.add_0_r. apply splice_adjacent;
    rewrite ?zlen_hdr_bytes, ?zlen_params_bytes; lia.
Qed.

(** ** Reading a message back *)

Definition pad6 (ps : list MsgParam) : list MsgParam :=
  ps ++ replicate (6 - length ps) MsgParam_default.

Lemma lookup_params_bytes ps (i : nat) p :
  ps !! i = Some p -> exists tl, drop (i * 32) (params_bytes ps) = param_bytes p ++ tl.
Proof.
  revert i. induction ps as [|q ps IH]; intros i Hi; [done|].
  unfold params_bytes. cbn [map concat]. fold (params_bytes ps).
  destruct i as [|i]; cbn in Hi.
  - injection Hi as ->. exists (params_bytes ps). by rewrite Nat.mul_0_l, drop_0.
  - destruct (IH i Hi) as [tl Ht]. exists tl.
    rewrite drop_app_ge by (change (length (param_bytes q)) with 32%nat; lia).
    change (length (param_bytes q)) with 32%nat.
    replace (S i * 32 - 32)%nat with (i * 32)%nat by lia. done.
Qed.

Lemma decode_param_at_image pool off hdr ps i p acc :
  0 <= off -> off + 32 + 32 * zlen ps <= zlen pool -> 0 <= i ->
  ps !! Z.to_nat i = Some p -> MsgParam_wf p -> i < zlen acc ->
  decode_param_at (splice pool off (hdr_bytes hdr ++ params_bytes ps)) off i acc =
    Ok (<[Z.to_nat i := p]> acc).
Proof.
  intros Ho Hfit Hi Hp Hwf Hacc.
  pose proof (lookup_lt_Some _ _ _ Hp) as Hlt.
  destruct (lookup_params_bytes _ _ _ Hp) as [tl Htl].
  assert (zlen (hdr_bytes hdr ++ params_bytes ps) = 32 + 32 * zlen ps) as Hlen
    by (rewrite zlen_app, zlen_hdr_bytes, zlen_params_bytes; lia).
  unfold decode_param_at, MSG_ARG_HDR_SIZE, MSG_PARAM_SIZE, get_from.
  rewrite zlen_splice by lia. unfold zlen in Hfit, Hlen |- *. decide_guards.
  replace (Z.to_nat (off + 32 + i * 32)) with (Z.to_nat off + (32 + Z.to_nat i * 32))%nat by lia.
  rewrite drop_splice by (unfold zlen; lia).
  rewrite (drop_app_ge (hdr_bytes hdr)) by (change (length (hdr_bytes hdr)) with 32%nat; lia).
  change (length (hdr_bytes hdr)) with 32%nat.
  replace (32 + Z.to_nat i * 32 - 32)%nat with (Z.to_nat i * 32)%nat by lia.
  rewrite Htl, <- (assoc (++)). cbn [or_panic rbind].
  rewrite param_decode_bytes by done. cbn [rbind]. by rewrite set_at_ok by (unfold zlen in *; lia).
Qed.

Lemma decode_params_loop pool off hdr ps :
  0 <= off -> off + 32 + 32 * zlen ps <= zlen pool -> zlen ps <= 6 ->
  Forall MsgParam_wf ps ->
  rfor (length ps) 0 (decode_param_at (splice pool off (hdr_bytes hdr ++ params_bytes ps)) off)
    (replicate 6 MsgParam_default) = Ok (pad6 ps).
Proof.
  intros Ho Hfit H6 Hwf.
  set (I := fun (i : Z) (acc : list MsgParam) =>
    acc = take (Z.to_nat i) ps ++ replicate (6 - Z.to_nat i) MsgParam_default).
  destruct (rfor_inv I (decode_param_at (splice pool off (hdr_bytes hdr ++ params_bytes ps)) off)
              (length ps) 0 (replicate 6 MsgParam_default)) as (acc & E & HI).
  - done.
  - intros j acc Hj ->.
    destruct (lookup_lt_is_Some_2 ps (Z.to_nat j)) as [p Hp]; [lia|].
    rewrite (decode_param_at_image _ _ _ _ _ p); [|lia|done|lia|done| |].
    2:{ eapply Forall_lookup_1; eauto. }
    2:{ unfold zlen in *. rewrite length_app, length_take, length_replicate. lia. }
    eexists. split; [done|]. unfold I.
    replace (Z.to_nat (j + 1)) with (S (Z.to_nat j)) by lia.
    rewrite (take_S_r _ _ p) by done.
    unfold zlen in H6.
    replace (6 - Z.to_nat j)%nat with (S (6 - S (Z.to_nat j))) by lia.
    cbn [replicate]. rewrite insert_app_r_alt by (rewrite length_take; lia).
    rewrite length_take, Nat.min_l, Nat.sub_diag by lia. cbn. by rewrite <- (assoc (++)).
  - rewrite E. unfold I in HI. rewrite HI. unfold pad6.
    replace (Z.to_nat (0 + Z.of_nat (length ps))) with (length ps) by lia.
    by rewrite take_ge by lia.
Qed.

(** [decode_msg] on the image [write_msg] leaves in the pool. *)
Lemma decode_msg_image pool ck hdr ps :
  0 <= ck -> ck mod 8 = 0 -> MsgArgHdr_wf hdr -> Forall MsgParam_wf ps ->
  zlen ps = m_num_params hdr -> zlen ps <= 6 ->
  ck + byte_size hdr <= zlen pool -> zlen pool < 2 ^ 64 ->
  decode_msg (splice pool ck (hdr_bytes hdr ++ params_bytes ps)) ck =
    Ok (hdr, pad6 ps, byte_size hdr).
Proof.
  intros Hc Ha Hwf Hps Hn H6 Hfit Hpool. pose proof (zlen_nonneg ps).
  unfold byte_size, MSG_ARG_HDR_SIZE, MSG_PARAM_SIZE in *.
  assert (zlen (hdr_bytes hdr ++ params_bytes ps) = 32 + 32 * zlen ps) as Hlen
    by (rewrite zlen_app, zlen_hdr_bytes, zlen_params_bytes; lia).
  unfold decode_msg, MSG_ARG_ALIGN, byte_size, MSG_ARG_HDR_SIZE, MSG_PARAM_SIZE, get_from.
  rewrite Ha, Z.eqb_refl. cbn [negb]. rewrite uadd_ok by lia. cbn [rbind].
  rewrite zlen_splice by lia. decide_guards. cbn [or_panic rbind].
  replace (drop _ _) with ((hdr_bytes hdr ++ params_bytes ps) ++
    drop (Z.to_nat ck + length (hdr_bytes hdr ++ params_bytes ps)) pool).
  2:{ rewrite <- (Nat.add_0_r (Z.to_nat ck)) at 2. rewrite drop_splice by lia. done. }
  rewrite <- (assoc (++)), hdr_decode_bytes by done. cbn [rbind].
  decide_guards. rewrite uadd_ok by lia. cbn [rbind]. decide_guards.
  replace (Z.to_nat (m_num_params hdr)) with (length ps) by (unfold zlen in Hn; lia).
  rewrite decode_params_loop by (rewrite ?Hn; lia || done). done.
Qed.

(** ** Totality *)

Lemma decode_param_at_total pool off i acc :
  0 <= off -> 0 <= i < zlen acc -> off + 32 + i * 32 + 32 <= zlen pool ->
  exists p, decode_param_at pool off i acc = Ok (<[Z.to_nat i := p]> acc).
Proof.
  intros. unfold decode_param_at, MSG_ARG_HDR_SIZE, MSG_PARAM_SIZE, get_from.
  decide_guards. cbn [or_panic rbind]. unfold MsgParam_decode, MSG_PARAM_SIZE.
  assert (zlen (drop (Z.to_nat (off + 32 + i * 32)) pool) >= 32) as Hl.
  { unfold zlen in *. rewrite length_drop. lia. }
  decide_guards. cbn [rbind]. eexists. by apply set_at_ok.
Qed.

Lemma decode_params_total pool off n acc :
  0 <= off -> 0 <= n <= zlen acc -> off + 32 + n * 32 <= zlen pool ->
  exists ps, rfor (Z.to_nat n) 0 (decode_param_at pool off) acc = Ok ps /\
             length ps = length acc.
Proof.
  intros. destruct (rfor_inv (fun _ ps => length ps = length acc)
    (decode_param_at pool off) (Z.to_nat n) 0 acc) as (ps & E & HI); [done| |eauto].
  intros j ps Hj Hps. destruct (decode_param_at_total pool off j ps) as [p E]; [lia|unfold zlen in *; lia|lia|].
  rewrite E. eexists. split; [done|]. by rewrite length_insert.
Qed.

(** The outcome of [decode_msg] below the overflow boundary: an error naming
    the violated condition, or a message that lies inside the pool. *)
Inductive decode_outcome (pool : list u8) (ck : u64)
  : res ProtoError (MsgArgHdr * list MsgParam * usize) -> Prop :=
| DecodeAlign : ck mod 8 <> 0 -> decode_outcome pool ck (Err BadAlign)
| DecodeHdrOob : ck mod 8 = 0 -> zlen pool < ck + 32 -> decode_outcome pool ck (Err BounceOob)
| DecodeTooMany hdr tl :
    ck mod 8 = 0 -> get_from pool ck = Some tl -> MsgArgHdr_decode tl = Ok hdr ->
    6 < m_num_params hdr -> decode_outcome pool ck (Err BadCmd)
| DecodeParamsOob hdr tl :
    ck mod 8 = 0 -> get_from pool ck = Some tl -> MsgArgHdr_decode tl = Ok hdr ->
    m_num_params hdr <= 6 -> zlen pool < ck + byte_size hdr ->
    decode_outcome pool ck (Err BounceOob)
| DecodeOk hdr ps tl :
    ck mod 8 = 0 -> get_from pool ck = Some tl -> MsgArgHdr_decode tl = Ok hdr ->
    m_num_params hdr <= 6 -> ck + byte_size hdr <= zlen pool -> length ps = 6%nat ->
    decode_outcome pool ck (Ok (hdr, ps, byte_size hdr)).

Lemma bytes_ok_get_from pool off tl : bytes_ok pool -> get_from pool off = Some tl -> bytes_ok tl.
Proof.
  unfold get_from. intros Hb. destruct (_ && _); [|done]. intros [= <-].
  by apply Forall_drop.
Qed.

Lemma decode_msg_outcome pool ck :
  bytes_ok pool -> zlen pool < 2 ^ 63 -> 0 <= ck < 2 ^ 64 - 32 ->
  decode_outcome pool ck (decode_msg pool ck).
Proof.
  intros Hb Hp Hc.
  unfold decode_msg, MSG_ARG_ALIGN, MSG_ARG_HDR_SIZE.
  destruct (Z.eqb_spec (ck mod 8) 0) as [Ha|Ha]; [|by constructor]. cbn [negb].
  rewrite uadd_ok by lia. cbn [rbind].
  destruct (Z.ltb_spec (zlen pool) (ck + 32)) as [Hlt|Hge]; [by constructor|].
  destruct (get_from pool ck) as [tl|] eqn:Et.
  2:{ unfold get_from in Et. revert Et. decide_guards. done. }
  cbn [or_panic rbind].
  assert (zlen tl = zlen pool - ck) as Htl.
  { unfold get_from in Et. revert Et. decide_guards. intros [= <-].
    unfold zlen in *. rewrite length_drop. lia. }
  destruct (MsgArgHdr_decode tl) as [hdr|e|] eqn:Eh;
    [|unfold MsgArgHdr_decode, MSG_ARG_HDR_SIZE in Eh; revert Eh; decide_guards; done..].
  cbn [rbind].
  assert (0 <= m_num_params hdr) as Hnn.
  { unfold MsgArgHdr_decode, MSG_ARG_HDR_SIZE in Eh. revert Eh. decide_guards. intros [= <-].
    apply le32_bound. by eapply bytes_ok_get_from. }
  destruct (Z.ltb_spec 6 (m_num_params hdr)) as [H6|H6]; [by econstructor|].
  unfold byte_size, MSG_ARG_HDR_SIZE, MSG_PARAM_SIZE in *.
  rewrite uadd_ok by lia. cbn [rbind].
  destruct (Z.ltb_spec (zlen pool) (ck + (32 + 32 * m_num_params hdr))) as [Ho|Ho].
  { eapply DecodeParamsOob; eauto. }
  destruct (decode_params_total pool ck (m_num_params hdr) (replicate 6 MsgParam_default))
    as (ps & E & Hps); [lia|unfold zlen; rewrite length_replicate; lia|lia|].
  rewrite E. cbn [rbind]. eapply DecodeOk; eauto.
Qed.

(** What a decoded message holds: in-range fields, at most six parameters, and
    a place inside the pool. *)
Lemma decode_msg_wf pool ck hdr ps n :
  bytes_ok pool -> zlen pool < 2 ^ 63 -> 0 <= ck < 2 ^ 64 - 32 -> decode_msg pool ck = Ok (hdr, ps, n) ->
  MsgArgHdr_wf hdr /\ Forall MsgParam_wf ps /\ length ps = 6%nat /\ m_num_params hdr <= 6 /\
  ck mod 8 = 0 /\ n = byte_size hdr /\ ck + byte_size hdr <= zlen pool.
Proof.
  intros Hb Hp Hc Hd. pose proof (decode_msg_outcome pool ck Hb Hp Hc) as Ho. rewrite Hd in Ho.
  inversion Ho as [| | | |hdr' ps' tl Ha Ht Hh H6 Hfit Hl E]. subst.
  assert (bytes_ok tl) as Htl by (by eapply bytes_ok_get_from).
  assert (MsgArgHdr_wf hdr) as Hwf.
  { unfold MsgArgHdr_decode in Hh. destruct (_ <? _); [done|]. injection Hh as <-. unfold MsgArgHdr_wf.
    rewrite !Forall_cons_iff. split_and!; try apply le32_bound; auto. }
  split_and!; try done.
  unfold decode_msg in Hd. destruct (negb _); [done|]. destruct (uadd _ _); cbn [rbind] in Hd; [|done..].
  destruct (_ <? _); [done|]. rewrite Ht in Hd. cbn [or_panic rbind] in Hd. rewrite Hh in Hd. cbn [rbind] in Hd.
  destruct (_ <? _); [done|]. destruct (uadd _ _); cbn [rbind] in Hd; [|done..]. destruct (_ <? _); [done|].
  destruct (rfor _ _ _ _) as [ps'| |] eqn:Er; cbn [rbind] in Hd; [|done..]. injection Hd as ->.
  clear Ht Ho. refine (rfor_ok_inv (Forall MsgParam_wf) _ _ _ _ _ _ _ Er).
  - intros j acc acc' Hacc E. unfold decode_param_at in E.
    destruct (get_from _ _) as [tl'|] eqn:Et; cbn [or_panic rbind] in E; [|done].
    unfold MsgParam_decode in E. destruct (_ <? _); cbn [rbind] in E; [done|].
    unfold set_at in E. destruct (_ && _); [|done]. injection E as <-. apply Forall_insert; [done|]. apply (bytes_ok_get_from _ _ _ Hb) in Et. unfold MsgParam_wf.
    rewrite !Forall_cons_iff. split_and!; try apply le64_bound; auto.
  - apply list.Forall_replicate. by_compute.
Qed.

(** * Properties *)

(** C18. Round trip of the MSG codec: whatever [write_msg] accepts (an aligned
    cookie, a parameter count that matches the header, a message that fits) is
    what [decode_msg] reads back at that cookie, padded to six parameters;
    the pool keeps its size and every byte outside the message is untouched. *)
Theorem write_msg_decode_msg pool ck hdr ps pool' n :
  MsgArgHdr_wf hdr -> Forall MsgParam_wf ps -> zlen ps <= 6 ->
  0 <= ck -> zlen pool < 2 ^ 64 ->
  write_msg pool ck hdr ps = Ok (pool', n) ->
  decode_msg pool' ck = Ok (hdr, pad6 ps, n) /\
  zlen pool' = zlen pool /\
  (forall off k, 0 <= off -> 0 <= k -> off + k <= ck \/ ck + n <= off ->
     sub pool' off k = sub pool off k).
Proof.
  intros Hwf Hps H6 Hc Hpool Hw. pose proof (zlen_nonneg ps) as Hnn.
  assert (ck mod 8 = 0 /\ zlen ps = m_num_params hdr /\ ck + byte_size hdr <= zlen pool)
    as (Ha & Hn & Hfit).
  { unfold write_msg, MSG_ARG_ALIGN in Hw.
    destruct (Z.eqb_spec (ck mod 8) 0); [|done].
    destruct (Z.eqb_spec (zlen ps) (m_num_params hdr)); [|done]. cbn [negb] in Hw.
    unfold checked_add in Hw.
    destruct (Z.ltb_spec (ck + byte_size hdr) (2 ^ 64)); [|done].
    destruct (Z.ltb_spec (zlen pool) (ck + byte_size hdr)); [done|]. auto. }
  rewrite write_msg_image in Hw by done.
  assert (pool' = splice pool ck (hdr_bytes hdr ++ params_bytes ps) /\ n = byte_size hdr)
    as [-> ->] by (split; congruence).
  assert (zlen (hdr_bytes hdr ++ params_bytes ps) = byte_size hdr) as Hlen.
  { rewrite zlen_app, zlen_hdr_bytes, zlen_params_bytes, Hn. done. }
  assert (0 <= byte_size hdr) by (unfold byte_size, MSG_ARG_HDR_SIZE, MSG_PARAM_SIZE; lia).
  split_and!.
  - by apply decode_msg_image.
  - apply zlen_splice; lia.
  - intros. apply sub_splice_other; lia.
Qed.

Lemma write_msg_decode_msg_witness :
  let hdr := {| m_cmd := 0; m_func := 0; m_session := 0; m_cancel_id := 7; m_pad := 0;
                m_ret := 0; m_ret_origin := 0; m_num_params := 2 |} in
  let ps := [MsgParam_value (Z.lor ATTR_TYPE_VALUE_INPUT ATTR_META) 0x11 0x22 0;
             MsgParam_value (Z.lor ATTR_TYPE_VALUE_INPUT ATTR_META) 0 0 MSG_LOGIN_PUBLIC] in
  exists pool' n, write_msg (zeros 256) 64 hdr ps = Ok (pool', n) /\
    decode_msg pool' 64 = Ok (hdr, pad6 ps, n).
Proof.
  intros hdr ps. do 2 eexists. split; [vm_compute; reflexivity|].
  refine (proj1 (write_msg_decode_msg (zeros 256) 64 hdr ps _ _ _ _ _ _ _ _));
    [repeat constructor; vm_compute; congruence .. | | | | ];
    vm_compute; congruence.
Defined.

(** [decode_msg] on a hostile pool and cookie: below the overflow boundary
    it never panics; each error names the check that failed, and an accepted
    message has at most six parameters and lies inside the pool. *)
Theorem decode_msg_bounds pool ck :
  bytes_ok pool -> zlen pool < 2 ^ 63 -> 0 <= ck < 2 ^ 64 - 32 ->
  match decode_msg pool ck with
  | Ok (hdr, ps, n) =>
      ck mod 8 = 0 /\ n = 32 + 32 * m_num_params hdr /\ ck + n <= zlen pool /\
      m_num_params hdr <= 6 /\ length ps = 6%nat
  | Err BadAlign => ck mod 8 <> 0
  | Err BounceOob => ck mod 8 = 0 /\ zlen pool < ck + 224
  | Err BadCmd => ck mod 8 = 0 /\ ck + 32 <= zlen pool
  | Err _ | Panic => False
  end.
Proof.
  intros Hb Hp Hc.
  destruct (decode_msg_outcome pool ck Hb Hp Hc) as [|? |? ? ? Hg|? ? ? ? ? ?|];
    unfold byte_size, MSG_ARG_HDR_SIZE, MSG_PARAM_SIZE in *; auto; try (split_and!; auto; lia).
  split; [done|]. unfold get_from in Hg. destruct (_ && _) eqn:E; [|done].
  bsplit. injection Hg as <-. unfold MsgArgHdr_decode, MSG_ARG_HDR_SIZE in *.
  destruct (Z.ltb_spec (zlen (drop (Z.to_nat ck) pool)) 32); [done|].
  unfold zlen in *. rewrite length_drop in *. lia.
Qed.

Lemma decode_msg_bounds_witness :
  match decode_msg (zeros 64) 40 with
  | Err BounceOob => 40 mod 8 = 0 /\ zlen (zeros 64) < 40 + 224
  | _ => False
  end.
Proof.
  exact (decode_msg_bounds (zeros 64) 40 (bytes_ok_zeros 64) ltac:(vm_compute; done)
           ltac:(vm_compute; split; congruence)).
Defined.

Lemma at_insert_eq l i v : 0 <= i < zlen l -> at_ (<[Z.to_nat i := v]> l) i = v.
Proof.
  intros. unfold at_, zlen in *. rewrite nth_lookup, list_lookup_insert_eq by lia. done.
Qed.

Lemma at_insert_ne l i j v :
  0 <= i -> 0 <= j -> i <> j -> at_ (<[Z.to_nat i := v]> l) j = at_ l j.
Proof. intros. unfold at_. by rewrite !nth_lookup, list_lookup_insert_ne by lia. Qed.

(** The two halves of a cookie are put back together. *)
Lemma cookie_halves x :
  in_width 64 x ->
  Z.lor (wrap 64 (Z.shiftl (Z.shiftr x 32) 32)) (Z.land (Z.land x 0xffffffff) 0xffffffff) = x.
Proof.
  intros H. unfold in_width in H.
  rewrite <- Z.land_assoc, Z.land_diag.
  change 0xffffffff with (Z.ones 32).
  rewrite Z.land_ones, Z.shiftr_div_pow2, Z.shiftl_mul_pow2 by lia.
  assert (x / 2 ^ 32 * 2 ^ 32 < 2 ^ 64) by (pose proof (Z.mul_div_le x (2 ^ 32)); lia).
  unfold wrap. rewrite Z.mod_small by (pose proof (Z.div_pos x (2 ^ 32)); lia).
  rewrite lor_disjoint_add by (try lia; apply Z.mod_pos_bound; lia).
  pose proof (Z.div_mod x (2 ^ 32)). lia.
Qed.

Lemma set_cookie_cookie f ck :
  CallFrame_wf f -> in_width 64 ck -> cookie (set_cookie f ck) = ck.
Proof.
  intros [Hl _] Hc. unfold cookie, set_cookie, set_reg, reg. cbn [cf_r].
  rewrite at_insert_eq, at_insert_ne, at_insert_eq
    by (unfold zlen; rewrite ?length_insert; lia).
  by apply cookie_halves.
Qed.

Lemma CallFrame_decode_encode f tl :
  CallFrame_wf f -> CallFrame_decode (CallFrame_encode f ++ tl) = Ok f.
Proof.
  destruct f as [ws]. intros [Hl Hw]. cbn [cf_r] in *.
  do 8 (destruct ws as [|? ws]; [discriminate|]). destruct ws; [|discriminate].
  inv_forall. pose proof (zlen_nonneg tl).
  unfold CallFrame_decode, CALL_FRAME_LEN. rewrite zlen_app.
  change (zlen (CallFrame_encode _)) with 64. decide_guards.
  cbn [map]. unfold le64.
  repeat f_equal; (etransitivity; [reflexivity|by apply from_to_le_u64]).
Qed.

Lemma PduHeader_decode_encode h tl :
  PduHeader_wf h -> PduHeader_decode (PduHeader_encode h ++ tl) = Ok h.
Proof.
  destruct h as [k s al bl]. intros (Hk & Hs & Hal & Hb).
  cbn [pdu_kind pdu_seq pdu_arg_len pdu_bounce_len] in *. subst al.
  pose proof (zlen_nonneg tl).
  unfold PduHeader_decode, PDU_HDR_LEN. rewrite zlen_app.
  change (zlen (PduHeader_encode _)) with 16. decide_guards.
  assert (in_width 32 k) as Hk32.
  { repeat (destruct Hk as [<-|Hk]; [vm_compute; split; congruence|]). done. }
  assert (forall off v, in_width 32 v ->
    sub (PduHeader_encode {| pdu_kind := k; pdu_seq := s; pdu_arg_len := CALL_FRAME_LEN;
         pdu_bounce_len := bl |} ++ tl) off 4 = to_le 4 v -> le32 (PduHeader_encode {| pdu_kind := k;
         pdu_seq := s; pdu_arg_len := CALL_FRAME_LEN; pdu_bounce_len := bl |} ++ tl) off = v) as Hrd.
  { intros off v Hv E. unfold le32. rewrite E. by apply from_to_le_u32. }
  rewrite (Hrd 0 k), (Hrd 4 s), (Hrd 8 CALL_FRAME_LEN), (Hrd 12 bl)
    by (done || (vm_compute; split; congruence)).
  assert (kind_known k = true) as ->
    by (repeat (destruct Hk as [<-|Hk]; [done|]); done).
  done.
Qed.

(** The transport codec: a [CallFrame] and a [PduHeader] survive encoding
    (also as prefixes of a longer stream), and the cookie packed into the two
    SMCCC halves a1:a2 is the cookie read back. *)
Theorem transport_roundtrip f h ck tl :
  CallFrame_wf f -> PduHeader_wf h -> in_width 64 ck ->
  CallFrame_decode (CallFrame_encode f ++ tl) = Ok f /\
  PduHeader_decode (PduHeader_encode h ++ tl) = Ok h /\
  cookie (set_cookie f ck) = ck /\
  zlen (CallFrame_encode f) = CALL_FRAME_LEN /\ zlen (PduHeader_encode h) = PDU_HDR_LEN.
Proof.
  intros Hf Hh Hc. split_and!; auto using CallFrame_decode_encode, PduHeader_decode_encode,
    set_cookie_cookie.
  destruct f as [ws], Hf as [Hl _]. cbn [cf_r] in Hl.
  do 8 (destruct ws as [|? ws]; [discriminate|]). destruct ws; [|discriminate]. done.
Qed.

Lemma transport_roundtrip_witness :
  CallFrame_decode (CallFrame_encode (yielding_enter 0x123456789)) = Ok (yielding_enter 0x123456789) /\
  cookie (set_cookie CallFrame_default 0x123456789) = 0x123456789.
Proof.
  pose proof (transport_roundtrip (yielding_enter 0x123456789)
    (PduHeader_yielding KIND_ENTER 7 128) 0x123456789 []) as H.
  rewrite app_nil_r in H.
  destruct H as (H1 & _ & _ & _).
  - split; [done|by_compute].
  - split_and!; [by left|by_compute|done|by_compute].
  - by_compute.
  - split; [exact H1|done].
Defined.

(** Fast SMCCC calls are answered from constants and never for a yielding
    call id; the OS identity reported is RUSTEE's, not OP-TEE's. *)
Theorem fast_smccc_spec a0 a1 :
  (is_Some (answer_fast_smccc a0 a1) <->
     In a0 [SMC_CALLS_UID; SMC_CALLS_REVISION; SMC_GET_OS_UUID; SMC_GET_OS_REVISION;
            SMC_EXCHANGE_CAPABILITIES; SMC_GET_SHM_CONFIG; SMC_GET_THREAD_COUNT]) /\
  answer_fast_smccc SMC_CALL_WITH_ARG a1 = None /\
  answer_fast_smccc SMC_RETURN_FROM_RPC a1 = None /\
  answer_fast_smccc SMC_GET_OS_UUID a1 <> Some [0x486178e0; 0xe7f811e3; 0xbc5e0002; 0xa5d5c51b].
Proof.
  split; [|done]. unfold answer_fast_smccc. split.
  - intros [v Hv]. repeat (case_match; [bsplit; subst a0; simpl; tauto|]). done.
  - simpl. intros H. repeat (destruct H as [<-|H]; [vm_compute; eauto|]). done.
Qed.
