(* ===== verification/Abi.v ===== *)
(** The kernel ABI (src/crates/rustee-os/src/abi.rs), the twin of it TAs link
    (src/crates/rustee-utee/src/kernel_abi.rs) and the isolation-HAL data types
    (src/crates/rustee-hal/src/lib.rs): parameters and their raw GP form,
    commands, results, and the conversions between them. *)
From Stdlib Require Import ZArith Lia.
From stdpp Require Import base list numbers.
From S2P Require Import Prelude.

Local Open Scope Z_scope.
Local Open Scope rust_scope.

(** * Codes *)

Definition PARAM_COUNT : usize := 4.
Definition TEE_TIMEOUT_INFINITE : u32 := 0xFFFFFFFF.

Definition TEE_SUCCESS : u32 := 0x00000000.
Definition TEE_ERROR_CANCEL : u32 := 0xFFFF0002.
Definition TEE_ERROR_BAD_PARAMETERS : u32 := 0xFFFF0006.
Definition TEE_ERROR_ITEM_NOT_FOUND : u32 := 0xFFFF0008.
Definition TEE_ERROR_NOT_SUPPORTED : u32 := 0xFFFF000A.
Definition TEE_ERROR_OUT_OF_MEMORY : u32 := 0xFFFF000C.
Definition TEE_ERROR_BUSY : u32 := 0xFFFF000D.
Definition TEE_ERROR_SECURITY : u32 := 0xFFFF000F.
Definition TEE_ERROR_SHORT_BUFFER : u32 := 0xFFFF0010.
Definition TEE_ERROR_TARGET_DEAD : u32 := 0xFFFF3024.

Definition TEE_ORIGIN_TEE : u32 := 3.
Definition TEE_ORIGIN_TRUSTED_APP : u32 := 4.

Definition TEE_PARAM_TYPE_VALUE_INPUT : u32 := 1.
Definition TEE_PARAM_TYPE_VALUE_OUTPUT : u32 := 2.
Definition TEE_PARAM_TYPE_VALUE_INOUT : u32 := 3.
Definition TEE_PARAM_TYPE_MEMREF_INPUT : u32 := 5.
Definition TEE_PARAM_TYPE_MEMREF_OUTPUT : u32 := 6.
Definition TEE_PARAM_TYPE_MEMREF_INOUT : u32 := 7.

(** * Identifiers and results *)

(** [Uuid(pub [u8; 16])], [SessionId(pub u32)], [InstanceId(pub u32)]. *)
Abbreviation Uuid := (list Z) (only parsing).
Abbreviation SessionId := Z (only parsing).
Abbreviation InstanceId := Z (only parsing).

Definition uuid_ok (u : Uuid) : Prop := length u = 16%nat /\ bytes_ok u.

Inductive Origin := OriginTee | OriginTrustedApp.
#[export] Instance Origin_eq_dec : EqDecision Origin.
Proof. solve_decision. Defined.

Definition Origin_as_gp (o : Origin) : u32 :=
  match o with OriginTee => TEE_ORIGIN_TEE | OriginTrustedApp => TEE_ORIGIN_TRUSTED_APP end.

Record TeeResult := { code : u32; origin : Origin }.
#[export] Instance TeeResult_eq_dec : EqDecision TeeResult.
Proof. solve_decision. Defined.

Definition TeeResult_ok : TeeResult := {| code := TEE_SUCCESS; origin := OriginTee |}.
Definition TeeResult_tee (c : u32) : TeeResult := {| code := c; origin := OriginTee |}.
Definition TeeResult_ta (c : u32) : TeeResult := {| code := c; origin := OriginTrustedApp |}.

Inductive Dir := In_ | Out | InOut.
#[export] Instance Dir_eq_dec : EqDecision Dir.
Proof. solve_decision. Defined.

Inductive Login :=
| Public
| User
| Group (gid : u32)
| Application
| UserApplication
| GroupApplication (gid : u32)
| TrustedApp (uuid : Uuid).

(** [Ree]: a bounce-pool cookie; [Ta]: a virtual address of the calling TA. *)
Inductive MemrefSrc :=
| Ree (cookie : u64) (offs : usize)
| Ta (va : usize).

Inductive Param :=
| PNone
| PValue (a b : u32) (dir : Dir)
| PMemref (src : MemrefSrc) (size : usize) (dir : Dir).
#[export] Instance MemrefSrc_eq_dec : EqDecision MemrefSrc.
Proof. solve_decision. Defined.
#[export] Instance Param_eq_dec : EqDecision Param.
Proof. solve_decision. Defined.

(** [[Param; PARAM_COUNT]] *)
Abbreviation Params := (list Param) (only parsing).
Definition none_params : Params := replicate (Z.to_nat PARAM_COUNT) PNone.

Inductive HalRpc := RpcLoadTa (uuid : Uuid) | RpcGetTime | RpcFs | RpcShmAlloc | RpcShmFree.

Inductive RpcResponse :=
| RespLoadTa (image : list u8)
| RespTime (seconds millis : u32)
| RespFs (result : u32)
| RespShm (cookie : u64)
| RespError (code : u32).

Inductive KernelCmd :=
| OpenSession (uuid : Uuid) (login : Login) (params : Params) (cancel_id timeout_ms : u32)
| Invoke (session : SessionId) (cmd_id : u32) (params : Params) (cancel_id timeout_ms : u32)
| CloseSession (session : SessionId)
| Cancel (cancel_id : u32)
| RpcComplete (resp : RpcResponse).

Inductive KernelOut :=
| Done (result : TeeResult) (session : option SessionId) (params : Params)
| Rpc (rpc : HalRpc).

Definition done_err (c : u32) : KernelOut := Done (TeeResult_tee c) None none_params.

(** * Raw GP parameters

    [ParamRaw] is a C union of two [repr(C)] structs; on the 64-bit targets
    [value.a] and [value.b] are the low and high halves of the word [buffer]
    occupies.  The union is its two 64-bit words; the two views read them. *)

Record ParamRaw := { word0 : u64; word1 : u64 }.
#[export] Instance ParamRaw_eq_dec : EqDecision ParamRaw.
Proof. solve_decision. Defined.

Definition raw_value (a b : u32) : ParamRaw := {| word0 := a + b * 2 ^ 32; word1 := 0 |}.
Definition raw_memref (buffer size : usize) : ParamRaw := {| word0 := buffer; word1 := size |}.
Definition value_a (p : ParamRaw) : u32 := word0 p mod 2 ^ 32.
Definition value_b (p : ParamRaw) : u32 := word0 p / 2 ^ 32 mod 2 ^ 32.
Definition memref_buffer (p : ParamRaw) : usize := word0 p.
Definition memref_size (p : ParamRaw) : usize := word1 p.

Definition ParamRaw_none : ParamRaw := raw_value 0 0.

(** GP TA entry points: function addresses in the TA image. *)
Record TaEntryPoints := {
  ep_create : usize; ep_destroy : usize; ep_open_session : usize;
  ep_close_session : usize; ep_invoke : usize }.

Definition param_type_of (p : Param) : u32 :=
  match p with
  | PNone => 0
  | PValue _ _ In_ => TEE_PARAM_TYPE_VALUE_INPUT
  | PValue _ _ Out => TEE_PARAM_TYPE_VALUE_OUTPUT
  | PValue _ _ InOut => TEE_PARAM_TYPE_VALUE_INOUT
  | PMemref _ _ In_ => TEE_PARAM_TYPE_MEMREF_INPUT
  | PMemref _ _ Out => TEE_PARAM_TYPE_MEMREF_OUTPUT
  | PMemref _ _ InOut => TEE_PARAM_TYPE_MEMREF_INOUT
  end.

(** [for (i, p) in params.iter().enumerate() { t |= n << (4 * i) }] *)
Fixpoint param_types_from (i : Z) (params : Params) (t : u32) : u32 :=
  match params with
  | [] => t
  | p :: ps => param_types_from (i + 1) ps (Z.lor t (Z.shiftl (param_type_of p) (4 * i)))
  end.
Definition param_types_of (params : Params) : u32 := param_types_from 0 params 0.

Definition param_to_raw (p : Param) : ParamRaw :=
  match p with
  | PNone => ParamRaw_none
  | PValue a b _ => raw_value a b
  | PMemref src size _ =>
      let va := match src with Ta va => va | Ree _ _ => 0 end in
      raw_memref va size
  end.
Definition params_to_raw (params : Params) : list ParamRaw := map param_to_raw params.

Definition param_from_raw (p : Param) (raw : ParamRaw) : Param :=
  match p with
  | PValue _ _ Out => PValue (value_a raw) (value_b raw) Out
  | PValue _ _ InOut => PValue (value_a raw) (value_b raw) InOut
  | PMemref src _ Out => PMemref src (memref_size raw) Out
  | PMemref src _ InOut => PMemref src (memref_size raw) InOut
  | p => p
  end.
Definition params_from_raw (params : Params) (raw : list ParamRaw) : Params :=
  zip_with param_from_raw params raw.

(** * The TA-side twin (rustee-utee) *)

Definition Dir_is_out (d : Dir) : bool := match d with In_ => false | _ => true end.

Definition param_types (t0 t1 t2 t3 : u32) : u32 :=
  Z.lor (Z.lor (Z.lor t0 (Z.shiftl t1 4)) (Z.shiftl t2 8)) (Z.shiftl t3 12).

Definition param_type_get (types : u32) (i : usize) : u32 :=
  Z.land (Z.shiftr types (i * 4)) 0xF.

Definition nibble_to_dir (n : u32) : option Dir :=
  if (n =? 1) || (n =? 5) then Some In_
  else if (n =? 2) || (n =? 6) then Some Out
  else if (n =? 3) || (n =? 7) then Some InOut
  else None.

Definition param_nibble (p : Param) : u32 :=
  match p with
  | PNone => 0
  | PValue _ _ In_ => 1 | PValue _ _ Out => 2 | PValue _ _ InOut => 3
  | PMemref _ _ In_ => 5 | PMemref _ _ Out => 6 | PMemref _ _ InOut => 7
  end.

Definition param_from_gp (types : u32) (i : usize) (a b : u32) (buf size : usize) : res u32 Param :=
  match param_type_get types i with
  | 0 => Ok PNone
  | 1 => Ok (PValue a b In_)
  | 2 => Ok (PValue a b Out)
  | 3 => Ok (PValue a b InOut)
  | 5 => Ok (PMemref (Ta buf) size In_)
  | 6 => Ok (PMemref (Ta buf) size Out)
  | 7 => Ok (PMemref (Ta buf) size InOut)
  | _ => Err TEE_ERROR_BAD_PARAMETERS
  end.

(** * HAL types *)

Record Perms := { p_read : bool; p_write : bool; p_exec : bool }.
#[export] Instance Perms_eq_dec : EqDecision Perms.
Proof. solve_decision. Defined.
Definition Perms_READ : Perms := {| p_read := true; p_write := false; p_exec := false |}.
Definition Perms_WRITE : Perms := {| p_read := false; p_write := true; p_exec := false |}.
Definition Perms_RW : Perms := {| p_read := true; p_write := true; p_exec := false |}.
Definition Perms_RX : Perms := {| p_read := true; p_write := false; p_exec := true |}.

Inductive HalError :=
| Unsupported | InvalidParam | NoMemory | BadAlignment | PermDenied | Busy | Fault | NotFound.
#[export] Instance HalError_eq_dec : EqDecision HalError.
Proof. solve_decision. Defined.

Inductive EntropyOrigin := Isolated | ReeHost.
#[export] Instance EntropyOrigin_eq_dec : EqDecision EntropyOrigin.
Proof. solve_decision. Defined.

(** * Lemmas *)

Definition param_ok (p : Param) : Prop :=
  match p with
  | PNone => True
  | PValue a b _ => in_width 32 a /\ in_width 32 b
  | PMemref (Ta va) size _ => in_width 64 va /\ in_width 64 size
  | PMemref (Ree ck offs) size _ => in_width 64 ck /\ in_width 64 offs /\ in_width 64 size
  end.

Lemma value_a_raw a b : in_width 32 a -> in_width 32 b -> value_a (raw_value a b) = a.
Proof.
  unfold in_width, value_a. cbn [word0 raw_value]. intros.
  rewrite Z.mod_add by lia. by apply Z.mod_small.
Qed.

Lemma value_b_raw a b : in_width 32 a -> in_width 32 b -> value_b (raw_value a b) = b.
Proof.
  unfold in_width, value_b. cbn [word0 raw_value]. intros.
  rewrite Z.div_add, Z.div_small by lia. by apply Z.mod_small.
Qed.

(** The raw form written back unchanged changes no parameter. *)
Lemma param_raw_roundtrip p : param_ok p -> param_from_raw p (param_to_raw p) = p.
Proof.
  destruct p as [|a b d|src size d]; cbn; intros H; [done| |by destruct d].
  destruct H. destruct d; [done| |]; by rewrite value_a_raw, value_b_raw.
Qed.

Lemma nibble_range p : 0 <= param_type_of p < 16.
Proof. destruct p as [| ? ? [] | ? ? []]; by_compute. Qed.

Lemma lor_nibbles_get t0 t1 t2 t3 i :
  0 <= t0 < 16 -> 0 <= t1 < 16 -> 0 <= t2 < 16 -> 0 <= t3 < 16 -> 0 <= i < 4 ->
  param_type_get (param_types t0 t1 t2 t3) i = at_ [t0; t1; t2; t3] i.
Proof.
  intros H0 H1 H2 H3 Hi.
  assert (param_types t0 t1 t2 t3 = t3 * 2 ^ 12 + (t2 * 2 ^ 8 + (t1 * 2 ^ 4 + t0))) as ->.
  { unfold param_types. rewrite !Z.shiftl_mul_pow2 by lia.
    rewrite (Z.lor_comm t0), (lor_disjoint_add t1 t0 4) by lia.
    rewrite (Z.lor_comm _ (t2 * 2 ^ 8)), (lor_disjoint_add t2 _ 8) by lia.
    rewrite (Z.lor_comm _ (t3 * 2 ^ 12)), (lor_disjoint_add t3 _ 12) by lia. done. }
  unfold param_type_get. change 0xF with (Z.ones 4).
  rewrite Z.land_ones, Z.shiftr_div_pow2 by lia.
  assert (i = 0 \/ i = 1 \/ i = 2 \/ i = 3) as [->|[->|[->| ->]]] by lia;
    match goal with |- _ = at_ ?l ?k => let v := eval cbv in (at_ l k) in change (at_ l k) with v end;
    change (2 ^ 4) with 16; change (2 ^ 8) with 256; change (2 ^ 12) with 4096;
    try change (2 ^ (0 * 4)) with 1; try change (2 ^ (1 * 4)) with 16;
    try change (2 ^ (2 * 4)) with 256; try change (2 ^ (3 * 4)) with 4096;
    Z.to_euclidean_division_equations; lia.
Qed.

(** The kernel's type word is the GP packing of the four nibbles. *)
Lemma param_types_of_four p0 p1 p2 p3 :
  param_types_of [p0; p1; p2; p3] =
    param_types (param_type_of p0) (param_type_of p1) (param_type_of p2) (param_type_of p3).
Proof.
  unfold param_types_of, param_types. cbn [param_types_from].
  rewrite Z.lor_0_l, Z.shiftl_0_r. done.
Qed.

(** * Properties *)

(** C19. The kernel and a TA agree on the parameter ABI: for four well-formed
    parameters the TA reads back, from the packed type word and the raw union
    the kernel hands it, exactly the kernel's value parameters and memory
    references (an REE memref before mapping shows as a null buffer), and raw
    slots left unmodified change nothing when copied back. *)
Theorem params_abi_agree ps i p :
  length ps = 4%nat -> Forall param_ok ps -> 0 <= i < 4 -> ps !! Z.to_nat i = Some p ->
  (forall raw, params_to_raw ps !! Z.to_nat i = Some raw ->
    param_from_gp (param_types_of ps) i (value_a raw) (value_b raw)
      (memref_buffer raw) (memref_size raw) =
    Ok (match p with PMemref (Ree _ _) size d => PMemref (Ta 0) size d | p => p end)) /\
  params_from_raw ps (params_to_raw ps) = ps.
Proof.
  intros Hl Hok Hi Hp.
  do 4 (destruct ps as [|? ps]; [discriminate|]). destruct ps; [|discriminate].
  inv_forall. split.
  - intros raw Hraw. unfold param_from_gp. rewrite param_types_of_four.
    rewrite lor_nibbles_get by (lia || apply nibble_range).
    assert (param_ok p /\ raw = param_to_raw p /\
      at_ [param_type_of p0; param_type_of p1; param_type_of p2; param_type_of p3] i = param_type_of p)
      as (Hq & -> & ->).
    { assert (i = 0 \/ i = 1 \/ i = 2 \/ i = 3) as [->|[->|[->| ->]]] by lia;
        injection Hp as <-; injection Hraw as <-;
        (split; [assumption | split; reflexivity]). }
    destruct p as [|a b d|[ck offs|va] size d]; cbn in Hq; [done| |destruct d; done..].
    destruct d; cbn [param_type_of param_to_raw]; unfold TEE_PARAM_TYPE_VALUE_INPUT,
      TEE_PARAM_TYPE_VALUE_OUTPUT, TEE_PARAM_TYPE_VALUE_INOUT;
      rewrite value_a_raw, value_b_raw by tauto; done.
  - cbn. by rewrite !param_raw_roundtrip.
Qed.

Lemma params_abi_agree_witness :
  params_from_raw [PValue 1 2 InOut; PMemref (Ree 64 0) 8 In_; PMemref (Ta 4096) 16 Out; PNone]
    (params_to_raw [PValue 1 2 InOut; PMemref (Ree 64 0) 8 In_; PMemref (Ta 4096) 16 Out; PNone]) =
  [PValue 1 2 InOut; PMemref (Ree 64 0) 8 In_; PMemref (Ta 4096) 16 Out; PNone].
Proof.
  refine (proj2 (params_abi_agree
    [PValue 1 2 InOut; PMemref (Ree 64 0) 8 In_; PMemref (Ta 4096) 16 Out; PNone]
    0 (PValue 1 2 InOut) _ _ _ _)); [done| |lia|done].
  repeat constructor; by_compute.
Defined.
