(* ===== verification/Header.v ===== *)
(** TA headers and the signed load envelope
    (src/crates/rustee-os/src/header.rs): the 40-byte [.rustee.ta_head], the
    RTSG envelope, and the ELF64 section lookup that finds the header.  The
    utee twin of the header codec (src/crates/rustee-utee/src/header.rs) is
    modelled beside it. *)
From Stdlib Require Import ZArith Lia Ascii String.
From stdpp Require Import base list numbers.
From S2P Require Import Prelude Abi.

Local Open Scope Z_scope.
Local Open Scope rust_scope.

Definition RTAH_MAGIC : u32 := 0x48415452.
Definition RTAH_ABI : u16 := 0.
Definition RTAH_SIZE : u16 := 40.
Definition RTSG_MAGIC : u32 := 0x47535452.
Definition RTSG_ABI : u16 := 0.
Definition SECTION_NAME : list u8 := str ".rustee.ta_head".

Record TaProperties := {
  tp_uuid : Uuid; stack_size : u32; data_size : u32;
  single_instance : bool; multi_session : bool; instance_keep_alive : bool;
  endian : u8; ta_version : u32 }.
#[export] Instance TaProperties_eq_dec : EqDecision TaProperties.
Proof. solve_decision. Defined.

Definition validate (p : TaProperties) : res u32 unit :=
  if negb (endian p =? 0) then Err TEE_ERROR_BAD_PARAMETERS
  else if (stack_size p =? 0) || (data_size p =? 0) then Err TEE_ERROR_BAD_PARAMETERS
  else if negb (single_instance p) && (multi_session p || instance_keep_alive p)
       then Err TEE_ERROR_BAD_PARAMETERS
  else Ok tt.

(** [b as u8] for a [bool] *)
Definition bool_u8 (x : bool) : u8 := if x then 1 else 0.

(** The field reads of [parse_ta_head], after its length check. *)
Definition read_props (bs : list u8) : TaProperties :=
  {| tp_uuid := sub bs 8 16; stack_size := le32 bs 24; data_size := le32 bs 28;
     single_instance := negb (at_ bs 32 =? 0); multi_session := negb (at_ bs 33 =? 0);
     instance_keep_alive := negb (at_ bs 34 =? 0); endian := at_ bs 35; ta_version := le32 bs 36 |}.

Definition head_magic_ok (bs : list u8) : bool :=
  (le32 bs 0 =? RTAH_MAGIC) && (le16 bs 4 =? RTAH_ABI) && (le16 bs 6 =? RTAH_SIZE).

Definition parse_ta_head (bs : list u8) : res u32 TaProperties :=
  if zlen bs <? RTAH_SIZE then Err TEE_ERROR_BAD_PARAMETERS else
  if negb (head_magic_ok bs) then Err TEE_ERROR_BAD_PARAMETERS else
  let props := read_props bs in
  let? _ := validate props in
  Ok props.

Definition encode_ta_head (p : TaProperties) : list u8 :=
  let b := zeros 40 in
  let b := splice b 0 (to_le 4 RTAH_MAGIC) in
  let b := splice b 4 (to_le 2 RTAH_ABI) in
  let b := splice b 6 (to_le 2 RTAH_SIZE) in
  let b := splice b 8 (tp_uuid p) in
  let b := splice b 24 (to_le 4 (stack_size p)) in
  let b := splice b 28 (to_le 4 (data_size p)) in
  let b := <[32%nat := bool_u8 (single_instance p)]> b in
  let b := <[33%nat := bool_u8 (multi_session p)]> b in
  let b := <[34%nat := bool_u8 (instance_keep_alive p)]> b in
  let b := <[35%nat := endian p]> b in
  splice b 36 (to_le 4 (ta_version p)).

(** rustee-utee's [parse_ta_head]: the same reads, an [Option], no [validate]. *)
Definition utee_parse_ta_head (bs : list u8) : option TaProperties :=
  if zlen bs <? 40 then None else
  if negb (head_magic_ok bs) then None else Some (read_props bs).

(** * RTSG: the signed envelope *)

Record SignedImage := {
  si_uuid : Uuid; si_ta_version : u32; si_hash : list u8; si_sig : list u8; si_elf : list u8 }.

Definition parse_rtsg (bs : list u8) : res u32 SignedImage :=
  if zlen bs <? 40 then Err TEE_ERROR_BAD_PARAMETERS else
  if negb (le32 bs 0 =? RTSG_MAGIC) || negb (le16 bs 4 =? RTSG_ABI)
  then Err TEE_ERROR_SECURITY else
  let img_size := le32 bs 28 in
  let hash_size := le16 bs 32 in
  let sig_size := le16 bs 34 in
  let rest := 36 in
  if zlen bs <? rest + hash_size + sig_size + img_size then Err TEE_ERROR_BAD_PARAMETERS else
  Ok {| si_uuid := sub bs 8 16; si_ta_version := le32 bs 24;
        si_hash := sub bs rest hash_size;
        si_sig := sub bs (rest + hash_size) sig_size;
        si_elf := sub bs (rest + hash_size + sig_size) img_size |}.

(** * UTF-8 and NUL-terminated names *)

Definition in_rng (x lo hi : Z) : bool := (lo <=? x) && (x <=? hi).
Definition cont (x : Z) : bool := in_rng x 0x80 0xBF.

(** [core::str::from_utf8(..).is_ok()] *)
Fixpoint utf8_valid (l : list u8) : bool :=
  match l with
  | [] => true
  | x :: t =>
      if in_rng x 0 0x7F then utf8_valid t else
      match t with
      | [] => false
      | y :: t1 =>
          if in_rng x 0xC2 0xDF then cont y && utf8_valid t1 else
          match t1 with
          | [] => false
          | z :: t2 =>
              if x =? 0xE0 then in_rng y 0xA0 0xBF && cont z && utf8_valid t2
              else if in_rng x 0xE1 0xEC || in_rng x 0xEE 0xEF then cont y && cont z && utf8_valid t2
              else if x =? 0xED then in_rng y 0x80 0x9F && cont z && utf8_valid t2
              else
              match t2 with
              | [] => false
              | w :: t3 =>
                  if x =? 0xF0 then in_rng y 0x90 0xBF && cont z && cont w && utf8_valid t3
                  else if in_rng x 0xF1 0xF3 then cont y && cont z && cont w && utf8_valid t3
                  else if x =? 0xF4 then in_rng y 0x80 0x8F && cont z && cont w && utf8_valid t3
                  else false
              end
          end
      end
  end.

(** [s.iter().position(|&b| b == 0)], with the prefix before it. *)
Fixpoint until_nul (l : list u8) : option (list u8) :=
  match l with
  | [] => None
  | x :: t => if x =? 0 then Some [] else option_map (cons x) (until_nul t)
  end.

(** [section_name] (header.rs) and [str_name] (elf.rs): the NUL-terminated
    UTF-8 name at [off] of a string table. *)
Definition section_name (strtab : list u8) (off : usize) : option (list u8) :=
  match get_from strtab off with
  | None => None
  | Some s =>
      match until_nul s with
      | None => None
      | Some nm => if utf8_valid nm then Some nm else None
      end
  end.

Definition name_is (o : option (list u8)) (nm : list u8) : bool :=
  match o with Some x => beqb x nm | None => false end.

(** * Section lookup *)

Definition ELF_MAGIC : list u8 := [0x7f; 0x45; 0x4c; 0x46].

Definition is_elf (image : list u8) : bool := beqb (sub image 0 4) ELF_MAGIC.

(** [for i in 0..shnum]: the first section named [name], as a slice. *)
Fixpoint section_scan (n : nat) (i : Z) (image name strtab : list u8) (shoff shentsize : usize)
  : res u32 (list u8) :=
  match n with
  | O => Err TEE_ERROR_BAD_PARAMETERS
  | S n' =>
      let? d := umul i shentsize in
      let? off := uadd shoff d in
      let? e := uadd off 64 in
      if zlen image <? e then Err TEE_ERROR_BAD_PARAMETERS else
      let name_off := le32 image off in
      let sec_off := le64 image (off + 24) in
      let sec_size := le64 image (off + 32) in
      if name_is (section_name strtab name_off) name
      then ok_or (get_range image sec_off (sat_add 64 sec_off sec_size)) TEE_ERROR_BAD_PARAMETERS
      else section_scan n' (i + 1) image name strtab shoff shentsize
  end.

Definition elf64_section (image name : list u8) : res u32 (list u8) :=
  if (zlen image <? 64) || negb (is_elf image) || negb (at_ image 4 =? 2) || negb (at_ image 5 =? 1)
  then Err TEE_ERROR_BAD_PARAMETERS else
  let shoff := le64 image 40 in
  let shentsize := le16 image 58 in
  let shnum := le16 image 60 in
  let shstrndx := le16 image 62 in
  if (shentsize <? 64) || (shoff =? 0) then Err TEE_ERROR_BAD_PARAMETERS else
  let? d := umul shstrndx shentsize in
  let? shstr := uadd shoff d in
  let? e := uadd shstr 64 in
  if zlen image <? e then Err TEE_ERROR_BAD_PARAMETERS else
  let str_off := le64 image (shstr + 24) in
  let str_size := le64 image (shstr + 32) in
  let? strtab := ok_or (get_range image str_off (sat_add 64 str_off str_size)) TEE_ERROR_BAD_PARAMETERS in
  section_scan (Z.to_nat shnum) 0 image name strtab shoff shentsize.

(** Early TAs may be a raw 40-byte header. *)
Definition find_ta_head (image : list u8) : res u32 (list u8) :=
  if (40 <=? zlen image) && (le32 image 0 =? RTAH_MAGIC) then Ok (sub image 0 40)
  else elf64_section image SECTION_NAME.

(** * Lemmas *)

Definition props_wf (p : TaProperties) : Prop :=
  uuid_ok (tp_uuid p) /\ in_width 32 (stack_size p) /\ in_width 32 (data_size p) /\
  in_width 8 (endian p) /\ in_width 32 (ta_version p).

Lemma validate_ok p :
  validate p = Ok tt <->
  endian p = 0 /\ stack_size p <> 0 /\ data_size p <> 0 /\
  (single_instance p = false -> multi_session p = false /\ instance_keep_alive p = false).
Proof.
  unfold validate.
  destruct (Z.eqb_spec (endian p) 0); [|split; [done|tauto]].
  destruct (Z.eqb_spec (stack_size p) 0); [split; [done|tauto]|].
  destruct (Z.eqb_spec (data_size p) 0); [split; [done|tauto]|]. cbn [negb orb].
  destruct (single_instance p), (multi_session p), (instance_keep_alive p); cbn;
    split; try done; try (intros (_ & _ & _ & H); destruct (H eq_refl); done).
Qed.

Lemma validate_total p : validate p = Ok tt \/ validate p = Err TEE_ERROR_BAD_PARAMETERS.
Proof. unfold validate. repeat case_match; auto. Qed.

Lemma bool_u8_read x : negb (bool_u8 x =? 0) = x.
Proof. by destruct x. Qed.

Lemma zlen_encode_ta_head p : length (tp_uuid p) = 16%nat -> zlen (encode_ta_head p) = 40.
Proof.
  destruct p as [u ? ? ? ? ? ? ?]. cbn [tp_uuid]. intros H.
  do 16 (destruct u as [|? u]; [discriminate|]). destruct u; [|discriminate]. reflexivity.
Qed.

Lemma TaProperties_ext p q :
  tp_uuid p = tp_uuid q -> stack_size p = stack_size q -> data_size p = data_size q ->
  single_instance p = single_instance q -> multi_session p = multi_session q ->
  instance_keep_alive p = instance_keep_alive q -> endian p = endian q ->
  ta_version p = ta_version q -> p = q.
Proof. destruct p, q; cbn; congruence. Qed.

Lemma read_props_encode p tl : props_wf p ->
  read_props (encode_ta_head p ++ tl) = p /\ head_magic_ok (encode_ta_head p ++ tl) = true.
Proof.
  destruct p as [u ss ds si ms ka en ve].
  intros ([Hu _] & Hs & Hd & _ & Hv).
  cbn [tp_uuid stack_size data_size single_instance multi_session instance_keep_alive endian ta_version] in *.
  do 16 (destruct u as [|? u]; [discriminate|]). destruct u; [|discriminate].
  split; [|reflexivity]. unfold read_props, le32.
  apply TaProperties_ext; cbn [tp_uuid stack_size data_size single_instance multi_session
    instance_keep_alive endian ta_version];
    [ reflexivity | exact (from_to_le 4 ss Hs) | exact (from_to_le 4 ds Hd)
    | exact (bool_u8_read si) | exact (bool_u8_read ms) | exact (bool_u8_read ka)
    | reflexivity | exact (from_to_le 4 ve Hv) ].
Qed.

Lemma parse_ta_head_total bs : parse_ta_head bs <> Panic.
Proof.
  unfold parse_ta_head. repeat case_match; try done.
  cbn. by destruct (validate_total (read_props bs)) as [-> | ->].
Qed.

(** The section scan on headers that stay clear of the address-space end. *)
Lemma section_scan_total n i image name strtab shoff shentsize :
  0 <= i -> 0 <= shentsize < 2 ^ 16 -> 0 <= shoff ->
  (i + Z.of_nat n) * shentsize + shoff + 64 < 2 ^ 64 ->
  match section_scan n i image name strtab shoff shentsize with
  | Ok s => exists off sz, 0 <= off /\ off + sz <= zlen image /\ s = sub image off sz
  | Err e => e = TEE_ERROR_BAD_PARAMETERS
  | Panic => False
  end.
Proof.
  revert i. induction n as [|n IH]; intros i Hi He Ho Hb; cbn [section_scan]; [done|].
  rewrite umul_ok by nia. cbn [rbind]. rewrite uadd_ok by nia. cbn [rbind].
  rewrite uadd_ok by nia. cbn [rbind].
  destruct (zlen image <? _); [done|]. destruct (name_is _ _).
  - destruct (get_range _ _ _) eqn:E; cbn [ok_or]; [|done].
    apply get_range_inv in E as (? & ? & ->). do 2 eexists. split_and!; [| |done]; lia.
  - apply IH; nia.
Qed.

(** * Properties *)

(** TA header round trip and validation: every well-formed, valid property
    record survives [encode_ta_head]/[parse_ta_head] (also as a prefix, and the
    TA-side parser reads the same record); conversely every header the kernel
    accepts is 40 bytes long at least, has endian 0, non-zero stack and data
    sizes, and never claims multi-session or keep-alive without
    single-instance.  Parsing never panics. *)
Theorem ta_head_roundtrip p tl bs q :
  (props_wf p -> validate p = Ok tt ->
     parse_ta_head (encode_ta_head p ++ tl) = Ok p /\
     utee_parse_ta_head (encode_ta_head p ++ tl) = Some p) /\
  (parse_ta_head bs = Ok q ->
     40 <= zlen bs /\ tp_uuid q = sub bs 8 16 /\ endian q = 0 /\
     stack_size q <> 0 /\ data_size q <> 0 /\
     (single_instance q = false -> multi_session q = false /\ instance_keep_alive q = false)) /\
  parse_ta_head bs <> Panic.
Proof.
  split_and!; [| |apply parse_ta_head_total].
  - intros Hwf Hv. destruct (read_props_encode p tl Hwf) as [Hr Hm].
    unfold parse_ta_head, utee_parse_ta_head, RTAH_SIZE.
    rewrite zlen_app, zlen_encode_ta_head by apply Hwf.
    pose proof (zlen_nonneg tl). decide_guards. rewrite Hm, Hr. cbn. by rewrite Hv.
  - unfold parse_ta_head, RTAH_SIZE. destruct (Z.ltb_spec (zlen bs) 40); [done|].
    destruct (head_magic_ok bs); [cbn|done].
    destruct (validate (read_props bs)) as [[]| |] eqn:E; cbn; [|done..]. intros [= <-].
    apply validate_ok in E. split_and!; tauto || done.
Qed.

(** The signed envelope: what [parse_rtsg] accepts carries the RTSG magic,
    and its digest, signature and image are consecutive disjoint slices of the
    input right after the 36-byte fixed part; every other input is an error. *)
Theorem parse_rtsg_layout bs : bytes_ok bs ->
  match parse_rtsg bs with
  | Ok img =>
      le32 bs 0 = RTSG_MAGIC /\ zlen (si_uuid img) = 16 /\
      36 + zlen (si_hash img) + zlen (si_sig img) + zlen (si_elf img) <= zlen bs /\
      sub bs 36 (zlen (si_hash img) + zlen (si_sig img) + zlen (si_elf img)) =
        si_hash img ++ si_sig img ++ si_elf img
  | Err e => e = TEE_ERROR_BAD_PARAMETERS \/ e = TEE_ERROR_SECURITY
  | Panic => False
  end.
Proof.
  intros Hb. unfold parse_rtsg.
  destruct (Z.ltb_spec (zlen bs) 40); [by left|].
  destruct (_ || _) eqn:Em; [by right|]. bsplit.
  pose proof (le32_bound bs 28 Hb) as B1. pose proof (le16_bound bs 32 Hb) as B2.
  pose proof (le16_bound bs 34 Hb) as B3. unfold in_width in *.
  destruct (Z.ltb_spec (zlen bs) (36 + le16 bs 32 + le16 bs 34 + le32 bs 28)); [by left|].
  cbn [si_uuid si_hash si_sig si_elf].
  rewrite !zlen_sub by lia. split_and!; [done|done|lia|].
  rewrite (sub_split bs 36 (le16 bs 32) (le16 bs 34 + le32 bs 28) _) by lia.
  rewrite (sub_split bs (36 + le16 bs 32) (le16 bs 34) (le32 bs 28) _) by lia. done.
Qed.

Definition sample_props : TaProperties :=
  {| tp_uuid := replicate 16 6; stack_size := 0x1000; data_size := 0x2000;
     single_instance := true; multi_session := true; instance_keep_alive := false;
     endian := 0; ta_version := 3 |}.

Lemma ta_head_roundtrip_witness :
  parse_ta_head (encode_ta_head sample_props) = Ok sample_props.
Proof.
  rewrite <- (app_nil_r (encode_ta_head sample_props)).
  refine (proj1 (proj1 (ta_head_roundtrip sample_props [] [] sample_props) _ eq_refl)).
  split_and!; [split; [done|by_compute]|by_compute..].
Defined.

Definition sample_rtsg : list u8 :=
  to_le 4 RTSG_MAGIC ++ to_le 2 0 ++ to_le 2 1 ++ replicate 16 9 ++ to_le 4 1 ++
  to_le 4 3 ++ to_le 2 2 ++ to_le 2 1 ++ [1; 2] ++ [3] ++ [4; 5; 6].

Lemma parse_rtsg_layout_witness :
  match parse_rtsg sample_rtsg with
  | Ok img => sub sample_rtsg 36 (zlen (si_hash img) + zlen (si_sig img) + zlen (si_elf img)) =
              [1; 2] ++ [3] ++ [4; 5; 6]
  | _ => False
  end.
Proof.
  pose proof (parse_rtsg_layout sample_rtsg ltac:(by_compute)) as H.
  destruct (parse_rtsg sample_rtsg) as [img| |] eqn:E; [|discriminate E..].
  destruct H as (_ & _ & _ & ->). injection E as <-. vm_compute. reflexivity.
Defined.
