(* ===== verification/Iface.v ===== *)
(** The interfaces the kernel is generic over: the isolation HAL
    (src/crates/rustee-hal/src/lib.rs, traits [Hal], [AddressSpace],
    [SharedMem], [Entropy]), the crypto provider
    (src/crates/rustee-crypto/src/lib.rs, trait [CryptoProvider]), pseudo-TAs
    (src/crates/rustee-os/src/pta.rs, trait [Pta]) and the code of the user
    TAs the kernel calls through the entry points of the loaded image. *)
From Stdlib Require Import ZArith.
From stdpp Require Import base list numbers.
From S2P Require Import Prelude Abi.

Local Open Scope Z_scope.

(** [Hal] with its associated [AddressSpace] and [SharedMem]: a HAL value owns
    the shared-memory objects and looks them up by cookie.  [Result<A, HalError>]
    is [HalError + A]: these methods do not panic (the virt HAL's do not). *)
Class HalOps (H AS : Type) := {
  hal_entropy_origin : H -> EntropyOrigin;
  new_address_space : H -> AS * H;
  (** [lookup_shm(cookie)] with [len()] *)
  shm_len : H -> u64 -> option usize;
  (** [lookup_shm_mut(cookie)] then [sync_in()] / [sync_out()] *)
  shm_sync_in : H -> u64 -> option ((HalError + unit) * H);
  shm_sync_out : H -> u64 -> option ((HalError + unit) * H);
  (** [lookup_shm(cookie)] then [map_into(&mut aspace, perms)] *)
  shm_map_into : H -> u64 -> AS -> Perms -> option ((HalError + u64) * AS);
  map_image : AS -> u64 -> list u8 -> Perms -> (HalError + u64) * AS;
  as_unmap : AS -> u64 -> AS;
  as_drop_all : AS -> AS }.

Class CryptoProvider := {
  sha256 : list u8 -> list u8;
  rsa_pkcs1_verify : list u8 -> list u8 -> list u8 -> bool;
  (** [header.rs]: the compiled-in development key, [include_bytes!] of a DER file *)
  V0_DEV_PUBKEY : list u8 }.

(** A call into code behind one of these interfaces returns a value and the
    state it left, or panics in that state. *)
Inductive call_out (T A : Type) : Type :=
| Returned (a : A) (s : T)
| Panicked (s : T).
Arguments Returned {T A} a s.
Arguments Panicked {T A} s.

(** A pseudo-TA: a state with the trait's four methods. *)
Class PtaOps (PTA : Type) := {
  pta_uuid : PTA -> Uuid;
  pta_open : PTA -> Params -> call_out PTA ((TeeResult + usize) * Params);
  pta_invoke : PTA -> usize -> u32 -> Params -> call_out PTA (TeeResult * Params);
  pta_close : PTA -> usize -> call_out PTA unit }.

(** The TA code behind an entry-point address.  A TA reads and writes the
    memory the HAL mapped for it, so each call takes and returns the HAL. *)
Class TaCode (H : Type) := {
  ta_create : usize -> H -> call_out H u32;
  ta_destroy : usize -> H -> call_out H unit;
  ta_open_session : usize -> u32 -> list ParamRaw -> H -> call_out H (u32 * list ParamRaw * usize);
  ta_close_session : usize -> usize -> H -> call_out H unit;
  ta_invoke : usize -> usize -> u32 -> u32 -> list ParamRaw -> H -> call_out H (u32 * list ParamRaw) }.
