(* ===== verification/Tables.v ===== *)
(** The kernel's tables: sessions (src/crates/rustee-os/src/session.rs),
    instances (instance.rs), early TAs (loader.rs) and pseudo-TAs (pta.rs).

    Both id tables of the source are a vector of optional slots with an id
    counter and the same algorithms; [Slots] states them once, and the session
    and instance tables instantiate them.  The abstract view of a table is the
    finite map from ids to entries ([tmap]); each operation refines the map
    operation. *)
From Stdlib Require Import ZArith Lia.
From stdpp Require Import base list gmap numbers.
From S2P Require Import Prelude Abi Header Iface.

Local Open Scope Z_scope.

(** * Slot tables *)

Record table (A : Type) := { slots : list (option A); next_id : u32 }.
Arguments slots {A} t.
Arguments next_id {A} t.

Section Slots.
Context {A : Type} (idof : A -> Z) (setid : Z -> A -> A).
Implicit Types t : table A.

(** [slots.resize(cap, None)], [next_id: 1] *)
Definition table_new (cap : usize) : table A :=
  {| slots := replicate (Z.to_nat cap) None; next_id := 1 |}.

(** [slots.iter().flatten()] *)
Definition entries (l : list (option A)) : list A := omap id l.

(** [self.next_id.wrapping_add(1).max(1)] *)
Definition bump_id (n : u32) : u32 := Z.max (wrapping_add 32 n 1) 1.

(** Store in the first free slot. *)
Fixpoint place (l : list (option A)) (x : A) : option (list (option A)) :=
  match l with
  | [] => None
  | None :: l' => Some (Some x :: l')
  | Some y :: l' => option_map (cons (Some y)) (place l' x)
  end.

Definition table_alloc t (x : A) : option Z * table A :=
  let id := next_id t in
  let n := bump_id (next_id t) in
  match place (slots t) (setid id x) with
  | Some l => (Some id, {| slots := l; next_id := n |})
  | None => (None, {| slots := slots t; next_id := n |})
  end.

(** [iter().flatten().find(|s| s.id == id)] *)
Fixpoint find_id (id : Z) (l : list (option A)) : option A :=
  match l with
  | [] => None
  | Some x :: l' => if idof x =? id then Some x else find_id id l'
  | None :: l' => find_id id l'
  end.
Definition table_get t (id : Z) : option A := find_id id (slots t).

(** [get_mut(id)] followed by a write through the reference. *)
Fixpoint update_id (id : Z) (f : A -> A) (l : list (option A)) : list (option A) :=
  match l with
  | [] => []
  | Some x :: l' => if idof x =? id then Some (f x) :: l' else Some x :: update_id id f l'
  | None :: l' => None :: update_id id f l'
  end.
Definition table_update t (id : Z) (f : A -> A) : table A :=
  {| slots := update_id id f (slots t); next_id := next_id t |}.

(** [slot.take()] of the first slot with this id. *)
Fixpoint take_id (id : Z) (l : list (option A)) : option A * list (option A) :=
  match l with
  | [] => (None, [])
  | Some x :: l' =>
      if idof x =? id then (Some x, None :: l')
      else let '(r, l'') := take_id id l' in (r, Some x :: l'')
  | None :: l' => let '(r, l'') := take_id id l' in (r, None :: l'')
  end.
Definition table_take t (id : Z) : option A * table A :=
  let '(r, l) := take_id id (slots t) in (r, {| slots := l; next_id := next_id t |}).

(** A write to every occupied slot. *)
Definition table_map t (f : A -> A) : table A :=
  {| slots := map (option_map f) (slots t); next_id := next_id t |}.

(** ** The abstract view *)

Definition lmap (l : list (option A)) : gmap Z A :=
  list_to_map (map (fun x => (idof x, x)) (entries l)).
Definition tmap t : gmap Z A := lmap (slots t).
Definition ids (l : list (option A)) : list Z := map idof (entries l).

(** Well-formed: ids are distinct, positive and below the counter, which has
    not wrapped. *)
Definition table_ok t : Prop :=
  NoDup (ids (slots t)) /\ Forall (fun i => 1 <= i < next_id t) (ids (slots t)) /\
  1 <= next_id t < 2 ^ 32.

Hypothesis setid_id : forall i x, idof (setid i x) = i.

Lemma lmap_nil : lmap [] = ∅.
Proof. done. Qed.

Lemma lmap_none l : lmap (None :: l) = lmap l.
Proof. done. Qed.

Lemma lmap_some x l : lmap (Some x :: l) = <[idof x := x]> (lmap l).
Proof. done. Qed.

Lemma ids_some x l : ids (Some x :: l) = idof x :: ids l.
Proof. done. Qed.

Lemma find_id_lmap id l : find_id id l = lmap l !! id.
Proof.
  induction l as [|[x|] l IH]; [by rewrite lmap_nil, lookup_empty| |done]. cbn [find_id].
  rewrite lmap_some, IH. destruct (Z.eqb_spec (idof x) id) as [<-|Hne].
  - by rewrite lookup_insert_eq.
  - by rewrite lookup_insert_ne.
Qed.

Lemma table_get_tmap t id : table_get t id = tmap t !! id.
Proof. apply find_id_lmap. Qed.

Lemma lmap_notin l i : i ∉ ids l -> lmap l !! i = None.
Proof.
  induction l as [|[x|] l IH]; intros H; [by rewrite lmap_nil, lookup_empty| |by apply IH].
  rewrite ids_some, not_elem_of_cons in H. destruct H as [H1 H2].
  rewrite lmap_some, lookup_insert_ne by congruence. by apply IH.
Qed.

Lemma lmap_in l i x : lmap l !! i = Some x -> i ∈ ids l /\ idof x = i.
Proof.
  induction l as [|[y|] l IH]; intros H; [by rewrite lmap_nil, lookup_empty in H| |by apply IH].
  rewrite lmap_some, lookup_insert in H. rewrite ids_some. case_decide.
  - injection H as <-. rewrite elem_of_cons. auto.
  - destruct (IH H). rewrite elem_of_cons. auto.
Qed.

Lemma place_spec l x l' :
  place l x = Some l' -> idof x ∉ ids l ->
  lmap l' = <[idof x := x]> (lmap l) /\ ids l' ≡ₚ idof x :: ids l /\ length l' = length l.
Proof.
  revert l'. induction l as [|[y|] l IH]; intros l' Hp Hn; cbn [place] in Hp; [done| |].
  - destruct (place l x) as [l''|] eqn:E; [|done]. injection Hp as <-.
    rewrite ids_some, not_elem_of_cons in Hn. destruct Hn as [Hne Hn].
    destruct (IH l'' eq_refl Hn) as (H1 & H2 & H3).
    rewrite !lmap_some, !ids_some, H1, H2. split_and!.
    + by rewrite insert_insert_ne.
    + apply Permutation_swap.
    + cbn. by rewrite H3.
  - injection Hp as <-. rewrite lmap_some, lmap_none. done.
Qed.

Lemma place_none l x : place l x = None <-> Forall is_Some l.
Proof.
  induction l as [|[y|] l IH]; cbn; [split; constructor| |].
  - rewrite Forall_cons_iff, <- IH. destruct (place l x); cbn; [by split; [|intros []]|].
    split; [|done]. by split; [eexists|].
  - rewrite Forall_cons_iff. split; [done|]. by intros [[? ?] _].
Qed.

(** Allocation: a fresh id, the entry is findable under it, everything else is
    as before, and the table stays well-formed until the counter wraps. *)
Lemma table_alloc_some t x id t' :
  table_ok t -> table_alloc t x = (Some id, t') ->
  id = next_id t /\ tmap t !! id = None /\ tmap t' = <[id := setid id x]> (tmap t) /\
  length (slots t') = length (slots t) /\
  (next_id t < 2 ^ 32 - 1 -> table_ok t' /\ next_id t' = next_id t + 1).
Proof.
  intros (Hnd & Hlt & Hn). unfold table_alloc.
  destruct (place _ _) as [l|] eqn:E; [|done]. intros [= <- <-].
  assert (next_id t ∉ ids (slots t)) as Hfresh.
  { intros Hin. rewrite list.Forall_forall in Hlt. specialize (Hlt _ Hin). cbn in Hlt. lia. }
  destruct (place_spec _ _ _ E) as (H1 & H2 & H3); [by rewrite setid_id|].
  rewrite setid_id in H1, H2. unfold tmap, table_ok. cbn [slots next_id].
  split_and!; [done|by apply lmap_notin|done|done|]. intros Hnw.
  assert (bump_id (next_id t) = next_id t + 1) as ->.
  { unfold bump_id, wrapping_add, wrap. rewrite Z.mod_small; lia. }
  rewrite H2. split_and!; [by apply list.NoDup_cons| |lia|lia|done].
  apply Forall_cons_iff. split; [lia|]. eapply Forall_impl; [|exact Hlt]. cbn. lia.
Qed.

Lemma table_alloc_none t x t' :
  table_alloc t x = (None, t') ->
  slots t' = slots t /\ next_id t' = bump_id (next_id t) /\ Forall is_Some (slots t).
Proof.
  unfold table_alloc. destruct (place _ _) as [l|] eqn:E; [done|].
  intros [= <-]. by apply place_none in E.
Qed.

Lemma table_alloc_none_ok t x t' :
  table_alloc t x = (None, t') -> table_ok t -> next_id t < U32_MAX ->
  table_ok t' /\ next_id t' = next_id t + 1 /\ tmap t' = tmap t /\ length (slots t') = length (slots t).
Proof.
  intros E (S1 & S2 & S3) Hn. destruct (table_alloc_none _ _ _ E) as (H1 & H2 & _).
  assert (next_id t' = next_id t + 1) as Hni.
  { rewrite H2. unfold bump_id, wrapping_add, wrap, U32_MAX in *. rewrite Z.mod_small; lia. }
  unfold table_ok, tmap. rewrite H1, Hni. unfold U32_MAX in *.
  split_and!; try done; try lia. eapply Forall_impl; [|exact S2]. cbn. lia.
Qed.

Lemma take_id_spec id l r l' :
  take_id id l = (r, l') -> NoDup (ids l) ->
  r = lmap l !! id /\ lmap l' = delete id (lmap l) /\ ids l' `sublist_of` ids l /\ length l' = length l.
Proof.
  revert r l'. induction l as [|[y|] l IH]; intros r l' Ht Hnd; cbn [take_id] in Ht.
  - injection Ht as <- <-. by rewrite lmap_nil, lookup_empty, delete_empty.
  - rewrite ids_some, list.NoDup_cons in Hnd. destruct Hnd as [Hy Hnd].
    destruct (Z.eqb_spec (idof y) id) as [<-|Hne].
    + injection Ht as <- <-. rewrite lmap_some, lmap_none, lookup_insert_eq, delete_insert_eq.
      rewrite delete_id by (by apply lmap_notin). split_and!; [done|done| |done].
      rewrite ids_some. by apply sublist_cons.
    + destruct (take_id id l) as [r1 l1] eqn:E. injection Ht as <- <-.
      destruct (IH _ _ eq_refl Hnd) as (H1 & H2 & H3 & H4).
      rewrite !lmap_some, !ids_some, lookup_insert_ne, delete_insert_ne, H2 by done.
      split_and!; [done|done|by apply sublist_skip|cbn; by rewrite H4].
  - destruct (take_id id l) as [r1 l1] eqn:E. injection Ht as <- <-.
    destruct (IH _ _ eq_refl Hnd) as (H1 & H2 & H3 & H4).
    rewrite !lmap_none. split_and!; [done|done|done|cbn; by rewrite H4].
Qed.

Lemma table_take_spec t id r t' :
  table_take t id = (r, t') -> table_ok t ->
  r = tmap t !! id /\ tmap t' = delete id (tmap t) /\ table_ok t' /\
  next_id t' = next_id t /\ length (slots t') = length (slots t).
Proof.
  unfold table_take. destruct (take_id id (slots t)) as [r1 l1] eqn:E.
  intros [= <- <-] (Hnd & Hlt & Hn).
  destruct (take_id_spec _ _ _ _ E Hnd) as (H1 & H2 & H3 & H4).
  unfold tmap, table_ok. cbn [slots next_id]. split_and!; try done; try lia.
  - by eapply sublist_NoDup.
  - rewrite list.Forall_forall in Hlt |- *. intros i Hi. apply Hlt.
    by eapply elem_of_sublist.
Qed.

Lemma update_id_spec id f l :
  (forall x, idof (f x) = idof x) -> NoDup (ids l) ->
  lmap (update_id id f l) = alter f id (lmap l) /\ ids (update_id id f l) = ids l /\
  length (update_id id f l) = length l.
Proof.
  intros Hf. induction l as [|[y|] l IH]; intros Hnd; cbn [update_id].
  - split_and!; [|done|done]. apply map_eq. intros i. rewrite lookup_alter.
    by rewrite lmap_nil, lookup_empty; case_decide.
  - rewrite ids_some, list.NoDup_cons in Hnd. destruct Hnd as [Hy Hnd].
    destruct (Z.eqb_spec (idof y) id) as [<-|Hne].
    + rewrite !lmap_some, !ids_some, !Hf, alter_insert_eq. done.
    + destruct (IH Hnd) as (H1 & H2 & H3).
      rewrite !lmap_some, !ids_some, H1, H2, alter_insert_ne by done.
      split_and!; [done|done|cbn; by rewrite H3].
  - destruct (IH Hnd) as (H1 & H2 & H3). rewrite !lmap_none.
    split_and!; [done|done|cbn; by rewrite H3].
Qed.

Lemma table_update_spec t id f :
  (forall x, idof (f x) = idof x) -> table_ok t ->
  tmap (table_update t id f) = alter f id (tmap t) /\ table_ok (table_update t id f) /\
  next_id (table_update t id f) = next_id t /\
  length (slots (table_update t id f)) = length (slots t).
Proof.
  intros Hf (Hnd & Hlt & Hn). unfold table_update, tmap, table_ok. cbn [slots next_id].
  destruct (update_id_spec id f (slots t) Hf Hnd) as (H1 & H2 & H3). rewrite H2.
  split_and!; done || lia.
Qed.

Lemma map_slots_spec f l :
  (forall x, idof (f x) = idof x) ->
  lmap (map (option_map f) l) = f <$> lmap l /\ ids (map (option_map f) l) = ids l.
Proof.
  intros Hf. induction l as [|[y|] l [IH1 IH2]]; cbn [map option_map].
  - by rewrite lmap_nil, fmap_empty.
  - by rewrite !lmap_some, !ids_some, IH1, IH2, fmap_insert, Hf.
  - done.
Qed.

Lemma table_map_spec t f :
  (forall x, idof (f x) = idof x) -> table_ok t ->
  tmap (table_map t f) = f <$> tmap t /\ table_ok (table_map t f) /\
  next_id (table_map t f) = next_id t /\ length (slots (table_map t f)) = length (slots t).
Proof.
  intros Hf (Hnd & Hlt & Hn). unfold table_map, tmap, table_ok. cbn [slots next_id].
  destruct (map_slots_spec f (slots t) Hf) as (H1 & H2). rewrite H2, length_map.
  split_and!; done || lia.
Qed.

Lemma table_new_ok cap : table_ok (table_new cap) /\ tmap (table_new cap) = ∅.
Proof.
  unfold table_ok, tmap, table_new, ids, lmap, entries. cbn [slots next_id].
  assert (omap id (replicate (Z.to_nat cap) (@None A)) = []) as ->.
  { induction (Z.to_nat cap) as [|n IH]; cbn; [done|exact IH]. }
  split_and!; [apply NoDup_nil_2|constructor|lia|lia|done].
Qed.

(** A full table holds as many distinct ids as it has slots. *)
Lemma entries_full l : Forall is_Some l -> length (ids l) = length l.
Proof.
  unfold ids, entries. rewrite length_map.
  induction 1 as [|o l [x ->] Hl IH]; [done|]. cbn. by f_equal.
Qed.

Lemma size_lmap l : NoDup (ids l) -> size (lmap l) = length (ids l).
Proof.
  intros Hnd. unfold lmap. rewrite map_size_list_to_map.
  - unfold ids. by rewrite !length_map.
  - unfold ids in Hnd.
    replace (_.*1) with (map idof (entries l)); [done|].
    induction (entries l) as [|x xs IH]; cbn; [done|]. f_equal. apply IH.
    unfold ids in *. cbn in Hnd. by apply list.NoDup_cons in Hnd as [_ ?].
Qed.

Lemma tmap_size t : table_ok t -> (size (tmap t) <= length (slots t))%nat.
Proof.
  intros (Hnd & _). unfold tmap. rewrite size_lmap by done. unfold ids, entries.
  rewrite length_map. clear. induction (slots t) as [|[x|] l IH]; cbn; lia || exact IH.
Qed.
End Slots.

(** * Sessions *)

Inductive SessionKind := UserTa | Pta.
#[export] Instance SessionKind_eq_dec : EqDecision SessionKind.
Proof. solve_decision. Defined.

Inductive SessionState := Opening | Ready | SessBusy | Closing | SessDead.
#[export] Instance SessionState_eq_dec : EqDecision SessionState.
Proof. solve_decision. Defined.

Record Session := {
  sess_id : SessionId; sess_uuid : Uuid; kind : SessionKind; instance : option InstanceId;
  ta_sess_ctx : usize; sess_state : SessionState; client : Login }.

Definition sess_set_id (i : SessionId) (s : Session) : Session :=
  {| sess_id := i; sess_uuid := sess_uuid s; kind := kind s; instance := instance s;
     ta_sess_ctx := ta_sess_ctx s; sess_state := sess_state s; client := client s |}.
Definition sess_set_state (st : SessionState) (s : Session) : Session :=
  {| sess_id := sess_id s; sess_uuid := sess_uuid s; kind := kind s; instance := instance s;
     ta_sess_ctx := ta_sess_ctx s; sess_state := st; client := client s |}.

Module SessionTable.
Definition t := table Session.
Definition new (cap : usize) : t := table_new cap.
Definition alloc (tb : t) (s : Session) : option SessionId * t := table_alloc sess_set_id tb s.
Definition get (tb : t) (id : SessionId) : option Session := table_get sess_id tb id.
Definition take (tb : t) (id : SessionId) : option Session * t := table_take sess_id tb id.

Definition poison (inst : InstanceId) (s : Session) : Session :=
  if bool_decide (instance s = Some inst) then sess_set_state SessDead s else s.
Definition poison_instance (tb : t) (inst : InstanceId) : t := table_map tb (poison inst).

(** [.count() as u16] *)
Definition count_for_instance (tb : t) (inst : InstanceId) : u16 :=
  as_u16 (zlen (List.filter (fun s => bool_decide (instance s = Some inst) &&
                                      bool_decide (sess_state s <> SessDead))
                            (entries (slots tb)))).

Definition view (tb : t) : gmap Z Session := tmap sess_id tb.
Definition ok (tb : t) : Prop := table_ok sess_id tb.
End SessionTable.

(** * Instances *)

Inductive InstanceState := Creating | Live | Dying | InstDead.
#[export] Instance InstanceState_eq_dec : EqDecision InstanceState.
Proof. solve_decision. Defined.

Record Instance_ (AS : Type) := {
  inst_id : InstanceId; inst_uuid : Uuid; props : TaProperties; aspace : option AS;
  session_count : u16; inst_state : InstanceState; inst_entries : option TaEntryPoints;
  busy : bool }.
Arguments inst_id {AS} _.
Arguments inst_uuid {AS} _.
Arguments props {AS} _.
Arguments aspace {AS} _.
Arguments session_count {AS} _.
Arguments inst_state {AS} _.
Arguments inst_entries {AS} _.
Arguments busy {AS} _.

Section InstanceFields.
Context {AS : Type}.
Implicit Types i : Instance_ AS.

(** Field writes through [get_mut]. *)
Definition inst_with i (id : InstanceId) (a : option AS) (n : u16) (st : InstanceState) (b : bool)
  : Instance_ AS :=
  {| inst_id := id; inst_uuid := inst_uuid i; props := props i; aspace := a; session_count := n;
     inst_state := st; inst_entries := inst_entries i; busy := b |}.
Definition inst_set_id (id : InstanceId) i := inst_with i id (aspace i) (session_count i) (inst_state i) (busy i).
Definition inst_set_aspace (a : option AS) i := inst_with i (inst_id i) a (session_count i) (inst_state i) (busy i).
Definition inst_set_count (n : u16) i := inst_with i (inst_id i) (aspace i) n (inst_state i) (busy i).
Definition inst_set_state (st : InstanceState) i := inst_with i (inst_id i) (aspace i) (session_count i) st (busy i).
Definition inst_set_busy (b : bool) i := inst_with i (inst_id i) (aspace i) (session_count i) (inst_state i) b.
End InstanceFields.

Module InstanceTable.
Section Ops.
Context {AS : Type}.
Definition t := table (Instance_ AS).
Definition new (cap : usize) : t := table_new cap.

Definition is_live_single (uuid : Uuid) (i : Instance_ AS) : bool :=
  beqb (inst_uuid i) uuid && single_instance (props i) && bool_decide (inst_state i = Live).
Definition live_single (tb : t) (uuid : Uuid) : option InstanceId :=
  option_map inst_id (List.find (is_live_single uuid) (entries (slots tb))).

Definition alloc (tb : t) (i : Instance_ AS) : option InstanceId * t := table_alloc inst_set_id tb i.
Definition get (tb : t) (id : InstanceId) : option (Instance_ AS) := table_get inst_id tb id.
(** [get_mut(id)] and a write through the reference; nothing when absent. *)
Definition get_mut (tb : t) (id : InstanceId) (f : Instance_ AS -> Instance_ AS) : t :=
  table_update inst_id tb id f.
Definition drop_id (tb : t) (id : InstanceId) : option (Instance_ AS) * t := table_take inst_id tb id.

Definition view (tb : t) : gmap Z (Instance_ AS) := tmap inst_id tb.
Definition ok (tb : t) : Prop := table_ok inst_id tb.
End Ops.
Arguments t : clear implicits.
End InstanceTable.

(** * Early TAs and pseudo-TAs: append, and the first entry with a UUID *)

Record EarlyTa := {
  et_uuid : Uuid; et_props : TaProperties; et_image : list u8; et_entries : option TaEntryPoints }.

Module EarlyTas.
Definition t := list EarlyTa.
Definition new : t := [].
Definition insert (l : t) (ta : EarlyTa) : t := l ++ [ta].
Definition get (l : t) (uuid : Uuid) : option EarlyTa :=
  List.find (fun ta => beqb (et_uuid ta) uuid) l.
End EarlyTas.

Module PtaRegistry.
Section Ops.
Context {PTA : Type} `{PtaOps PTA}.
Definition t := list PTA.
Definition new : t := [].
Definition register (l : t) (p : PTA) : t := l ++ [p].
Definition get (l : t) (uuid : Uuid) : option PTA := List.find (fun p => beqb (pta_uuid p) uuid) l.
(** A method call through [get_mut(uuid)]: the entry found is replaced. *)
Fixpoint set_first (l : t) (uuid : Uuid) (p' : PTA) : t :=
  match l with
  | [] => []
  | p :: l' => if beqb (pta_uuid p) uuid then p' :: l' else p :: set_first l' uuid p'
  end.
End Ops.
Arguments t : clear implicits.
End PtaRegistry.

(** ** The session table refines a finite map *)

Lemma sess_set_id_id i s : sess_id (sess_set_id i s) = i.
Proof. done. Qed.
Lemma inst_set_id_id {AS} i (x : Instance_ AS) : inst_id (inst_set_id i x) = i.
Proof. done. Qed.
Lemma poison_id inst s : sess_id (SessionTable.poison inst s) = sess_id s.
Proof. unfold SessionTable.poison. by case_bool_decide. Qed.

Lemma live_single_spec {AS} (tb : InstanceTable.t AS) u id :
  InstanceTable.ok tb -> InstanceTable.live_single tb u = Some id ->
  exists i, InstanceTable.view tb !! id = Some i /\ inst_uuid i = u /\
            single_instance (props i) = true /\ inst_state i = Live.
Proof.
  intros (Hnd & _) H. unfold InstanceTable.live_single in H.
  destruct (List.find _ _) as [i|] eqn:E; [|done]. injection H as <-.
  apply List.find_some in E as [Hin Hp]. unfold InstanceTable.is_live_single in Hp. bsplit.
  exists i. split_and!; [|done|done|by case_bool_decide].
  unfold InstanceTable.view, tmap, lmap. apply elem_of_list_to_map_1.
  - unfold ids in Hnd. revert Hnd. clear.
    induction (entries (slots tb)) as [|x l IH]; cbn; [done|].
    rewrite !list.NoDup_cons. intros [H1 H2]. split; [|by apply IH].
    intros Hx. apply H1. revert Hx. clear. induction l as [|y l IH]; cbn; [done|].
    rewrite !elem_of_cons. tauto.
  - apply list_elem_of_In, in_map_iff. by exists i.
Qed.

(** A full table's map has one entry per slot. *)
Lemma table_full_size {A} (idof : A -> Z) (tb : table A) :
  table_ok idof tb -> Forall is_Some (slots tb) -> size (tmap idof tb) = length (slots tb).
Proof.
  intros (Hnd & _) Hf. unfold tmap. rewrite size_lmap by done. by apply entries_full.
Qed.

(** C12. The session table refines a finite map from ids to sessions, as long as
    its 32-bit id counter has not wrapped: [get] is map lookup, [take] returns
    and deletes the entry, [alloc] inserts under an id no live session has (and
    refuses, changing no entry, only when every slot is occupied), and
    [poison_instance] marks exactly the sessions of that instance dead. *)
Theorem session_table_refines tb s id inst : SessionTable.ok tb ->
  SessionTable.get tb id = SessionTable.view tb !! id /\
  (let '(r, tb') := SessionTable.take tb id in
   r = SessionTable.view tb !! id /\ SessionTable.view tb' = delete id (SessionTable.view tb) /\
   SessionTable.ok tb') /\
  (let '(r, tb') := SessionTable.alloc tb s in
   match r with
   | Some i => SessionTable.view tb !! i = None /\
               SessionTable.view tb' = <[i := sess_set_id i s]> (SessionTable.view tb) /\
               (next_id tb < U32_MAX -> SessionTable.ok tb')
   | None => SessionTable.view tb' = SessionTable.view tb /\
             size (SessionTable.view tb) = length (slots tb)
   end) /\
  SessionTable.view (SessionTable.poison_instance tb inst) =
    SessionTable.poison inst <$> SessionTable.view tb.
Proof.
  intros Hok. split_and!; [apply table_get_tmap| | |].
  - destruct (SessionTable.take tb id) as [r tb'] eqn:E.
    destruct (table_take_spec _ _ _ _ _ E Hok) as (-> & H2 & H3 & _). done.
  - destruct (SessionTable.alloc tb s) as [[i|] tb'] eqn:E.
    + destruct (table_alloc_some _ _ sess_set_id_id _ _ _ _ Hok E) as (-> & H1 & H2 & _ & H3).
      split_and!; [done|done|]. intros Hw. by apply H3.
    + destruct (table_alloc_none _ _ _ _ E) as (H1 & _ & H3).
      unfold SessionTable.view. split; [by unfold tmap; rewrite H1|by apply table_full_size].
  - by apply table_map_spec; [intros; apply poison_id|].
Qed.

Definition sample_session : Session :=
  {| sess_id := 0; sess_uuid := replicate 16 7; kind := UserTa; instance := Some 1;
     ta_sess_ctx := 0x40; sess_state := Ready; client := Public |}.

Lemma session_table_refines_witness :
  SessionTable.view (snd (SessionTable.alloc (SessionTable.new 32) sample_session)) =
    <[1 := sess_set_id 1 sample_session]> ∅.
Proof.
  pose proof (session_table_refines (SessionTable.new 32) sample_session 1 1
    (proj1 (table_new_ok sess_id 32))) as H.
  destruct H as (_ & _ & (_ & H & _) & _). exact H.
Defined.

(** The id counter wraps without looking at the live ids: a table whose
    counter has come round (after 2^32 - 2 opens) hands out id 1 while a session
    holds it, and the older session is the one every later lookup finds. *)
Theorem session_id_reused_after_wrap :
  let tb0 := {| slots := [Some (sess_set_id 1 sample_session); None; None]; next_id := U32_MAX |} in
  let '(r1, tb1) := SessionTable.alloc tb0 sample_session in
  let '(r2, tb2) := SessionTable.alloc tb1 (sess_set_state Opening sample_session) in
  SessionTable.ok tb0 /\ r1 = Some U32_MAX /\ r2 = Some 1 /\ ~ SessionTable.ok tb2 /\
  SessionTable.get tb2 1 = Some (sess_set_id 1 sample_session).
Proof.
  split_and!; [|reflexivity..| |reflexivity].
  - split_and!; [apply NoDup_singleton|repeat constructor; cbn; unfold U32_MAX; lia|cbn; unfold U32_MAX; lia..].
  - intros (Hnd & _). apply list.NoDup_cons in Hnd as [Hn _]. apply Hn.
    cbn. rewrite !elem_of_cons. tauto.
Qed.
