(* ===== verification/Elf.v ===== *)
(** The TA image loader: ELF64 program headers and symbols, the contiguous
    image blob and its mapping (src/crates/rustee-os/src/elf.rs), and the
    signature gate in front of it (src/crates/rustee-os/src/loader.rs,
    [load_image]).  Unchecked [+] and [*] of the source are [uadd] and [umul],
    which panic on overflow. *)
From Stdlib Require Import ZArith Lia Ascii String.
From stdpp Require Import base list numbers.
From S2P Require Import Prelude Abi Header Iface.

Local Open Scope Z_scope.
Local Open Scope rust_scope.

Definition TA_CREATE : list u8 := str "TA_CreateEntryPoint".
Definition TA_DESTROY : list u8 := str "TA_DestroyEntryPoint".
Definition TA_OPEN : list u8 := str "TA_OpenSessionEntryPoint".
Definition TA_CLOSE : list u8 := str "TA_CloseSessionEntryPoint".
Definition TA_INVOKE : list u8 := str "TA_InvokeCommandEntryPoint".

Record LoadSeg := {
  va : u64; file_off : usize; file_size : usize; mem_size : usize; exec : bool }.

Record TaSymbols := {
  sym_create : u64; sym_destroy : u64; sym_open_session : u64;
  sym_close_session : u64; sym_invoke : u64 }.

Record ElfImage := {
  img_bytes : list u8; img_props : TaProperties; img_segs : list LoadSeg;
  img_symbols : option TaSymbols }.

(** [r.ok()] on a call that may also panic. *)
Definition ok_opt {E F A} (r : res E A) : res F (option A) :=
  match r with Ok a => Ok (Some a) | Err _ => Ok None | Panic => Panic end.

(** * Program headers *)

(** The segment a PT_LOAD header at [o] describes. *)
Definition read_phdr (bs : list u8) (o : usize) : LoadSeg :=
  {| va := le64 bs (o + 16); file_off := le64 bs (o + 8); file_size := le64 bs (o + 32);
     mem_size := le64 bs (o + 40); exec := negb (Z.land (le32 bs (o + 4)) 1 =? 0) |}.

Definition pt_load_step (bs : list u8) (phoff phentsize : usize) (i : Z) (segs : list LoadSeg)
  : res u32 (list LoadSeg) :=
  let? d := umul i phentsize in
  let? o := uadd phoff d in
  let? e := uadd o 56 in
  if zlen bs <? e then Err TEE_ERROR_BAD_PARAMETERS else
  if negb (le32 bs o =? 1) then Ok segs else
  Ok (segs ++ [read_phdr bs o]).

Definition pt_load (bs : list u8) : res u32 (list LoadSeg) :=
  let phoff := le64 bs 32 in
  let phentsize := le16 bs 54 in
  let phnum := le16 bs 56 in
  rfor (Z.to_nat phnum) 0 (pt_load_step bs phoff phentsize) [].

(** * Symbols *)

Definition str_name (tab : list u8) (off : usize) : option (list u8) := section_name tab off.

(** [names]: the wanted symbols and the values found so far. *)
Abbreviation names_t := (list (list u8 * u64)) (only parsing).
Definition names_init : names_t :=
  [(TA_CREATE, 0); (TA_DESTROY, 0); (TA_OPEN, 0); (TA_CLOSE, 0); (TA_INVOKE, 0)].

Definition set_name (name : list u8) (value : u64) (names : names_t) : names_t :=
  map (fun '(want, slot) => if beqb name want then (want, value) else (want, slot)) names.

(** [for s in 0..n]: [k] iterations are left, [break] ends the loop. *)
Fixpoint sym_scan (k : nat) (s : Z) (bs strtab : list u8) (sym_off ent : usize) (names : names_t)
  : res u32 names_t :=
  match k with
  | O => Ok names
  | S k' =>
      let? d := umul s ent in
      let? so := uadd sym_off d in
      let? e := uadd so 24 in
      if zlen bs <? e then Ok names else
      let name_off := le32 bs so in
      let value := le64 bs (so + 8) in
      let name := default [] (str_name strtab name_off) in
      sym_scan k' (s + 1) bs strtab sym_off ent (set_name name value names)
  end.

(** The iterations that can run: past the end of the image the loop breaks, so
    at most [zlen bs + 1] of the [n] are made ([sym_scan_iterations]). *)
Definition sym_iters (bs : list u8) (n : Z) : nat := Z.to_nat (Z.min n (zlen bs + 1)).

(** One section header of the scan. *)
Definition sym_section (bs : list u8) (shoff shentsize : usize) (i : Z) (names : names_t)
  : res u32 names_t :=
  let? d := umul i shentsize in
  let? o := uadd shoff d in
  let? e := uadd o 64 in
  if zlen bs <? e then Err TEE_ERROR_BAD_PARAMETERS else
  let sh_type := le32 bs (o + 4) in
  if negb (sh_type =? 2) && negb (sh_type =? 11) then Ok names else
  let sh_link := le32 bs (o + 40) in
  let sym_off := le64 bs (o + 24) in
  let sym_size := le64 bs (o + 32) in
  let ent := le64 bs (o + 56) in
  if ent =? 0 then Ok names else
  let? d := umul sh_link shentsize in
  let? str_hdr := uadd shoff d in
  let? e := uadd str_hdr 40 in
  if zlen bs <? e then Ok names else
  let str_off := le64 bs (str_hdr + 24) in
  let str_size := le64 bs (str_hdr + 32) in
  let? str_end := uadd str_off str_size in
  let? strtab := ok_or (get_range bs str_off str_end) TEE_ERROR_BAD_PARAMETERS in
  let n := sym_size / ent in
  sym_scan (sym_iters bs n) 0 bs strtab sym_off ent names.

Definition name_value (names : names_t) (i : nat) : u64 :=
  match names !! i with Some (_, v) => v | None => 0 end.

Definition ta_symbols (bs : list u8) : res u32 TaSymbols :=
  let shoff := le64 bs 40 in
  let shentsize := le16 bs 58 in
  let shnum := le16 bs 60 in
  let? names := rfor (Z.to_nat shnum) 0 (sym_section bs shoff shentsize) names_init in
  if existsb (fun '(_, v) => v =? 0) names then Err TEE_ERROR_BAD_PARAMETERS else
  Ok {| sym_create := name_value names 0; sym_destroy := name_value names 1;
        sym_open_session := name_value names 2; sym_close_session := name_value names 3;
        sym_invoke := name_value names 4 |}.

Definition parse_elf (bs : list u8) : res u32 ElfImage :=
  let? head := find_ta_head bs in
  let? props := parse_ta_head head in
  if (zlen bs <? 64) || negb (is_elf bs)
  then Ok {| img_bytes := bs; img_props := props; img_segs := []; img_symbols := None |} else
  let? segs := pt_load bs in
  let? symbols := ok_opt (ta_symbols bs) in
  Ok {| img_bytes := bs; img_props := props; img_segs := segs; img_symbols := symbols |}.

(** * The image blob *)

Definition MAX_TA_SPAN : usize := 16 * 1024 * 1024.

(** [segs.iter().map(|s| s.va).min().unwrap()], and the largest end. *)
Definition min_va_of (segs : list LoadSeg) : u64 :=
  match segs with [] => 0 | s :: t => fold_left (fun m x => Z.min m (va x)) t (va s) end.
Definition seg_end (s : LoadSeg) : u64 := sat_add 64 (va s) (Z.max (mem_size s) (file_size s)).
Definition max_end_of (segs : list LoadSeg) : u64 :=
  match segs with [] => 0 | s :: t => fold_left (fun m x => Z.max m (seg_end x)) t (seg_end s) end.

(** The copy of one segment: [blob[off..dest].copy_from_slice(src)]. *)
Definition copy_seg (bs : list u8) (min_va : u64) (seg : LoadSeg) (blob : list u8)
  : res u32 (list u8) :=
  let off := va seg - min_va in
  let n := Z.min (file_size seg) (mem_size seg) in
  let end_ := sat_add 64 (file_off seg) n in
  let? src := ok_or (get_range bs (file_off seg) end_) TEE_ERROR_BAD_PARAMETERS in
  let? dest := ok_or (checked_add 64 off n) TEE_ERROR_BAD_PARAMETERS in
  if zlen blob <? dest then Err TEE_ERROR_BAD_PARAMETERS else
  if negb (zlen src =? dest - off) then Panic else
  Ok (splice blob off src).

Fixpoint copy_segs (bs : list u8) (min_va : u64) (segs : list LoadSeg) (blob : list u8)
  : res u32 (list u8) :=
  match segs with
  | [] => Ok blob
  | seg :: t => let? blob' := copy_seg bs min_va seg blob in copy_segs bs min_va t blob'
  end.

Definition elf_blob (bs : list u8) (segs : list LoadSeg) : res u32 (list u8) :=
  let min_va := min_va_of segs in
  let max_end := max_end_of segs in
  if max_end <? min_va then Err TEE_ERROR_BAD_PARAMETERS else
  let span := max_end - min_va in
  if (span =? 0) || (MAX_TA_SPAN <? span) then Err TEE_ERROR_BAD_PARAMETERS else
  copy_segs bs min_va segs (zeros span).

(** [cfg(target_arch = "aarch64")] is the flag [aarch64]: elsewhere nothing is bound. *)
Definition bind_symbols (aarch64 : bool) (symbols : option TaSymbols) (slide : u64)
  : option TaEntryPoints :=
  match symbols with
  | None => None
  | Some s =>
      let adj v := wrapping_add 64 v slide in
      if aarch64 then
        Some {| ep_create := adj (sym_create s); ep_destroy := adj (sym_destroy s);
                ep_open_session := adj (sym_open_session s);
                ep_close_session := adj (sym_close_session s); ep_invoke := adj (sym_invoke s) |}
      else None
  end.

Section Loader.
Context {H AS : Type} `{!HalOps H AS} `{!CryptoProvider} (aarch64 : bool).

Definition map_elf (asp : AS) (bs : list u8) : res u32 (option TaEntryPoints) * AS :=
  match parse_elf bs with
  | Err e => (Err e, asp)
  | Panic => (Panic, asp)
  | Ok img =>
      match img_segs img with
      | [] => (Ok (bind_symbols aarch64 (img_symbols img) 0), asp)
      | segs =>
          match elf_blob bs segs with
          | Err e => (Err e, asp)
          | Panic => (Panic, asp)
          | Ok blob =>
              let '(r, asp') := map_image (H:=H) asp (min_va_of segs) blob Perms_RX in
              match r with
              | inr mapped =>
                  let slide := wrapping_sub 64 mapped (min_va_of segs) in
                  (Ok (bind_symbols aarch64 (img_symbols img) slide), asp')
              | inl _ => (Err TEE_ERROR_BAD_PARAMETERS, asp')
              end
          end
      end
  end.

(** * The signature gate *)

Record Loaded := { ld_props : TaProperties; ld_symbols : option TaSymbols }.

Definition is_rtsg (bs : list u8) : bool := (4 <=? zlen bs) && (le32 bs 0 =? RTSG_MAGIC).

(** What the digest covers: UUID, version, image. *)
Definition signed_part (img : SignedImage) : list u8 :=
  si_uuid img ++ to_le 4 (si_ta_version img) ++ si_elf img.

Definition verify_rtsg (bs : list u8) : res u32 (list u8) :=
  let? img := parse_rtsg bs in
  let digest := sha256 (signed_part img) in
  if negb (beqb (si_hash img) digest) || negb (rsa_pkcs1_verify V0_DEV_PUBKEY digest (si_sig img))
  then Err TEE_ERROR_SECURITY else Ok (si_elf img).

Definition load_image (bs : list u8) : res u32 Loaded :=
  let? elf := if is_rtsg bs then verify_rtsg bs else Ok bs in
  let? parsed := parse_elf elf in
  Ok {| ld_props := img_props parsed; ld_symbols := img_symbols parsed |}.
End Loader.

(** * Lemmas *)

Definition seg_wf (s : LoadSeg) : Prop :=
  in_width 64 (va s) /\ in_width 64 (file_off s) /\ in_width 64 (file_size s) /\
  in_width 64 (mem_size s).

Lemma read_phdr_wf bs o : bytes_ok bs -> seg_wf (read_phdr bs o).
Proof. intros. split_and!; cbn; auto with rust. Qed.

Lemma pt_load_wf bs segs : bytes_ok bs -> pt_load bs = Ok segs -> Forall seg_wf segs.
Proof.
  intros Hb. apply rfor_ok_inv; [|constructor]. intros j s s' Hs. unfold pt_load_step.
  destruct (umul _ _); cbn [rbind]; [|done..]. destruct (uadd _ _); cbn [rbind]; [|done..].
  destruct (uadd _ 56); cbn [rbind]; [|done..]. destruct (_ <? _); [done|].
  destruct (negb _); intros [= <-]; [done|]. apply Forall_app. split; [done|].
  repeat constructor; by apply read_phdr_wf.
Qed.

(** One spare iteration decides: after [zlen bs + 1 - s] iterations the loop has
    stopped, so any larger bound gives the same result. *)
Lemma sym_scan_more k k' s bs strtab sym_off ent names :
  0 <= s -> 0 <= sym_off -> 1 <= ent ->
  (Z.to_nat (zlen bs + 1 - s) <= k)%nat -> (k <= k')%nat -> 0 < Z.of_nat k ->
  sym_scan k s bs strtab sym_off ent names = sym_scan k' s bs strtab sym_off ent names.
Proof.
  revert k' s names. induction k as [|k IH]; intros k' s names Hs Ho He Hk Hk' H0; [lia|].
  destruct k' as [|k']; [lia|]. cbn [sym_scan].
  destruct (umul s ent) eqn:E1; cbn [rbind]; [|done..].
  destruct (uadd sym_off a) eqn:E2; cbn [rbind]; [|done..].
  destruct (uadd a0 24) eqn:E3; cbn [rbind]; [|done..].
  destruct (Z.ltb_spec (zlen bs) a1); [done|].
  assert (a = s * ent) as -> by (unfold umul in E1; destruct (_ <? _); cbn in E1; congruence).
  assert (a0 = sym_off + s * ent) as ->
    by (unfold uadd, checked_add in E2; destruct (_ <? _); cbn in E2; congruence).
  assert (a1 = sym_off + s * ent + 24) as ->
    by (unfold uadd, checked_add in E3; destruct (_ <? _); cbn in E3; congruence).
  assert (s <= s * ent) by nia. apply IH; lia.
Qed.

Lemma sym_scan_iterations n bs strtab sym_off ent names :
  0 <= n -> 0 <= sym_off -> 1 <= ent ->
  sym_scan (sym_iters bs n) 0 bs strtab sym_off ent names =
  sym_scan (Z.to_nat n) 0 bs strtab sym_off ent names.
Proof.
  intros. unfold sym_iters. pose proof (zlen_nonneg bs).
  destruct (Z.le_gt_cases n (zlen bs + 1)); [by rewrite Z.min_l|].
  rewrite Z.min_r by lia. apply sym_scan_more; lia.
Qed.

(** Extremes of the segment list. *)
Lemma fold_min_le t (m : Z) :
  fold_left (fun m x => Z.min m (va x)) t m <= m /\
  Forall (fun s => fold_left (fun m x => Z.min m (va x)) t m <= va s) t.
Proof.
  revert m. induction t as [|s t IH]; intros m; cbn; [split; [lia|constructor]|].
  destruct (IH (Z.min m (va s))) as [H1 H2]. split; [lia|]. constructor; [lia|done].
Qed.

Lemma min_va_le segs : Forall (fun s => min_va_of segs <= va s) segs.
Proof.
  destruct segs as [|s t]; [constructor|]. cbn [min_va_of].
  destruct (fold_min_le t (va s)). by constructor.
Qed.

(** The byte the segments put at offset [x] of the image: the last segment
    whose file part covers it, 0 (BSS, gaps) otherwise. *)
Definition seg_covers (min_va : u64) (x : Z) (s : LoadSeg) : bool :=
  (va s - min_va <=? x) && (x <? va s - min_va + Z.min (file_size s) (mem_size s)).
Definition image_byte (bs : list u8) (min_va : u64) (segs : list LoadSeg) (x : Z) (init : u8) : u8 :=
  fold_left (fun b s => if seg_covers min_va x s
                        then at_ bs (file_off s + (x - (va s - min_va))) else b) segs init.

Lemma at_lookup l x v : 0 <= x -> l !! Z.to_nat x = Some v -> at_ l x = v.
Proof. intros ? Hl. unfold at_. by rewrite nth_lookup, Hl. Qed.

Lemma at_splice l off new x :
  0 <= off -> off + zlen new <= zlen l -> 0 <= x ->
  at_ (splice l off new) x =
    if (off <=? x) && (x <? off + zlen new) then at_ new (x - off) else at_ l x.
Proof.
  intros Ho Hn Hx. unfold at_. rewrite !nth_lookup.
  destruct (Z.leb_spec off x), (Z.ltb_spec x (off + zlen new)); cbn [andb];
    unfold zlen in *.
  - rewrite lookup_splice_in by (unfold zlen; lia). do 2 f_equal. lia.
  - by rewrite lookup_splice_out by (unfold zlen; lia).
  - by rewrite lookup_splice_out by (unfold zlen; lia).
  - lia.
Qed.

Lemma at_sub l off n x : 0 <= off -> 0 <= x < n -> at_ (sub l off n) x = at_ l (off + x).
Proof.
  intros. unfold at_. rewrite !nth_lookup, lookup_sub by lia. do 2 f_equal. lia.
Qed.

Lemma copy_seg_spec bs min_va seg blob :
  zlen bs < 2 ^ 63 -> seg_wf seg -> min_va <= va seg ->
  match copy_seg bs min_va seg blob with
  | Ok blob' => zlen blob' = zlen blob /\
      forall x, 0 <= x < zlen blob ->
        at_ blob' x = image_byte bs min_va [seg] x (at_ blob x)
  | Err e => e = TEE_ERROR_BAD_PARAMETERS
  | Panic => False
  end.
Proof.
  intros Hbs (Hva & Hfo & Hfs & Hms) Hmin. unfold copy_seg.
  destruct (get_range _ _ _) as [src|] eqn:E; cbn [ok_or rbind]; [|done].
  apply get_range_inv in E as (H1 & H2 & ->). unfold in_width, sat_add in *.
  unfold checked_add. destruct (Z.ltb_spec (va seg - min_va + Z.min (file_size seg) (mem_size seg)) (2 ^ 64));
    cbn [ok_or rbind]; [|done].
  match goal with |- context [zlen blob <? ?d] => destruct (Z.ltb_spec (zlen blob) d) end; [done|].
  rewrite Z.min_l in * by lia.
  replace (file_off seg + Z.min (file_size seg) (mem_size seg) - file_off seg)
    with (Z.min (file_size seg) (mem_size seg)) by lia.
  set (n := Z.min (file_size seg) (mem_size seg)) in *.
  rewrite zlen_sub by lia. rewrite (proj2 (Z.eqb_eq _ _)) by lia. cbn [negb].
  rewrite zlen_splice by (rewrite ?zlen_sub; lia). split; [done|]. intros x Hx.
  rewrite at_splice by (rewrite ?zlen_sub; lia). rewrite zlen_sub by lia.
  unfold image_byte, seg_covers. cbn [fold_left]. fold n.
  destruct (Z.leb_spec (va seg - min_va) x), (Z.ltb_spec x (va seg - min_va + n)); cbn [andb]; try done.
  apply at_sub; lia.
Qed.

Lemma copy_segs_spec bs min_va segs blob :
  zlen bs < 2 ^ 63 -> Forall seg_wf segs -> Forall (fun s => min_va <= va s) segs ->
  match copy_segs bs min_va segs blob with
  | Ok blob' => zlen blob' = zlen blob /\
      forall x, 0 <= x < zlen blob -> at_ blob' x = image_byte bs min_va segs x (at_ blob x)
  | Err e => e = TEE_ERROR_BAD_PARAMETERS
  | Panic => False
  end.
Proof.
  intros Hbs Hwf. revert blob. induction Hwf as [|s t Hs Ht IH]; intros blob Hmin; cbn [copy_segs]; [done|].
  apply Forall_cons_1 in Hmin as [Hm Hmin].
  pose proof (copy_seg_spec bs min_va s blob Hbs Hs Hm) as Hc.
  destruct (copy_seg _ _ _ _) as [b1| |]; cbn [rbind]; [|done..]. destruct Hc as [HL Hc].
  specialize (IH b1 Hmin). destruct (copy_segs _ _ _ _) as [b2| |]; [|done..].
  destruct IH as [HL2 IH]. split; [lia|]. intros x Hx. rewrite IH, Hc by lia. done.
Qed.

Lemma elf_blob_spec bs segs :
  zlen bs < 2 ^ 63 -> Forall seg_wf segs ->
  match elf_blob bs segs with
  | Ok blob => 0 < zlen blob <= MAX_TA_SPAN /\ zlen blob = max_end_of segs - min_va_of segs /\
      forall x, 0 <= x < zlen blob -> at_ blob x = image_byte bs (min_va_of segs) segs x 0
  | Err e => e = TEE_ERROR_BAD_PARAMETERS
  | Panic => False
  end.
Proof.
  intros Hbs Hwf. unfold elf_blob. destruct (Z.ltb_spec (max_end_of segs) (min_va_of segs)); [done|].
  destruct (_ || _) eqn:Eg; [done|]. bsplit.
  pose proof (copy_segs_spec bs (min_va_of segs) segs (zeros (max_end_of segs - min_va_of segs))
    Hbs Hwf (min_va_le segs)) as Hc.
  destruct (copy_segs _ _ _ _) as [blob| |]; [|done..]. destruct Hc as [HL Hc].
  rewrite zlen_zeros in * by lia. split_and!; [lia|lia|done|]. intros x Hx. rewrite Hc by lia.
  f_equal. unfold at_, zeros. rewrite nth_lookup.
  by rewrite (proj2 (lookup_replicate _ _ _ _)) by (split; [done|lia]).
Qed.

Lemma parse_elf_segs bs img : bytes_ok bs -> parse_elf bs = Ok img -> Forall seg_wf (img_segs img).
Proof.
  intros Hb. unfold parse_elf. destruct (find_ta_head bs); cbn [rbind]; [|done..].
  destruct (parse_ta_head _); cbn [rbind]; [|done..].
  destruct (_ || _); [intros [= <-]; constructor|].
  destruct (pt_load bs) eqn:E; cbn [rbind]; [|done..].
  destruct (ok_opt _); cbn [rbind]; [|done..]. intros [= <-]. by apply (pt_load_wf bs).
Qed.

(** A signed envelope is not an ELF file and not a raw header, and its first
    word tells them apart. *)
Lemma rtsg_not_elf bs : is_rtsg bs = true -> parse_elf bs = Err TEE_ERROR_BAD_PARAMETERS.
Proof.
  unfold is_rtsg. intros Hr. bsplit. unfold parse_elf, find_ta_head.
  rewrite (proj2 (Z.eqb_neq _ _)), andb_false_r by (rewrite H0; by unfold RTSG_MAGIC, RTAH_MAGIC).
  unfold elf64_section, is_elf. destruct (zlen bs <? 64); [done|]. cbn [orb].
  destruct (beqb (sub bs 0 4) ELF_MAGIC) eqn:E; [|done].
  apply beqb_eq in E. unfold le32 in H0. rewrite E in H0. discriminate H0.
Qed.

(** * Properties *)

Section LoaderProps.
Context {H AS : Type} `{!HalOps H AS} `{!CryptoProvider} (aarch64 : bool).

(** C7. Mapping a TA image: when [map_elf] succeeds on an image with
    loadable segments, what it maps (read-execute, at the lowest segment
    address) is at most 16 MiB, spans exactly to the highest segment end, holds
    at every offset the file byte of the last segment covering it and 0
    elsewhere (BSS, gaps); the GP entry points are the image's five symbols
    shifted by the load offset.  Building the image never panics. *)
Theorem map_elf_image (asp asp' : AS) bs eps :
  bytes_ok bs -> zlen bs < 2 ^ 63 -> map_elf (H:=H) aarch64 asp bs = (Ok eps, asp') ->
  exists img, parse_elf bs = Ok img /\
  ((img_segs img = [] /\ asp' = asp /\ eps = bind_symbols aarch64 (img_symbols img) 0) \/
   exists blob mapped,
     map_image (H:=H) asp (min_va_of (img_segs img)) blob Perms_RX = (inr mapped, asp') /\
     0 < zlen blob <= MAX_TA_SPAN /\
     zlen blob = max_end_of (img_segs img) - min_va_of (img_segs img) /\
     (forall x, 0 <= x < zlen blob ->
        at_ blob x = image_byte bs (min_va_of (img_segs img)) (img_segs img) x 0) /\
     eps = bind_symbols aarch64 (img_symbols img)
             (wrapping_sub 64 mapped (min_va_of (img_segs img)))).
Proof.
  intros Hb HL. unfold map_elf. destruct (parse_elf bs) as [img| |] eqn:Ep; [|done..].
  pose proof (parse_elf_segs bs img Hb Ep) as Hwf. intros Hm. exists img. split; [done|].
  destruct (img_segs img) as [|s t] eqn:Es; [left; by injection Hm as <- <-|right].
  pose proof (elf_blob_spec bs (s :: t) HL Hwf) as Hblob.
  destruct (elf_blob bs (s :: t)) as [blob| |]; [|done..].
  destruct (map_image asp (min_va_of (s :: t)) blob Perms_RX) as [[|m] a1] eqn:Em; [done|].
  injection Hm as <- <-. destruct Hblob as (H1 & H2 & H3). exists blob, m. done.
Qed.

(** C8. The signature gate: whatever [load_image] accepts from a signed
    envelope carries the digest of its own UUID, version and image, a signature
    over that digest that verifies under the development key, and is the inner
    image's header.  A wrong digest or signature is [TEE_ERROR_SECURITY]. *)
Theorem load_image_signed bs : is_rtsg bs = true ->
  match load_image bs with
  | Ok l => exists img parsed, parse_rtsg bs = Ok img /\
      si_hash img = sha256 (signed_part img) /\
      rsa_pkcs1_verify V0_DEV_PUBKEY (sha256 (signed_part img)) (si_sig img) = true /\
      parse_elf (si_elf img) = Ok parsed /\
      ld_props l = img_props parsed /\ ld_symbols l = img_symbols parsed
  | Err e => forall img, parse_rtsg bs = Ok img ->
      si_hash img <> sha256 (signed_part img) \/
      rsa_pkcs1_verify V0_DEV_PUBKEY (sha256 (signed_part img)) (si_sig img) = false ->
      e = TEE_ERROR_SECURITY
  | Panic => exists img, parse_rtsg bs = Ok img /\ parse_elf (si_elf img) = Panic
  end.
Proof.
  intros Hr. unfold load_image, verify_rtsg. rewrite Hr.
  destruct (parse_rtsg bs) as [img|e|] eqn:E; cbn [rbind];
    [|done|by unfold parse_rtsg in E; repeat case_match].
  destruct (beqb (si_hash img) _) eqn:Eh; cbn [negb orb rbind].
  2:{ intros img' [= <-] _. done. }
  apply beqb_eq in Eh. destruct (rsa_pkcs1_verify _ _ _) eqn:Es; cbn [negb rbind].
  2:{ intros img' [= <-] _. done. }
  destruct (parse_elf (si_elf img)) as [parsed|e|] eqn:Ep; cbn [rbind].
  - exists img, parsed. done.
  - intros img' [= <-] [?|?]; congruence.
  - by exists img.
Qed.

(** Every error of the loader is one of two codes. *)
Definition load_error (e : u32) : Prop := e = TEE_ERROR_BAD_PARAMETERS \/ e = TEE_ERROR_SECURITY.

Ltac load_errs := errs_walk; try (unfold errs, load_error; first [by left|by right]).

Lemma section_scan_errs n i image name strtab shoff shentsize : errs load_error (section_scan n i image name strtab shoff shentsize).
Proof. revert i. induction n as [|n IH]; intros i; cbn [section_scan]; load_errs. apply IH. Qed.

Lemma parse_elf_errs bs : errs load_error (parse_elf bs).
Proof.
  unfold parse_elf, find_ta_head, elf64_section, parse_ta_head, validate, pt_load, pt_load_step. load_errs; [apply section_scan_errs|].
  by destruct (ta_symbols bs).
Qed.

Lemma load_image_errs bs : errs load_error (load_image bs).
Proof. unfold load_image, verify_rtsg, parse_rtsg. load_errs. apply parse_elf_errs. Qed.

(** The kernel verifies the envelope and then maps the bytes it was given:
    [map_elf] of a signed envelope is always [TEE_ERROR_BAD_PARAMETERS], with
    nothing mapped, whatever the signature says. *)
Theorem signed_image_never_maps (asp : AS) bs :
  is_rtsg bs = true -> map_elf (H:=H) aarch64 asp bs = (Err TEE_ERROR_BAD_PARAMETERS, asp).
Proof. intros Hr. unfold map_elf. by rewrite rtsg_not_elf. Qed.
End LoaderProps.

(** * Concrete images *)

Definition put (b : list u8) (o : Z) (v : list u8) : list u8 := splice b o v.

(** [loadable_elf] of the source's tests, with a symbol table added: one
    PT_LOAD at 0x10000 covering the file with 16 bytes of BSS. *)
Definition sample_strtab : list u8 :=
  [0] ++ SECTION_NAME ++ [0] ++ TA_CREATE ++ [0] ++ TA_DESTROY ++ [0] ++ TA_OPEN ++ [0] ++
  TA_CLOSE ++ [0] ++ TA_INVOKE ++ [0].
Definition sample_syms : list u8 :=
  let sym nm v := to_le 4 nm ++ zeros 4 ++ to_le 8 v ++ zeros 8 in
  sym 17 0x10040 ++ sym 37 0x10044 ++ sym 58 0x10048 ++ sym 83 0x1004c ++ sym 109 0x10050.
Definition sample_elf (p : TaProperties) : list u8 :=
  let str_off := 120 in
  let head_off := str_off + zlen sample_strtab in
  let sym_off := head_off + 40 in
  let shoff := sym_off + zlen sample_syms in
  let size := shoff + 4 * 64 in
  let b := zeros size in
  let b := put b 0 (ELF_MAGIC ++ [2; 1; 1]) in
  let b := put (put b 32 (to_le 8 64)) 40 (to_le 8 shoff) in
  let b := put (put (put b 52 (to_le 2 64)) 54 (to_le 2 56)) 56 (to_le 2 1) in
  let b := put (put (put b 58 (to_le 2 64)) 60 (to_le 2 4)) 62 (to_le 2 2) in
  let b := put (put b 64 (to_le 4 1)) 68 (to_le 4 5) in
  let b := put (put (put b 80 (to_le 8 0x10000)) 96 (to_le 8 size)) 104 (to_le 8 (size + 16)) in
  let b := put (put (put b str_off sample_strtab) head_off (encode_ta_head p)) sym_off sample_syms in
  let b := put (put b (shoff + 64) (to_le 4 1)) (shoff + 68) (to_le 4 1) in
  let b := put (put b (shoff + 88) (to_le 8 head_off)) (shoff + 96) (to_le 8 40) in
  let b := put b (shoff + 132) (to_le 4 3) in
  let b := put (put b (shoff + 152) (to_le 8 str_off)) (shoff + 160) (to_le 8 (zlen sample_strtab)) in
  let b := put (put b (shoff + 196) (to_le 4 2)) (shoff + 232) (to_le 4 2) in
  let b := put (put b (shoff + 216) (to_le 8 sym_off)) (shoff + 224) (to_le 8 (zlen sample_syms)) in
  put b (shoff + 248) (to_le 8 24).

(** [RecAs] of the source's tests: records one mapping and answers [load]. *)
Record RecAs := { rec_va : u64; rec_blob : list u8; rec_load : u64 }.
Definition rec_hal : HalOps unit RecAs :=
  {| hal_entropy_origin := fun _ => Isolated;
     new_address_space := fun h => ({| rec_va := 0; rec_blob := []; rec_load := 0 |}, h);
     shm_len := fun _ _ => None; shm_sync_in := fun _ _ => None; shm_sync_out := fun _ _ => None;
     shm_map_into := fun _ _ _ _ => None;
     map_image := fun a v b _ => (inr (rec_load a), {| rec_va := v; rec_blob := b; rec_load := rec_load a |});
     as_unmap := fun a _ => a; as_drop_all := fun a => a |}.

Definition rec_as0 : RecAs := {| rec_va := 0; rec_blob := []; rec_load := 0x50000000 |}.

Lemma map_elf_image_witness :
  let bs := sample_elf sample_props in
  exists eps blob mapped,
    fst (@map_elf unit RecAs rec_hal true rec_as0 bs) = Ok (Some eps) /\
    ep_invoke eps = 0x50000050 /\
    @map_image unit RecAs rec_hal rec_as0 0x10000 blob Perms_RX =
      (inr mapped, snd (@map_elf unit RecAs rec_hal true rec_as0 bs)) /\ zlen blob = 688.
Proof.
  intros bs.
  pose proof (@map_elf_image unit RecAs rec_hal true rec_as0
    (snd (@map_elf unit RecAs rec_hal true rec_as0 bs)) bs
    (Some {| ep_create := 0x50000040; ep_destroy := 0x50000044; ep_open_session := 0x50000048;
             ep_close_session := 0x5000004c; ep_invoke := 0x50000050 |})) as Hm.
  destruct Hm as (img & Hp & [(Hs & _)|(blob & mapped & Hmap & _ & HL & _)]);
    [by_compute|vm_compute; reflexivity|vm_compute; reflexivity| |].
  - exfalso. vm_compute in Hp. injection Hp as <-. discriminate Hs.
  - exists {| ep_create := 0x50000040; ep_destroy := 0x50000044; ep_open_session := 0x50000048;
             ep_close_session := 0x5000004c; ep_invoke := 0x50000050 |}, blob, mapped.
    vm_compute in Hp. injection Hp as <-.
    split_and!; [vm_compute; reflexivity|reflexivity|exact Hmap|exact HL].
Defined.

(** A provider whose digest is the first two bytes and whose signatures are [[1]]. *)
Definition sample_crypto : CryptoProvider :=
  {| sha256 := take 2; rsa_pkcs1_verify := fun _ _ sig => beqb sig [1]; V0_DEV_PUBKEY := [] |}.
Definition envelope (elf : list u8) : list u8 :=
  to_le 4 RTSG_MAGIC ++ to_le 2 0 ++ to_le 2 1 ++ replicate 16 6 ++ to_le 4 3 ++
  to_le 4 (zlen elf) ++ to_le 2 2 ++ to_le 2 1 ++ [6; 6] ++ [1] ++ elf.
Definition sample_signed : list u8 := envelope (sample_elf sample_props).

Lemma load_image_signed_witness :
  exists l, @load_image sample_crypto sample_signed = Ok l /\ ld_props l = sample_props.
Proof.
  pose proof (@load_image_signed sample_crypto sample_signed eq_refl) as Hs.
  destruct (@load_image sample_crypto sample_signed) as [l| |] eqn:E; [|vm_compute in E; discriminate E..].
  exists l. split; [done|]. destruct Hs as (img & parsed & H1 & _ & _ & H2 & -> & _).
  vm_compute in H1. injection H1 as <-. vm_compute in H2. injection H2 as <-. reflexivity.
Defined.

Lemma signed_image_never_maps_witness :
  (exists l, @load_image sample_crypto sample_signed = Ok l) /\
  @map_elf unit RecAs rec_hal true rec_as0 sample_signed = (Err TEE_ERROR_BAD_PARAMETERS, rec_as0).
Proof.
  split; [eexists; vm_compute; reflexivity|].
  exact (@signed_image_never_maps unit RecAs rec_hal true rec_as0 sample_signed eq_refl).
Defined.

(** A 64-byte ELF header whose section-header offset is [u64::MAX]. *)
Definition hostile_elf : list u8 :=
  put (put (put (zeros 64) 0 (ELF_MAGIC ++ [2; 1; 1])) 40 (to_le 8 U64_MAX)) 58 (to_le 2 64).

(** The section walk adds offsets of the image without a check: an
    unsigned image of 64 bytes from the REE panics the kernel with arithmetic
    overflow before any header is validated, whatever the crypto provider. *)
Theorem hostile_image_panics (C : CryptoProvider) :
  bytes_ok hostile_elf /\ zlen hostile_elf = 64 /\ is_rtsg hostile_elf = false /\
  load_image hostile_elf = Panic.
Proof. split_and!; [by_compute|reflexivity|reflexivity|vm_compute; reflexivity]. Qed.
