(* ===== verification/Kernel.v ===== *)
(** The TEE kernel (src/crates/rustee-os/src/lib.rs, [Kernel<H, C>]): session
    open/invoke/close routing to pseudo-TAs and user TAs, TA instances and
    their locks, parameter mapping, the LOAD_TA RPC and panic containment.

    The kernel is a record passed explicitly.  A handler returns an output and
    the new kernel, or panics in a kernel state ([kres]); [on_panic] is the
    entry the source provides for the latter. *)
From Stdlib Require Import ZArith Lia Ascii String.
From stdpp Require Import base list gmap numbers.
From S2P Require Import Prelude Abi Header Iface Tables Elf.

Local Open Scope Z_scope.

Definition MAX_SESSIONS : usize := 32.
Definition MAX_INSTANCES : usize := 16.

Definition VIRT_ENTROPY_NOTICE : list u8 :=
  str "RUSTEE entropy is REE-sourced (virt/host); not a product TEE RNG".
Definition VIRT_HUK_NOTICE : list u8 :=
  str "RUSTEE HUK is a compile-time test key (virt); not a product HUK".

(** [Yielding::LoadTa]: the one open that waits for its image. *)
Record Yielding := {
  y_uuid : Uuid; y_login : Login; y_params : Params; y_cancel_id : u32; y_timeout_ms : u32 }.

Record Kernel (H AS PTA : Type) := {
  entropy_origin : EntropyOrigin;
  sessions : SessionTable.t;
  instances : InstanceTable.t AS;
  ptas : PtaRegistry.t PTA;
  early : EarlyTas.t;
  yielding : option Yielding;
  current_instance : option InstanceId;
  current_pta : bool;
  notices_ok : bool;
  cancelled_ids : list u32;
  hal : H }.
Arguments entropy_origin {H AS PTA} _.
Arguments sessions {H AS PTA} _.
Arguments instances {H AS PTA} _.
Arguments ptas {H AS PTA} _.
Arguments early {H AS PTA} _.
Arguments yielding {H AS PTA} _.
Arguments current_instance {H AS PTA} _.
Arguments current_pta {H AS PTA} _.
Arguments notices_ok {H AS PTA} _.
Arguments cancelled_ids {H AS PTA} _.
Arguments hal {H AS PTA} _.

Section KernelOps.
Context {H AS PTA : Type} `{!HalOps H AS} `{!CryptoProvider} `{!PtaOps PTA} `{!TaCode H}.
Context (aarch64 : bool).
Abbreviation K := (Kernel H AS PTA).
Implicit Types k : K.

(** A handler's outcome. *)
Inductive kres (A : Type) : Type :=
| KRet (a : A) (k : K)
| KPanic (k : K).
Arguments KRet {A} a k.
Arguments KPanic {A} k.

(** Field writes. *)
Definition set_sessions k (v : SessionTable.t) : K :=
  {| entropy_origin := entropy_origin k; sessions := v; instances := instances k; ptas := ptas k;
     early := early k; yielding := yielding k; current_instance := current_instance k;
     current_pta := current_pta k; notices_ok := notices_ok k; cancelled_ids := cancelled_ids k; hal := hal k |}.
Definition set_instances k (v : InstanceTable.t AS) : K :=
  {| entropy_origin := entropy_origin k; sessions := sessions k; instances := v; ptas := ptas k;
     early := early k; yielding := yielding k; current_instance := current_instance k;
     current_pta := current_pta k; notices_ok := notices_ok k; cancelled_ids := cancelled_ids k; hal := hal k |}.
Definition set_ptas k (v : PtaRegistry.t PTA) : K :=
  {| entropy_origin := entropy_origin k; sessions := sessions k; instances := instances k; ptas := v;
     early := early k; yielding := yielding k; current_instance := current_instance k;
     current_pta := current_pta k; notices_ok := notices_ok k; cancelled_ids := cancelled_ids k; hal := hal k |}.
Definition set_early k (v : EarlyTas.t) : K :=
  {| entropy_origin := entropy_origin k; sessions := sessions k; instances := instances k; ptas := ptas k;
     early := v; yielding := yielding k; current_instance := current_instance k;
     current_pta := current_pta k; notices_ok := notices_ok k; cancelled_ids := cancelled_ids k; hal := hal k |}.
Definition set_yielding k (v : option Yielding) : K :=
  {| entropy_origin := entropy_origin k; sessions := sessions k; instances := instances k; ptas := ptas k;
     early := early k; yielding := v; current_instance := current_instance k;
     current_pta := current_pta k; notices_ok := notices_ok k; cancelled_ids := cancelled_ids k; hal := hal k |}.
Definition set_current_instance k (v : option InstanceId) : K :=
  {| entropy_origin := entropy_origin k; sessions := sessions k; instances := instances k; ptas := ptas k;
     early := early k; yielding := yielding k; current_instance := v;
     current_pta := current_pta k; notices_ok := notices_ok k; cancelled_ids := cancelled_ids k; hal := hal k |}.
Definition set_current_pta k (v : bool) : K :=
  {| entropy_origin := entropy_origin k; sessions := sessions k; instances := instances k; ptas := ptas k;
     early := early k; yielding := yielding k; current_instance := current_instance k;
     current_pta := v; notices_ok := notices_ok k; cancelled_ids := cancelled_ids k; hal := hal k |}.
Definition set_notices_ok k (v : bool) : K :=
  {| entropy_origin := entropy_origin k; sessions := sessions k; instances := instances k; ptas := ptas k;
     early := early k; yielding := yielding k; current_instance := current_instance k;
     current_pta := current_pta k; notices_ok := v; cancelled_ids := cancelled_ids k; hal := hal k |}.
Definition set_cancelled k (v : list u32) : K :=
  {| entropy_origin := entropy_origin k; sessions := sessions k; instances := instances k; ptas := ptas k;
     early := early k; yielding := yielding k; current_instance := current_instance k;
     current_pta := current_pta k; notices_ok := notices_ok k; cancelled_ids := v; hal := hal k |}.
Definition set_hal k (v : H) : K :=
  {| entropy_origin := entropy_origin k; sessions := sessions k; instances := instances k; ptas := ptas k;
     early := early k; yielding := yielding k; current_instance := current_instance k;
     current_pta := current_pta k; notices_ok := notices_ok k; cancelled_ids := cancelled_ids k; hal := v |}.

(** * Construction and registration *)

Definition Kernel_new (h : H) : K :=
  let origin := hal_entropy_origin h in
  {| entropy_origin := origin; sessions := SessionTable.new MAX_SESSIONS;
     instances := InstanceTable.new MAX_INSTANCES; ptas := PtaRegistry.new; early := EarlyTas.new;
     yielding := None; current_instance := None; current_pta := false;
     notices_ok := bool_decide (origin <> ReeHost); cancelled_ids := []; hal := h |}.

(** [out] is the text written so far and how many more lines it accepts; a
    refused [writeln!] is the [Err] of [core::fmt::Result]. *)
Record Writer := { written : list u8; lines_left : nat }.
Definition writeln (out : Writer) (line : list u8) : bool * Writer :=
  match lines_left out with
  | O => (false, out)
  | S n => (true, {| written := written out ++ line ++ [10]; lines_left := n |})
  end.

Definition emit_ree_notices k (out : Writer) (notices : option (list u8 * list u8))
  : bool * Writer * K :=
  if bool_decide (entropy_origin k <> ReeHost) then (true, out, set_notices_ok k true) else
  let '(n0, n1) := default (VIRT_ENTROPY_NOTICE, VIRT_HUK_NOTICE) notices in
  let '(ok0, out) := writeln out n0 in
  if negb ok0 then (false, out, k) else
  let '(ok1, out) := writeln out n1 in
  if negb ok1 then (false, out, k) else
  (true, out, set_notices_ok k true).

Definition register_pta k (p : PTA) : K := set_ptas k (PtaRegistry.register (ptas k) p).
Definition register_early_ta k (ta : EarlyTa) : K := set_early k (EarlyTas.insert (early k) ta).

(** * Panics *)

(** State [Dead]; the address space is taken out, torn down and dropped. *)
Definition kill_instance (i : Instance_ AS) : Instance_ AS :=
  inst_set_aspace None (inst_set_state InstDead i).

Definition on_ta_panic k : KernelOut * K :=
  match current_instance k with
  | None => (done_err TEE_ERROR_TARGET_DEAD, k)
  | Some id =>
      let k := set_current_instance k None in
      let k := set_instances k (InstanceTable.get_mut (instances k) id kill_instance) in
      let k := set_sessions k (SessionTable.poison_instance (sessions k) id) in
      (done_err TEE_ERROR_TARGET_DEAD, k)
  end.

(** [None]: [halt_kernel], which never returns. *)
Definition on_panic k : option (KernelOut * K) :=
  if current_pta k then None else Some (on_ta_panic k).

(** * Locks and parameters *)

Definition cancelled k (cancel_id : u32) : bool := existsb (fun c => c =? cancel_id) (cancelled_ids k).

Definition lock_instance k (iid : InstanceId) : option u32 * K :=
  match InstanceTable.get (instances k) iid with
  | None => (Some TEE_ERROR_TARGET_DEAD, k)
  | Some inst =>
      if busy inst then (Some TEE_ERROR_BUSY, k)
      else (None, set_instances k (InstanceTable.get_mut (instances k) iid (inst_set_busy true)))
  end.

Definition unlock_instance k (iid : InstanceId) : K :=
  set_instances k (InstanceTable.get_mut (instances k) iid (inst_set_busy false)).

Definition dir_perms (d : Dir) : Perms :=
  match d with In_ => Perms_READ | Out => Perms_WRITE | InOut => Perms_RW end.

(** How the loop of [map_params] ends: all mapped; the length check failed,
    which hands the address space back; another failure, whose early return
    drops it. *)
Inductive map_out : Type :=
| MapOk (raw : list ParamRaw) (vas : list (option u64)) (h : H) (asp : AS)
| MapShort (h : H) (asp : AS)
| MapFail (h : H).

Definition map_sync_in (h : H) (cookie : u64) (dir : Dir) : option ((HalError + unit) * H) :=
  if bool_decide (dir <> Out) then shm_sync_in h cookie else Some (inr tt, h).

(** One REE memref: [sync_in], length check, [map_into]. *)
Definition map_memref (h : H) (asp : AS) (cookie : u64) (offs size : usize) (dir : Dir) : map_out :=
  match map_sync_in h cookie dir with
  | None => MapFail h
  | Some (inl _, h) => MapFail h
  | Some (inr _, h) =>
      match shm_len h cookie with
      | None => MapFail h
      | Some len =>
          if len <? sat_add 64 offs size then MapShort h asp else
          match shm_map_into h cookie asp (dir_perms dir) with
          | None => MapFail h
          | Some (inl _, _) => MapFail h
          | Some (inr va, asp) => MapOk [raw_memref (wrapping_add 64 va offs) size] [Some va] h asp
          end
      end
  end.

Definition map_param (h : H) (asp : AS) (p : Param) : map_out :=
  match p with
  | PMemref (Ree cookie offs) size dir => map_memref h asp cookie offs size dir
  | _ => MapOk [param_to_raw p] [None] h asp
  end.

Fixpoint map_loop (ps : Params) (h : H) (asp : AS) : map_out :=
  match ps with
  | [] => MapOk [] [] h asp
  | p :: ps' =>
      match map_param h asp p with
      | MapOk raw vas h asp =>
          match map_loop ps' h asp with
          | MapOk raw' vas' h asp => MapOk (raw ++ raw') (vas ++ vas') h asp
          | o => o
          end
      | o => o
      end
  end.

Definition put_aspace k (iid : InstanceId) (a : option AS) : K :=
  set_instances k (InstanceTable.get_mut (instances k) iid (inst_set_aspace a)).

(** [(raw, vas)] or the error code.  The address space is out of the instance
    while the loop runs; the instance found at the start is still there at the
    end, so the [unwrap]s that put it back succeed. *)
Definition map_params k (iid : InstanceId) (params : Params)
  : (u32 + (list ParamRaw * list (option u64))) * K :=
  match InstanceTable.get (instances k) iid ≫= aspace with
  | None => (inl TEE_ERROR_TARGET_DEAD, k)
  | Some asp =>
      let k := put_aspace k iid None in
      match map_loop params (hal k) asp with
      | MapOk raw vas h asp => (inr (raw, vas), put_aspace (set_hal k h) iid (Some asp))
      | MapShort h asp => (inl TEE_ERROR_BAD_PARAMETERS, put_aspace (set_hal k h) iid (Some asp))
      | MapFail h => (inl TEE_ERROR_BAD_PARAMETERS, set_hal k h)
      end
  end.

Definition unmap_aspace k (iid : InstanceId) (va : u64) : K :=
  set_instances k (InstanceTable.get_mut (instances k) iid
    (fun i => inst_set_aspace (option_map (fun a => as_unmap (H:=H) a va) (aspace i)) i)).

Definition unmap_param k (iid : InstanceId) (p : Param) (va : option u64) : K :=
  match p with
  | PMemref (Ree cookie _) _ dir =>
      let k := if bool_decide (dir <> In_)
               then match shm_sync_out (hal k) cookie with
                    | Some (_, h) => set_hal k h
                    | None => k
                    end
               else k in
      match va with Some v => unmap_aspace k iid v | None => k end
  | _ => k
  end.

Fixpoint unmap_params k (iid : InstanceId) (params : Params) (vas : list (option u64)) : K :=
  match params, vas with
  | p :: ps, va :: vs => unmap_params (unmap_param k iid p va) iid ps vs
  | _, _ => k
  end.

(** * Sessions *)

(** [self.instances.get(iid).and_then(|i| i.entries)] *)
Definition entries_of k (iid : InstanceId) : option TaEntryPoints :=
  InstanceTable.get (instances k) iid ≫= inst_entries.

(** Set [current_instance], call TA code, clear [current_instance]. *)
Definition call_ta {A} k (iid : InstanceId) (f : H -> call_out H A) : kres A :=
  let k := set_current_instance k (Some iid) in
  match f (hal k) with
  | Panicked h => KPanic (set_hal k h)
  | Returned a h => KRet a (set_current_instance (set_hal k h) None)
  end.

Definition new_session (uuid : Uuid) (kd : SessionKind) (inst : option InstanceId) (ctx : usize)
  (login : Login) : Session :=
  {| sess_id := 0; sess_uuid := uuid; kind := kd; instance := inst; ta_sess_ctx := ctx;
     sess_state := Ready; client := login |}.

Definition bump_count (i : Instance_ AS) : Instance_ AS :=
  inst_set_count (sat_add 16 (session_count i) 1) i.

(** The tail of [bind_session]: record the session. *)
Definition bind_record k (iid : InstanceId) (uuid : Uuid) (login : Login) (params : Params) (ctx : usize)
  : KernelOut * K :=
  let '(r, st) := SessionTable.alloc (sessions k) (new_session uuid UserTa (Some iid) ctx login) in
  let k := set_sessions k st in
  match r with
  | Some sid =>
      (Done TeeResult_ok (Some sid) params,
       set_instances k (InstanceTable.get_mut (instances k) iid bump_count))
  | None => (done_err TEE_ERROR_OUT_OF_MEMORY, k)
  end.

Definition bind_session k (iid : InstanceId) (uuid : Uuid) (login : Login) (params : Params)
  : kres KernelOut :=
  match entries_of k iid with
  | None => let '(o, k) := bind_record k iid uuid login params 0 in KRet o k
  | Some ep =>
      let types := param_types_of params in
      match map_params k iid params with
      | (inl e, k) => KRet (done_err e) k
      | (inr (raw, vas), k) =>
          match call_ta k iid (ta_open_session (ep_open_session ep) types raw) with
          | KPanic k => KPanic k
          | KRet (code, raw, ctx) k =>
              let params := params_from_raw params raw in
              let k := unmap_params k iid params vas in
              if negb (code =? TEE_SUCCESS) then KRet (Done (TeeResult_ta code) None params) k else
              let '(o, k) := bind_record k iid uuid login params ctx in KRet o k
          end
      end
  end.

(** [bind_session] followed by [unlock_instance]. *)
Definition bind_unlock k (iid : InstanceId) (uuid : Uuid) (login : Login) (params : Params)
  : kres KernelOut :=
  match bind_session k iid uuid login params with
  | KRet o k => KRet o (unlock_instance k iid)
  | KPanic k => KPanic k
  end.

Definition drop_instance k (iid : InstanceId) : K :=
  set_instances k (snd (InstanceTable.drop_id (instances k) iid)).

Definition new_instance (uuid : Uuid) (p : TaProperties) (asp : AS) (eps : option TaEntryPoints)
  : Instance_ AS :=
  {| inst_id := 0; inst_uuid := uuid; props := p; aspace := Some asp; session_count := 0;
     inst_state := Live; inst_entries := eps; busy := false |}.

(** [aspace.unwrap_or_else(|| self.hal.new_address_space())] *)
Definition take_aspace k (asp : option AS) : AS * K :=
  match asp with
  | Some a => (a, k)
  | None => let '(a, h) := new_address_space (hal k) in (a, set_hal k h)
  end.

Definition instantiate_and_bind k (p : TaProperties) (uuid : Uuid) (login : Login) (params : Params)
  (eps : option TaEntryPoints) (asp : option AS) : kres KernelOut :=
  if negb (beqb (tp_uuid p) uuid) then KRet (done_err TEE_ERROR_SECURITY) k else
  let '(a, k) := take_aspace k asp in
  let '(r, it) := InstanceTable.alloc (instances k) (new_instance uuid p a eps) in
  let k := set_instances k it in
  match r with
  | None => KRet (done_err TEE_ERROR_OUT_OF_MEMORY) k
  | Some iid =>
      let '(e, k) := lock_instance k iid in
      match e with
      | Some e => KRet (done_err e) (drop_instance k iid)
      | None =>
          match eps with
          | None => bind_unlock k iid uuid login params
          | Some ep =>
              match call_ta k iid (ta_create (ep_create ep)) with
              | KPanic k => KPanic k
              | KRet code k =>
                  if negb (code =? TEE_SUCCESS)
                  then KRet (Done (TeeResult_ta code) None params)
                            (drop_instance (unlock_instance k iid) iid)
                  else bind_unlock k iid uuid login params
              end
          end
      end
  end.

Definition open_user_ta k (uuid : Uuid) (login : Login) (params : Params) (cancel_id timeout_ms : u32)
  : kres KernelOut :=
  if cancelled k cancel_id then KRet (done_err TEE_ERROR_CANCEL) k else
  match InstanceTable.live_single (instances k) uuid with
  | Some id =>
      match InstanceTable.get (instances k) id with
      | None => KPanic k
      | Some inst =>
          if negb (multi_session (props inst)) && (0 <? session_count inst)
          then KRet (done_err TEE_ERROR_BUSY) k else
          let '(e, k) := lock_instance k id in
          match e with
          | Some e => KRet (done_err e) k
          | None => bind_unlock k id uuid login params
          end
      end
  | None =>
      match EarlyTas.get (early k) uuid with
      | Some ta => instantiate_and_bind k (et_props ta) uuid login params (et_entries ta) None
      | None =>
          if bool_decide (is_Some (yielding k)) then KRet (done_err TEE_ERROR_BUSY) k else
          KRet (Rpc (RpcLoadTa uuid))
            (set_yielding k (Some {| y_uuid := uuid; y_login := login; y_params := params;
                                     y_cancel_id := cancel_id; y_timeout_ms := timeout_ms |}))
      end
  end.

Definition open k (uuid : Uuid) (login : Login) (params : Params) (cancel_id timeout_ms : u32)
  : kres KernelOut :=
  if cancelled k cancel_id then KRet (done_err TEE_ERROR_CANCEL) k else
  match PtaRegistry.get (ptas k) uuid with
  | Some pta =>
      match pta_open pta params with
      | Panicked p => KPanic (set_ptas k (PtaRegistry.set_first (ptas k) uuid p))
      | Returned (r, params) p =>
          let k := set_ptas k (PtaRegistry.set_first (ptas k) uuid p) in
          match r with
          | inr ctx =>
              let '(r, st) := SessionTable.alloc (sessions k) (new_session uuid Pta None ctx login) in
              let k := set_sessions k st in
              match r with
              | Some id => KRet (Done TeeResult_ok (Some id) params) k
              | None => KRet (done_err TEE_ERROR_OUT_OF_MEMORY) k
              end
          | inl e => KRet (Done e None params) k
          end
      end
  | None => open_user_ta k uuid login params cancel_id timeout_ms
  end.

(** The TA half of [invoke], between [lock_instance] and [unlock_instance];
    [current_instance] is already set when the parameters are mapped. *)
Definition invoke_locked k (session : SessionId) (sess : Session) (iid : InstanceId) (cmd_id : u32)
  (params : Params) : kres KernelOut :=
  let k := set_current_instance k (Some iid) in
  match map_params k iid params with
  | (inl e, k) => KRet (done_err e) (unlock_instance (set_current_instance k None) iid)
  | (inr (raw, vas), k) =>
      let types := param_types_of params in
      let call := match entries_of k iid with
                  | Some ep => ta_invoke (ep_invoke ep) (ta_sess_ctx sess) cmd_id types raw (hal k)
                  | None => Returned (TEE_SUCCESS, raw) (hal k)
                  end in
      match call with
      | Panicked h => KPanic (set_hal k h)
      | Returned (code, raw) h =>
          let params := params_from_raw params raw in
          let k := unmap_params (set_hal k h) iid params vas in
          let r := if code =? TEE_SUCCESS then TeeResult_ok else TeeResult_ta code in
          KRet (Done r (Some session) params) (unlock_instance (set_current_instance k None) iid)
      end
  end.

Definition invoke k (session : SessionId) (cmd_id : u32) (params : Params) (cancel_id : u32)
  : kres KernelOut :=
  if cancelled k cancel_id then KRet (done_err TEE_ERROR_CANCEL) k else
  match SessionTable.get (sessions k) session with
  | None => KRet (done_err TEE_ERROR_BAD_PARAMETERS) k
  | Some sess =>
      if bool_decide (sess_state sess = SessDead) then KRet (done_err TEE_ERROR_TARGET_DEAD) k else
      match kind sess with
      | Pta =>
          match PtaRegistry.get (ptas k) (sess_uuid sess) with
          | None => KRet (done_err TEE_ERROR_ITEM_NOT_FOUND) k
          | Some pta =>
              let k := set_current_pta k true in
              match pta_invoke pta (ta_sess_ctx sess) cmd_id params with
              | Panicked p => KPanic (set_ptas k (PtaRegistry.set_first (ptas k) (sess_uuid sess) p))
              | Returned (r, params) p =>
                  let k := set_ptas k (PtaRegistry.set_first (ptas k) (sess_uuid sess) p) in
                  KRet (Done r (Some session) params) (set_current_pta k false)
              end
          end
      | UserTa =>
          match instance sess with
          | None => KRet (done_err TEE_ERROR_TARGET_DEAD) k
          | Some iid =>
              let '(e, k) := lock_instance k iid in
              match e with
              | Some e => KRet (done_err e) k
              | None => invoke_locked k session sess iid cmd_id params
              end
          end
      end
  end.

Definition drop_count (i : Instance_ AS) : Instance_ AS :=
  inst_set_count (sat_sub (session_count i) 1) i.

(** [session_count -= 1] and whether the instance is to be dropped. *)
Definition close_count k (iid : InstanceId) : bool * K :=
  let k := set_instances k (InstanceTable.get_mut (instances k) iid drop_count) in
  match InstanceTable.get (instances k) iid with
  | Some inst => ((session_count inst =? 0) && negb (instance_keep_alive (props inst)), k)
  | None => (false, k)
  end.

Definition closed_out : KernelOut := Done TeeResult_ok None none_params.

Definition close_destroy k (iid : InstanceId) : kres KernelOut :=
  let fin k := KRet closed_out
    (drop_instance (set_instances k (InstanceTable.get_mut (instances k) iid kill_instance)) iid) in
  match entries_of k iid with
  | None => fin k
  | Some ep =>
      match call_ta k iid (ta_destroy (ep_destroy ep)) with
      | KPanic k => KPanic k
      | KRet _ k => fin k
      end
  end.

Definition close_locked k (sess : Session) (iid : InstanceId) : kres KernelOut :=
  let after k :=
    let '(drop_inst, k) := close_count k iid in
    if drop_inst : bool then close_destroy k iid else KRet closed_out (unlock_instance k iid) in
  match entries_of k iid with
  | None => after k
  | Some ep =>
      match call_ta k iid (ta_close_session (ep_close_session ep) (ta_sess_ctx sess)) with
      | KPanic k => KPanic k
      | KRet _ k => after k
      end
  end.

Definition close k (session : SessionId) : kres KernelOut :=
  let '(s, st) := SessionTable.take (sessions k) session in
  let k := set_sessions k st in
  match s with
  | None => KRet (done_err TEE_ERROR_BAD_PARAMETERS) k
  | Some sess =>
      match kind sess with
      | Pta =>
          match PtaRegistry.get (ptas k) (sess_uuid sess) with
          | None => KRet closed_out k
          | Some pta =>
              match pta_close pta (ta_sess_ctx sess) with
              | Panicked p => KPanic (set_ptas k (PtaRegistry.set_first (ptas k) (sess_uuid sess) p))
              | Returned _ p => KRet closed_out (set_ptas k (PtaRegistry.set_first (ptas k) (sess_uuid sess) p))
              end
          end
      | UserTa =>
          match instance sess with
          | None => KRet closed_out k
          | Some iid =>
              let '(e, k) := lock_instance k iid in
              match e with
              | Some e => KRet (done_err e) k
              | None => close_locked k sess iid
              end
          end
      end
  end.

(** * The LOAD_TA reply and the dispatcher *)

Definition load_and_bind k (y : Yielding) (bs : list u8) : kres KernelOut :=
  if cancelled k (y_cancel_id y) then KRet (done_err TEE_ERROR_CANCEL) k else
  match load_image bs with
  | Panic => KPanic k
  | Err code => KRet (done_err code) k
  | Ok l =>
      if negb (beqb (tp_uuid (ld_props l)) (y_uuid y)) then KRet (done_err TEE_ERROR_SECURITY) k else
      let '(asp, h) := new_address_space (hal k) in
      let k := set_hal k h in
      let '(r, asp) := map_elf (H:=H) aarch64 asp bs in
      match r with
      | Panic => KPanic k
      | Err code => KRet (done_err code) k
      | Ok eps =>
          instantiate_and_bind k (ld_props l) (y_uuid y) (y_login y) (y_params y) eps (Some asp)
      end
  end.

Definition rpc_complete k (resp : RpcResponse) : kres KernelOut :=
  match yielding k with
  | None => KRet (done_err TEE_ERROR_BAD_PARAMETERS) k
  | Some y =>
      let k := set_yielding k None in
      match resp with
      | RespLoadTa bs => load_and_bind k y bs
      | RespError code => KRet (done_err code) k
      | _ => KRet (done_err TEE_ERROR_NOT_SUPPORTED) k
      end
  end.

Definition handle k (cmd : KernelCmd) : kres KernelOut :=
  if negb (notices_ok k) then KRet (done_err TEE_ERROR_SECURITY) k else
  match cmd with
  | OpenSession uuid login params cancel_id timeout_ms => open k uuid login params cancel_id timeout_ms
  | Invoke session cmd_id params cancel_id _ => invoke k session cmd_id params cancel_id
  | CloseSession session => close k session
  | Cancel cancel_id =>
      KRet (done_err TEE_SUCCESS) (set_cancelled k (cancelled_ids k ++ [cancel_id]))
  | RpcComplete resp => rpc_complete k resp
  end.

(** One call as seen from outside: [handle], with [on_panic] taking over when
    the call panics.  [None] is a halted kernel. *)
Definition serve k (cmd : KernelCmd) : option (KernelOut * K) :=
  match handle k cmd with
  | KRet o k => Some (o, k)
  | KPanic k => on_panic k
  end.

(** A run of calls: the kernel after them, unless it halted. *)
Fixpoint run k (cmds : list KernelCmd) : option K :=
  match cmds with
  | [] => Some k
  | c :: cs => match serve k c with Some (_, k) => run k cs | None => None end
  end.
End KernelOps.
Arguments KRet {H AS PTA A} a k.
Arguments KPanic {H AS PTA A} k.
