(* ===== verification/KernelInv.v ===== *)
(** The kernel's state invariant (src/crates/rustee-os/src/lib.rs): which
    instances are locked, which sessions point where, and that the session
    counts are exact.  The invariant is stated on the maps the session and
    instance tables refine, indexed by the instance a call in progress holds
    ([b]) and by a session in transit ([p]): one [close] has taken but not yet
    counted out, or one an open has room for; between calls both are [None].

    The last section shows that every call re-establishes it, also when TA code
    panics in the middle and [on_panic] takes over. *)
From Stdlib Require Import ZArith Lia.
From stdpp Require Import base list gmap numbers.
From S2P Require Import Prelude Abi Header Iface Tables Elf Kernel.

Local Open Scope Z_scope.

(** * On maps *)

Section Views.
Context {AS : Type}.
Implicit Types S : gmap Z Session.
Implicit Types I : gmap Z (Instance_ AS).

Definition cnt S (i : InstanceId) : Z :=
  Z.of_nat (size (filter (fun q => instance q.2 = Some i) S)).

(** A session in transit: leaving ([close]) or about to be bound to an instance. *)
Inductive transit := Leaving (i : InstanceId) | Joining (i : InstanceId).
#[local] Instance transit_eq_dec : EqDecision transit.
Proof. solve_decision. Defined.

(** One instance: its UUID is its image's, it is busy while a call holds it and
    for good once dead, its count is the number of its sessions, and it has at
    most one unless its TA is multi-session. *)
Definition inst_inv (b : option InstanceId) (p : option transit) (c : Z) (i : InstanceId)
  (x : Instance_ AS) : Prop :=
  inst_uuid x = tp_uuid (props x) /\
  (inst_state x = Live \/ inst_state x = InstDead) /\
  (busy x = true <-> b = Some i \/ inst_state x = InstDead) /\
  (b = Some i -> inst_state x = Live) /\
  (inst_state x = Live -> session_count x = c + if decide (p = Some (Leaving i)) then 1 else 0) /\
  (multi_session (props x) = false ->
     session_count x + (if decide (p = Some (Joining i)) then 1 else 0) <= 1).

(** One session: a pseudo-TA session has no instance; a user session has one,
    in the table, and is ready exactly when the instance is live. *)
Definition sess_inv I (x : Session) : Prop :=
  match kind x with
  | Pta => instance x = None /\ sess_state x = Ready
  | UserTa => exists i y, instance x = Some i /\ I !! i = Some y /\
      (sess_state x = Ready /\ inst_state y = Live \/ sess_state x = SessDead /\ inst_state y = InstDead)
  end.

Record vinv (b : option InstanceId) (p : option transit) S I : Prop := {
  v_inst : forall i x, I !! i = Some x -> inst_inv b p (cnt S i) i x;
  v_sess : forall s x, S !! s = Some x -> sess_inv I x;
  v_lock : forall i, b = Some i -> is_Some (I !! i);
  v_size : (size S <= 32)%nat }.

Lemma cnt_bound S i : (size S <= 32)%nat -> 0 <= cnt S i <= 32.
Proof.
  intros. unfold cnt.
  pose proof (map_subseteq_size (filter (fun q => instance q.2 = Some i) S) S (map_filter_subseteq _ _)). lia.
Qed.

Lemma cnt_insert_same S s x i :
  S !! s = None -> instance x = Some i -> cnt (<[s := x]> S) i = cnt S i + 1.
Proof.
  intros Hs Hx. unfold cnt. rewrite map_filter_insert_True by done.
  rewrite map_size_insert_None; [lia|]. apply map_lookup_filter_None. by left.
Qed.

Lemma cnt_insert_other S s x i :
  S !! s = None -> instance x <> Some i -> cnt (<[s := x]> S) i = cnt S i.
Proof.
  intros Hs Hx. unfold cnt. rewrite map_filter_insert_False by done. by rewrite delete_id.
Qed.

Lemma cnt_delete_same S s x i :
  S !! s = Some x -> instance x = Some i -> cnt S i = cnt (delete s S) i + 1.
Proof.
  intros Hs Hx. rewrite <- (insert_delete_id S s x Hs) at 1.
  apply cnt_insert_same; [apply lookup_delete_eq|done].
Qed.

Lemma cnt_delete_other S s x i :
  S !! s = Some x -> instance x <> Some i -> cnt (delete s S) i = cnt S i.
Proof.
  intros Hs Hx. rewrite <- (insert_delete_id S s x Hs) at 2.
  symmetry. apply cnt_insert_other; [apply lookup_delete_eq|done].
Qed.

Lemma instance_poison i x : instance (SessionTable.poison i x) = instance x.
Proof. unfold SessionTable.poison. by case_bool_decide. Qed.

Lemma cnt_poison S i j : cnt (SessionTable.poison i <$> S) j = cnt S j.
Proof.
  unfold cnt. rewrite map_filter_fmap, map_size_fmap. do 2 f_equal.
  apply map_filter_ext. intros s x _. cbn. by rewrite instance_poison.
Qed.

(** A live or dead instance nobody's session points at has count 0. *)
Lemma cnt_zero S i : (forall s x, S !! s = Some x -> instance x <> Some i) -> cnt S i = 0.
Proof.
  intros Hn. unfold cnt. replace (filter _ S) with (∅ : gmap Z Session); [done|].
  symmetry. apply map_empty. intros s. apply map_lookup_filter_None. right.
  intros x Hs. cbn. by apply (Hn s).
Qed.

(** Changing one instance. *)
Lemma vinv_alter b p b' p' S I i f :
  vinv b p S I ->
  (forall x, I !! i = Some x -> inst_state (f x) = inst_state x) ->
  (forall x, I !! i = Some x -> inst_inv b p (cnt S i) i x -> inst_inv b' p' (cnt S i) i (f x)) ->
  (forall j c x, j <> i -> inst_inv b p c j x -> inst_inv b' p' c j x) ->
  (forall j, b' = Some j -> is_Some (I !! j)) ->
  vinv b' p' S (alter f i I).
Proof.
  intros [Hi Hs Hl Hz] Hst Hself Hother Hlock. split; [| | |done].
  - intros j x. destruct (decide (j = i)) as [->|Hne].
    + rewrite lookup_alter_eq. destruct (I !! i) as [y|] eqn:E; [|done].
      intros [= <-]. apply Hself; [done|]. by apply Hi.
    + rewrite lookup_alter_ne by done. intros E. apply Hother; [done|]. by apply Hi.
  - intros s x E. specialize (Hs s x E). unfold sess_inv in *. destruct (kind x); [|done].
    destruct Hs as (j & y & H1 & H2 & H3). destruct (decide (j = i)) as [->|Hne].
    + exists i, (f y). rewrite lookup_alter_eq, H2, (Hst y H2). done.
    + exists j, y. by rewrite lookup_alter_ne.
  - intros j Hj. destruct (Hlock j Hj) as [y Hy]. destruct (decide (j = i)) as [->|].
    + rewrite lookup_alter_eq, Hy. by eexists.
    + rewrite lookup_alter_ne by done. by eexists.
Qed.

Lemma vinv_lock p S I i x :
  vinv None p S I -> I !! i = Some x -> busy x = false ->
  vinv (Some i) p S (alter (inst_set_busy true) i I).
Proof.
  intros Hv Hx Hb. pose proof (v_inst _ _ _ _ Hv i x Hx) as (H1 & H2 & H3 & _ & H5).
  assert (inst_state x = Live) as HL.
  { destruct H2 as [?|HD]; [done|]. assert (busy x = true) by (apply H3; by right). congruence. }
  apply (vinv_alter None p _ _ _ _ _ _ Hv); [done| | |].
  - intros y Hy (G1 & G2 & G3 & _ & G5 & G6). assert (y = x) as -> by congruence.
    split_and!; cbn; try done. split; [by left|done].
  - intros j c y Hne (G1 & G2 & G3 & _ & G5 & G6). split_and!; try done; [|congruence].
    rewrite G3. split; [intros [?|?]; [done|by right]|intros [?|?]; [congruence|by right]].
  - intros j [= <-]. by eexists.
Qed.

Lemma vinv_unlock S I i :
  vinv (Some i) None S I -> vinv None None S (alter (inst_set_busy false) i I).
Proof.
  intros Hv. apply (vinv_alter _ _ _ _ _ _ _ _ Hv); [done| | |done].
  - intros y Hy (G1 & G2 & G3 & G4 & G5 & G6). split_and!; cbn; try done.
    rewrite (G4 eq_refl). split; [done|by intros [?|?]].
  - intros j c y Hne (G1 & G2 & G3 & _ & G5 & G6). split_and!; try done.
    rewrite G3. split; [intros [?|?]; [congruence|by right]|intros [?|?]; [done|by right]].
Qed.

(** Writes that touch only the address space. *)
Lemma vinv_aspace b p S I i (f : Instance_ AS -> option AS) :
  vinv b p S I -> vinv b p S (alter (fun x => inst_set_aspace (f x) x) i I).
Proof.
  intros Hv. apply (vinv_alter _ _ _ _ _ _ _ _ Hv); [done|by intros ?? G|done|].
  apply (v_lock _ _ _ _ Hv).
Qed.

(** Room for a session, and giving it up. *)
Lemma vinv_room S I i :
  vinv (Some i) None S I ->
  (forall x, I !! i = Some x -> multi_session (props x) = false -> session_count x = 0) ->
  vinv (Some i) (Some (Joining i)) S I.
Proof.
  intros [Hi Hs Hl Hz] Hr. split; [|done..]. intros j z E.
  destruct (Hi j z E) as (G1 & G2 & G3 & G4 & G5 & G6). split_and!; try done.
  intros Hm. destruct (decide (j = i)) as [->|Hne].
  - rewrite decide_True, (Hr z E Hm) by done. lia.
  - specialize (G6 Hm). repeat case_decide; congruence || lia.
Qed.

Lemma vinv_noroom b S I i : vinv b (Some (Joining i)) S I -> vinv b None S I.
Proof.
  intros [Hi Hs Hl Hz]. split; [|done..]. intros j z E.
  destruct (Hi j z E) as (G1 & G2 & G3 & G4 & G5 & G6). split_and!; try done.
  intros Hm. rewrite decide_False by done. specialize (G6 Hm). case_decide; lia.
Qed.

(** A new user session of the instance the call holds, counted. *)
Lemma vinv_bind S I i s x :
  vinv (Some i) (Some (Joining i)) S I -> S !! s = None -> (size S < 32)%nat ->
  kind x = UserTa -> instance x = Some i -> sess_state x = Ready ->
  vinv (Some i) None (<[s := x]> S) (alter bump_count i I).
Proof.
  intros [Hi Hs Hl Hz] Hf Hsz Hk Hx Hst.
  pose proof (Hl i eq_refl) as [y0 Hy0]. pose proof (Hi i y0 Hy0) as (_ & _ & _ & HL & _).
  split; [| | |].
  - intros j z. destruct (decide (j = i)) as [->|Hne].
    + rewrite lookup_alter_eq. destruct (I !! i) as [y|] eqn:E; [|done]. intros [= <-].
      destruct (Hi i y E) as (G1 & G2 & G3 & G4 & G5 & G6). split_and!; try done.
      all: pose proof (cnt_bound S i Hz); specialize (G5 (G4 eq_refl)); rewrite decide_False in G5 by done.
      * intros _. cbn. rewrite cnt_insert_same, G5, decide_False by done.
        unfold sat_add. rewrite Z.min_l; lia.
      * intros Hm. specialize (G6 Hm). rewrite decide_True in G6 by done. rewrite decide_False by done.
        cbn. unfold sat_add. lia.
    + rewrite lookup_alter_ne by done. intros E.
      destruct (Hi j z E) as (G1 & G2 & G3 & G4 & G5 & G6). split_and!; try done.
      * rewrite cnt_insert_other; [done|done|]. rewrite Hx. congruence.
      * intros Hm. specialize (G6 Hm). repeat case_decide; congruence || lia.
  - intros s' x' E. rewrite lookup_insert in E. unfold sess_inv.
    assert (forall z, (kind z = UserTa -> exists i0 y, instance z = Some i0 /\ I !! i0 = Some y /\
      (sess_state z = Ready /\ inst_state y = Live \/ sess_state z = SessDead /\ inst_state y = InstDead)) ->
      kind z = UserTa -> exists i0 y, instance z = Some i0 /\ alter bump_count i I !! i0 = Some y /\
      (sess_state z = Ready /\ inst_state y = Live \/ sess_state z = SessDead /\ inst_state y = InstDead)) as Hup.
    { intros z Hz0 Hk0. destruct (Hz0 Hk0) as (i0 & y & E1 & E2 & E3).
      destruct (decide (i0 = i)) as [->|].
      - exists i, (bump_count y). rewrite lookup_alter_eq, E2. done.
      - exists i0, y. by rewrite lookup_alter_ne. }
    case_decide as Hd.
    + injection E as <-. rewrite Hk. apply (Hup x); [|done]. intros _.
      exists i, y0. split_and!; [done|done|]. left. by split; [|apply HL].
    + specialize (Hs s' x' E). unfold sess_inv in Hs. destruct (kind x') eqn:Ek; [|done].
      apply (Hup x'); [by intros _|done].
  - intros j [= <-]. rewrite lookup_alter_eq, Hy0. by eexists.
  - rewrite map_size_insert_None by done. lia.
Qed.

(** A new pseudo-TA session. *)
Lemma vinv_pta S I s x :
  vinv None None S I -> S !! s = None -> (size S < 32)%nat ->
  kind x = Pta -> instance x = None -> sess_state x = Ready ->
  vinv None None (<[s := x]> S) I.
Proof.
  intros [Hi Hs Hl Hz] Hf Hsz Hk Hx Hst. split; [| |done|].
  - intros j z E. destruct (Hi j z E) as (G1 & G2 & G3 & G4 & G5 & G6). split_and!; try done.
    rewrite cnt_insert_other; [done|done|]. by rewrite Hx.
  - intros s' x' E. rewrite lookup_insert in E. case_decide; [|by apply (Hs s')].
    injection E as <-. unfold sess_inv. by rewrite Hk.
  - rewrite map_size_insert_None by done. lia.
Qed.

(** A new instance. *)
Lemma vinv_instance S I i x :
  vinv None None S I -> I !! i = None -> inst_uuid x = tp_uuid (props x) ->
  inst_state x = Live -> busy x = false -> session_count x = 0 ->
  vinv None None S (<[i := x]> I).
Proof.
  intros [Hi Hs Hl Hz] Hf Hu Hst Hb Hc.
  assert (cnt S i = 0) as H0.
  { apply cnt_zero. intros s y E Hy. specialize (Hs s y E). unfold sess_inv in Hs.
    destruct (kind y); [|by destruct Hs; congruence]. destruct Hs as (j & z & ? & ? & _). congruence. }
  split; [| |done|done].
  - intros j z. rewrite lookup_insert. case_decide as Hd; [|by apply Hi]. subst j. intros [= <-].
    split_and!; [done|by left| |done| |].
    + rewrite Hb, Hst. split; [done|by intros [?|?]].
    + intros _. by rewrite Hc, H0.
    + rewrite Hc. done.
  - intros s y E. specialize (Hs s y E). unfold sess_inv in *. destruct (kind y); [|done].
    destruct Hs as (j & z & H1 & H2 & H3). exists j, z. split_and!; [done| |done].
    rewrite lookup_insert_ne; [done|congruence].
Qed.

(** Removing an instance no session is counted for. *)
Lemma vinv_drop b S I i x :
  vinv b None S I -> (b = None \/ b = Some i) -> I !! i = Some x -> inst_state x = Live ->
  session_count x = 0 -> vinv None None S (delete i I).
Proof.
  intros [Hi Hs Hl Hz] Hb Hx HL Hc.
  destruct (Hi i x Hx) as (_ & _ & _ & _ & H5 & _). specialize (H5 HL).
  rewrite decide_False in H5 by done.
  assert (forall s y, S !! s = Some y -> instance y <> Some i) as Hno.
  { intros s y E Hy. pose proof (cnt_delete_same S s y i E Hy).
    assert (0 <= cnt (delete s S) i) by (unfold cnt; lia). lia. }
  split; [| |done|done].
  - intros j z E. rewrite lookup_delete_Some in E. destruct E as [Hne E].
    destruct (Hi j z E) as (G1 & G2 & G3 & _ & G5 & G6). split_and!; try done.
    rewrite G3. destruct Hb as [-> | ->]; [done|].
    split; [intros [?|?]; [congruence|by right]|intros [?|?]; [done|by right]].
  - intros s y E. specialize (Hs s y E). unfold sess_inv in *. destruct (kind y); [|done].
    destruct Hs as (j & z & H1 & H2 & H3). exists j, z. split_and!; [done| |done].
    rewrite lookup_delete_ne; [done|]. intros ->. by apply (Hno s y).
Qed.

(** [close] takes a session out before anything else. *)
Lemma vinv_take S I s x :
  vinv None None S I -> S !! s = Some x -> vinv None (Leaving <$> instance x) (delete s S) I.
Proof.
  intros [Hi Hs Hl Hz] Hx. split; [| |done|].
  - intros j z E. destruct (Hi j z E) as (G1 & G2 & G3 & G4 & G5 & G6). split_and!; try done.
    + intros HL. rewrite (G5 HL), (decide_False (P := None = Some (Leaving j))) by done.
      destruct (decide (instance x = Some j)) as [Ej|Ej].
      * rewrite Ej, (cnt_delete_same S s x j), decide_True by done. lia.
      * rewrite (cnt_delete_other S s x j) by done.
        rewrite decide_False; [lia|]. destruct (instance x); cbn; congruence.
    + intros Hm. specialize (G6 Hm). rewrite decide_False in G6 by done.
      rewrite decide_False; [done|]. by destruct (instance x).
  - intros s' y E. apply lookup_delete_Some in E as [_ E]. by apply (Hs s').
  - rewrite map_size_delete_Some by (by eexists). lia.
Qed.

(** ... and counts it out of the instance it holds. *)
Lemma vinv_uncount S I i :
  vinv (Some i) (Some (Leaving i)) S I -> vinv (Some i) None S (alter drop_count i I).
Proof.
  intros Hv. pose proof (v_size _ _ _ _ Hv) as Hz.
  apply (vinv_alter _ _ _ _ _ _ _ _ Hv); [done| | |by apply (v_lock _ _ _ _ Hv)].
  - intros y Hy (G1 & G2 & G3 & G4 & G5 & G6). split_and!; try done.
    all: specialize (G5 (G4 eq_refl)); rewrite decide_True in G5 by done.
    all: pose proof (cnt_bound S i Hz); cbn; unfold sat_sub.
    + intros _. rewrite G5, decide_False by done. lia.
    + intros Hm. specialize (G6 Hm). repeat case_decide; congruence || lia.
  - intros j c y Hne (G1 & G2 & G3 & G4 & G5 & G6). split_and!; try done.
    intros HL. rewrite (G5 HL), !decide_False by congruence. done.
Qed.

(** The pending count of a dead (or absent) instance is irrelevant. *)
Lemma vinv_forget S I p :
  vinv None p S I -> (forall i x, p = Some (Leaving i) -> I !! i = Some x -> busy x = true) ->
  vinv None None S I.
Proof.
  intros [Hi Hs Hl Hz] Hb. split; [|done..]. intros j z E.
  destruct (Hi j z E) as (G1 & G2 & G3 & G4 & G5 & G6). split_and!; try done.
  - intros HL. rewrite (G5 HL), (decide_False (P := None = Some (Leaving j))) by done.
    rewrite decide_False; [done|]. intros ->. specialize (Hb j z eq_refl E).
    apply G3 in Hb as [?|?]; congruence.
  - intros Hm. specialize (G6 Hm). repeat case_decide; congruence || lia.
Qed.

(** Containment: the instance in the call and all its sessions die, nothing
    else changes. *)
Lemma vinv_panic S I i p :
  vinv (Some i) p S I -> (p = None \/ p = Some (Leaving i) \/ p = Some (Joining i)) ->
  vinv None None (SessionTable.poison i <$> S) (alter kill_instance i I).
Proof.
  intros [Hi Hs Hl Hz] Hp. pose proof (Hl i eq_refl) as [y0 Hy0].
  pose proof (Hi i y0 Hy0) as (_ & _ & HB & _ & _).
  split; [| |done|by rewrite map_size_fmap].
  - intros j z. rewrite cnt_poison. destruct (decide (j = i)) as [->|Hne].
    + rewrite lookup_alter_eq, Hy0. cbn. intros [= <-].
      destruct (Hi i y0 Hy0) as (G1 & _ & _ & _ & _ & G6). split_and!; [done|by right| |done|done|].
      * split; [by right|]. intros _. apply HB. by left.
      * intros Hm. specialize (G6 Hm). cbn [session_count kill_instance inst_set_aspace inst_set_state inst_with].
        repeat case_decide; congruence || lia.
    + rewrite lookup_alter_ne by done. intros E. destruct (Hi j z E) as (G1 & G2 & G3 & _ & G5 & G6).
      split_and!; try done.
      * rewrite G3. split; [intros [?|?]; [congruence|by right]|intros [?|?]; [done|by right]].
      * intros HL. rewrite (G5 HL), (decide_False (P := None = Some (Leaving j))) by done.
        rewrite decide_False; [done|]. destruct Hp as [->|[->| ->]]; congruence.
      * intros Hm. specialize (G6 Hm). repeat case_decide; congruence || lia.
  - intros s x. rewrite lookup_fmap. destruct (S !! s) as [x0|] eqn:E; [|done]. cbn. intros [= <-].
    specialize (Hs s x0 E). unfold sess_inv, SessionTable.poison in *.
    destruct (kind x0) eqn:Ek.
    + destruct Hs as (j & y & H1 & H2 & H3). case_bool_decide as Hd; cbn; rewrite Ek.
      * assert (j = i) as -> by congruence. exists i, (kill_instance y0).
        rewrite lookup_alter_eq, Hy0. split_and!; [done|done|by right].
      * exists j, y. rewrite lookup_alter_ne by congruence. done.
    + destruct Hs as [H1 H2]. rewrite bool_decide_false by congruence. by rewrite Ek.
Qed.
End Views.

(** * On kernels *)

Section Calls.
Context {H AS PTA : Type} `{!HalOps H AS} `{!CryptoProvider} `{!PtaOps PTA} `{!TaCode H}.
Context (aarch64 : bool).
Abbreviation K := (Kernel H AS PTA).
Implicit Types k : K.
Implicit Types ns ni : Z.

(** The tables are well-formed with counters at most [ns] and [ni], and their
    maps satisfy [vinv]. *)
Record tinv (b : option InstanceId) (p : option transit) ns ni (S : SessionTable.t) (I : InstanceTable.t AS) : Prop := {
  t_s : SessionTable.ok S; t_i : InstanceTable.ok I;
  t_ns : next_id S <= ns; t_ni : next_id I <= ni;
  t_cap : length (slots S) = 32%nat;
  t_v : vinv b p (SessionTable.view S) (InstanceTable.view I) }.

Definition kinv b p ns ni k : Prop := tinv b p ns ni (sessions k) (instances k).

(** Idle: no call in progress. *)
Definition idle k : Prop := current_instance k = None /\ current_pta k = false.

(** A session in transit, if any, is the held instance's. *)
Definition at_instance (p : option transit) (i : InstanceId) : Prop :=
  p = None \/ p = Some (Leaving i) \/ p = Some (Joining i).

(** The states a call can end in: idle with the invariant, or a panic that
    [on_panic] turns into one (or into a halt, for a pseudo-TA invoke). *)
Definition panic_ok ns ni k : Prop :=
  current_pta k = false ->
  match current_instance k with
  | None => kinv None None ns ni k
  | Some i => exists p, at_instance p i /\ kinv (Some i) p ns ni k
  end.
Definition post {A} ns ni (r : kres (H:=H) (AS:=AS) (PTA:=PTA) A) : Prop :=
  match r with
  | KRet _ k => kinv None None ns ni k /\ idle k
  | KPanic k => panic_ok ns ni k
  end.

Lemma tinv_mono b p ns ni ns' ni' S I :
  ns <= ns' -> ni <= ni' -> tinv b p ns ni S I -> tinv b p ns' ni' S I.
Proof. intros ?? []. split; try done; lia. Qed.

Lemma post_mono {A} ns ni ns' ni' (r : kres A) :
  ns <= ns' -> ni <= ni' -> post ns ni r -> post ns' ni' r.
Proof.
  intros Hs Hi. destruct r as [a k|k]; cbn.
  - intros [? ?]. split; [|done]. by eapply tinv_mono; [..|eassumption].
  - intros Hp Hc. specialize (Hp Hc). destruct (current_instance k).
    + destruct Hp as (p & ? & ?). exists p. split; [done|]. by eapply tinv_mono; [..|eassumption].
    + by eapply tinv_mono; [..|eassumption].
Qed.

Lemma get_view k i : InstanceTable.get (instances k) i = InstanceTable.view (instances k) !! i.
Proof. apply table_get_tmap. Qed.

(** A field write through [get_mut]. *)
Lemma kinv_upd b p b' p' ns ni k i f :
  kinv b p ns ni k -> (forall x, inst_id (f x) = inst_id x) ->
  (vinv b p (SessionTable.view (sessions k)) (InstanceTable.view (instances k)) ->
   vinv b' p' (SessionTable.view (sessions k)) (alter f i (InstanceTable.view (instances k)))) ->
  kinv b' p' ns ni (set_instances k (InstanceTable.get_mut (instances k) i f)).
Proof.
  intros [Hs Hi Hns Hni Hc Hv] Hf Hv'.
  destruct (table_update_spec inst_id (instances k) i f Hf Hi) as (H1 & H2 & H3 & H4).
  split; cbn [sessions instances set_instances]; try done.
  unfold InstanceTable.view, InstanceTable.get_mut. rewrite H1. by apply Hv'.
Qed.

Lemma kinv_unlock ns ni k i :
  kinv (Some i) None ns ni k -> kinv None None ns ni (unlock_instance k i).
Proof. intros Hk. eapply kinv_upd; [exact Hk|done|]. apply vinv_unlock. Qed.

Lemma kinv_aspace b p ns ni k i f :
  kinv b p ns ni k ->
  kinv b p ns ni (set_instances k (InstanceTable.get_mut (instances k) i
                                     (fun x => inst_set_aspace (f x) x))).
Proof. intros Hk. eapply kinv_upd; [exact Hk|done|]. apply vinv_aspace. Qed.

Lemma lock_cases p ns ni k i e k' :
  kinv None p ns ni k -> lock_instance k i = (e, k') ->
  match e with
  | None => kinv (Some i) p ns ni k' /\ current_instance k' = current_instance k /\
            current_pta k' = current_pta k /\
            exists x, InstanceTable.view (instances k) !! i = Some x /\ busy x = false /\
                      instances k' = InstanceTable.get_mut (instances k) i (inst_set_busy true)
  | Some e => k' = k /\
      ((e = TEE_ERROR_TARGET_DEAD /\ InstanceTable.view (instances k) !! i = None) \/
       (e = TEE_ERROR_BUSY /\ exists x, InstanceTable.view (instances k) !! i = Some x /\ busy x = true))
  end.
Proof.
  intros Hk. unfold lock_instance. rewrite get_view.
  destruct (InstanceTable.view (instances k) !! i) as [x|] eqn:Ex.
  2:{ intros [= <- <-]. split; [done|by left]. }
  destruct (busy x) eqn:Eb; intros [= <- <-]; [split; [done|right; by eauto]|].
  split_and!; [|done|done|by eauto].
  eapply kinv_upd; [exact Hk|done|]. intros Hv. by eapply vinv_lock.
Qed.

(** Mapping and unmapping parameters touch the HAL and address spaces only. *)
Definition same_but_memory (k k' : K) : Prop :=
  sessions k' = sessions k /\ current_instance k' = current_instance k /\
  current_pta k' = current_pta k /\
  forall b p ns ni, kinv b p ns ni k -> kinv b p ns ni k'.

Lemma map_params_memory k i params r k' :
  map_params k i params = (r, k') -> same_but_memory k k'.
Proof.
  unfold map_params. destruct (_ ≫= _) as [asp|]; [|by intros [= <- <-]].
  destruct (map_loop _ _ _); intros [= <- <-]; split_and!; try done; intros b p ns ni Hk;
    repeat apply (kinv_aspace b p ns ni _ i (fun _ => _)); exact Hk.
Qed.

Lemma unmap_param_memory k i p va : same_but_memory k (unmap_param k i p va).
Proof.
  unfold unmap_param. destruct p as [| |[c o|v] sz d]; try done.
  destruct (bool_decide _); [destruct (shm_sync_out _ _) as [[? ?]|]|]; destruct va as [v|]; split_and!;
    try done; intros b p ns ni Hk;
    apply (kinv_aspace b p ns ni _ i (fun x => option_map (fun a => as_unmap (H:=H) a v) (aspace x)));
    exact Hk.
Qed.

Lemma unmap_params_memory k i params vas : same_but_memory k (unmap_params k i params vas).
Proof.
  revert k vas. induction params as [|p ps IH]; intros k [|va vas]; cbn [unmap_params]; try done.
  destruct (IH (unmap_param k i p va) vas) as (H1 & H2 & H3 & H4).
  destruct (unmap_param_memory k i p va) as (G1 & G2 & G3 & G4).
  split_and!; [congruence..|]. auto.
Qed.

(** TA code entered from a held, idle state. *)
Lemma call_ta_cases {A} p ns ni k i (f : H -> call_out H A) :
  kinv (Some i) p ns ni k -> idle k -> at_instance p i ->
  match call_ta k i f with
  | KRet _ k' => kinv (Some i) p ns ni k' /\ idle k' /\ sessions k' = sessions k /\
                 instances k' = instances k
  | KPanic k' => panic_ok ns ni k'
  end.
Proof.
  intros Hk [Hc Hp] Hpp. unfold call_ta. cbn [hal set_current_instance].
  destruct (f (hal k)) as [a h|h].
  - split_and!; done.
  - intros _. exists p. done.
Qed.

(** A full or freshly counted session table. *)
Lemma session_alloc_cases b p ns ni k s r st :
  kinv b p ns ni k -> ns < U32_MAX -> SessionTable.alloc (sessions k) s = (r, st) ->
  match r with
  | Some id => SessionTable.view (sessions k) !! id = None /\
      SessionTable.view st = <[id := sess_set_id id s]> (SessionTable.view (sessions k)) /\
      (size (SessionTable.view (sessions k)) < 32)%nat
  | None => SessionTable.view st = SessionTable.view (sessions k)
  end /\ SessionTable.ok st /\ next_id st <= ns + 1 /\ length (slots st) = 32%nat.
Proof.
  intros [Hs Hi Hns Hni Hc Hv] Hlt E. destruct r as [id|].
  - destruct (table_alloc_some _ _ sess_set_id_id _ _ _ _ Hs E) as (-> & H1 & H2 & H3 & H4).
    destruct H4 as [H4 H5]; [unfold U32_MAX in *; lia|].
    split_and!; try done; [|lia|congruence].
    pose proof (tmap_size sess_id st H4) as Hz. unfold SessionTable.view in *. rewrite H2 in Hz.
    rewrite map_size_insert_None in Hz by done. rewrite H3, Hc in Hz. lia.
  - destruct (table_alloc_none_ok sess_id _ _ _ _ E Hs) as (H1 & H2 & H3 & H4); [lia|].
    refine (conj H3 (conj H1 (conj _ _))); [lia|congruence].
Qed.

Lemma kinv_noroom b ns ni k i : kinv b (Some (Joining i)) ns ni k -> kinv b None ns ni k.
Proof. intros []. split; try done. by eapply vinv_noroom. Qed.

Lemma kinv_room ns ni k i :
  kinv (Some i) None ns ni k ->
  (forall x, InstanceTable.view (instances k) !! i = Some x ->
             multi_session (props x) = false -> session_count x = 0) ->
  kinv (Some i) (Some (Joining i)) ns ni k.
Proof. intros []. split; try done. by apply vinv_room. Qed.

Lemma bind_record_inv ns ni k i u l ps ctx o k' :
  kinv (Some i) (Some (Joining i)) ns ni k -> ns < U32_MAX -> idle k ->
  bind_record k i u l ps ctx = (o, k') -> kinv (Some i) None (ns + 1) ni k' /\ idle k'.
Proof.
  intros Hk Hlt Hid. unfold bind_record.
  destruct (SessionTable.alloc _ _) as [r st] eqn:E.
  destruct (session_alloc_cases _ _ _ _ _ _ _ _ Hk Hlt E) as (Hr & Hok & Hn & Hcap).
  destruct Hk as [Hs Hi Hns Hni Hc Hv]. destruct r as [id|]; intros [= <- <-]; (split; [|done]).
  - destruct Hr as (H1 & H2 & H3).
    destruct (table_update_spec inst_id (instances k) i bump_count (fun _ => eq_refl) Hi) as (G1 & G2 & G3 & G4).
    split; cbn [sessions instances set_instances set_sessions]; try done.
    unfold InstanceTable.view, InstanceTable.get_mut. rewrite G1, H2. by apply vinv_bind.
  - eapply kinv_noroom. split; try done. cbn [sessions set_sessions]. by rewrite Hr.
Qed.

(** A call that still holds instance [i]. *)
Definition held {A} (i : InstanceId) p ns ni (r : kres (H:=H) (AS:=AS) (PTA:=PTA) A) : Prop :=
  match r with
  | KRet _ k => kinv (Some i) p ns ni k /\ idle k
  | KPanic k => panic_ok ns ni k
  end.

Lemma kinv_mono b p ns ni ns' ni' k :
  ns <= ns' -> ni <= ni' -> kinv b p ns ni k -> kinv b p ns' ni' k.
Proof. apply tinv_mono. Qed.

Lemma panic_ok_mono ns ni ns' ni' k :
  ns <= ns' -> ni <= ni' -> panic_ok ns ni k -> panic_ok ns' ni' k.
Proof. apply (post_mono (A:=unit) ns ni ns' ni' (KPanic k)). Qed.

Lemma memory_idle k k' : same_but_memory k k' -> idle k -> idle k'.
Proof. intros (_ & H2 & H3 & _) [? ?]. split; congruence. Qed.

Lemma bind_session_inv ns ni k i u l ps :
  kinv (Some i) (Some (Joining i)) ns ni k -> idle k -> ns < U32_MAX ->
  held i None (ns + 1) ni (bind_session k i u l ps).
Proof.
  intros Hk Hid Hlt. unfold bind_session.
  destruct (entries_of k i) as [ep|].
  2:{ destruct (bind_record _ _ _ _ _ _) as [o k1] eqn:E.
      exact (bind_record_inv _ _ _ _ _ _ _ _ _ _ Hk Hlt Hid E). }
  destruct (map_params k i ps) as [[e|[raw vas]] k1] eqn:Em.
  all: pose proof (map_params_memory _ _ _ _ _ Em) as Hm; pose proof (memory_idle _ _ Hm Hid) as Hid1;
    destruct Hm as (_ & _ & _ & Hm); specialize (Hm _ _ _ _ Hk).
  { split; [|done]. eapply kinv_mono; [| |exact (kinv_noroom _ _ _ _ _ Hm)]; lia. }
  pose proof (call_ta_cases _ ns ni k1 i
    (ta_open_session (ep_open_session ep) (param_types_of ps) raw) Hm Hid1 (or_intror (or_intror eq_refl))) as Hc.
  destruct (call_ta _ _ _) as [[[code raw'] ctx] k2|k2];
    [|eapply panic_ok_mono; [| |exact Hc]; lia].
  destruct Hc as (Hk2 & Hid2 & _).
  pose proof (unmap_params_memory k2 i (params_from_raw ps raw') vas) as Hu.
  pose proof (memory_idle _ _ Hu Hid2) as Hid3. destruct Hu as (_ & _ & _ & Hu). specialize (Hu _ _ _ _ Hk2).
  destruct (negb _); [split; [|done]; eapply kinv_mono; [| |exact (kinv_noroom _ _ _ _ _ Hu)]; lia|].
  destruct (bind_record _ _ _ _ _ _) as [o k3] eqn:E.
  exact (bind_record_inv _ _ _ _ _ _ _ _ _ _ Hu Hlt Hid3 E).
Qed.

Lemma bind_unlock_inv ns ni k i u l ps :
  kinv (Some i) (Some (Joining i)) ns ni k -> idle k -> ns < U32_MAX ->
  post (ns + 1) ni (bind_unlock k i u l ps).
Proof.
  intros Hk Hid Hlt. unfold bind_unlock.
  pose proof (bind_session_inv ns ni k i u l ps Hk Hid Hlt) as Hb.
  destruct (bind_session _ _ _ _ _) as [o k1|k1]; [|done].
  destruct Hb as [Hb Hid1]. split; [by apply kinv_unlock|done].
Qed.

(** Removing the instance the call holds, when it has no session. *)
Lemma kinv_drop b ns ni k i x :
  kinv b None ns ni k -> (b = None \/ b = Some i) ->
  InstanceTable.view (instances k) !! i = Some x -> inst_state x = Live -> session_count x = 0 ->
  kinv None None ns ni (drop_instance k i).
Proof.
  intros [Hs Hi Hns Hni Hc Hv] Hb Hx HL Hz0. unfold drop_instance.
  destruct (InstanceTable.drop_id (instances k) i) as [r it] eqn:E.
  destruct (table_take_spec _ _ _ _ _ E Hi) as (_ & H2 & H3 & H4 & _).
  split; cbn [snd sessions instances set_instances]; try done; [by rewrite H4|].
  unfold InstanceTable.view in *. rewrite H2. by eapply vinv_drop.
Qed.

(** The instance table after an allocation. *)
Lemma instance_alloc_cases ns ni k x r it :
  kinv None None ns ni k -> ni < U32_MAX -> InstanceTable.alloc (instances k) x = (r, it) ->
  inst_uuid x = tp_uuid (props x) -> inst_state x = Live -> busy x = false -> session_count x = 0 ->
  kinv None None ns (ni + 1) (set_instances k it) /\
  match r with
  | Some i => InstanceTable.view it !! i = Some (inst_set_id i x)
  | None => True
  end.
Proof.
  intros [Hs Hi Hns Hni Hc Hv] Hlt E Hu HL Hb Hz0. destruct r as [i|].
  - destruct (table_alloc_some _ _ inst_set_id_id _ _ _ _ Hi E) as (-> & H1 & H2 & _ & H4).
    destruct H4 as [H4 H5]; [unfold U32_MAX in *; lia|].
    split; [|unfold InstanceTable.view; rewrite H2; apply lookup_insert_eq].
    split; cbn [sessions instances set_instances]; try done; [lia|].
    unfold InstanceTable.view. rewrite H2. by apply vinv_instance.
  - destruct (table_alloc_none_ok inst_id _ _ _ _ E Hi) as (H1 & H2 & H3 & _); [lia|]. split; [|done].
    split; cbn [sessions instances set_instances]; try done; [lia|].
    unfold InstanceTable.view in *. by rewrite H3.
Qed.

Lemma take_aspace_same k asp a k' :
  take_aspace k asp = (a, k') -> sessions k' = sessions k /\ instances k' = instances k /\
  current_instance k' = current_instance k /\ current_pta k' = current_pta k.
Proof.
  unfold take_aspace. destruct asp; [by intros [= <- <-]|].
  destruct (new_address_space _). by intros [= <- <-].
Qed.

Lemma view_get_mut (I : InstanceTable.t AS) i f :
  InstanceTable.ok I -> (forall x, inst_id (f x) = inst_id x) ->
  InstanceTable.view (InstanceTable.get_mut I i f) = alter f i (InstanceTable.view I).
Proof. intros Hi Hf. by apply (table_update_spec inst_id I i f Hf Hi). Qed.

Lemma get_mut_get (I : InstanceTable.t AS) i f :
  InstanceTable.ok I -> (forall x, inst_id (f x) = inst_id x) ->
  InstanceTable.ok (InstanceTable.get_mut I i f) /\
  InstanceTable.get (InstanceTable.get_mut I i f) i = f <$> InstanceTable.get I i.
Proof.
  intros Hi Hf. split; [by apply (table_update_spec inst_id I i f Hf Hi)|].
  pose proof (table_get_tmap inst_id (InstanceTable.get_mut I i f) i) as G1.
  pose proof (table_get_tmap inst_id I i) as G2. unfold InstanceTable.get. rewrite G1, G2.
  pose proof (view_get_mut I i f Hi Hf) as Hv. unfold InstanceTable.view in Hv.
  by rewrite Hv, lookup_alter_eq.
Qed.

Lemma instantiate_inv ns ni k p u l ps eps asp :
  kinv None None ns ni k -> idle k -> ns < U32_MAX -> ni < U32_MAX ->
  post (ns + 1) (ni + 1) (instantiate_and_bind k p u l ps eps asp).
Proof.
  intros Hk Hid Hns Hni. unfold instantiate_and_bind.
  destruct (beqb (tp_uuid p) u) eqn:Eu; cbn [negb];
    [apply beqb_eq in Eu|split; [|done]; eapply kinv_mono; [| |exact Hk]; lia].
  destruct (take_aspace k asp) as [a k1] eqn:Ea.
  destruct (take_aspace_same _ _ _ _ Ea) as (A1 & A2 & A3 & A4).
  assert (kinv None None ns ni k1) as Hk1 by (unfold kinv; by rewrite A1, A2).
  assert (idle k1) as Hid1 by (unfold idle; by rewrite A3, A4).
  destruct (InstanceTable.alloc _ _) as [r it] eqn:E.
  destruct (instance_alloc_cases ns ni k1 _ _ _ Hk1 Hni E) as [Hk2 Hx]; [done..|].
  destruct r as [i|]; [|split; [|done]; eapply kinv_mono; [| |exact Hk2]; lia].
  destruct (lock_instance _ i) as [e k3] eqn:EL.
  pose proof (lock_cases _ _ _ _ _ _ _ Hk2 EL) as HL. cbn [instances set_instances] in HL.
  rewrite Hx in HL. destruct e as [e|].
  { destruct HL as [_ [[_ ?]|(_ & x & [= <-] & Hb)]]; [done|discriminate Hb]. }
  destruct HL as (Hk3 & C1 & C2 & x & [= <-] & _ & HI).
  assert (idle k3) as Hid3 by (split; [rewrite C1|rewrite C2]; apply Hid1).
  assert (InstanceTable.view (instances k3) !! i =
          Some (inst_set_busy true (inst_set_id i (new_instance u p a eps)))) as Hx3.
  { rewrite HI, view_get_mut by (done || apply Hk2). by rewrite lookup_alter_eq, Hx. }
  destruct eps as [ep|].
  2:{ apply bind_unlock_inv; [|done..]. apply kinv_room; [done|]. rewrite Hx3. by intros x [= <-]. }
  pose proof (call_ta_cases None ns (ni + 1) k3 i (ta_create (ep_create ep)) Hk3 Hid3 (or_introl eq_refl)) as Hc.
  destruct (call_ta _ _ _) as [code k4|k4]; [|eapply panic_ok_mono; [| |exact Hc]; lia].
  destruct Hc as (Hk4 & Hid4 & _ & HI4).
  destruct (negb _).
  2:{ apply bind_unlock_inv; [|done..]. apply kinv_room; [done|]. rewrite HI4, Hx3. by intros x [= <-]. }
  split; [|done]. eapply kinv_mono; [| |eapply kinv_drop]; [| |by apply kinv_unlock|by left| | |]; try lia.
  - cbn [unlock_instance instances set_instances].
    rewrite view_get_mut by (done || apply Hk4). by rewrite lookup_alter_eq, HI4, Hx3.
  - done.
  - done.
Qed.

Lemma open_user_ta_inv ns ni k u l ps c t :
  kinv None None ns ni k -> idle k -> ns < U32_MAX -> ni < U32_MAX ->
  post (ns + 1) (ni + 1) (open_user_ta k u l ps c t).
Proof.
  intros Hk Hid Hns Hni.
  assert (kinv None None (ns + 1) (ni + 1) k) as Hk' by (eapply kinv_mono; [| |exact Hk]; lia).
  unfold open_user_ta. destruct (cancelled k c); [done|].
  destruct (InstanceTable.live_single (instances k) u) as [id|] eqn:El.
  - destruct (live_single_spec _ _ _ (t_i _ _ _ _ _ _ Hk) El) as (x & Hx & _ & _ & HLive).
    rewrite get_view, Hx. destruct (_ && _) eqn:Eg; [done|].
    destruct (lock_instance k id) as [e k1] eqn:EL.
    pose proof (lock_cases _ _ _ _ _ _ _ Hk EL) as HL. destruct e as [e|].
    + destruct HL as [-> _]. done.
    + destruct HL as (Hk1 & C1 & C2 & x' & Hx' & _ & HI).
      eapply (post_mono (ns + 1) ni); [lia|lia|]. apply bind_unlock_inv; [| |done].
      2:{ unfold idle in *. by rewrite C1, C2. }
      apply kinv_room; [done|]. rewrite HI, view_get_mut by (done || apply Hk).
      rewrite lookup_alter_eq, Hx. intros y [= <-]. cbn. intros Hm. rewrite Hm in Eg. cbn in Eg.
      bsplit. pose proof (v_inst _ _ _ _ (t_v _ _ _ _ _ _ Hk) id x Hx) as (_ & _ & _ & _ & Hc & _).
      rewrite (Hc HLive), decide_False in * by done. unfold cnt in *. lia.
  - destruct (EarlyTas.get _ _); [by apply instantiate_inv|].
    case_bool_decide; [done|]. split; [exact Hk'|done].
Qed.

Lemma open_inv ns ni k u l ps c t :
  kinv None None ns ni k -> idle k -> ns < U32_MAX -> ni < U32_MAX ->
  post (ns + 1) (ni + 1) (open k u l ps c t).
Proof.
  intros Hk Hid Hns Hni.
  assert (kinv None None (ns + 1) (ni + 1) k) as Hk' by (eapply kinv_mono; [| |exact Hk]; lia).
  unfold open. destruct (cancelled k c); [done|].
  destruct (PtaRegistry.get (ptas k) u) as [pta|]; [|by apply open_user_ta_inv].
  destruct (pta_open pta ps) as [[[e|ctx] ps'] q|q]; [split; [exact Hk'|done]| |].
  - cbn [sessions set_ptas].
    destruct (SessionTable.alloc (sessions k) _) as [r st] eqn:E.
    destruct (session_alloc_cases _ _ _ _ _ _ _ _ Hk Hns E) as (Hr & Hok & Hn & Hcap).
    destruct Hk as [Hs Hi Hns' Hni' Hc Hv]. destruct r as [id|]; (split; [|done]).
    + destruct Hr as (H1 & H2 & H3).
      split; cbn [sessions instances set_ptas set_sessions]; try done; [lia|].
      rewrite H2. by apply vinv_pta.
    + split; cbn [sessions instances set_ptas set_sessions]; try done; [lia|]. by rewrite Hr.
  - intros _. cbn [current_instance set_ptas]. destruct Hid as [-> _]. exact Hk'.
Qed.

Lemma invoke_locked_inv ns ni k s sess i c ps :
  kinv (Some i) None ns ni k -> current_pta k = false ->
  post ns ni (invoke_locked k s sess i c ps).
Proof.
  intros Hk Hp. unfold invoke_locked.
  destruct (map_params (set_current_instance k (Some i)) i ps) as [r k1] eqn:Em.
  destruct (map_params_memory _ _ _ _ _ Em) as (M1 & M2 & M3 & M4).
  cbn [current_instance current_pta set_current_instance] in M2, M3.
  specialize (M4 (Some i) None ns ni Hk). destruct r as [e|[raw vas]].
  - split; [|split; [done|cbn; congruence]]. by apply (kinv_unlock ns ni (set_current_instance k1 None)).
  - destruct (match entries_of k1 i with Some _ => _ | None => _ end) as [[code raw'] h|h].
    + pose proof (unmap_params_memory (set_hal k1 h) i (params_from_raw ps raw') vas) as (U1 & U2 & U3 & U4).
      specialize (U4 (Some i) None ns ni M4).
      split; [|split; [done|cbn in *; congruence]].
      by apply (kinv_unlock ns ni (set_current_instance _ None)).
    + intros _. cbn [current_instance set_hal]. rewrite M2. exists None. split; [by left|exact M4].
Qed.

Lemma invoke_inv ns ni k s c ps cid :
  kinv None None ns ni k -> idle k -> post ns ni (invoke k s c ps cid).
Proof.
  intros Hk Hid. unfold invoke. destruct (cancelled k cid); [done|].
  destruct (SessionTable.get _ _) as [sess|]; [|done]. case_bool_decide; [done|].
  destruct (kind sess).
  - destruct (instance sess) as [i|]; [|done].
    destruct (lock_instance k i) as [e k1] eqn:EL.
    pose proof (lock_cases _ _ _ _ _ _ _ Hk EL) as HL. destruct e as [e|].
    + destruct HL as [-> _]. done.
    + destruct HL as (Hk1 & _ & C2 & _). apply invoke_locked_inv; [done|]. rewrite C2. apply Hid.
  - destruct (PtaRegistry.get _ _) as [pta|]; [|done].
    destruct (pta_invoke _ _ _ _) as [[r ps'] q|q]; [|done].
    split; [exact Hk|]. split; [apply Hid|done].
Qed.

Lemma delete_alter_same {A} (f : A -> A) i (m : gmap Z A) : delete i (alter f i m) = delete i m.
Proof.
  apply map_eq. intros j. destruct (decide (j = i)) as [->|].
  - by rewrite !lookup_delete_eq.
  - by rewrite !lookup_delete_ne, lookup_alter_ne.
Qed.

(** [close]'s teardown: killed and removed in one go. *)
Lemma kinv_kill_drop ns ni k i x :
  kinv (Some i) None ns ni k -> InstanceTable.view (instances k) !! i = Some x ->
  session_count x = 0 ->
  kinv None None ns ni
    (drop_instance (set_instances k (InstanceTable.get_mut (instances k) i kill_instance)) i).
Proof.
  intros [Hs Hi Hns Hni Hc Hv] Hx Hz0. unfold drop_instance. cbn [instances set_instances].
  destruct (table_update_spec inst_id (instances k) i kill_instance (fun _ => eq_refl) Hi) as (G1 & G2 & G3 & _).
  destruct (InstanceTable.drop_id _ i) as [r it] eqn:E.
  destruct (table_take_spec _ _ _ _ _ E G2) as (_ & H2 & H3 & H4 & _).
  pose proof (v_inst _ _ _ _ Hv i x Hx) as (_ & _ & _ & HL & _).
  split; cbn [snd sessions instances set_instances]; try done.
  - rewrite H4. unfold InstanceTable.get_mut. by rewrite G3.
  - unfold InstanceTable.view in *. rewrite H2. unfold InstanceTable.get_mut.
    rewrite G1, delete_alter_same. eapply vinv_drop; eauto.
Qed.

Lemma close_destroy_inv ns ni k i x :
  kinv (Some i) None ns ni k -> idle k ->
  InstanceTable.view (instances k) !! i = Some x -> session_count x = 0 ->
  post ns ni (close_destroy k i).
Proof.
  intros Hk Hid Hx Hz0. unfold close_destroy. destruct (entries_of k i) as [ep|].
  - pose proof (call_ta_cases None ns ni k i (ta_destroy (ep_destroy ep)) Hk Hid (or_introl eq_refl)) as Hc.
    destruct (call_ta _ _ _) as [[] k1|k1]; [|done]. destruct Hc as (Hk1 & Hid1 & _ & HI).
    split; [|done]. eapply kinv_kill_drop; [done| |done]. by rewrite HI.
  - split; [|done]. by eapply kinv_kill_drop.
Qed.

Lemma close_locked_inv ns ni k sess i :
  kinv (Some i) (Some (Leaving i)) ns ni k -> idle k -> post ns ni (close_locked k sess i).
Proof.
  intros Hk Hid. unfold close_locked.
  assert (forall k1, kinv (Some i) (Some (Leaving i)) ns ni k1 -> idle k1 ->
    post ns ni (let '(d, k2) := close_count k1 i in
                if d : bool then close_destroy k2 i else KRet closed_out (unlock_instance k2 i))) as Haft.
  { intros k1 Hk1 Hid1. unfold close_count. rewrite get_view.
    assert (kinv (Some i) None ns ni (set_instances k1 (InstanceTable.get_mut (instances k1) i drop_count))) as Hk2
      by (eapply kinv_upd; [exact Hk1|done|apply vinv_uncount]).
    destruct (InstanceTable.view _ !! i) as [x|] eqn:Ex.
    - destruct (_ && _) eqn:Ed.
      + bsplit. by eapply close_destroy_inv.
      + split; [by apply kinv_unlock|done].
    - split; [by apply kinv_unlock|done]. }
  destruct (entries_of k i) as [ep|]; [|by apply Haft].
  pose proof (call_ta_cases (Some (Leaving i)) ns ni k i
    (ta_close_session (ep_close_session ep) (ta_sess_ctx sess)) Hk Hid (or_intror (or_introl eq_refl))) as Hc.
  destruct (call_ta _ _ _) as [[] k1|k1]; [|done]. destruct Hc as (Hk1 & Hid1 & _).
  by apply Haft.
Qed.

Lemma kinv_take ns ni k s r st :
  kinv None None ns ni k -> SessionTable.take (sessions k) s = (r, st) ->
  r = SessionTable.view (sessions k) !! s /\
  match r with
  | Some x => kinv None (Leaving <$> instance x) ns ni (set_sessions k st)
  | None => kinv None None ns ni (set_sessions k st)
  end.
Proof.
  intros [Hs Hi Hns Hni Hc Hv] E.
  destruct (table_take_spec _ _ _ _ _ E Hs) as (Hr & H2 & H3 & H4 & H5). split; [done|].
  destruct r as [x|]; split; cbn [sessions instances set_sessions]; try done; try lia; try congruence.
  all: unfold SessionTable.view in *; rewrite H2.
  - by apply vinv_take.
  - by rewrite delete_id.
Qed.

Lemma close_inv ns ni k s : kinv None None ns ni k -> idle k -> post ns ni (close k s).
Proof.
  intros Hk Hid. unfold close. destruct (SessionTable.take (sessions k) s) as [r st] eqn:E.
  destruct (kinv_take _ _ _ _ _ _ Hk E) as [Hr Ht]. destruct r as [sess|]; [|done].
  pose proof (v_sess _ _ _ _ (t_v _ _ _ _ _ _ Hk) s sess (eq_sym Hr)) as Hsi. unfold sess_inv in Hsi.
  destruct (kind sess).
  - destruct Hsi as (i & y & Ei & Hy & _). rewrite Ei in *.
    destruct (lock_instance _ i) as [e k1] eqn:EL.
    pose proof (lock_cases _ _ _ _ _ _ _ Ht EL) as HL. destruct e as [e|].
    + destruct HL as [-> HL]. split; [|done]. destruct Ht as [T1 T2 T3 T4 T5 T6].
      split; try done. eapply vinv_forget; [exact T6|]. intros j z [= <-] Hz.
      destruct HL as [[_ HL]|(_ & x & HL & Hb)]; congruence.
    + destruct HL as (Hk1 & C1 & C2 & _). apply close_locked_inv; [done|].
      unfold idle. by rewrite C1, C2.
  - destruct Hsi as [Ei _]. rewrite Ei in Ht.
    destruct (PtaRegistry.get _ _) as [pta|]; [|done].
    destruct (pta_close _ _) as [[] q|q]; [done|].
    intros _. cbn [current_instance set_ptas set_sessions]. destruct Hid as [-> _]. exact Ht.
Qed.

Lemma rpc_complete_inv ns ni k resp :
  kinv None None ns ni k -> idle k -> ns < U32_MAX -> ni < U32_MAX ->
  post (ns + 1) (ni + 1) (rpc_complete aarch64 k resp).
Proof.
  intros Hk Hid Hns Hni.
  assert (kinv None None (ns + 1) (ni + 1) k) as Hk' by (eapply kinv_mono; [| |exact Hk]; lia).
  assert (panic_ok (ns + 1) (ni + 1) k) as Hp.
  { intros _. destruct Hid as [-> _]. exact Hk'. }
  unfold rpc_complete, load_and_bind. destruct (yielding k) as [y|]; [|done].
  destruct resp; try done. destruct (cancelled _ _); [done|].
  destruct (load_image _) as [ld| |]; [|done..]. destruct (negb _); [done|].
  destruct (new_address_space _) as [asp h]. destruct (map_elf _ _ _) as [[eps| |] asp'];
    [|done|done]. by apply instantiate_inv.
Qed.

Lemma handle_inv ns ni k cmd :
  kinv None None ns ni k -> idle k -> ns < U32_MAX -> ni < U32_MAX ->
  post (ns + 1) (ni + 1) (handle aarch64 k cmd).
Proof.
  intros Hk Hid Hns Hni.
  assert (kinv None None (ns + 1) (ni + 1) k) as Hk' by (eapply kinv_mono; [| |exact Hk]; lia).
  unfold handle. destruct (negb _); [done|].
  destruct cmd; [by apply open_inv| | |done|by apply rpc_complete_inv].
  - eapply post_mono; [| |by apply invoke_inv]; lia.
  - eapply post_mono; [| |by apply close_inv]; lia.
Qed.

Lemma on_ta_panic_inv ns ni k :
  panic_ok ns ni k -> current_pta k = false ->
  kinv None None ns ni (snd (on_ta_panic k)) /\ idle (snd (on_ta_panic k)).
Proof.
  intros Hp Hf. specialize (Hp Hf). unfold on_ta_panic.
  destruct (current_instance k) as [i|] eqn:Ec; [|by split; [|split]].
  destruct Hp as (p & Hpp & [Hs Hi Hns Hni Hc Hv]). cbn [snd]. split; [|done].
  destruct (table_update_spec inst_id (instances k) i kill_instance (fun _ => eq_refl) Hi) as (G1 & G2 & G3 & _).
  destruct (table_map_spec sess_id (sessions k) (SessionTable.poison i) (poison_id i) Hs) as (P1 & P2 & P3 & P4).
  split; cbn [sessions instances set_instances set_sessions set_current_instance]; try done.
  - unfold SessionTable.poison_instance. by rewrite P4.
  - unfold SessionTable.view, InstanceTable.view, SessionTable.poison_instance, InstanceTable.get_mut in *.
    rewrite P1, G1. by eapply vinv_panic.
Qed.

Lemma serve_inv ns ni k cmd o k' :
  kinv None None ns ni k -> idle k -> ns < U32_MAX -> ni < U32_MAX ->
  serve aarch64 k cmd = Some (o, k') -> kinv None None (ns + 1) (ni + 1) k' /\ idle k'.
Proof.
  intros Hk Hid Hns Hni. unfold serve.
  pose proof (handle_inv ns ni k cmd Hk Hid Hns Hni) as Hh.
  destruct (handle aarch64 k cmd) as [o1 k1|k1]; [by intros [= <- <-]|].
  unfold on_panic. destruct (current_pta k1) eqn:Ep; [done|].
  pose proof (on_ta_panic_inv _ _ _ Hh Ep) as Ho. destruct (on_ta_panic k1). by intros [= <- <-].
Qed.

Lemma run_inv cmds ns ni k k' :
  kinv None None ns ni k -> idle k ->
  ns + Z.of_nat (length cmds) <= U32_MAX -> ni + Z.of_nat (length cmds) <= U32_MAX ->
  run aarch64 k cmds = Some k' ->
  kinv None None (ns + Z.of_nat (length cmds)) (ni + Z.of_nat (length cmds)) k' /\ idle k'.
Proof.
  revert ns ni k. induction cmds as [|c cs IH]; intros ns ni k Hk Hid Hns Hni.
  - intros [= <-]. cbn. rewrite !Z.add_0_r. done.
  - cbn [run length] in *. destruct (serve aarch64 k c) as [[o k1]|] eqn:E; [|done].
    destruct (serve_inv ns ni k c o k1) as [Hk1 Hid1]; [done|done|lia|lia|done|]. intros Hr.
    replace (ns + _) with (ns + 1 + Z.of_nat (length cs)) by lia.
    replace (ni + _) with (ni + 1 + Z.of_nat (length cs)) by lia.
    apply (IH _ _ k1); try done; lia.
Qed.

Lemma kernel_new_inv h :
  kinv None None 1 1 (Kernel_new h) /\ idle (Kernel_new h : K).
Proof.
  split; [|done]. unfold kinv, Kernel_new, MAX_SESSIONS, MAX_INSTANCES. cbn [sessions instances].
  split; try done; try apply table_new_ok.
  unfold SessionTable.view, InstanceTable.view, SessionTable.new, InstanceTable.new.
  rewrite (proj2 (table_new_ok sess_id 32)), (proj2 (table_new_ok inst_id 16)).
  split; [by intros ? ?; rewrite lookup_empty..|done|]. rewrite map_size_empty. lia.
Qed.
End Calls.
