(* ===== verification/KernelFrame.v ===== *)
(** What a kernel call leaves alone (src/crates/rustee-os/src/lib.rs): the
    configuration fields, the cancelled ids, and the instances other than the
    one it creates.  From this: single-instance TAs have one live instance, and
    a cancellation is never forgotten. *)
From Stdlib Require Import ZArith Lia.
From stdpp Require Import base list gmap numbers.
From S2P Require Import Prelude Abi Header Iface Tables Elf Kernel KernelInv.

Local Open Scope Z_scope.

Section Frame.
Context {H AS PTA : Type} `{!HalOps H AS} `{!CryptoProvider} `{!PtaOps PTA} `{!TaCode H}.
Context (aarch64 : bool).
Abbreviation K := (Kernel H AS PTA).
Implicit Types k : K.
Implicit Types T : InstanceTable.t AS.

(** An instance of the later table is one of the earlier table with the same
    UUID and properties, no dead instance came back to life, and no instance
    but the one named [t] changed. *)
Definition older (x x' : Instance_ AS) : Prop :=
  inst_uuid x' = inst_uuid x /\ props x' = props x /\ (inst_state x' = Live -> inst_state x = Live).
Definition shrinks (t : option InstanceId) (T T' : InstanceTable.t AS) : Prop :=
  InstanceTable.ok T -> InstanceTable.ok T' /\ next_id T' = next_id T /\
  (forall i x', InstanceTable.view T' !! i = Some x' ->
    exists x, InstanceTable.view T !! i = Some x /\ older x x') /\
  (forall j, t <> Some j -> InstanceTable.view T' !! j = InstanceTable.view T !! j).

Lemma shrinks_refl t T : shrinks t T T.
Proof. intros Ht. split_and!; [done|done| |done]. intros i x Hx. exists x. done. Qed.

Lemma shrinks_trans t T1 T2 T3 : shrinks t T1 T2 -> shrinks t T2 T3 -> shrinks t T1 T3.
Proof.
  intros H1 H2 Ht. destruct (H1 Ht) as (Ht2 & Hn2 & Hs1 & Hf1). destruct (H2 Ht2) as (Ht3 & Hn3 & Hs2 & Hf2).
  split_and!; [done|congruence| |].
  - intros i x3 Hx3. destruct (Hs2 i x3 Hx3) as (x2 & Hx2 & A1 & A2 & A3).
    destruct (Hs1 i x2 Hx2) as (x1 & Hx1 & B1 & B2 & B3).
    exists x1. split; [done|]. split_and!; [congruence|congruence|auto].
  - intros j Hj. rewrite Hf2 by done. by apply Hf1.
Qed.

Lemma shrinks_get_mut T i f :
  (forall x, inst_id (f x) = inst_id x) -> (forall x, older x (f x)) ->
  shrinks (Some i) T (InstanceTable.get_mut T i f).
Proof.
  intros Hf Ho Ht. destruct (table_update_spec inst_id T i f Hf Ht) as (H1 & H2 & H3 & _).
  split_and!; [done|done| |].
  - intros j x. rewrite view_get_mut by done. destruct (decide (j = i)) as [->|].
    + rewrite lookup_alter_eq. destruct (InstanceTable.view T !! i) as [y|] eqn:E; [|done].
      intros [= <-]. exists y. done.
    + rewrite lookup_alter_ne by done. intros Hx. by exists x.
  - intros j Hj. rewrite view_get_mut by done. apply lookup_alter_ne. congruence.
Qed.

Lemma shrinks_drop T i : shrinks (Some i) T (snd (InstanceTable.drop_id T i)).
Proof.
  intros Ht. destruct (InstanceTable.drop_id T i) as [r t'] eqn:E.
  destruct (table_take_spec _ _ _ _ _ E Ht) as (_ & H2 & H3 & H4 & _). cbn [snd].
  split_and!; [done|done| |]; unfold InstanceTable.view; rewrite H2.
  - intros j x. rewrite lookup_delete_Some. intros [_ Hx]. by exists x.
  - intros j Hj. apply lookup_delete_ne. congruence.
Qed.

(** The configuration and the pending request are untouched and no instance is created. *)
Definition same_config k k' : Prop :=
  cancelled_ids k' = cancelled_ids k /\ notices_ok k' = notices_ok k /\ early k' = early k /\
  entropy_origin k' = entropy_origin k.
Definition quiet (t : option InstanceId) k k' : Prop :=
  same_config k k' /\ yielding k' = yielding k /\ shrinks t (instances k) (instances k').

Lemma quiet_refl t k : quiet t k k.
Proof. split_and!; [done..|]. apply shrinks_refl. Qed.

Lemma quiet_trans t k1 k2 k3 : quiet t k1 k2 -> quiet t k2 k3 -> quiet t k1 k3.
Proof.
  intros ((A1 & A2 & A3 & A4) & A5 & A6) ((B1 & B2 & B3 & B4) & B5 & B6).
  split; [split_and!; congruence|]. split; [congruence|by eapply shrinks_trans].
Qed.

(** A change of fields other than these. *)
Lemma quiet_fields t k k' :
  same_config k k' -> yielding k' = yielding k -> instances k' = instances k -> quiet t k k'.
Proof. intros ?? Hi. split_and!; [done|done|]. rewrite Hi. apply shrinks_refl. Qed.

Lemma quiet_get_mut k i f :
  (forall x, inst_id (f x) = inst_id x) -> (forall x, older x (f x)) ->
  quiet (Some i) k (set_instances k (InstanceTable.get_mut (instances k) i f)).
Proof. intros. split_and!; [done..|]. by apply shrinks_get_mut. Qed.

Lemma quiet_drop k i : quiet (Some i) k (drop_instance k i).
Proof. split_and!; [done..|]. apply shrinks_drop. Qed.

Definition kquiet {A} t k (r : kres (H:=H) (AS:=AS) (PTA:=PTA) A) : Prop :=
  match r with KRet _ k' => quiet t k k' | KPanic k' => quiet t k k' end.

Lemma kquiet_trans {A} t k1 k2 (r : kres A) : quiet t k1 k2 -> kquiet t k2 r -> kquiet t k1 r.
Proof. destruct r; apply quiet_trans. Qed.

(** Solve the steps that change only other fields, or an instance's own state. *)
Ltac quiet_step :=
  first [ apply quiet_refl
        | solve [apply quiet_fields; done]
        | solve [apply quiet_get_mut; done]
        | apply quiet_drop ].

Lemma lock_quiet k i : quiet (Some i) k (snd (lock_instance k i)).
Proof.
  unfold lock_instance. destruct (InstanceTable.get _ _) as [x|]; [destruct (busy x)|]; quiet_step.
Qed.

Lemma unlock_quiet k i : quiet (Some i) k (unlock_instance k i).
Proof. apply quiet_get_mut; done. Qed.

Lemma put_aspace_quiet k i a : quiet (Some i) k (put_aspace k i a).
Proof. apply quiet_get_mut; done. Qed.

Lemma map_params_quiet k i ps : quiet (Some i) k (snd (map_params k i ps)).
Proof.
  unfold map_params. destruct (_ ≫= _); [|quiet_step].
  destruct (map_loop _ _ _); cbn [snd].
  1,2: eapply quiet_trans; [|apply put_aspace_quiet].
  all: eapply quiet_trans; [apply put_aspace_quiet|quiet_step].
Qed.

Lemma unmap_param_quiet k i p va : quiet (Some i) k (unmap_param k i p va).
Proof.
  unfold unmap_param. destruct p as [| |[c o|v] sz d]; try quiet_step.
  destruct (bool_decide _); [destruct (shm_sync_out _ _) as [[? ?]|]|]; destruct va as [v|];
    try quiet_step.
  eapply quiet_trans; [|apply quiet_get_mut; done]. quiet_step.
Qed.

Lemma unmap_params_quiet k i ps vas : quiet (Some i) k (unmap_params k i ps vas).
Proof.
  revert k vas. induction ps as [|p ps IH]; intros k [|va vas]; cbn [unmap_params]; try quiet_step.
  eapply quiet_trans; [apply unmap_param_quiet|apply IH].
Qed.

Lemma call_ta_quiet {A} k i (f : H -> call_out H A) : kquiet (Some i) k (call_ta k i f).
Proof. unfold call_ta. destruct (f _); cbn; quiet_step. Qed.

Lemma bind_record_quiet k i u l ps ctx : quiet (Some i) k (snd (bind_record k i u l ps ctx)).
Proof.
  unfold bind_record. destruct (SessionTable.alloc _ _) as [[s|] st]; cbn [snd]; [|quiet_step].
  eapply quiet_trans; [|apply quiet_get_mut; done]. quiet_step.
Qed.

Lemma bind_session_quiet k i u l ps : kquiet (Some i) k (bind_session k i u l ps).
Proof.
  unfold bind_session. destruct (entries_of k i) as [ep|].
  2:{ pose proof (bind_record_quiet k i u l ps 0) as Hr. by destruct (bind_record _ _ _ _ _ _). }
  pose proof (map_params_quiet k i ps) as Hm.
  destruct (map_params k i ps) as [[e|[raw vas]] k1]; [exact Hm|]. cbn [snd] in Hm.
  pose proof (call_ta_quiet k1 i (ta_open_session (ep_open_session ep) (param_types_of ps) raw)) as Hc.
  destruct (call_ta _ _ _) as [[[code raw'] ctx] k2|k2]; [|by eapply quiet_trans]. cbn in Hc.
  pose proof (unmap_params_quiet k2 i (params_from_raw ps raw') vas) as Hu.
  assert (quiet (Some i) k (unmap_params k2 i (params_from_raw ps raw') vas)) as Hq
    by (eapply quiet_trans; [exact Hm|]; by eapply quiet_trans).
  destruct (negb _); [exact Hq|].
  pose proof (bind_record_quiet (unmap_params k2 i (params_from_raw ps raw') vas) i u l
    (params_from_raw ps raw') ctx) as Hr.
  destruct (bind_record _ _ _ _ _ _). by eapply quiet_trans.
Qed.

Lemma bind_unlock_quiet k i u l ps : kquiet (Some i) k (bind_unlock k i u l ps).
Proof.
  unfold bind_unlock. pose proof (bind_session_quiet k i u l ps) as Hb.
  destruct (bind_session _ _ _ _ _); [|done]. eapply quiet_trans; [exact Hb|apply unlock_quiet].
Qed.

(** The instance a call works on was free when the call came. *)
Definition free_instance (t : option InstanceId) k : Prop :=
  forall i, t = Some i -> exists x, InstanceTable.get (instances k) i = Some x /\ busy x = false.

Lemma lock_free k i k1 : lock_instance k i = (None, k1) -> free_instance (Some i) k.
Proof.
  unfold lock_instance. destruct (InstanceTable.get _ _) as [x|] eqn:E; [|done].
  destruct (busy x) eqn:Eb; [done|]. intros _ j [= <-]. by exists x.
Qed.

Lemma lock_failed k i e k1 : lock_instance k i = (Some e, k1) -> k1 = k.
Proof.
  unfold lock_instance. destruct (InstanceTable.get _ _) as [x|]; [destruct (busy x)|]; congruence.
Qed.

Definition kquiet_free {A} k (r : kres (H:=H) (AS:=AS) (PTA:=PTA) A) : Prop :=
  exists t, free_instance t k /\ kquiet t k r.

Lemma quiet_free_none {A} k (r : kres A) : kquiet None k r -> kquiet_free k r.
Proof. intros Hr. exists None. done. Qed.

Lemma invoke_locked_quiet k s sess i c ps : kquiet (Some i) k (invoke_locked k s sess i c ps).
Proof.
  unfold invoke_locked.
  pose proof (map_params_quiet (set_current_instance k (Some i)) i ps) as Hm.
  destruct (map_params _ i ps) as [[e|[raw vas]] k2]; cbn [snd] in Hm;
    (assert (quiet (Some i) k k2) as Hq by (eapply quiet_trans; [|exact Hm]; quiet_step)).
  { eapply quiet_trans; [exact Hq|]. eapply quiet_trans; [|apply unlock_quiet]. quiet_step. }
  destruct (match entries_of k2 i with Some _ => _ | None => _ end) as [[code raw'] h|h].
  - eapply quiet_trans; [exact Hq|]. eapply quiet_trans; [|apply unlock_quiet].
    eapply quiet_trans;
      [|apply (quiet_fields _ (unmap_params (set_hal k2 h) i (params_from_raw ps raw') vas)); done].
    eapply quiet_trans; [|apply unmap_params_quiet]. quiet_step.
  - eapply quiet_trans; [exact Hq|]. quiet_step.
Qed.

Lemma invoke_quiet k s c ps cid : kquiet_free k (invoke k s c ps cid).
Proof.
  unfold invoke. destruct (cancelled k cid); [apply quiet_free_none, quiet_refl|].
  destruct (SessionTable.get _ _) as [sess|]; [|apply quiet_free_none, quiet_refl].
  case_bool_decide; [apply quiet_free_none, quiet_refl|]. destruct (kind sess).
  - destruct (instance sess) as [i|]; [|apply quiet_free_none, quiet_refl].
    pose proof (lock_quiet k i) as HL. destruct (lock_instance k i) as [[e|] k1] eqn:EL.
    + rewrite (lock_failed _ _ _ _ EL). apply quiet_free_none, quiet_refl.
    + exists (Some i). split; [by eapply lock_free|].
      apply (kquiet_trans _ k k1); [exact HL|]. apply invoke_locked_quiet.
  - apply quiet_free_none. destruct (PtaRegistry.get _ _) as [pta|]; [|apply quiet_refl].
    destruct (pta_invoke _ _ _ _) as [[r ps'] q|q]; cbn; quiet_step.
Qed.

Lemma close_locked_quiet k sess i : kquiet (Some i) k (close_locked k sess i).
Proof.
  assert (forall k2, kquiet (Some i) k2 (let '(d, k3) := close_count k2 i in
            if d : bool then close_destroy k3 i else KRet closed_out (unlock_instance k3 i))) as Haft.
  { intros k2. unfold close_count.
    set (k3 := set_instances k2 (InstanceTable.get_mut (instances k2) i drop_count)).
    assert (quiet (Some i) k2 k3) as Hq by (apply quiet_get_mut; done).
    assert (quiet (Some i) k2 (unlock_instance k3 i)) as Hu
      by (eapply quiet_trans; [exact Hq|apply unlock_quiet]).
    destruct (InstanceTable.get (instances k3) i) as [x|]; [|exact Hu].
    destruct (_ && _); [|exact Hu]. apply (kquiet_trans _ _ k3); [exact Hq|]. unfold close_destroy.
    assert (forall k4, quiet (Some i) k4 (drop_instance (set_instances k4
              (InstanceTable.get_mut (instances k4) i kill_instance)) i)) as Hkd.
    { intros k4. eapply quiet_trans; [apply (quiet_get_mut k4 i kill_instance); done|apply quiet_drop]. }
    destruct (entries_of k3 i) as [ep|]; [|apply Hkd].
    pose proof (call_ta_quiet k3 i (ta_destroy (ep_destroy ep))) as Hc.
    destruct (call_ta _ _ _) as [[] k4|k4]; [|exact Hc]. eapply quiet_trans; [exact Hc|apply Hkd]. }
  unfold close_locked. destruct (entries_of k i) as [ep|]; [|apply Haft].
  pose proof (call_ta_quiet k i (ta_close_session (ep_close_session ep) (ta_sess_ctx sess))) as Hc.
  destruct (call_ta _ _ _) as [[] k2|k2]; [|exact Hc].
  apply (kquiet_trans _ _ k2); [exact Hc|apply Haft].
Qed.

Lemma close_quiet k s : kquiet_free k (close k s).
Proof.
  unfold close. destruct (SessionTable.take _ _) as [[sess|] st];
    [|apply quiet_free_none; cbn; quiet_step].
  assert (forall t, quiet t k (set_sessions k st)) as H0' by (intros t; quiet_step).
  destruct (kind sess).
  2:{ apply quiet_free_none, (kquiet_trans _ _ (set_sessions k st)); [done|].
      destruct (PtaRegistry.get _ _) as [pta|]; [|apply quiet_refl].
      destruct (pta_close _ _) as [[] q|q]; cbn; quiet_step. }
  destruct (instance sess) as [i|]; [|apply quiet_free_none, H0'].
  pose proof (lock_quiet (set_sessions k st) i) as HL.
  destruct (lock_instance _ i) as [[e|] k1] eqn:EL.
  - rewrite (lock_failed _ _ _ _ EL). apply quiet_free_none, H0'.
  - exists (Some i). split; [exact (lock_free (set_sessions k st) _ _ EL)|].
    apply (kquiet_trans _ _ (set_sessions k st)); [done|].
    apply (kquiet_trans _ _ k1); [exact HL|]. apply close_locked_quiet.
Qed.

Lemma on_ta_panic_quiet k : quiet (current_instance k) k (snd (on_ta_panic k)).
Proof.
  unfold on_ta_panic. destruct (current_instance k) as [i|]; [|apply quiet_refl]. cbn [snd].
  eapply quiet_trans; [apply (quiet_fields _ k (set_current_instance k None)); done|].
  eapply quiet_trans; [apply (quiet_get_mut _ i kill_instance); done|]. quiet_step.
Qed.

(** ** Calls that may create an instance of TA [u] *)

Definition grows (u : Uuid) k k' : Prop :=
  same_config k k' /\ yielding k' = yielding k /\
  (InstanceTable.ok (instances k) -> next_id (instances k) < U32_MAX ->
   forall i x', InstanceTable.view (instances k') !! i = Some x' ->
     (exists x, InstanceTable.view (instances k) !! i = Some x /\ older x x') \/
     (i = next_id (instances k) /\ inst_uuid x' = u)) /\
  (InstanceTable.ok (instances k) -> next_id (instances k) < U32_MAX ->
   forall j, j <> next_id (instances k) ->
     InstanceTable.view (instances k') !! j = InstanceTable.view (instances k) !! j).

Lemma quiet_grows u k k' : quiet None k k' -> grows u k k'.
Proof.
  intros (A & B & C). split_and!; [done|done| |]; intros Hok _; destruct (C Hok) as (_ & _ & Hs & Hf).
  - intros i x' Hx. left. by apply Hs.
  - intros j _. by apply Hf.
Qed.

Lemma grows_quiet u k1 k2 k3 : grows u k1 k2 ->
  (InstanceTable.ok (instances k1) -> next_id (instances k1) < U32_MAX -> InstanceTable.ok (instances k2)) ->
  quiet (Some (next_id (instances k1))) k2 k3 -> grows u k1 k3.
Proof.
  intros ((A1 & A2 & A3 & A4) & A5 & A6 & A7) Hok2 ((B1 & B2 & B3 & B4) & B5 & B6).
  split; [split_and!; congruence|]. split; [congruence|].
  split; intros Hok Hn; destruct (B6 (Hok2 Hok Hn)) as (_ & _ & Hs & Hf).
  - intros i x3 Hx3. destruct (Hs i x3 Hx3) as (x2 & Hx2 & O1 & O2 & O3).
    destruct (A6 Hok Hn i x2 Hx2) as [(x1 & Hx1 & P1 & P2 & P3)|[Hi Hu]].
    + left. exists x1. split; [done|]. split_and!; [congruence|congruence|auto].
    + right. split; [done|congruence].
  - intros j Hj. rewrite Hf by congruence. by apply A7.
Qed.

Definition kgrows {A} u k (r : kres (H:=H) (AS:=AS) (PTA:=PTA) A) : Prop :=
  match r with KRet _ k' => grows u k k' | KPanic k' => grows u k k' end.

(** The table after an allocation. *)
Lemma alloc_grows T x r T' u :
  InstanceTable.alloc T x = (r, T') -> inst_uuid x = u -> InstanceTable.ok T -> next_id T < U32_MAX ->
  InstanceTable.ok T' /\ (forall i, r = Some i -> i = next_id T) /\
  (forall i x', InstanceTable.view T' !! i = Some x' ->
     (exists y, InstanceTable.view T !! i = Some y /\ older y x') \/ (i = next_id T /\ inst_uuid x' = u)) /\
  (forall j, j <> next_id T -> InstanceTable.view T' !! j = InstanceTable.view T !! j).
Proof.
  intros E Hu Hok Hn. unfold InstanceTable.view. destruct r as [i|].
  - destruct (table_alloc_some _ _ inst_set_id_id _ _ _ _ Hok E) as (Hi & H1 & H2 & _ & H4).
    subst i. split; [apply H4; unfold U32_MAX in *; lia|]. split; [congruence|]. rewrite H2. split.
    + intros j x'. rewrite lookup_insert. case_decide as Hj; [intros [= <-]; right; by subst|].
      intros Hx. left. by exists x'.
    + intros j Hj. by apply lookup_insert_ne.
  - destruct (table_alloc_none_ok inst_id _ _ _ _ E Hok Hn) as (H1 & _ & H3 & _).
    split; [exact H1|]. split; [done|]. rewrite H3. split; [|done].
    intros j x' Hx. left. by exists x'.
Qed.

Lemma alloc_id T (x : Instance_ AS) i T' : InstanceTable.alloc T x = (Some i, T') -> i = next_id T.
Proof. unfold InstanceTable.alloc, table_alloc. destruct (place _ _); congruence. Qed.

Lemma instantiate_grows k p u l ps eps asp : kgrows u k (instantiate_and_bind k p u l ps eps asp).
Proof.
  unfold instantiate_and_bind. destruct (negb _); [apply quiet_grows, quiet_refl|].
  destruct (take_aspace k asp) as [a k1] eqn:Ea.
  assert (quiet None k k1) as Hq1.
  { unfold take_aspace in Ea. destruct asp; [injection Ea as <- <-; apply quiet_refl|].
    destruct (new_address_space _). injection Ea as <- <-. quiet_step. }
  assert (instances k1 = instances k) as EI by (destruct (take_aspace_same _ _ _ _ Ea) as (_ & ? & _); done).
  rewrite EI. destruct (InstanceTable.alloc _ _) as [r it] eqn:E.
  pose proof (alloc_grows _ _ _ _ u E eq_refl) as Hit.
  set (k2 := set_instances k1 it).
  assert (grows u k k2) as Hg2.
  { destruct Hq1 as (A & B & _). split; [exact A|]. split; [exact B|].
    split; intros Hok Hn; by apply Hit. }
  assert (forall k', quiet (Some (next_id (instances k))) k2 k' -> grows u k k') as Hfin.
  { intros k'. apply grows_quiet; [done|]. intros. by apply Hit. }
  destruct r as [i|]; [|exact Hg2]. rewrite <- (alloc_id _ _ _ _ E) in Hfin.
  pose proof (lock_quiet k2 i) as HL. destruct (lock_instance k2 i) as [[e|] k3]; cbn [snd] in HL.
  { apply Hfin. eapply quiet_trans; [exact HL|apply quiet_drop]. }
  assert (forall k4, quiet (Some i) k2 k4 -> kgrows u k (bind_unlock k4 i u l ps)) as Hbind.
  { intros k4 H4. pose proof (bind_unlock_quiet k4 i u l ps) as Hb.
    destruct (bind_unlock _ _ _ _ _); apply Hfin; by eapply quiet_trans. }
  destruct eps as [ep|]; [|by apply Hbind].
  pose proof (call_ta_quiet k3 i (ta_create (ep_create ep))) as Hc.
  destruct (call_ta _ _ _) as [code k4|k4]; [|apply Hfin; by eapply quiet_trans].
  assert (quiet (Some i) k2 k4) as Hq4 by (by eapply quiet_trans).
  destruct (negb _); [|by apply Hbind]. apply Hfin.
  eapply quiet_trans; [exact Hq4|]. eapply quiet_trans; [apply unlock_quiet|apply quiet_drop].
Qed.

(** ** One live instance per single-instance TA *)

Definition live_single_of (I : gmap Z (Instance_ AS)) (u : Uuid) (i : InstanceId) : Prop :=
  exists x, I !! i = Some x /\ inst_uuid x = u /\ single_instance (props x) = true /\ inst_state x = Live.

Definition unique_single (I : gmap Z (Instance_ AS)) : Prop :=
  forall u i j, live_single_of I u i -> live_single_of I u j -> i = j.

(** ... and while an open waits for its image, the TA is neither early nor live. *)
Definition uinv k : Prop :=
  unique_single (InstanceTable.view (instances k)) /\
  forall y, yielding k = Some y ->
    EarlyTas.get (early k) (y_uuid y) = None /\
    forall i, ~ live_single_of (InstanceTable.view (instances k)) (y_uuid y) i.

Lemma live_single_none T u :
  InstanceTable.live_single T u = None -> forall i, ~ live_single_of (InstanceTable.view T) u i.
Proof.
  unfold InstanceTable.live_single. intros Hn i (x & Hx & Hu & Hs & HL).
  destruct (List.find _ _) eqn:E; [done|]. pose proof (List.find_none _ _ E x) as Hf.
  unfold InstanceTable.view, tmap, lmap in Hx.
  apply elem_of_list_to_map_2, list_elem_of_In, in_map_iff in Hx as (z & [= _ <-] & Hz).
  specialize (Hf Hz). unfold InstanceTable.is_live_single in Hf.
  rewrite Hu, beqb_refl, Hs, HL, bool_decide_true in Hf by done. discriminate Hf.
Qed.

Lemma older_live t k k' u i :
  quiet t k k' -> InstanceTable.ok (instances k) ->
  live_single_of (InstanceTable.view (instances k')) u i ->
  live_single_of (InstanceTable.view (instances k)) u i.
Proof.
  intros (_ & _ & Hs) Hok (x' & Hx & Hu & Hsi & HL). destruct (Hs Hok) as (_ & _ & Hs' & _).
  destruct (Hs' i x' Hx) as (x & Hx0 & O1 & O2 & O3). exists x.
  split_and!; [done|congruence|congruence|auto].
Qed.

Lemma uinv_quiet t k k' : quiet t k k' -> InstanceTable.ok (instances k) -> uinv k -> uinv k'.
Proof.
  intros Hq Hok [U1 U2]. split.
  - intros u i j Hi Hj. apply (U1 u); by eapply older_live.
  - pose proof Hq as ((_ & _ & E & _) & Ey & _). intros y Hy. rewrite Ey in Hy. rewrite E.
    destruct (U2 y Hy) as [H1 H2]. split; [done|]. intros i Hi. apply (H2 i).
    by eapply older_live.
Qed.

Lemma uinv_grows u k k' :
  grows u k k' -> InstanceTable.ok (instances k) -> next_id (instances k) < U32_MAX -> uinv k ->
  (forall i, ~ live_single_of (InstanceTable.view (instances k)) u i) ->
  (forall y, yielding k = Some y -> y_uuid y <> u) -> uinv k'.
Proof.
  intros ((_ & _ & E & _) & Ey & Hg & _) Hok Hn [U1 U2] Hno Hyu. specialize (Hg Hok Hn).
  assert (forall v i, live_single_of (InstanceTable.view (instances k')) v i ->
    live_single_of (InstanceTable.view (instances k)) v i \/ (i = next_id (instances k) /\ v = u)) as Hcase.
  { intros v i (x' & Hx & Hu & Hsi & HL). destruct (Hg i x' Hx) as [(x & Hx0 & O1 & O2 & O3)|[Hi Hu']].
    - left. exists x. split_and!; [done|congruence|congruence|auto].
    - right. split; [done|congruence]. }
  split.
  - intros v i j Hi Hj. destruct (Hcase v i Hi) as [Hi'|[Hi' Hv]], (Hcase v j Hj) as [Hj'|[Hj' Hv']].
    + by apply (U1 v).
    + subst v. by destruct (Hno i).
    + subst v. by destruct (Hno j).
    + congruence.
  - intros y Hy. rewrite Ey in Hy. rewrite E. destruct (U2 y Hy) as [H1 H2]. split; [done|].
    intros i Hi. destruct (Hcase _ i Hi) as [Hi'|[_ Hv]]; [by apply (H2 i)|by apply (Hyu y)].
Qed.

Definition kuinv {A} (r : kres (H:=H) (AS:=AS) (PTA:=PTA) A) : Prop :=
  match r with KRet _ k' => uinv k' | KPanic k' => uinv k' end.

Lemma kuinv_quiet {A} t k (r : kres A) :
  kquiet t k r -> InstanceTable.ok (instances k) -> uinv k -> kuinv r.
Proof. destruct r; intros; by eapply uinv_quiet. Qed.

Lemma kuinv_grows {A} u k (r : kres A) :
  kgrows u k r -> InstanceTable.ok (instances k) -> next_id (instances k) < U32_MAX -> uinv k ->
  (forall i, ~ live_single_of (InstanceTable.view (instances k)) u i) ->
  (forall y, yielding k = Some y -> y_uuid y <> u) -> kuinv r.
Proof. destruct r; intros; by eapply uinv_grows. Qed.

Lemma open_user_ta_uinv k u l ps c t :
  InstanceTable.ok (instances k) -> next_id (instances k) < U32_MAX -> uinv k ->
  kuinv (open_user_ta k u l ps c t).
Proof.
  intros Hok Hn Hu. unfold open_user_ta. destruct (cancelled k c); [exact Hu|].
  destruct (InstanceTable.live_single (instances k) u) as [i|] eqn:El.
  - destruct (InstanceTable.get _ _) as [x|]; [|exact Hu]. destruct (_ && _); [exact Hu|].
    pose proof (lock_quiet k i) as HL. destruct (lock_instance k i) as [[e|] k1]; cbn [snd] in HL;
      pose proof (uinv_quiet _ _ _ HL Hok Hu) as Hu1; [exact Hu1|].
    eapply kuinv_quiet; [apply bind_unlock_quiet| |exact Hu1].
    destruct HL as (_ & _ & Hs). apply (Hs Hok).
  - pose proof (live_single_none _ _ El) as Hno.
    destruct (EarlyTas.get (early k) u) as [ta|] eqn:Ee.
    + eapply kuinv_grows; [apply instantiate_grows|done|done|done|done|].
      intros y Hy <-. destruct Hu as [_ U2]. destruct (U2 y Hy) as [H1 _]. congruence.
    + case_bool_decide; [exact Hu|]. destruct Hu as [U1 _]. split; [exact U1|].
      cbn. intros y [= <-]. done.
Qed.

Lemma handle_uinv k cmd :
  InstanceTable.ok (instances k) -> next_id (instances k) < U32_MAX -> uinv k ->
  kuinv (handle aarch64 k cmd).
Proof.
  intros Hok Hn Hu. unfold handle. destruct (negb _); [exact Hu|]. destruct cmd as [u l ps c t|s c ps cid t|s|c|resp].
  - unfold open. destruct (cancelled k c); [exact Hu|].
    destruct (PtaRegistry.get _ _) as [pta|]; [|by apply open_user_ta_uinv].
    destruct (pta_open _ _) as [[[e|ctx] ps'] q|q]; [exact Hu| |exact Hu].
    destruct (SessionTable.alloc _ _) as [[s|] st]; exact Hu.
  - destruct (invoke_quiet k s c ps cid) as (t' & _ & Hq). by eapply kuinv_quiet.
  - destruct (close_quiet k s) as (t' & _ & Hq). by eapply kuinv_quiet.
  - exact Hu.
  - unfold rpc_complete, load_and_bind. destruct (yielding k) as [y|] eqn:Ey; [|exact Hu].
    assert (uinv (set_yielding k None)) as Hu0 by (split; [apply Hu|done]).
    destruct resp; try exact Hu0. destruct (cancelled _ _); [exact Hu0|].
    destruct (load_image _) as [ld| |]; [|exact Hu0..]. destruct (negb _); [exact Hu0|].
    destruct (new_address_space _) as [asp h]. destruct (map_elf _ _ _) as [[eps| |] asp'];
      [|exact Hu0|exact Hu0].
    eapply kuinv_grows; [apply instantiate_grows|done|done|exact Hu0| |done].
    cbn [instances set_hal set_yielding]. destruct Hu as [_ U2]. by destruct (U2 y Ey).
Qed.

Lemma serve_uinv k cmd o k' :
  InstanceTable.ok (instances k) -> next_id (instances k) < U32_MAX -> uinv k ->
  (forall k1, handle aarch64 k cmd = KPanic k1 -> current_pta k1 = false ->
              InstanceTable.ok (instances k1)) ->
  serve aarch64 k cmd = Some (o, k') -> uinv k'.
Proof.
  intros Hok Hn Hu Hp. unfold serve. pose proof (handle_uinv k cmd Hok Hn Hu) as Hh.
  destruct (handle aarch64 k cmd) as [o1 k1|k1]; [by intros [= <- <-]|].
  unfold on_panic. destruct (current_pta k1) eqn:Ep; [done|].
  pose proof (on_ta_panic_quiet k1) as Hq. destruct (on_ta_panic k1). intros [= <- <-].
  eapply uinv_quiet; [exact Hq|by apply Hp|exact Hh].
Qed.

(** ** The configuration across a call *)

Definition kconfig {A} k (r : kres (H:=H) (AS:=AS) (PTA:=PTA) A) : Prop :=
  match r with KRet _ k' => same_config k k' | KPanic k' => same_config k k' end.

Lemma kquiet_config {A} t k (r : kres A) : kquiet t k r -> kconfig k r.
Proof. destruct r; by intros [? _]. Qed.
Lemma kgrows_config {A} u k (r : kres A) : kgrows u k r -> kconfig k r.
Proof. destruct r; by intros [? _]. Qed.

Lemma open_config k u l ps c t : kconfig k (open k u l ps c t).
Proof.
  unfold open. destruct (cancelled k c) eqn:Ec; [done|].
  destruct (PtaRegistry.get _ _) as [pta|].
  - destruct (pta_open _ _) as [[[e|ctx] ps'] q|q]; try done.
    by destruct (SessionTable.alloc _ _) as [[s|] st].
  - unfold open_user_ta. rewrite Ec.
    destruct (InstanceTable.live_single (instances k) u) as [i|].
    + destruct (InstanceTable.get _ _) as [x|]; [|done]. destruct (_ && _); [done|].
      pose proof (lock_quiet k i) as HL. destruct (lock_instance k i) as [[e|] k1]; [apply HL|].
      eapply kquiet_config, kquiet_trans; [exact HL|apply bind_unlock_quiet].
    + destruct (EarlyTas.get _ _); [by eapply kgrows_config, instantiate_grows|].
      by case_bool_decide.
Qed.

Lemma rpc_complete_config k resp : kconfig k (rpc_complete aarch64 k resp).
Proof.
  unfold rpc_complete, load_and_bind. destruct (yielding k) as [y|]; [|done].
  destruct resp; try done. destruct (cancelled _ _); [done|].
  destruct (load_image _) as [ld| |]; [|done..]. destruct (negb _); [done|].
  destruct (new_address_space _) as [asp h]. destruct (map_elf _ _ _) as [[eps| |] asp'];
    [|done|done].
  exact (kgrows_config _ _ _ (instantiate_grows (set_hal (set_yielding k None) h) _ _ _ _ _ _)).
Qed.

(** Every call keeps the cancelled ids, and a [Cancel] adds its own. *)
Lemma serve_cancelled k cmd o k' c :
  serve aarch64 k cmd = Some (o, k') ->
  notices_ok k' = notices_ok k /\
  (cancelled k c = true -> cancelled k' c = true) /\
  (notices_ok k = true -> cmd = Cancel c -> cancelled k' c = true).
Proof.
  unfold serve, handle.
  assert (forall (r : kres KernelOut), kconfig k r ->
    match r with KRet o k => Some (o, k) | KPanic k => on_panic k end = Some (o, k') ->
    notices_ok k' = notices_ok k /\ cancelled_ids k' = cancelled_ids k) as Hc.
  { intros [o1 k1|k1] (C1 & C2 & _); [by intros [= <- <-]|].
    unfold on_panic. destruct (current_pta k1); [done|].
    destruct (on_ta_panic_quiet k1) as ((Q1 & Q2 & _) & _). destruct (on_ta_panic k1).
    intros [= <- <-]. cbn in *. split; congruence. }
  assert (notices_ok k' = notices_ok k /\ cancelled_ids k' = cancelled_ids k ->
    notices_ok k' = notices_ok k /\ (cancelled k c = true -> cancelled k' c = true)) as Hc'.
  { intros [? E]. unfold cancelled. by rewrite E. }
  destruct (notices_ok k) eqn:En; cbn [negb]; [|intros [= <- <-]; by rewrite En].
  destruct cmd as [u l ps cid t|s cc ps cid t|s|c'|resp]; intros Hs.
  - destruct Hc' as [? ?]; [eapply Hc; [|exact Hs]; apply open_config|]. done.
  - destruct Hc' as [? ?]; [eapply Hc; [|exact Hs]; destruct (invoke_quiet k s cc ps cid) as (? & _ & ?); by eapply kquiet_config|]. done.
  - destruct Hc' as [? ?]; [eapply Hc; [|exact Hs]; destruct (close_quiet k s) as (? & _ & ?); by eapply kquiet_config|]. done.
  - injection Hs as <- <-. cbn. split_and!; [done| |].
    + unfold cancelled. cbn. rewrite existsb_app. by intros ->.
    + intros _ [= <-]. unfold cancelled. cbn. rewrite existsb_app. cbn.
      by rewrite Z.eqb_refl, orb_true_r.
  - destruct Hc' as [? ?]; [eapply Hc; [|exact Hs]; apply rpc_complete_config|]. done.
Qed.

Lemma run_cancelled cmds k k' c :
  run aarch64 k cmds = Some k' ->
  notices_ok k' = notices_ok k /\
  (cancelled k c = true \/ notices_ok k = true /\ In (Cancel c) cmds -> cancelled k' c = true).
Proof.
  revert k. induction cmds as [|cmd cs IH]; intros k; cbn [run].
  - intros [= <-]. split; [done|]. by intros [?|[_ []]].
  - destruct (serve aarch64 k cmd) as [[o k1]|] eqn:E; [|done]. intros Hr.
    destruct (serve_cancelled _ _ _ _ c E) as (S1 & S2 & S3). destruct (IH k1 Hr) as [R1 R2].
    split; [congruence|]. intros [Hc|[Hn [Hin|Hin]]]; apply R2.
    + left. auto.
    + left. auto.
    + right. split; [congruence|done].
Qed.

(** Reachable states keep both invariants. *)
Lemma run_uinv cmds ns ni k k' :
  kinv None None ns ni k -> idle k -> uinv k ->
  ns + Z.of_nat (length cmds) <= U32_MAX -> ni + Z.of_nat (length cmds) <= U32_MAX ->
  run aarch64 k cmds = Some k' -> uinv k'.
Proof.
  revert ns ni k. induction cmds as [|c cs IH]; intros ns ni k Hk Hid Hu Hns Hni; cbn [run length] in *.
  - by intros [= <-].
  - destruct (serve aarch64 k c) as [[o k1]|] eqn:E; [|done].
    destruct (serve_inv aarch64 ns ni k c o k1) as [Hk1 Hid1]; [done|done|lia|lia|done|].
    intros Hr. pose proof (t_ni _ _ _ _ _ _ Hk).
    apply (IH (ns + 1) (ni + 1) k1); try done; try lia.
    eapply serve_uinv; [apply Hk|lia|exact Hu| |exact E].
    intros k2 Hp Hf. pose proof (handle_inv aarch64 ns ni k c Hk Hid ltac:(lia) ltac:(lia)) as Hh.
    rewrite Hp in Hh. specialize (Hh Hf). destruct (current_instance k2); [destruct Hh as (p & _ & Hh)|];
      apply Hh.
Qed.

(** ** Instances in use are not touched *)

(** The kernel after a call differs in at most one instance, which was free or
    did not exist. *)
Definition unheld (t : option InstanceId) k : Prop :=
  forall i x, t = Some i -> InstanceTable.view (instances k) !! i = Some x -> busy x = false.
Definition kframe {A} k (r : kres (H:=H) (AS:=AS) (PTA:=PTA) A) : Prop :=
  exists t, unheld t k /\
  forall j, t <> Some j ->
    InstanceTable.view (instances (match r with KRet _ k' => k' | KPanic k' => k' end)) !! j =
    InstanceTable.view (instances k) !! j.

Lemma kframe_same {A} k (r : kres A) :
  instances (match r with KRet _ k' => k' | KPanic k' => k' end) = instances k -> kframe k r.
Proof. intros E. exists None. rewrite E. done. Qed.

Lemma kframe_quiet {A} k (r : kres A) :
  InstanceTable.ok (instances k) -> kquiet_free k r -> kframe k r.
Proof.
  intros Hok (t & Hf & Hq). exists t. split.
  - intros i x Hi Hx. destruct (Hf i Hi) as (y & Hy & Hb). rewrite get_view in Hy. congruence.
  - destruct r as [a k'|k']; destruct Hq as (_ & _ & Hs); by destruct (Hs Hok) as (_ & _ & _ & ?).
Qed.

Lemma view_fresh T i x : InstanceTable.ok T -> InstanceTable.view T !! i = Some x -> i <> next_id T.
Proof.
  intros (_ & Hlt & _) Hx ->. apply lmap_in in Hx as [Hx _].
  rewrite list.Forall_forall in Hlt. specialize (Hlt _ Hx). cbn in Hlt. lia.
Qed.

Lemma kframe_grows {A} u k (r : kres A) :
  InstanceTable.ok (instances k) -> next_id (instances k) < U32_MAX -> kgrows u k r -> kframe k r.
Proof.
  intros Hok Hn Hg. exists (Some (next_id (instances k))). split.
  - intros i x [= <-] Hx. by destruct (view_fresh _ _ _ Hok Hx).
  - intros j Hj. destruct r as [a k'|k']; destruct Hg as (_ & _ & _ & Hf); apply Hf; done || congruence.
Qed.

Lemma handle_frame k cmd :
  InstanceTable.ok (instances k) -> next_id (instances k) < U32_MAX -> kframe k (handle aarch64 k cmd).
Proof.
  intros Hok Hn. unfold handle. destruct (negb _); [by apply kframe_same|].
  destruct cmd as [u l ps c t|s c ps cid t|s|c|resp].
  - unfold open. destruct (cancelled k c) eqn:Ec; [by apply kframe_same|].
    destruct (PtaRegistry.get _ _) as [pta|].
    + destruct (pta_open _ _) as [[[e|ctx] ps'] q|q]; try by apply kframe_same.
      destruct (SessionTable.alloc _ _) as [[s|] st]; by apply kframe_same.
    + unfold open_user_ta. rewrite Ec. destruct (InstanceTable.live_single _ u) as [i|].
      * destruct (InstanceTable.get _ _) as [x|]; [|by apply kframe_same].
        destruct (_ && _); [by apply kframe_same|].
        pose proof (lock_quiet k i) as HL. destruct (lock_instance k i) as [[e|] k1] eqn:EL.
        { rewrite (lock_failed _ _ _ _ EL). by apply kframe_same. }
        apply kframe_quiet; [done|]. exists (Some i). split; [by eapply lock_free|].
        eapply kquiet_trans; [exact HL|apply bind_unlock_quiet].
      * destruct (EarlyTas.get _ _); [by eapply kframe_grows, instantiate_grows|].
        case_bool_decide; by apply kframe_same.
  - apply kframe_quiet; [done|apply invoke_quiet].
  - apply kframe_quiet; [done|apply close_quiet].
  - by apply kframe_same.
  - unfold rpc_complete, load_and_bind. destruct (yielding k) as [y|]; [|by apply kframe_same].
    destruct resp; try by apply kframe_same. destruct (cancelled _ _); [by apply kframe_same|].
    destruct (load_image _) as [ld| |]; [|by apply kframe_same..]. destruct (negb _); [by apply kframe_same|].
    destruct (new_address_space _) as [asp h]. destruct (map_elf _ _ _) as [[eps| |] asp'];
      [|by apply kframe_same|by apply kframe_same].
    exact (kframe_grows _ (set_hal (set_yielding k None) h) _ Hok Hn (instantiate_grows _ _ _ _ _ _ _)).
Qed.

(** A dead instance keeps its slot whatever calls follow. *)
Lemma serve_dead ns ni k cmd o k' i x :
  kinv None None ns ni k -> idle k -> ns < U32_MAX -> ni < U32_MAX ->
  serve aarch64 k cmd = Some (o, k') ->
  InstanceTable.view (instances k) !! i = Some x -> inst_state x = InstDead ->
  InstanceTable.view (instances k') !! i = Some x.
Proof.
  intros Hk Hid Hns Hni Hs Hx HD. pose proof (t_ni _ _ _ _ _ _ Hk).
  pose proof (handle_inv aarch64 ns ni k cmd Hk Hid Hns Hni) as Hh.
  destruct (handle_frame k cmd (t_i _ _ _ _ _ _ Hk) ltac:(lia)) as (t & Hu & Hf).
  assert (t <> Some i) as Hti.
  { intros Ht. specialize (Hu i x Ht Hx).
    destruct (v_inst _ _ _ _ (t_v _ _ _ _ _ _ Hk) i x Hx) as (_ & _ & Hb & _).
    assert (busy x = true) by (apply Hb; by right). congruence. }
  specialize (Hf i Hti). unfold serve in Hs.
  destruct (handle aarch64 k cmd) as [o1 k1|k1]; [injection Hs as <- <-; congruence|].
  unfold on_panic in Hs. destruct (current_pta k1) eqn:Ep; [done|]. specialize (Hh Ep).
  pose proof (on_ta_panic_quiet k1) as (_ & _ & Hq). destruct (on_ta_panic k1) as [o2 k2].
  injection Hs as <- <-. cbn [snd] in Hq.
  destruct (current_instance k1) as [c|]; [destruct Hh as (p & _ & Hh)|];
    destruct (Hq (t_i _ _ _ _ _ _ Hh)) as (_ & _ & _ & Hq'); rewrite Hq'; try congruence.
  intros [= ->]. rewrite Hx in Hf.
  destruct (v_inst _ _ _ _ (t_v _ _ _ _ _ _ Hh) i x Hf) as (_ & _ & _ & HL & _).
  specialize (HL eq_refl). congruence.
Qed.
End Frame.
