(* ===== verification/KernelPanic.v ===== *)
(** Where a kernel call can panic (src/crates/rustee-os/src/lib.rs): in the code
    of a user TA, of a pseudo-TA, or in the loader.  Whatever TA entry point was
    running, the kernel names its instance when the panic arrives. *)
From Stdlib Require Import ZArith Lia.
From stdpp Require Import base list gmap numbers.
From S2P Require Import Prelude Abi Header Iface Tables Elf Kernel KernelInv KernelFrame.

Local Open Scope Z_scope.

Section Panic.
Context {H AS PTA : Type} `{!HalOps H AS} `{!CryptoProvider} `{!PtaOps PTA} `{!TaCode H}.
Context (aarch64 : bool).
Abbreviation K := (Kernel H AS PTA).
Implicit Types k : K.

Definition panicked {T A} (o : call_out T A) : bool := match o with Panicked _ => true | Returned _ _ => false end.
Definition is_panic {E A} (r : res E A) : bool := match r with Panic => true | _ => false end.

(** The pseudo-TA a call reaches panics. *)
Definition pta_panics k (cmd : KernelCmd) : bool :=
  match cmd with
  | OpenSession u _ ps _ _ => match PtaRegistry.get (ptas k) u with Some p => panicked (pta_open p ps) | None => false end
  | Invoke s c ps _ _ =>
      match SessionTable.get (sessions k) s with
      | Some x => match kind x, PtaRegistry.get (ptas k) (sess_uuid x) with
                  | Pta, Some p => panicked (pta_invoke p (ta_sess_ctx x) c ps) | _, _ => false end
      | None => false
      end
  | CloseSession s =>
      match SessionTable.get (sessions k) s with
      | Some x => match kind x, PtaRegistry.get (ptas k) (sess_uuid x) with
                  | Pta, Some p => panicked (pta_close p (ta_sess_ctx x)) | _, _ => false end
      | None => false
      end
  | _ => false
  end.

(** The loader panics on the image that arrived. *)
Definition loader_panics k (cmd : KernelCmd) : bool :=
  match cmd with
  | RpcComplete (RespLoadTa bs) =>
      is_panic (load_image bs) || is_panic (fst (map_elf (H:=H) aarch64 (fst (new_address_space (hal k))) bs))
  | _ => false
  end.

(** A panic leaves instance [i] named, and the sessions as they were. *)
Definition panics_at {A} (i : InstanceId) k (r : kres (H:=H) (AS:=AS) (PTA:=PTA) A) : Prop :=
  match r with
  | KRet _ _ => True
  | KPanic k1 => current_instance k1 = Some i /\ current_pta k1 = current_pta k /\ sessions k1 = sessions k
  end.

Definition same_calls k k' : Prop := current_pta k' = current_pta k /\ sessions k' = sessions k.

Lemma panics_at_from {A} i k k' (r : kres A) : same_calls k k' -> panics_at i k' r -> panics_at i k r.
Proof. intros [E1 E2]. destruct r; [done|]. cbn. by rewrite E1, E2. Qed.

Lemma call_ta_at {A} k i (f : H -> call_out H A) : panics_at i k (call_ta k i f).
Proof. unfold call_ta. by destruct (f _). Qed.

Lemma call_ta_same {A} k i (f : H -> call_out H A) a k1 : call_ta k i f = KRet a k1 -> same_calls k k1.
Proof. unfold call_ta. destruct (f _); [|done]. by intros [= _ <-]. Qed.

Lemma map_params_same k i ps r k' : map_params k i ps = (r, k') -> same_calls k k'.
Proof. intros E. destruct (map_params_memory _ _ _ _ _ E) as (M1 & M2 & M3 & _). by split. Qed.

Lemma lock_same k i e k1 : lock_instance k i = (e, k1) -> same_calls k k1.
Proof. unfold lock_instance. destruct (InstanceTable.get _ _) as [x|]; [destruct (busy x)|]; by intros [= _ <-]. Qed.

Lemma bind_unlock_at k i u l ps : panics_at i k (bind_unlock k i u l ps).
Proof.
  unfold bind_unlock, bind_session. destruct (entries_of k i) as [ep|]; [|by destruct (bind_record _ _ _ _ _ _)].
  destruct (map_params k i ps) as [[e|[raw vas]] k2] eqn:Em; [done|]. apply map_params_same in Em.
  pose proof (call_ta_at k2 i (ta_open_session (ep_open_session ep) (param_types_of ps) raw)) as Hc.
  destruct (call_ta _ _ _) as [[[code raw'] ctx] k3|k3]; [|by eapply (panics_at_from (A:=KernelOut)) in Em].
  destruct (negb _); [done|]. by destruct (bind_record _ _ _ _ _ _).
Qed.

Lemma instantiate_at k p u l ps eps asp : panics_at (next_id (instances k)) k (instantiate_and_bind k p u l ps eps asp).
Proof.
  unfold instantiate_and_bind. destruct (negb _); [done|]. destruct (take_aspace k asp) as [a k1] eqn:Ea.
  assert (same_calls k k1 /\ instances k1 = instances k) as [S1 EI].
  { unfold take_aspace in Ea. destruct asp; [by injection Ea as <- <-|]. destruct (new_address_space _). by injection Ea as <- <-. }
  rewrite EI. destruct (InstanceTable.alloc _ _) as [[i|] it] eqn:E; [|done]. rewrite <- (alloc_id _ _ _ _ E).
  destruct (lock_instance _ i) as [[e|] k3] eqn:EL; [done|]. apply lock_same in EL.
  assert (same_calls k k3) as S3 by (destruct S1, EL; split; etrans; eauto).
  destruct eps as [ep|]; [|eapply panics_at_from; [exact S3|apply bind_unlock_at]].
  pose proof (call_ta_at k3 i (ta_create (ep_create ep))) as Hc.
  destruct (call_ta k3 i (ta_create (ep_create ep))) as [code k4|k4] eqn:Ec; [|by eapply (panics_at_from (A:=KernelOut)) in S3].
  destruct (negb _); [done|]. apply call_ta_same in Ec. eapply panics_at_from; [|apply bind_unlock_at].
  destruct S3, Ec. split; etrans; eauto.
Qed.

Lemma invoke_locked_at k s sess i c ps : panics_at i k (invoke_locked k s sess i c ps).
Proof.
  unfold invoke_locked. destruct (map_params _ i ps) as [[e|[raw vas]] k2] eqn:Em; [done|].
  destruct (map_params_memory _ _ _ _ _ Em) as (M1 & M2 & M3 & _).
  by destruct (match entries_of k2 i with Some _ => _ | None => _ end) as [[code raw'] h|h].
Qed.

Lemma close_locked_at k sess i : panics_at i k (close_locked k sess i).
Proof.
  assert (forall q, same_calls k q -> panics_at i k (let '(d, q) := close_count q i in
    if d : bool then close_destroy q i else KRet closed_out (unlock_instance q i))) as Hafter.
  { intros q Hq. unfold close_count. destruct (InstanceTable.get _ _) as [x|]; [|done]. destruct (_ && _); [|done].
    unfold close_destroy. destruct (entries_of _ i) as [ep|]; [|done].
    match goal with |- context [call_ta ?a ?b ?c] => pose proof (call_ta_at a b c) as Hc; destruct (call_ta a b c) end; [done|].
    destruct Hq as [E1 E2], Hc as (C1 & C2 & C3). cbn in C2, C3 |- *. split_and!; [done|by rewrite C2|by rewrite C3]. }
  unfold close_locked. destruct (entries_of k i) as [ep|]; [|by apply Hafter].
  pose proof (call_ta_at k i (ta_close_session (ep_close_session ep) (ta_sess_ctx sess))) as Hc.
  destruct (call_ta k i _) as [a q|q] eqn:Ec; [|done]. apply Hafter. by eapply call_ta_same.
Qed.

(** The sessions when TA code runs: a close has already taken its own out. *)
Definition sessions_during k (cmd : KernelCmd) : SessionTable.t :=
  match cmd with CloseSession s => snd (SessionTable.take (sessions k) s) | _ => sessions k end.

(** The instance a call runs: that of its session, or one of the TA asked for. *)
Definition runs_instance k (cmd : KernelCmd) (i : InstanceId) (x : Instance_ AS) : Prop :=
  match cmd with
  | OpenSession u _ _ _ _ => inst_uuid x = u
  | Invoke s _ _ _ _ | CloseSession s => exists sess, SessionTable.get (sessions k) s = Some sess /\ instance sess = Some i
  | RpcComplete _ => exists y, yielding k = Some y /\ inst_uuid x = y_uuid y
  | Cancel _ => False
  end.

(** What a panic that is neither a pseudo-TA's nor the loader's leaves. *)
Definition ta_panic k (cmd : KernelCmd) (k1 : K) : Prop :=
  exists i, current_instance k1 = Some i /\ current_pta k1 = current_pta k /\ sessions k1 = sessions_during k cmd /\
    same_config k k1 /\
    (forall x, InstanceTable.view (instances k1) !! i = Some x -> runs_instance k cmd i x) /\
    (forall j, j <> i -> InstanceTable.view (instances k1) !! j = InstanceTable.view (instances k) !! j).

Lemma quiet_panic k cmd i k1 : InstanceTable.ok (instances k) ->
  quiet (Some i) k k1 -> current_instance k1 = Some i /\ current_pta k1 = current_pta k /\ sessions k1 = sessions_during k cmd ->
  (forall x x', InstanceTable.view (instances k) !! i = Some x -> older x x' -> runs_instance k cmd i x') -> ta_panic k cmd k1.
Proof.
  intros Hok (Hc & _ & Hs) (E1 & E2 & E3) Hr. destruct (Hs Hok) as (_ & _ & Hold & Hf). exists i. split_and!; try done.
  - intros x' Hx'. destruct (Hold i x' Hx') as (x & Hx & Ho). by eapply Hr.
  - intros j Hj. apply Hf. congruence.
Qed.

Lemma grows_panic k cmd u k1 : InstanceTable.ok (instances k) -> next_id (instances k) < U32_MAX ->
  grows u k k1 -> current_instance k1 = Some (next_id (instances k)) /\ current_pta k1 = current_pta k /\ sessions k1 = sessions_during k cmd ->
  (forall x, inst_uuid x = u -> runs_instance k cmd (next_id (instances k)) x) -> ta_panic k cmd k1.
Proof.
  intros Hok Hn (Hc & _ & Hold & Hf) (E1 & E2 & E3) Hr. exists (next_id (instances k)). split_and!; try done; [|by apply Hf].
  intros x' Hx'. destruct (Hold Hok Hn _ x' Hx') as [(x & Hx & _)|[_ Hu]]; [|by apply Hr].
  by destruct (view_fresh _ _ _ Hok Hx).
Qed.

Lemma open_panic k u l ps c t k1 : InstanceTable.ok (instances k) -> next_id (instances k) < U32_MAX ->
  open k u l ps c t = KPanic k1 -> pta_panics k (OpenSession u l ps c t) = false -> ta_panic k (OpenSession u l ps c t) k1.
Proof.
  intros Hok Hn. unfold open. cbn [pta_panics]. destruct (cancelled k c) eqn:Ec; [done|].
  destruct (PtaRegistry.get _ _) as [pta|].
  { destruct (pta_open _ _) as [[[e|ctx] ps'] p|p]; [done| |done]. by destruct (SessionTable.alloc _ _) as [[sid|] st]. }
  intros Ho _. revert Ho. unfold open_user_ta. rewrite Ec. destruct (InstanceTable.live_single _ u) as [i|] eqn:El.
  - destruct (live_single_spec _ _ _ Hok El) as (x & Hx & Hu & _). rewrite get_view, Hx. destruct (_ && _); [done|].
    pose proof (lock_quiet k i) as HL. destruct (lock_instance k i) as [[e|] k2] eqn:EL; [done|]. cbn [snd] in HL.
    intros Hb. pose proof (bind_unlock_quiet k2 i u l ps) as Hq. pose proof (bind_unlock_at k2 i u l ps) as Ha. rewrite Hb in Hq, Ha.
    apply lock_same in EL as [L1 L2]. destruct Ha as (A1 & A2 & A3).
    apply (quiet_panic k _ i); [done|by eapply quiet_trans|split_and!; [done|congruence|cbn; congruence]|].
    intros y x' Hy (Ou & _). cbn. congruence.
  - destruct (EarlyTas.get _ _) as [ta|]; [|by case_bool_decide]. intros Hi.
    pose proof (instantiate_grows k (et_props ta) u l ps (et_entries ta) None) as Hg.
    pose proof (instantiate_at k (et_props ta) u l ps (et_entries ta) None) as Ha. rewrite Hi in Hg, Ha.
    by apply (grows_panic k _ u).
Qed.

Lemma invoke_panic k s c ps cid t k1 : InstanceTable.ok (instances k) ->
  invoke k s c ps cid = KPanic k1 -> pta_panics k (Invoke s c ps cid t) = false -> ta_panic k (Invoke s c ps cid t) k1.
Proof.
  intros Hok. unfold invoke. cbn [pta_panics]. destruct (cancelled k cid); [done|].
  destruct (SessionTable.get _ _) as [sess|] eqn:Es; [|done]. case_bool_decide; [done|]. destruct (kind sess).
  2:{ destruct (PtaRegistry.get _ _) as [pta|]; [|done]. by destruct (pta_invoke _ _ _ _) as [[r ps'] p|p]. }
  intros Ho _. revert Ho. destruct (instance sess) as [i|] eqn:Ei; [|done].
  pose proof (lock_quiet k i) as HL. destruct (lock_instance k i) as [[e|] k2] eqn:EL; [done|]. cbn [snd] in HL. intros Hb.
  pose proof (invoke_locked_quiet k2 s sess i c ps) as Hq. pose proof (invoke_locked_at k2 s sess i c ps) as Ha. rewrite Hb in Hq, Ha.
  apply lock_same in EL as [L1 L2]. destruct Ha as (A1 & A2 & A3).
  apply (quiet_panic k _ i); [done|by eapply quiet_trans|split_and!; [done|congruence|cbn; congruence]|]. intros y x' _ _. by exists sess.
Qed.

Lemma close_panic k s k1 : SessionTable.ok (sessions k) -> InstanceTable.ok (instances k) ->
  close k s = KPanic k1 -> pta_panics k (CloseSession s) = false -> ta_panic k (CloseSession s) k1.
Proof.
  intros Hsk Hok. unfold close. cbn [pta_panics]. destruct (SessionTable.take (sessions k) s) as [r st] eqn:Et.
  assert (r = SessionTable.get (sessions k) s) as -> by (unfold SessionTable.get; rewrite table_get_tmap; by destruct (table_take_spec _ _ _ _ _ Et Hsk)).
  destruct (SessionTable.get (sessions k) s) as [sess|] eqn:Es; [|done]. destruct (kind sess).
  2:{ change (ptas (set_sessions k st)) with (ptas k). destruct (PtaRegistry.get _ _) as [pta|]; [|done].
    by destruct (pta_close _ _) as [[] p|p]. }
  intros Ho _. revert Ho. destruct (instance sess) as [i|] eqn:Ei; [|done].
  set (k0 := set_sessions k st). pose proof (lock_quiet k0 i) as HL. destruct (lock_instance k0 i) as [[e|] k2] eqn:EL; [done|].
  cbn [snd] in HL. intros Hb.
  pose proof (close_locked_quiet k2 sess i) as Hq. pose proof (close_locked_at k2 sess i) as Ha. rewrite Hb in Hq, Ha.
  apply lock_same in EL as [L1 L2]. destruct Ha as (A1 & A2 & A3).
  apply (quiet_panic k _ i); [done| |split_and!; [done|rewrite A2, L1; done|rewrite A3, L2; unfold sessions_during; by rewrite Et]|].
  - apply (quiet_trans _ _ k0); [by apply quiet_fields|by eapply quiet_trans].
  - intros y x' _ _. by exists sess.
Qed.

Lemma handle_panic k cmd k1 : SessionTable.ok (sessions k) -> InstanceTable.ok (instances k) -> next_id (instances k) < U32_MAX ->
  handle aarch64 k cmd = KPanic k1 -> pta_panics k cmd = false -> loader_panics k cmd = false -> ta_panic k cmd k1.
Proof.
  intros Hsk Hok Hn. unfold handle. destruct (negb _); [done|]. destruct cmd as [u l ps c t|s c ps cid t|s|c|resp].
  - intros Ho Hp _. by eapply open_panic.
  - intros Ho Hp _. by eapply invoke_panic.
  - intros Ho Hp _. by eapply close_panic.
  - done.
  - unfold rpc_complete, load_and_bind. destruct (yielding k) as [y|] eqn:Ey; [|done]. destruct resp as [bs| | | |]; try done.
    destruct (cancelled _ _); [done|]. cbn [loader_panics]. destruct (load_image bs) as [ld| |]; [|done..]. destruct (negb _); [done|].
    change (hal (set_yielding k None)) with (hal k). destruct (new_address_space (hal k)) as [asp h]. cbn [fst].
    destruct (map_elf aarch64 asp bs) as [[eps| |] asp']; [|done..]. intros Hi _ _.
    pose proof (instantiate_grows (set_hal (set_yielding k None) h) (ld_props ld) (y_uuid y) (y_login y) (y_params y) eps (Some asp')) as Hg.
    pose proof (instantiate_at (set_hal (set_yielding k None) h) (ld_props ld) (y_uuid y) (y_login y) (y_params y) eps (Some asp')) as Ha.
    rewrite Hi in Hg, Ha. destruct Hg as (Hc & _ & Hold & Hf).
    exists (next_id (instances k)). destruct Ha as (A1 & A2 & A3). split_and!; try done; [|by apply Hf].
    intros x' Hx'. destruct (Hold Hok Hn _ x' Hx') as [(x & Hx & _)|[_ Hu]]; [by destruct (view_fresh _ _ _ Hok Hx)|]. by exists y.
Qed.
End Panic.
