(* ===== verification/KernelProps.v ===== *)
(** The kernel's guarantees (src/crates/rustee-os/src/lib.rs), proved from the
    invariants of KernelInv and KernelFrame, with a concrete kernel on which the
    hypotheses hold. *)
From Stdlib Require Import ZArith Lia Ascii String.
From stdpp Require Import base list gmap numbers.
From S2P Require Import Prelude Abi Header Iface Tables Elf Kernel KernelInv KernelFrame KernelPanic.

Local Open Scope Z_scope.

Section Props.
Context {H AS PTA : Type} `{!HalOps H AS} `{!CryptoProvider} `{!PtaOps PTA} `{!TaCode H}.
Context (aarch64 : bool).
Abbreviation K := (Kernel H AS PTA).
Implicit Types k : K.

(** * Boot *)

(** Construction, the notices and the registrations, before the first call. *)
Definition boot (h : H) (w : Writer) (notices : option (list u8 * list u8)) (ps : list PTA)
  (es : list EarlyTa) : K :=
  fold_left register_early_ta es (fold_left register_pta ps (snd (emit_ree_notices (Kernel_new h) w notices))).

Lemma emit_fields k w n :
  let k' := snd (emit_ree_notices k w n) in
  sessions k' = sessions k /\ instances k' = instances k /\ current_instance k' = current_instance k /\
  current_pta k' = current_pta k /\ yielding k' = yielding k.
Proof.
  unfold emit_ree_notices, writeln. destruct (bool_decide _); [done|].
  destruct (default _ n) as [n0 n1]. destruct (lines_left w) as [|[|m]]; done.
Qed.

Lemma register_fields ps es k :
  let k' := fold_left register_early_ta es (fold_left register_pta ps k) in
  sessions k' = sessions k /\ instances k' = instances k /\ current_instance k' = current_instance k /\
  current_pta k' = current_pta k /\ yielding k' = yielding k.
Proof.
  cbn. revert k. induction ps as [|p ps IH]; intros k; cbn [fold_left].
  - revert k. induction es as [|e es IH]; intros k; [done|]. exact (IH (register_early_ta k e)).
  - exact (IH (register_pta k p)).
Qed.

Lemma boot_ok h w n ps es :
  kinv None None 1 1 (boot h w n ps es) /\ idle (boot h w n ps es) /\ uinv (boot h w n ps es).
Proof.
  destruct (register_fields ps es (snd (emit_ree_notices (Kernel_new h) w n))) as (R1 & R2 & R3 & R4 & R5).
  destruct (emit_fields (Kernel_new h) w n) as (E1 & E2 & E3 & E4 & E5).
  destruct (kernel_new_inv (H:=H) (AS:=AS) (PTA:=PTA) h) as [Hk Hid].
  unfold boot, kinv, idle, uinv. rewrite R1, R2, R3, R4, R5, E1, E2, E3, E4, E5.
  split_and!; [exact Hk|apply Hid|apply Hid| |done].
  intros u i j (x & Hx & _). exfalso. revert Hx.
  change (InstanceTable.view _) with (tmap inst_id (table_new MAX_INSTANCES : InstanceTable.t AS)).
  by rewrite (proj2 (table_new_ok inst_id _)), lookup_empty.
Qed.

(** A state between calls. *)
Definition kernel_ok k : Prop := exists ns ni, kinv None None ns ni k /\ idle k.

(** * Properties *)

(** C1. Every state the kernel reaches from boot, through any calls, REE
    replies and TA panics, is consistent: no call is left in progress; an
    instance is locked only if it is dead; a live instance's session count is
    exactly the number of sessions bound to it, at most one unless the TA is
    multi-session; every user session points at an instance in the table and is
    ready exactly when that instance is live.  (The 32-bit id counters must not
    have wrapped: fewer than 2^32 - 1 calls.) *)
Theorem kernel_invariant h w n ps es cmds k :
  Z.of_nat (length cmds) < U32_MAX ->
  run aarch64 (boot h w n ps es) cmds = Some k ->
  current_instance k = None /\ current_pta k = false /\
  (forall i x, InstanceTable.get (instances k) i = Some x ->
     inst_uuid x = tp_uuid (props x) /\ (busy x = true <-> inst_state x = InstDead) /\
     (inst_state x = Live -> session_count x = cnt (SessionTable.view (sessions k)) i) /\
     (multi_session (props x) = false -> session_count x <= 1)) /\
  (forall s x, SessionTable.get (sessions k) s = Some x -> kind x = UserTa ->
     exists i y, instance x = Some i /\ InstanceTable.get (instances k) i = Some y /\
       (sess_state x = Ready /\ inst_state y = Live \/
        sess_state x = SessDead /\ inst_state y = InstDead)).
Proof.
  intros Hlen Hr. destruct (boot_ok h w n ps es) as (Hb & Hid & _).
  destruct (run_inv aarch64 cmds 1 1 (boot h w n ps es) k Hb Hid) as [Hk [Hc Hp]]; [lia|lia|exact Hr|].
  pose proof (t_v _ _ _ _ _ _ Hk) as Hv. split_and!; [done|done| |].
  - intros i x. rewrite get_view. intros Hx.
    destruct (v_inst _ _ _ _ Hv i x Hx) as (G1 & G2 & G3 & G4 & G5 & G6).
    rewrite decide_False in G5 by done. rewrite decide_False in G6 by done. split_and!; [done| | |].
    + rewrite G3. split; [by intros [?|?]|by right].
    + intros HL. rewrite (G5 HL). lia.
    + intros Hm. specialize (G6 Hm). lia.
  - intros s x Hx Hkd. pose proof (table_get_tmap sess_id (sessions k) s) as Hg.
    unfold SessionTable.get in Hx. rewrite Hg in Hx.
    pose proof (v_sess _ _ _ _ Hv s x Hx) as Hs. unfold sess_inv in Hs. rewrite Hkd in Hs.
    destruct Hs as (i & y & H1 & H2 & H3). exists i, y. by rewrite get_view.
Qed.

(** C4. A single-instance TA has one instance: in every reachable state two
    live instances of one UUID whose properties say single-instance are the
    same instance, also when one came from an early image and another open was
    waiting for its image from the REE. *)
Theorem single_instance_unique h w n ps es cmds k i j x y :
  Z.of_nat (length cmds) < U32_MAX ->
  run aarch64 (boot h w n ps es) cmds = Some k ->
  InstanceTable.get (instances k) i = Some x -> InstanceTable.get (instances k) j = Some y ->
  inst_uuid x = inst_uuid y ->
  single_instance (props x) = true -> single_instance (props y) = true ->
  inst_state x = Live -> inst_state y = Live -> i = j.
Proof.
  intros Hlen Hr Hx Hy Hu Hsx Hsy HLx HLy. destruct (boot_ok h w n ps es) as (Hb & Hid & Hui).
  destruct (run_uinv aarch64 cmds 1 1 _ k Hb Hid Hui) as [U1 _]; [lia|lia|exact Hr|].
  rewrite get_view in Hx, Hy. apply (U1 (inst_uuid x)); [by exists x|by exists y].
Qed.

(** REE-sourced entropy is announced or nothing runs: a kernel built on a
    HAL whose entropy comes from the REE refuses every call with
    [TEE_ERROR_SECURITY] and stays as it is, until both notices have been
    written in full to the console; a write that fails leaves it refusing. *)
Theorem ree_notices_gate h w n cmd : hal_entropy_origin h = ReeHost ->
  handle aarch64 (Kernel_new h) cmd = KRet (done_err TEE_ERROR_SECURITY) (Kernel_new h : K) /\
  let '(ok, w', k) := emit_ree_notices (Kernel_new h : K) w n in
  let '(n0, n1) := default (VIRT_ENTROPY_NOTICE, VIRT_HUK_NOTICE) n in
  if ok : bool
  then written w' = written w ++ n0 ++ [10] ++ n1 ++ [10] /\ notices_ok k = true
  else handle aarch64 k cmd = KRet (done_err TEE_ERROR_SECURITY) k.
Proof.
  intros Ho.
  assert (notices_ok (Kernel_new h : K) = false) as Hn
    by (cbn; rewrite Ho; by rewrite bool_decide_false by (intros Hc; by apply Hc)).
  split; [unfold handle; by rewrite Hn|].
  unfold emit_ree_notices. change (entropy_origin (Kernel_new h : K)) with (hal_entropy_origin h). rewrite Ho.
  rewrite bool_decide_false by (intros Hc; by apply Hc). destruct (default _ n) as [n0 n1].
  unfold writeln. destruct (lines_left w) as [|[|m]]; cbn [negb lines_left written].
  - unfold handle. by rewrite Hn.
  - unfold handle. by rewrite Hn.
  - cbn. by rewrite <- !(assoc_L (++)).
Qed.

(** C9. Cancellation is permanent and beats everything: once a Cancel has been
    handled, whatever calls come in between, every open and invoke under that
    cancel id returns [TEE_ERROR_CANCEL] without running any TA or pseudo-TA
    code or changing any state, and an image that arrives for a cancelled open
    only clears the pending request. *)
Theorem cancel_is_permanent k cmds k' c :
  notices_ok k = true -> In (Cancel c) cmds -> run aarch64 k cmds = Some k' ->
  (forall u l ps t, handle aarch64 k' (OpenSession u l ps c t) = KRet (done_err TEE_ERROR_CANCEL) k') /\
  (forall s cmd ps t, handle aarch64 k' (Invoke s cmd ps c t) = KRet (done_err TEE_ERROR_CANCEL) k') /\
  (forall y bs, yielding k' = Some y -> y_cancel_id y = c ->
     handle aarch64 k' (RpcComplete (RespLoadTa bs)) =
       KRet (done_err TEE_ERROR_CANCEL) (set_yielding k' None)).
Proof.
  intros Hn Hin Hr. destruct (run_cancelled aarch64 cmds k k' c Hr) as [Hn' Hc].
  rewrite Hn in Hn'. specialize (Hc (or_intror (conj Hn Hin))).
  unfold handle. rewrite Hn'. cbn [negb]. split_and!.
  - intros. unfold open. by rewrite Hc.
  - intros. unfold invoke. by rewrite Hc.
  - intros y bs Hy <-. unfold rpc_complete, load_and_bind. rewrite Hy. cbn [y_cancel_id].
    change (cancelled (set_yielding k' None) (y_cancel_id y)) with (cancelled k' (y_cancel_id y)).
    by rewrite Hc.
Qed.

(** The session a call takes out. *)
Definition closes (cmd : KernelCmd) (s : SessionId) : bool := match cmd with CloseSession s0 => s0 =? s | _ => false end.

Lemma sessions_during_get k cmd s : SessionTable.ok (sessions k) ->
  SessionTable.ok (sessions_during k cmd) /\
  SessionTable.get (sessions_during k cmd) s = if closes cmd s then None else SessionTable.get (sessions k) s.
Proof.
  intros Hok. destruct cmd as [| |s0| |]; try done. cbn [sessions_during closes].
  destruct (SessionTable.take (sessions k) s0) as [r st] eqn:E. destruct (table_take_spec _ _ _ _ _ E Hok) as (_ & H2 & H3 & _).
  split; [done|]. unfold SessionTable.get. cbn [snd]. rewrite !table_get_tmap, H2. destruct (Z.eqb_spec s0 s) as [->|].
  - apply lookup_delete_eq.
  - by apply lookup_delete_ne.
Qed.

Lemma poison_get (S : SessionTable.t) i s : SessionTable.ok S ->
  SessionTable.get (SessionTable.poison_instance S i) s = SessionTable.poison i <$> SessionTable.get S s.
Proof.
  intros Hok. unfold SessionTable.get. rewrite !table_get_tmap. unfold SessionTable.poison_instance.
  by rewrite (proj1 (table_map_spec sess_id S _ (poison_id i) Hok)), lookup_fmap.
Qed.

(** C2. A TA panic is contained, in whatever call and entry point it happens:
    creating an instance, opening or closing a session, destroying an instance or
    a command.  When a call panics and neither a pseudo-TA nor the loader did,
    the kernel knows the instance whose code ran, that of the call's session or
    one of the TA asked for; [on_panic] answers [TEE_ERROR_TARGET_DEAD]; that
    instance is dead and its address space gone; exactly its sessions are dead,
    every other session and instance is as before the call (a session being
    closed is gone), the kernel's invariant holds, and every later command on a
    session of that instance is refused with [TEE_ERROR_TARGET_DEAD]. *)
Theorem ta_panic_contained k cmd k1 :
  kernel_ok k -> next_id (sessions k) < U32_MAX -> next_id (instances k) < U32_MAX ->
  handle aarch64 k cmd = KPanic k1 -> pta_panics k cmd = false -> loader_panics aarch64 k cmd = false ->
  exists i k2 x, on_panic k1 = Some (done_err TEE_ERROR_TARGET_DEAD, k2) /\ kernel_ok k2 /\
    InstanceTable.get (instances k2) i = Some x /\ inst_state x = InstDead /\ aspace x = None /\ runs_instance k cmd i x /\
    (forall j, j <> i -> InstanceTable.get (instances k2) j = InstanceTable.get (instances k) j) /\
    (forall s, SessionTable.get (sessions k2) s =
       if closes cmd s then None else SessionTable.poison i <$> SessionTable.get (sessions k) s) /\
    (forall s sess c ps cid t, SessionTable.get (sessions k2) s = Some sess -> instance sess = Some i -> cancelled k cid = false ->
       handle aarch64 k2 (Invoke s c ps cid t) = KRet (done_err TEE_ERROR_TARGET_DEAD) k2).
Proof.
  intros (ns & ni & [Hts Hti _ _ Hcap Hv] & Hid) Hns Hni Hp Hpta Hload.
  assert (kinv None None (next_id (sessions k)) (next_id (instances k)) k) as Hk by (split; done).
  pose proof (handle_inv aarch64 _ _ k cmd Hk Hid Hns Hni) as Hpost. rewrite Hp in Hpost. cbn [post] in Hpost.
  assert (notices_ok k = true) as Hn by (unfold handle in Hp; destruct (notices_ok k); [done|discriminate Hp]).
  destruct (handle_panic aarch64 k cmd k1 Hts Hti Hni Hp Hpta Hload) as (i & P1 & P2 & P3 & (C1 & C2 & _) & Hrun & Hfr).
  assert (current_pta k1 = false) as Hf by (rewrite P2; apply Hid).
  destruct (on_ta_panic_inv _ _ k1 Hpost Hf) as [Hk2 Hid2].
  pose proof (Hpost Hf) as Hmid. rewrite P1 in Hmid. destruct Hmid as (p & _ & Hmid).
  destruct (v_lock _ _ _ _ (t_v _ _ _ _ _ _ Hmid) i eq_refl) as [x Hx].
  assert (forall s, SessionTable.get (sessions (snd (on_ta_panic k1))) s =
       if closes cmd s then None else SessionTable.poison i <$> SessionTable.get (sessions k) s) as Hsess.
  { intros s. unfold on_ta_panic. rewrite P1. cbn [snd sessions set_sessions set_instances set_current_instance]. rewrite P3.
    destruct (sessions_during_get k cmd s Hts) as [Hok Hg]. rewrite poison_get, Hg by done. by destruct (closes cmd s). }
  assert (InstanceTable.view (instances (snd (on_ta_panic k1))) = alter kill_instance i (InstanceTable.view (instances k1))) as Hins.
  { unfold on_ta_panic. rewrite P1. cbn [snd instances set_sessions set_instances set_current_instance].
    by rewrite view_get_mut by (done || apply Hmid). }
  exists i, (snd (on_ta_panic k1)), (kill_instance x). unfold on_panic. rewrite Hf.
  split; [unfold on_ta_panic; by rewrite P1|]. split; [by eexists _, _|]. split_and!; try done.
  - by rewrite get_view, Hins, lookup_alter_eq, Hx.
  - apply (Hrun x) in Hx. by destruct cmd.
  - intros j Hj. rewrite !get_view, Hins, lookup_alter_ne by congruence. by apply Hfr.
  - intros s sess c ps cid t Hs Hi Hc. pose proof (on_ta_panic_quiet k1) as ((Q1 & Q2 & _) & _).
    unfold handle. rewrite Q2, C2, Hn. cbn [negb]. unfold invoke.
    assert (cancelled (snd (on_ta_panic k1)) cid = false) as -> by (unfold cancelled; rewrite Q1, C1; exact Hc).
    rewrite Hs. rewrite Hsess in Hs. destruct (closes cmd s); [done|].
    destruct (SessionTable.get (sessions k) s) as [y|]; [|done]. injection Hs as <-. rewrite instance_poison in Hi.
    assert (SessionTable.poison i y = sess_set_state SessDead y) as -> by (unfold SessionTable.poison; by rewrite bool_decide_true).
    by rewrite bool_decide_true.
Qed.

(** A dead instance is never reclaimed: it stays in its slot, unchanged,
    through every later call (closing its sessions included), so each contained
    panic costs one of the kernel's sixteen instance slots for good. *)
Theorem dead_instance_never_reclaimed k cmds k' i x :
  (exists ns ni, kinv None None ns ni k /\ idle k /\
     ns + Z.of_nat (length cmds) <= U32_MAX /\ ni + Z.of_nat (length cmds) <= U32_MAX) ->
  run aarch64 k cmds = Some k' ->
  InstanceTable.get (instances k) i = Some x -> inst_state x = InstDead ->
  InstanceTable.get (instances k') i = Some x.
Proof.
  intros (ns & ni & Hk & Hid & Hns & Hni). rewrite !get_view. revert ns ni k Hk Hid Hns Hni.
  induction cmds as [|c cs IH]; intros ns ni k Hk Hid Hns Hni; cbn [run length] in *; [by intros [= <-]|].
  destruct (serve aarch64 k c) as [[o k1]|] eqn:E; [|done]. intros Hr Hx HD.
  destruct (serve_inv aarch64 ns ni k c o k1) as [Hk1 Hid1]; [done|done|lia|lia|done|].
  apply (IH (ns + 1) (ni + 1) k1); try done; try lia.
  by eapply (serve_dead aarch64 ns ni k); [..|exact E|exact Hx|exact HD]; try done; lia.
Qed.

(** Binding a session answers, it never asks the REE. *)
Lemma bind_unlock_done k i u l ps r k1 : bind_unlock k i u l ps <> KRet (Rpc r) k1.
Proof.
  assert (forall (q : K) ps' ctx, exists res s ps2 q', bind_record q i u l ps' ctx = (Done res s ps2, q')) as Hr.
  { intros. unfold bind_record. destruct (SessionTable.alloc _ _) as [[s|] st]; by repeat eexists. }
  unfold bind_unlock, bind_session. destruct (entries_of k i) as [ep|].
  - destruct (map_params k i ps) as [[e|[raw vas]] k2]; [done|].
    destruct (call_ta _ _ _) as [[[code raw'] ctx] k3|k3]; [|done]. destruct (negb _); [done|].
    destruct (Hr (unmap_params k3 i (params_from_raw ps raw') vas) (params_from_raw ps raw') ctx)
      as (res & s & ps2 & q' & ->). done.
  - destruct (Hr k ps 0) as (res & s & ps2 & q' & ->). done.
Qed.

(** The state and call in which the kernel asks for an image: an open that is not
    cancelled, of a TA that is no pseudo-TA, has no live single instance and is
    not built in, while no other request is out; the open is remembered. *)
Definition asks k (cmd : KernelCmd) (r : HalRpc) k1 : Prop :=
  match cmd with
  | OpenSession u l ps c t =>
      r = RpcLoadTa u /\ notices_ok k = true /\ cancelled k c = false /\ PtaRegistry.get (ptas k) u = None /\
      InstanceTable.live_single (instances k) u = None /\ EarlyTas.get (early k) u = None /\ yielding k = None /\
      k1 = set_yielding k (Some {| y_uuid := u; y_login := l; y_params := ps; y_cancel_id := c; y_timeout_ms := t |})
  | _ => False
  end.

Lemma instantiate_done k p u l ps eps asp r k1 : instantiate_and_bind k p u l ps eps asp <> KRet (Rpc r) k1.
Proof.
  pose proof (fun q i => bind_unlock_done q i u l ps r k1) as Hb. unfold instantiate_and_bind. destruct (negb _); [done|].
  destruct (take_aspace k asp) as [a q2]. destruct (InstanceTable.alloc _ _) as [[i|] it]; [|done].
  destruct (lock_instance _ i) as [[e|] q3]; [done|]. destruct eps as [ep|]; [|apply Hb].
  destruct (call_ta _ _ _) as [code q4|q4]; [|done]. destruct (negb _); [done|apply Hb].
Qed.

Lemma invoke_done k s c ps cid r k1 : invoke k s c ps cid <> KRet (Rpc r) k1.
Proof.
  unfold invoke. destruct (cancelled k cid); [done|]. destruct (SessionTable.get _ _) as [x|]; [|done]. case_bool_decide; [done|].
  destruct (kind x).
  - destruct (instance x) as [i|]; [|done]. destruct (lock_instance k i) as [[e|] q]; [done|]. unfold invoke_locked.
    destruct (map_params _ _ _) as [[e|[raw vas]] q2]; [done|].
    by destruct (match entries_of q2 i with Some _ => _ | None => _ end) as [[code raw'] h|h].
  - destruct (PtaRegistry.get _ _) as [p|]; [|done]. by destruct (pta_invoke _ _ _ _) as [[res ps'] q|q].
Qed.

Lemma close_done k s r k1 : close k s <> KRet (Rpc r) k1.
Proof.
  assert (forall q i, close_destroy q i <> KRet (Rpc r) k1) as Hd.
  { intros q i. unfold close_destroy. destruct (entries_of q i); [|done]. by destruct (call_ta _ _ _). }
  assert (forall q i, (let '(d, q) := close_count q i in if d : bool then close_destroy q i else KRet closed_out (unlock_instance q i)) <>
    KRet (Rpc r) k1) as Ha by (intros q i; destruct (close_count q i) as [[] q']; [apply Hd|done]).
  unfold close. destruct (SessionTable.take _ _) as [[x|] st]; [|done]. destruct (kind x).
  - destruct (instance x) as [i|]; [|done]. destruct (lock_instance _ i) as [[e|] q]; [done|]. unfold close_locked.
    destruct (entries_of q i); [|apply Ha]. destruct (call_ta _ _ _); [apply Ha|done].
  - destruct (PtaRegistry.get _ _) as [p|]; [|done]. by destruct (pta_close _ _).
Qed.

Lemma load_and_bind_done k y bs r k1 : load_and_bind aarch64 k y bs <> KRet (Rpc r) k1.
Proof.
  unfold load_and_bind. destruct (cancelled _ _); [done|]. destruct (load_image bs); [|done..]. destruct (negb _); [done|].
  destruct (new_address_space _) as [asp h]. destruct (map_elf _ _ _) as [[eps| |] asp']; [|done..]. apply instantiate_done.
Qed.

Lemma handle_asks k cmd r k1 : handle aarch64 k cmd = KRet (Rpc r) k1 <-> asks k cmd r k1.
Proof.
  unfold handle, asks. destruct (notices_ok k) eqn:En; cbn [negb];
    [|split; [done|]; destruct cmd; try done; by intros (_ & [=] & _)].
  destruct cmd as [u l ps c t|s c ps cid t|s|c|resp]; [|split; [intros Ho|done]..].
  - unfold open, open_user_ta. destruct (cancelled k c); [split; [done|by intros (_ & _ & [=] & _)]|].
    destruct (PtaRegistry.get _ _) as [pta|].
    { split; [|by intros (_ & _ & _ & [=] & _)]. destruct (pta_open _ _) as [[[e|ctx] ps'] p|p]; [done| |done].
      by destruct (SessionTable.alloc _ _) as [[sid|] st]. }
    destruct (InstanceTable.live_single _ _) as [i|].
    { split; [|by intros (_ & _ & _ & _ & [=] & _)]. destruct (InstanceTable.get _ _) as [x|]; [|done]. destruct (_ && _); [done|].
      destruct (lock_instance k i) as [[e|] q2]; [done|]. intros Hr. by apply bind_unlock_done in Hr. }
    destruct (EarlyTas.get _ _) as [ta|].
    { split; [|by intros (_ & _ & _ & _ & _ & [=] & _)]. intros Hr. by apply instantiate_done in Hr. }
    destruct (yielding k) as [y|] eqn:Ey.
    + rewrite bool_decide_true by (by eexists). split; [done|by intros (_ & _ & _ & _ & _ & _ & [=] & _)].
    + rewrite bool_decide_false by (intros [? [=]]). split; [intros [= <- <-]; done|]. by intros (-> & _ & _ & _ & _ & _ & _ & ->).
  - by apply invoke_done in Ho.
  - by apply close_done in Ho.
  - done.
  - unfold rpc_complete in Ho. destruct (yielding k); [|done]. destruct resp; try done. by apply load_and_bind_done in Ho.
Qed.

(** C5. The LOAD_TA request.  The kernel asks the REE for an image exactly on an
    open that is not cancelled, of a TA that is neither a pseudo-TA nor built in
    and has no live single instance, while no other request is out, and remembers
    that open; no other call ever asks.  A reply of whatever kind ends the
    request, also when handling it panics; a session is opened from it only if
    the open was not cancelled meanwhile and the bytes are an image whose header
    names the UUID asked for. *)
Theorem load_ta_protocol k :
  (forall cmd r k1, handle aarch64 k cmd = KRet (Rpc r) k1 <-> asks k cmd r k1) /\
  (forall y resp, notices_ok k = true -> yielding k = Some y ->
    match handle aarch64 k (RpcComplete resp) with
    | KRet o k2 => yielding k2 = None /\
        (forall res s ps, o = Done res (Some s) ps -> cancelled k (y_cancel_id y) = false /\
           exists bs ld, resp = RespLoadTa bs /\ load_image bs = Ok ld /\ tp_uuid (ld_props ld) = y_uuid y)
    | KPanic k2 => yielding k2 = None
    end).
Proof.
  split; [intros; apply handle_asks|]. intros y resp Hn Hy.
  unfold handle, rpc_complete, load_and_bind. rewrite Hn, Hy. cbn [negb].
  destruct resp as [bs| | | |code]; try (split; [done|intros ??? Hd; discriminate Hd]).
  change (cancelled (set_yielding k None) (y_cancel_id y)) with (cancelled k (y_cancel_id y)).
  destruct (cancelled k (y_cancel_id y)) eqn:Ec; [done|]. destruct (load_image bs) as [ld| |] eqn:El; [|done..].
  destruct (beqb (tp_uuid (ld_props ld)) (y_uuid y)) eqn:Eu; cbn [negb]; [apply beqb_eq in Eu|done].
  destruct (new_address_space _) as [asp h]. destruct (map_elf _ _ _) as [[eps| |] asp'];
    [|split; [done|intros ??? Hd; discriminate Hd]|done].
  match goal with |- context [instantiate_and_bind ?q ?a1 ?a2 ?a3 ?a4 ?a5 ?a6] =>
    pose proof (instantiate_grows q a1 a2 a3 a4 a5 a6) as Hg;
    destruct (instantiate_and_bind q a1 a2 a3 a4 a5 a6) as [o k2|k2]; destruct Hg as (_ & Hg & _) end.
  - split; [by rewrite Hg|]. intros res s ps' _. split; [done|]. by exists bs, ld.
  - by rewrite Hg.
Qed.

(** C20. No signed TA can be opened: whatever the signature, a reply that is a
    signed envelope ends the waiting open with an error code other than success,
    unless the image inside makes the loader itself panic; either way no session
    and no instance is created and the request is over, because the kernel maps
    the envelope instead of the image inside it. *)
Theorem signed_ta_never_opens k y bs :
  notices_ok k = true -> yielding k = Some y -> is_rtsg bs = true ->
  match handle aarch64 k (RpcComplete (RespLoadTa bs)) with
  | KRet o k' => (exists code, o = done_err code /\ code <> TEE_SUCCESS) /\
      yielding k' = None /\ sessions k' = sessions k /\ instances k' = instances k
  | KPanic k' => load_image bs = Panic /\ yielding k' = None /\ sessions k' = sessions k /\ instances k' = instances k
  end.
Proof.
  intros Hn Hy Hr. unfold handle, rpc_complete, load_and_bind. rewrite Hn, Hy. cbn [negb].
  destruct (cancelled _ _); [by split; [eexists|]|].
  pose proof (load_image_errs bs) as He. destruct (load_image bs) as [ld|e|].
  - destruct (negb _); [by split; [eexists|]|]. destruct (new_address_space _) as [asp h].
    unfold map_elf. rewrite (rtsg_not_elf bs Hr). by split; [eexists|].
  - split; [|done]. exists e. split; [done|]. by destruct He as [->| ->].
  - done.
Qed.

(** What [map_params] hands a TA, parameter by parameter, from the HAL and the
    address space the loop has reached: a REE buffer is synchronised, its length
    read and its window mapped in that very state, and the next parameter goes on
    from there. *)
Inductive windows : H -> AS -> Params -> list ParamRaw -> H -> AS -> Prop :=
| win_nil h asp : windows h asp [] [] h asp
| win_buffer h asp cookie offs size dir h1 len va asp1 ps raw h' asp' :
    map_sync_in h cookie dir = Some (inr tt, h1) ->
    shm_len (AS:=AS) h1 cookie = Some len -> sat_add 64 offs size <= len ->
    shm_map_into h1 cookie asp (dir_perms dir) = Some (inr va, asp1) ->
    windows h1 asp1 ps raw h' asp' ->
    windows h asp (PMemref (Ree cookie offs) size dir :: ps) (raw_memref (wrapping_add 64 va offs) size :: raw) h' asp'
| win_other h asp p ps raw h' asp' :
    (forall cookie offs size dir, p <> PMemref (Ree cookie offs) size dir) ->
    windows h asp ps raw h' asp' -> windows h asp (p :: ps) (param_to_raw p :: raw) h' asp'.

Lemma map_loop_windows ps h asp raw vas h' asp' :
  map_loop (H:=H) ps h asp = MapOk raw vas h' asp' -> windows h asp ps raw h' asp' /\ length vas = length ps.
Proof.
  revert h asp raw vas h' asp'. induction ps as [|p ps IH]; intros h asp raw vas h' asp'; cbn [map_loop].
  { intros [= <- <- <- <-]. split; constructor. }
  destruct (map_param h asp p) as [r1 v1 h1 a1| |] eqn:E1; [|done..].
  destruct (map_loop ps h1 a1) as [r2 v2 h2 a2| |] eqn:E2; [|done..]. intros [= <- <- <- <-].
  destruct (IH _ _ _ _ _ _ E2) as [IH1 IH2].
  unfold map_param in E1. destruct p as [| |[c o|v] sz d];
    try (injection E1 as <- <- <- <-; split; [by apply win_other|cbn; by rewrite IH2]).
  unfold map_memref in E1. destruct (map_sync_in _ _ _) as [[[e|[]] h3]|] eqn:Es; [done| |done].
  destruct (shm_len h3 c) as [len|] eqn:El; [|done].
  destruct (Z.ltb_spec len (sat_add 64 o sz)); [done|].
  destruct (shm_map_into h3 c asp (dir_perms d)) as [[[e|va] a3]|] eqn:Em; [done| |done].
  injection E1 as <- <- <- <-. split; [by eapply win_buffer|cbn; by rewrite IH2].
Qed.

(** A buffer parameter lies in the object registered under its cookie. *)
Definition in_buffer (h : H) (p : Param) : Prop :=
  match p with
  | PMemref (Ree cookie offs) size _ => exists len, shm_len (AS:=AS) h cookie = Some len /\ sat_add 64 offs size <= len
  | _ => True
  end.

(** A HAL whose [sync_in] moves data and leaves the registered objects. *)
Definition sync_keeps_len : Prop :=
  forall h c r h1 c', shm_sync_in (AS:=AS) h c = Some (r, h1) -> shm_len (AS:=AS) h1 c' = shm_len (AS:=AS) h c'.

Lemma windows_in_buffer h asp ps raw h' asp' : sync_keeps_len -> windows h asp ps raw h' asp' ->
  Forall (in_buffer h) ps.
Proof.
  intros Hs Hw. induction Hw as [|h asp c o sz d h1 len va asp1 ps raw h' asp' E1 E2 Hl E3 Hw IH|h asp p ps raw h' asp' Hp Hw IH];
    [constructor| |].
  - assert (forall c', shm_len (AS:=AS) h1 c' = shm_len (AS:=AS) h c') as He.
    { intros c'. unfold map_sync_in in E1. destruct (bool_decide _); [by eapply Hs|by injection E1 as <-]. }
    constructor; [exists len; by rewrite <- He|]. eapply list.Forall_impl; [exact IH|]. intros [| |[]] ?; try done. cbn in *. by rewrite <- He.
  - constructor; [|done]. destruct p as [| |[c o|v] sz d]; try done. by destruct (Hp c o sz d).
Qed.

(** C3. What a TA is given: when the parameters of a call are mapped, the TA
    gets one raw parameter per parameter, in order.  From the kernel's own HAL and
    the instance's own address space on, each REE buffer is the base at which the
    HAL mapped it, never executable, plus the offset, with the size asked for,
    only if offset and size lie inside the object the HAL has under that cookie at
    that moment; values and TA buffers pass through.  With a HAL whose [sync_in]
    leaves the registered objects, they are the objects registered at the call.
    The HAL and the address space the loop ends with are back in the kernel. *)
Theorem mapped_params_in_bounds k i ps raw vas k' :
  InstanceTable.ok (instances k) -> map_params k i ps = (inr (raw, vas), k') ->
  exists x asp asp', InstanceTable.get (instances k) i = Some x /\ aspace x = Some asp /\
    windows (hal k) asp ps raw (hal k') asp' /\ length vas = length ps /\ (forall d, p_exec (dir_perms d) = false) /\
    (sync_keeps_len -> Forall (in_buffer (hal k)) ps) /\
    InstanceTable.get (instances k') i = Some (inst_set_aspace (Some asp') x).
Proof.
  intros Hok. unfold map_params. rewrite get_view.
  destruct (InstanceTable.view (instances k) !! i) as [x|] eqn:Ex; [|done]. cbn [mbind option_bind].
  destruct (aspace x) as [asp|] eqn:Ea; [|done].
  destruct (map_loop ps _ asp) as [r v h a| |] eqn:E; [|done..]. intros [= <- <- <-].
  destruct (map_loop_windows _ _ _ _ _ _ _ E) as [Hw Hl]. change (hal (put_aspace k i None)) with (hal k) in Hw.
  exists x, asp, a. split_and!; [done|done|done|done|by intros []|intros Hs; by eapply windows_in_buffer|].
  unfold put_aspace. cbn [instances set_instances set_hal].
  destruct (get_mut_get (instances k) i (inst_set_aspace None) Hok (fun _ => eq_refl)) as [O1 V1].
  destruct (get_mut_get _ i (inst_set_aspace (Some a)) O1 (fun _ => eq_refl)) as [_ V2].
  by rewrite V2, V1, get_view, Ex.
Qed.

Lemma invoke_ready k s sess i x cmd ps cid t :
  notices_ok k = true -> cancelled k cid = false -> SessionTable.get (sessions k) s = Some sess ->
  kind sess = UserTa -> sess_state sess = Ready -> instance sess = Some i ->
  InstanceTable.get (instances k) i = Some x -> busy x = false ->
  handle aarch64 k (Invoke s cmd ps cid t) =
    invoke_locked (set_instances k (InstanceTable.get_mut (instances k) i (inst_set_busy true)))
      s sess i cmd ps.
Proof.
  intros Hn Hc Hs Hkd Hst Hi Hx Hb. unfold handle. rewrite Hn. cbn [negb]. unfold invoke.
  rewrite Hc, Hs, Hkd, Hst, Hi. rewrite bool_decide_false by done. unfold lock_instance. by rewrite Hx, Hb.
Qed.

(** The TA half when the parameters cannot be mapped. *)
Lemma invoke_unmapped k s sess i cmd ps e k1 :
  map_params (set_current_instance k (Some i)) i ps = (inl e, k1) ->
  invoke_locked k s sess i cmd ps =
    KRet (done_err e) (unlock_instance (set_current_instance k1 None) i).
Proof. intros Hm. unfold invoke_locked. by rewrite Hm. Qed.

Lemma map_params_dead k i ps x :
  InstanceTable.get (instances k) i = Some x -> aspace x = None ->
  map_params k i ps = (inl TEE_ERROR_TARGET_DEAD, k).
Proof. intros Hx Ha. unfold map_params. rewrite Hx. cbn. by rewrite Ha. Qed.

(** The early return of the mapping loop on an unknown buffer. *)
Lemma map_params_no_buffer k i x asp cookie offs size dir ps :
  InstanceTable.get (instances k) i = Some x -> aspace x = Some asp ->
  shm_sync_in (AS:=AS) (hal k) cookie = None -> shm_len (AS:=AS) (hal k) cookie = None ->
  map_params k i (PMemref (Ree cookie offs) size dir :: ps) =
    (inl TEE_ERROR_BAD_PARAMETERS, set_hal (put_aspace k i None) (hal k)).
Proof.
  intros Hx Ha Hsync Hlen. unfold map_params. rewrite Hx. cbn [mbind option_bind]. rewrite Ha.
  cbn [map_loop map_param]. unfold map_memref, map_sync_in.
  change (hal (put_aspace k i None)) with (hal k).
  destruct (bool_decide _); by rewrite ?Hsync, ?Hlen.
Qed.

(** An invoke whose first buffer is unknown: the address space is lost. *)
Lemma unknown_buffer_dead k s sess i x asp cookie offs size dir ps cmd cid t :
  kernel_ok k -> notices_ok k = true -> cancelled k cid = false ->
  SessionTable.get (sessions k) s = Some sess -> kind sess = UserTa -> sess_state sess = Ready ->
  instance sess = Some i -> InstanceTable.get (instances k) i = Some x -> inst_state x = Live ->
  aspace x = Some asp ->
  shm_sync_in (hal k) cookie = None -> shm_len (hal k) cookie = None ->
  exists k', handle aarch64 k (Invoke s cmd (PMemref (Ree cookie offs) size dir :: ps) cid t) =
               KRet (done_err TEE_ERROR_BAD_PARAMETERS) k' /\
    (exists x', InstanceTable.get (instances k') i = Some x' /\ inst_state x' = Live /\ aspace x' = None) /\
    forall cmd' ps' t', exists k'', handle aarch64 k' (Invoke s cmd' ps' cid t') =
               KRet (done_err TEE_ERROR_TARGET_DEAD) k''.
Proof.
  intros (ns & ni & Hk & Hid) Hn Hc Hs Hkd Hst Hi Hx HL Ha Hsync Hlen.
  pose proof (t_i _ _ _ _ _ _ Hk) as Hok.
  pose proof Hx as Hxv. rewrite get_view in Hxv.
  destruct (v_inst _ _ _ _ (t_v _ _ _ _ _ _ Hk) i x Hxv) as (_ & _ & Hb & _).
  assert (busy x = false) as Hnb
    by (destruct (busy x); [|done]; destruct (proj1 Hb eq_refl); congruence).
  destruct (get_mut_get (instances k) i (inst_set_busy true) Hok (fun _ => eq_refl)) as [O1 V1].
  destruct (get_mut_get _ i (inst_set_aspace None) O1 (fun _ => eq_refl)) as [O2 V2].
  destruct (get_mut_get _ i (inst_set_busy false) O2 (fun _ => eq_refl)) as [O3 V3].
  destruct (get_mut_get _ i (inst_set_busy true) O3 (fun _ => eq_refl)) as [O4 V4].
  rewrite Hx in V1. rewrite V1 in V2. rewrite V2 in V3. rewrite V3 in V4.
  eexists. split; [|split].
  - rewrite (invoke_ready k s sess i x) by done.
    eapply invoke_unmapped, map_params_no_buffer; [exact V1|exact Ha|exact Hsync|exact Hlen].
  - eexists. split; [exact V3|]. done.
  - intros cmd' ps' t'. eexists.
    etrans; [eapply (invoke_ready _ s sess i);
             [exact Hn|exact Hc|exact Hs|exact Hkd|exact Hst|exact Hi|exact V3|done]|].
    eapply invoke_unmapped, map_params_dead; [exact V4|done].
Qed.

(** A failed mapping loses the address space: an invoke whose first
    parameter names a REE buffer that does not exist returns
    [TEE_ERROR_BAD_PARAMETERS], and from then on every invoke on that session,
    whatever its parameters, returns [TEE_ERROR_TARGET_DEAD], although the
    instance is live and the TA never ran. *)
Theorem bad_cookie_kills_session k s sess i x asp cookie offs size dir ps cmd cid t :
  kernel_ok k -> notices_ok k = true -> cancelled k cid = false ->
  SessionTable.get (sessions k) s = Some sess -> kind sess = UserTa -> sess_state sess = Ready ->
  instance sess = Some i -> InstanceTable.get (instances k) i = Some x -> inst_state x = Live ->
  aspace x = Some asp ->
  shm_sync_in (hal k) cookie = None -> shm_len (hal k) cookie = None ->
  exists k', handle aarch64 k (Invoke s cmd (PMemref (Ree cookie offs) size dir :: ps) cid t) =
               KRet (done_err TEE_ERROR_BAD_PARAMETERS) k' /\
    (exists x', InstanceTable.get (instances k') i = Some x' /\ inst_state x' = Live /\ aspace x' = None) /\
    forall cmd' ps' t', exists k'', handle aarch64 k' (Invoke s cmd' ps' cid t') =
               KRet (done_err TEE_ERROR_TARGET_DEAD) k''.
Proof. exact (unknown_buffer_dead k s sess i x asp cookie offs size dir ps cmd cid t). Qed.

(** The TA half of [close], on tables where instance [i] is [x], counted and locked. *)
Lemma close_locked_effect k sess i x o k' :
  InstanceTable.ok (instances k) -> InstanceTable.get (instances k) i = Some x ->
  1 <= session_count x -> close_locked k sess i = KRet o k' ->
  o = closed_out /\ sessions k' = sessions k /\
  InstanceTable.get (instances k') i =
    if (session_count x =? 1) && negb (instance_keep_alive (props x)) then None
    else Some (inst_set_busy false (drop_count x)).
Proof.
  intros Hok Hx H1.
  assert (forall q, instances q = instances k -> sessions q = sessions k ->
    (let '(d, q2) := close_count q i in
     if d : bool then close_destroy q2 i else KRet closed_out (unlock_instance q2 i)) = KRet o k' ->
    o = closed_out /\ sessions k' = sessions k /\
    InstanceTable.get (instances k') i =
      if (session_count x =? 1) && negb (instance_keep_alive (props x)) then None
      else Some (inst_set_busy false (drop_count x))) as Haft.
  { intros q EI ES. unfold close_count. cbn [instances set_instances]. rewrite EI.
    destruct (get_mut_get (instances k) i drop_count Hok (fun _ => eq_refl)) as [O1 V1].
    rewrite Hx in V1. cbn [fmap option_fmap option_map] in V1. rewrite V1.
    assert ((session_count (drop_count x) =? 0) = (session_count x =? 1)) as ->.
    { cbn. unfold sat_sub. destruct (Z.eqb_spec (session_count x) 1), (Z.eqb_spec (Z.max (session_count x - 1) 0) 0); lia. }
    change (props (drop_count x)) with (props x). destruct (_ && _).
    - set (q2 := set_instances q _).
      assert (forall q3 : K, instances q3 = instances q2 -> InstanceTable.get (instances (drop_instance
        (set_instances q3 (InstanceTable.get_mut (instances q3) i kill_instance)) i)) i = None) as Hd.
      { intros q3 E3. unfold drop_instance. cbn [instances set_instances]. rewrite E3.
        destruct (get_mut_get (instances q2) i kill_instance O1 (fun _ => eq_refl)) as [O2 _].
        destruct (InstanceTable.drop_id _ i) as [r it] eqn:Ed.
        destruct (table_take_spec _ _ _ _ _ Ed O2) as (_ & Hm & _). cbn [snd].
        unfold InstanceTable.get. rewrite table_get_tmap, Hm. apply lookup_delete_eq. }
      unfold close_destroy. destruct (entries_of q2 i) as [ep|].
      + unfold call_ta. destruct (ta_destroy _ _) as [[] h|h]; [|done]. intros [= <- <-].
        split_and!; [done|exact ES|by apply Hd].
      + intros [= <- <-]. split_and!; [done|exact ES|by apply Hd].
    - intros [= <- <-]. split_and!; [done|exact ES|]. cbn [unlock_instance instances set_instances].
      destruct (get_mut_get _ i (inst_set_busy false) O1 (fun _ => eq_refl)) as [_ V2]. by rewrite V2, V1. }
  unfold close_locked. destruct (entries_of k i) as [ep|]; [|by apply Haft].
  unfold call_ta. destruct (ta_close_session _ _ _) as [[] h|h]; [|done]. by apply Haft.
Qed.

(** C10. Closing a session of a live instance: the session is gone and no other
    session is touched; the instance loses one from its count and is unlocked,
    or, when this was its last session and the TA is not keep-alive, it leaves
    the table; no other instance changes. *)
Theorem close_session_effect k s sess i x o k' :
  kernel_ok k -> notices_ok k = true -> SessionTable.get (sessions k) s = Some sess ->
  kind sess = UserTa -> instance sess = Some i ->
  InstanceTable.get (instances k) i = Some x -> inst_state x = Live ->
  handle aarch64 k (CloseSession s) = KRet o k' ->
  o = closed_out /\ (forall s', SessionTable.get (sessions k') s' =
                       if s' =? s then None else SessionTable.get (sessions k) s') /\
  InstanceTable.get (instances k') i =
    (if (session_count x =? 1) && negb (instance_keep_alive (props x)) then None
     else Some (drop_count x)) /\
  (forall j, j <> i -> InstanceTable.get (instances k') j = InstanceTable.get (instances k) j).
Proof.
  intros (ns & ni & Hk & Hid) Hn Hs Hkd Hi Hx HL Hh.
  revert Hh. unfold handle. rewrite Hn. cbn [negb].
  pose proof (t_i _ _ _ _ _ _ Hk) as Hok. pose proof (t_v _ _ _ _ _ _ Hk) as Hv.
  pose proof Hx as Hxv. rewrite get_view in Hxv.
  destruct (v_inst _ _ _ _ Hv i x Hxv) as (_ & _ & Hb & _ & Hc & _).
  unfold SessionTable.get in Hs. pose proof Hs as Hsv. rewrite table_get_tmap in Hsv.
  rewrite decide_False in Hc by done. specialize (Hc HL).
  pose proof (cnt_delete_same _ _ _ _ Hsv Hi) as Hc1.
  assert (0 <= cnt (delete s (SessionTable.view (sessions k))) i) by (unfold cnt; lia).
  assert (busy x = false) as Hnb
    by (destruct (busy x); [|done]; destruct (proj1 Hb eq_refl); congruence).
  assert (busy (drop_count x) = false) as Hnb' by done.
  assert (inst_set_busy false (drop_count (inst_set_busy true x)) = drop_count x) as Hxx
    by (destruct x; cbn in *; by subst).
  unfold close. destruct (SessionTable.take (sessions k) s) as [r st] eqn:Et.
  destruct (table_take_spec _ _ _ _ _ Et (t_s _ _ _ _ _ _ Hk)) as (-> & Hm & _ & _ & _).
  rewrite Hsv, Hkd, Hi. unfold lock_instance. cbn [instances set_sessions]. rewrite Hx, Hnb.
  destruct (get_mut_get (instances k) i (inst_set_busy true) Hok (fun _ => eq_refl)) as [O1 V1].
  rewrite Hx in V1. intros Hcl.
  match type of Hcl with close_locked ?q _ _ = _ =>
    destruct (close_locked_effect q sess i _ o k' O1 V1) as (-> & ES & EI); [|exact Hcl|] end.
  { unfold SessionTable.view in *. cbn. lia. }
  split_and!; [done| | |].
  - intros s'. rewrite ES. cbn [sessions set_instances set_sessions].
    unfold SessionTable.get. rewrite !table_get_tmap, Hm. destruct (Z.eqb_spec s' s) as [->|].
    + apply lookup_delete_eq.
    + by rewrite lookup_delete_ne.
  - rewrite EI. cbn [session_count props inst_set_busy inst_with]. by rewrite Hxx.
  - intros j Hj. match type of Hcl with close_locked ?q _ _ = _ =>
      pose proof (close_locked_quiet q sess i) as Hq end.
    rewrite Hcl in Hq. destruct Hq as (_ & _ & Hq). destruct (Hq O1) as (_ & _ & _ & Hfr).
    rewrite !get_view, Hfr by congruence. cbn [instances set_instances set_sessions].
    rewrite view_get_mut by done. by apply lookup_alter_ne.
Qed.
End Props.

(** * A concrete kernel *)

Module Sample.
(** One 4 KiB shared buffer with cookie 64, mapped at 0x9000. *)
#[export] Instance hal : HalOps unit RecAs :=
  {| hal_entropy_origin := fun _ => Isolated;
     new_address_space := fun h => ({| rec_va := 0; rec_blob := []; rec_load := 0x50000000 |}, h);
     shm_len := fun _ c => if c =? 64 then Some 4096 else None;
     shm_sync_in := fun h c => if c =? 64 then Some (inr tt, h) else None;
     shm_sync_out := fun h c => if c =? 64 then Some (inr tt, h) else None;
     shm_map_into := fun _ c a _ => if c =? 64 then Some (inr 0x9000, a) else None;
     map_image := fun a v b _ => (inr (rec_load a), {| rec_va := v; rec_blob := b; rec_load := rec_load a |});
     as_unmap := fun a _ => a; as_drop_all := fun a => a |}.

Definition ree_hal : HalOps unit RecAs :=
  {| hal_entropy_origin := fun _ => ReeHost;
     new_address_space := new_address_space; shm_len := shm_len; shm_sync_in := shm_sync_in;
     shm_sync_out := shm_sync_out; shm_map_into := shm_map_into; map_image := map_image (H:=unit);
     as_unmap := as_unmap (H:=unit); as_drop_all := as_drop_all (H:=unit) |}.

#[export] Existing Instance sample_crypto.

(** No pseudo-TA is registered. *)
#[export] Instance pta : PtaOps unit :=
  {| pta_uuid := fun _ => replicate 16 0;
     pta_open := fun p ps => Returned (inr 0, ps) p;
     pta_invoke := fun p _ _ ps => Returned (TeeResult_ok, ps) p;
     pta_close := fun p _ => Returned tt p |}.

(** A TA that refuses to open when its first parameter is an input value and
    panics when it is an in-out value, panics on command 1 and succeeds otherwise. *)
#[export] Instance ta : TaCode unit :=
  {| ta_create := fun _ h => Returned TEE_SUCCESS h;
     ta_destroy := fun _ h => Returned tt h;
     ta_open_session := fun _ types raw h =>
       if types =? 3 then Panicked h else Returned (if types =? 1 then 0xFFFF0001 else TEE_SUCCESS, raw, 7) h;
     ta_close_session := fun _ _ h => Returned tt h;
     ta_invoke := fun _ _ cmd _ raw h => if cmd =? 1 then Panicked h else Returned (TEE_SUCCESS, raw) h |}.

Definition eps : TaEntryPoints :=
  {| ep_create := 1; ep_destroy := 2; ep_open_session := 3; ep_close_session := 4; ep_invoke := 5 |}.
Definition early_ta : EarlyTa :=
  {| et_uuid := replicate 16 6; et_props := sample_props; et_image := []; et_entries := Some eps |}.

(** The same TA, one instance per session. *)
Definition multi_uuid : Uuid := replicate 16 5.
Definition multi_ta : EarlyTa :=
  {| et_uuid := multi_uuid;
     et_props := {| tp_uuid := multi_uuid; stack_size := 0x1000; data_size := 0x1000;
                    single_instance := false; multi_session := false; instance_keep_alive := false;
                    endian := 0; ta_version := 1 |};
     et_image := []; et_entries := Some eps |}.

Definition writer : Writer := {| written := []; lines_left := 2 |}.
Definition kernel : Kernel unit RecAs unit := boot tt writer None [] [early_ta; multi_ta].

Definition open_cmd : KernelCmd := OpenSession (replicate 16 6) Public none_params 9 0.
Definition panic_cmd : KernelCmd := Invoke 1 1 none_params 9 0.
Definition opened : Kernel unit RecAs unit :=
  match handle true kernel open_cmd with KRet _ k => k | KPanic k => k end.
(** A kernel with one session, number 1, of instance 1. *)
Lemma opened_ok : kernel_ok opened.
Proof.
  pose proof (boot_ok (H:=unit) (AS:=RecAs) (PTA:=unit) tt writer None [] [early_ta; multi_ta]) as (Hb & Hid & _).
  pose proof (handle_inv true 1 1 kernel open_cmd Hb Hid ltac:(by_compute) ltac:(by_compute)) as Hh.
  exists 2, 2. unfold opened. destruct (handle true kernel open_cmd) as [o k|k] eqn:E; [exact Hh|].
  exfalso. vm_compute in E. discriminate E.
Qed.
End Sample.
Import Sample.

Lemma kernel_invariant_witness :
  exists k, run true kernel [open_cmd; panic_cmd; open_cmd] = Some k /\ current_instance k = None.
Proof.
  destruct (run true kernel [open_cmd; panic_cmd; open_cmd]) as [k|] eqn:E;
    [|vm_compute in E; discriminate E].
  exists k. split; [done|].
  refine (proj1 (kernel_invariant true tt writer None [] [early_ta; multi_ta] _ k _ E)). reflexivity.
Defined.

Lemma single_instance_unique_witness :
  exists k, run true kernel [open_cmd; open_cmd] = Some k /\
    forall i j x y, InstanceTable.get (instances k) i = Some x -> InstanceTable.get (instances k) j = Some y ->
      inst_uuid x = inst_uuid y -> single_instance (props x) = true -> single_instance (props y) = true ->
      inst_state x = Live -> inst_state y = Live -> i = j.
Proof.
  destruct (run true kernel [open_cmd; open_cmd]) as [k|] eqn:E; [|vm_compute in E; discriminate E].
  exists k. split; [done|]. intros i j x y.
  refine (single_instance_unique true tt writer None [] [early_ta; multi_ta] _ k i j x y _ E). reflexivity.
Defined.

Lemma ree_notices_gate_witness :
  @handle unit RecAs unit ree_hal sample_crypto pta ta true (@Kernel_new unit RecAs unit ree_hal tt) open_cmd =
    KRet (done_err TEE_ERROR_SECURITY) (@Kernel_new unit RecAs unit ree_hal tt).
Proof.
  exact (proj1 (@ree_notices_gate unit RecAs unit ree_hal sample_crypto pta ta true tt writer None open_cmd eq_refl)).
Defined.

Lemma cancel_is_permanent_witness :
  exists k, run true kernel [Cancel 9; open_cmd] = Some k /\
    handle true k open_cmd = KRet (done_err TEE_ERROR_CANCEL) k.
Proof.
  destruct (run true kernel [Cancel 9; open_cmd]) as [k|] eqn:E; [|vm_compute in E; discriminate E].
  exists k. split; [done|].
  refine (proj1 (cancel_is_permanent true kernel [Cancel 9; open_cmd] k 9 eq_refl (or_introl eq_refl) E) _ _ _ _).
Defined.

(** An open of another TA that panics, next to the session open before. *)
Definition panic_open : KernelCmd := OpenSession multi_uuid Public [PValue 1 2 InOut; PNone; PNone; PNone] 9 0.

Lemma ta_panic_contained_witness :
  exists k1 i k2 x, handle true opened panic_open = KPanic k1 /\
    on_panic k1 = Some (done_err TEE_ERROR_TARGET_DEAD, k2) /\ kernel_ok k2 /\
    InstanceTable.get (instances k2) i = Some x /\ inst_uuid x = multi_uuid /\
    SessionTable.get (sessions k2) 1 = SessionTable.poison i <$> SessionTable.get (sessions opened) 1.
Proof.
  destruct (handle true opened panic_open) as [o k1|k1] eqn:E; [vm_compute in E; discriminate E|].
  destruct (ta_panic_contained true opened panic_open k1 opened_ok eq_refl eq_refl E eq_refl eq_refl)
    as (i & k2 & x & H1 & H2 & H3 & _ & _ & H4 & _ & H5 & _).
  exists k1, i, k2, x. split; [reflexivity|]. split; [exact H1|]. split; [exact H2|]. split; [exact H3|]. split; [exact H4|exact (H5 1)].
Defined.

Lemma dead_instance_never_reclaimed_witness :
  exists k k' x, run true kernel [open_cmd; panic_cmd] = Some k /\
    InstanceTable.get (instances k) 1 = Some x /\ inst_state x = InstDead /\
    run true k [CloseSession 1; open_cmd] = Some k' /\ InstanceTable.get (instances k') 1 = Some x.
Proof.
  destruct (run true kernel [open_cmd; panic_cmd]) as [k|] eqn:E; [|vm_compute in E; discriminate E].
  destruct (run true k [CloseSession 1; open_cmd]) as [k'|] eqn:E';
    [|vm_compute in E; injection E as <-; vm_compute in E'; discriminate E'].
  destruct (InstanceTable.get (instances k) 1) as [x|] eqn:Ex;
    [|vm_compute in E; injection E as <-; vm_compute in Ex; discriminate Ex].
  assert (inst_state x = InstDead) as HD
    by (vm_compute in E; injection E as <-; vm_compute in Ex; by injection Ex as <-).
  exists k, k', x. split_and!; try done.
  apply (dead_instance_never_reclaimed true k [CloseSession 1; open_cmd] k' 1 x); [|exact E'|exact Ex|exact HD].
  pose proof (boot_ok (H:=unit) (AS:=RecAs) (PTA:=unit) tt writer None [] [early_ta; multi_ta]) as (Hb & Hid & _).
  destruct (run_inv true [open_cmd; panic_cmd] 1 1 kernel k Hb Hid) as [Hk Hi]; [vm_compute; discriminate..|exact E|].
  exists 3, 3. refine (conj Hk (conj Hi (conj _ _))); vm_compute; discriminate.
Defined.

(** An open of a TA the kernel does not have. *)
Definition unknown_cmd : KernelCmd := OpenSession (replicate 16 8) Public none_params 9 0.

Lemma load_ta_protocol_witness :
  exists k1, handle true kernel unknown_cmd = KRet (Rpc (RpcLoadTa (replicate 16 8))) k1 /\
    asks kernel unknown_cmd (RpcLoadTa (replicate 16 8)) k1 /\
    match handle true k1 (RpcComplete (RespError TEE_ERROR_ITEM_NOT_FOUND)) with
    | KRet o k2 => o = done_err TEE_ERROR_ITEM_NOT_FOUND /\ yielding k2 = None
    | KPanic _ => False
    end.
Proof.
  destruct (handle true kernel unknown_cmd) as [o k1|k1] eqn:E; [|vm_compute in E; discriminate E].
  assert (o = Rpc (RpcLoadTa (replicate 16 8))) as -> by (vm_compute in E; by injection E as <- _).
  pose proof (proj1 (proj1 (load_ta_protocol true kernel) _ _ _) E) as Ha.
  exists k1. split; [done|]. split; [exact Ha|]. destruct Ha as (_ & _ & _ & _ & _ & _ & _ & ->).
  vm_compute. split; reflexivity.
Defined.

(** The kernel waiting for the image of TA 6..6, from which a valid signed
    envelope then arrives. *)
Definition waiting : Kernel unit RecAs unit :=
  set_yielding kernel (Some {| y_uuid := replicate 16 6; y_login := Public; y_params := none_params;
                               y_cancel_id := 9; y_timeout_ms := 0 |}).

Lemma signed_ta_never_opens_witness :
  (exists l, load_image sample_signed = Ok l /\ tp_uuid (ld_props l) = replicate 16 6) /\
  exists k', handle true waiting (RpcComplete (RespLoadTa sample_signed)) =
    KRet (done_err TEE_ERROR_BAD_PARAMETERS) k' /\ sessions k' = sessions waiting.
Proof.
  split; [eexists; split; vm_compute; reflexivity|].
  pose proof (signed_ta_never_opens true waiting _ sample_signed eq_refl eq_refl eq_refl) as Hs.
  destruct (handle true waiting _) as [o k'|k'] eqn:E; [|vm_compute in E; discriminate E].
  destruct Hs as (_ & _ & H1 & _). exists k'. split; [|exact H1].
  vm_compute in E. injection E as <- _. reflexivity.
Defined.

(** A 16-byte input buffer at offset 32 of the shared object. *)
Definition buffer_params : Params := [PMemref (Ree 64 32) 16 In_; PValue 1 2 InOut; PNone; PNone].

Lemma rec_sync_keeps_len : sync_keeps_len (H:=unit) (AS:=RecAs).
Proof. intros [] c r [] c' _. reflexivity. Qed.

Lemma mapped_params_in_bounds_witness :
  exists raw vas k', map_params opened 1 buffer_params = (inr (raw, vas), k') /\
    Forall (in_buffer (H:=unit) (AS:=RecAs) (Kernel.hal opened)) buffer_params /\ raw !! 0%nat = Some (raw_memref 0x9020 16).
Proof.
  destruct (map_params opened 1 buffer_params) as [[e|[raw vas]] k'] eqn:E; [vm_compute in E; discriminate E|].
  exists raw, vas, k'. split; [done|].
  assert (InstanceTable.ok (instances opened)) as Hok by (destruct opened_ok as (? & ? & [] & _); done).
  destruct (mapped_params_in_bounds opened 1 buffer_params raw vas k' Hok E) as (x & asp & asp' & _ & _ & _ & _ & _ & Hb & _).
  split; [exact (Hb rec_sync_keeps_len)|]. vm_compute in E. injection E as <- _ _. reflexivity.
Defined.

Lemma bad_cookie_kills_session_witness :
  exists k', handle true opened (Invoke 1 2 (PMemref (Ree 0x4000 0) 16 In_ :: drop 1 none_params) 9 0) =
      KRet (done_err TEE_ERROR_BAD_PARAMETERS) k' /\
    exists k'', handle true k' (Invoke 1 2 none_params 9 0) = KRet (done_err TEE_ERROR_TARGET_DEAD) k''.
Proof.
  destruct (InstanceTable.get (instances opened) 1) as [x|] eqn:Ex; [|vm_compute in Ex; discriminate Ex].
  destruct (bad_cookie_kills_session true opened 1
    (sess_set_id 1 (new_session (replicate 16 6) UserTa (Some 1) 7 Public)) 1 x
    {| rec_va := 0; rec_blob := []; rec_load := 0x50000000 |} 0x4000 0 16 In_ (drop 1 none_params) 2 9 0 opened_ok)
    as (k' & H1 & _ & H2);
    [vm_compute; reflexivity|vm_compute; reflexivity|vm_compute; reflexivity|reflexivity|reflexivity|reflexivity
    |exact Ex|vm_compute in Ex; by injection Ex as <-|vm_compute in Ex; by injection Ex as <-
    |reflexivity|reflexivity|].
  exists k'. split; [exact H1|]. apply H2.
Defined.

Lemma close_session_effect_witness :
  exists k', handle true opened (CloseSession 1) = KRet closed_out k' /\
    SessionTable.get (sessions k') 1 = None /\ InstanceTable.get (instances k') 1 = None.
Proof.
  destruct (InstanceTable.get (instances opened) 1) as [x|] eqn:Ex; [|vm_compute in Ex; discriminate Ex].
  destruct (handle true opened (CloseSession 1)) as [o k'|k'] eqn:E; [|vm_compute in E; discriminate E].
  destruct (close_session_effect true opened 1
    (sess_set_id 1 (new_session (replicate 16 6) UserTa (Some 1) 7 Public)) 1 x o k' opened_ok)
    as (-> & H1 & H2 & _);
    [vm_compute; reflexivity|vm_compute; reflexivity|reflexivity|reflexivity|exact Ex
    |vm_compute in Ex; by injection Ex as <-|exact E|].
  exists k'. split; [done|]. rewrite H1, H2. vm_compute in Ex. injection Ex as <-. done.
Defined.

(** An open the TA refuses. *)
Definition refused_cmd : KernelCmd := OpenSession multi_uuid Public [PValue 0 0 In_; PNone; PNone; PNone] 9 0.

(** A refused open keeps its instance: when a TA's open-session entry
    returns an error, the instance created for it stays, live and without a
    session, and nothing ever closes it; sixteen refused opens fill the table
    and every TA that needs a new instance is then refused with
    [TEE_ERROR_OUT_OF_MEMORY]. *)
Theorem refused_opens_fill_instances :
  exists k, run true kernel (replicate 16 refused_cmd) = Some k /\
    SessionTable.view (sessions k) = ∅ /\
    Forall (fun s => exists x, s = Some x /\ inst_state x = Live /\ session_count x = 0) (slots (instances k)) /\
    exists k', handle true k open_cmd = KRet (done_err TEE_ERROR_OUT_OF_MEMORY) k'.
Proof.
  eexists. split; [vm_compute; reflexivity|]. split; [vm_compute; reflexivity|]. split.
  - repeat (constructor; [eexists; split; [reflexivity|split; reflexivity]|]). constructor.
  - eexists. vm_compute. reflexivity.
Qed.
