(* ===== verification/KernelHal.v ===== *)
(** What a kernel call does to the HAL, and what it can answer
    (src/crates/rustee-os/src/lib.rs): every change of the HAL is one the HAL's
    own methods or TA code made, and an RPC the kernel asks for is LOAD_TA. *)
From Stdlib Require Import ZArith Lia.
From stdpp Require Import base list gmap numbers.
From S2P Require Import Prelude Abi Header Iface Tables Elf Kernel.

Local Open Scope Z_scope.

(** The state a call into foreign code leaves. *)
Definition left_state {T A} (o : call_out T A) : T :=
  match o with Returned _ s => s | Panicked s => s end.

(** TA code changes the HAL only within [R]. *)
Class TaConfined {H} (T : TaCode H) (R : H -> H -> Prop) := {
  conf_create e h : R h (left_state (ta_create e h));
  conf_destroy e h : R h (left_state (ta_destroy e h));
  conf_open e t ps h : R h (left_state (ta_open_session e t ps h));
  conf_close e c h : R h (left_state (ta_close_session e c h));
  conf_invoke e c cmd t ps h : R h (left_state (ta_invoke e c cmd t ps h)) }.

(** The HAL's own methods change it only within [R]. *)
Class HalConfined {H AS} (O : HalOps H AS) (R : H -> H -> Prop) := {
  conf_new h : R h (new_address_space h).2;
  conf_sync_in h c r h' : shm_sync_in h c = Some (r, h') -> R h h';
  conf_sync_out h c r h' : shm_sync_out h c = Some (r, h') -> R h h' }.

Section HalFrame.
Context {H AS PTA : Type} {O : HalOps H AS} `{!CryptoProvider} `{!PtaOps PTA} {T : TaCode H}.
Context (R : H -> H -> Prop) `{!PreOrder R} `{!TaConfined T R} `{!HalConfined O R}.
Context (aarch64 : bool).
Abbreviation K := (Kernel H AS PTA).
Implicit Types k : K.

(** The kernel after a call: its HAL changed within [R]. *)
Definition hal_moves {A} k (o : kres (H:=H) (AS:=AS) (PTA:=PTA) A) : Prop :=
  match o with KRet _ k' => R (hal k) (hal k') | KPanic k' => R (hal k) (hal k') end.

Lemma hal_moves_from {A} k k1 (o : kres A) : R (hal k) (hal k1) -> hal_moves k1 o -> hal_moves k o.
Proof. intros Hr. destruct o; cbn; intros; by etrans. Qed.

Lemma call_ta_hal {A} k i (f : H -> call_out H A) :
  (forall h, R h (left_state (f h))) -> hal_moves k (call_ta k i f).
Proof.
  intros Hf. unfold call_ta. cbn [hal set_current_instance]. specialize (Hf (hal k)).
  by destruct (f (hal k)).
Qed.

(** The HAL after the mapping loop. *)
Definition map_hal (o : map_out (H:=H) (AS:=AS)) : H :=
  match o with MapOk _ _ h _ => h | MapShort h _ => h | MapFail h => h end.

Lemma map_param_hal h asp p : R h (map_hal (map_param h asp p)).
Proof.
  destruct p as [| |[ck offs|va] size dir]; cbn [map_param map_hal]; try reflexivity.
  unfold map_memref, map_sync_in. case_bool_decide.
  - destruct (shm_sync_in h ck) as [[[e|[]] h']|] eqn:E; cbn [map_hal]; [by eapply conf_sync_in| |reflexivity].
    apply conf_sync_in in E. destruct (shm_len h' ck); [|done]. destruct (_ <? _); [done|].
    by destruct (shm_map_into h' ck asp _) as [[[]]|].
  - destruct (shm_len h ck); [|reflexivity]. destruct (_ <? _); [reflexivity|].
    by destruct (shm_map_into h ck asp _) as [[[]]|].
Qed.

Lemma map_loop_hal ps h asp : R h (map_hal (map_loop ps h asp)).
Proof.
  revert h asp. induction ps as [|p ps IH]; intros h asp; cbn [map_loop]; [reflexivity|].
  pose proof (map_param_hal h asp p) as Hp. destruct (map_param h asp p) as [raw vas h1 asp1| |]; [|done..].
  cbn [map_hal] in Hp. specialize (IH h1 asp1). destruct (map_loop ps h1 asp1); cbn [map_hal] in *; by etrans.
Qed.

Lemma map_params_hal k i ps r k' : map_params k i ps = (r, k') -> R (hal k) (hal k').
Proof.
  unfold map_params. destruct (_ ≫= _) as [asp|]; [|by intros [= _ <-]].
  pose proof (map_loop_hal ps (hal k) asp) as Hm. change (hal (put_aspace k i None)) with (hal k).
  destruct (map_loop ps (hal k) asp); intros [= _ <-]; exact Hm.
Qed.

Lemma unmap_params_hal ps vas k i : R (hal k) (hal (unmap_params k i ps vas)).
Proof.
  revert vas k. induction ps as [|p ps IH]; intros vas k; [done|]. destruct vas as [|va vas]; [done|].
  cbn [unmap_params]. etrans; [|apply IH].
  destruct p as [| |[ck offs|x] size dir]; cbn [unmap_param]; try done.
  case_bool_decide; [|by destruct va].
  destruct (shm_sync_out (hal k) ck) as [[r h']|] eqn:E; [|by destruct va].
  apply conf_sync_out in E. by destruct va.
Qed.

Lemma bind_record_hal k i u l ps ctx : hal (bind_record k i u l ps ctx).2 = hal k.
Proof. unfold bind_record. by destruct (SessionTable.alloc _ _) as [[s|] st]. Qed.

Lemma bind_unlock_hal k i u l ps : hal_moves k (bind_unlock k i u l ps).
Proof.
  unfold bind_unlock, bind_session. destruct (entries_of k i) as [ep|].
  - destruct (map_params k i ps) as [[e|[raw vas]] k1] eqn:Em; apply map_params_hal in Em; [done|].
    pose proof (call_ta_hal k1 i (ta_open_session (ep_open_session ep) (param_types_of ps) raw)
      (conf_open _ _ _)) as Hc.
    destruct (call_ta _ _ _) as [[[code raw'] ctx] k2|k2]; cbn [hal_moves] in Hc; [|cbn [hal_moves]; by etrans].
    pose proof (unmap_params_hal (params_from_raw ps raw') vas k2 i) as Hu.
    destruct (negb _); [cbn; by do 2 (etrans; [done|])|].
    pose proof (bind_record_hal (unmap_params k2 i (params_from_raw ps raw') vas) i u l (params_from_raw ps raw') ctx)
      as Hb. destruct (bind_record _ _ _ _ _ _) as [o k3]. cbn in *. rewrite Hb. by do 2 (etrans; [done|]).
  - pose proof (bind_record_hal k i u l ps 0) as Hb. destruct (bind_record _ _ _ _ _ _) as [o k3].
    cbn in *. by rewrite Hb.
Qed.

Lemma lock_instance_hal k i : hal (lock_instance k i).2 = hal k.
Proof. unfold lock_instance. destruct (InstanceTable.get _ _) as [x|]; [by destruct (busy x)|done]. Qed.

Lemma instantiate_hal k p u l ps eps asp : hal_moves k (instantiate_and_bind k p u l ps eps asp).
Proof.
  unfold instantiate_and_bind. destruct (negb _); [by cbn|].
  assert (R (hal k) (hal (take_aspace k asp).2)) as Ht.
  { unfold take_aspace. destruct asp; [done|]. pose proof (conf_new (hal k)) as Hn.
    by destruct (new_address_space (hal k)). }
  destruct (take_aspace k asp) as [a k1]. destruct (InstanceTable.alloc _ _) as [[i|] it]; [|done].
  pose proof (lock_instance_hal (set_instances k1 it) i) as Hl.
  destruct (lock_instance _ i) as [e k2]. cbn [snd hal set_instances] in Hl, Ht.
  apply (hal_moves_from k k2); [by rewrite Hl|]. destruct e as [e|]; [by cbn|].
  destruct eps as [ep|]; [|apply bind_unlock_hal].
  pose proof (call_ta_hal k2 i (ta_create (ep_create ep)) (conf_create _)) as Hc.
  destruct (call_ta _ _ _) as [code k3|k3]; [|done]. destruct (negb _); [done|].
  eapply hal_moves_from; [exact Hc|]. apply bind_unlock_hal.
Qed.

Lemma open_hal k u l ps c t : hal_moves k (open k u l ps c t).
Proof.
  unfold open. destruct (cancelled k c) eqn:Ec; [by cbn|]. destruct (PtaRegistry.get _ _) as [pta|].
  { destruct (pta_open _ _) as [[[e|ctx] ps'] p|p]; [by cbn| |by cbn].
    by destruct (SessionTable.alloc _ _) as [[sid|] st]; cbn. }
  unfold open_user_ta. rewrite Ec. destruct (InstanceTable.live_single _ _) as [i|].
  - destruct (InstanceTable.get _ _) as [x|]; [|by cbn]. destruct (_ && _); [by cbn|].
    pose proof (lock_instance_hal k i) as Hl. destruct (lock_instance k i) as [[e|] k1]; cbn [snd] in Hl.
    + cbn. by rewrite Hl.
    + apply (hal_moves_from k k1); [by rewrite Hl|]. apply bind_unlock_hal.
  - destruct (EarlyTas.get _ _); [apply instantiate_hal|]. by case_bool_decide; cbn.
Qed.

Lemma invoke_hal k s cmd ps c : hal_moves k (invoke k s cmd ps c).
Proof.
  unfold invoke. destruct (cancelled k c); [by cbn|]. destruct (SessionTable.get _ _) as [sess|]; [|by cbn].
  case_bool_decide; [by cbn|]. destruct (kind sess); [|destruct (PtaRegistry.get _ _) as [pta|]; [|by cbn]; by destruct (pta_invoke _ _ _ _) as [[]|]; cbn].
  - destruct (instance sess) as [i|]; [|by cbn]. pose proof (lock_instance_hal k i) as Hl.
    destruct (lock_instance k i) as [[e|] k1]; cbn [snd] in Hl; [cbn; by rewrite Hl|].
    apply (hal_moves_from k k1); [by rewrite Hl|]. unfold invoke_locked.
    destruct (map_params _ i ps) as [[e|[raw vas]] k2] eqn:Em; apply map_params_hal in Em; [done|].
    set (call := match entries_of k2 i with Some _ => _ | None => _ end).
    assert (R (hal k2) (left_state call)) as Hc.
    { unfold call. destruct (entries_of k2 i); [apply conf_invoke|done]. }
    destruct call as [[code raw'] h|h]; cbn [left_state] in Hc; [|cbn; by etrans].
    pose proof (unmap_params_hal (params_from_raw ps raw') vas (set_hal k2 h) i) as Hu.
    cbn. by do 2 (etrans; [done|]).
Qed.

Lemma close_hal k s : hal_moves k (close k s).
Proof.
  unfold close. destruct (SessionTable.take _ _) as [[sess|] st]; [|by cbn]. destruct (kind sess); [|destruct (PtaRegistry.get _ _) as [pta|]; [|by cbn]; by destruct (pta_close _ _); cbn].
  - destruct (instance sess) as [i|]; [|by cbn]. pose proof (lock_instance_hal (set_sessions k st) i) as Hl.
    destruct (lock_instance _ i) as [[e|] k1]; cbn [snd hal set_sessions] in Hl; [cbn; by rewrite Hl|].
    apply (hal_moves_from k k1); [by rewrite Hl|].
    assert (forall k2 : K, hal_moves k2 (let '(d, k3) := close_count k2 i in
      if d : bool then close_destroy k3 i else KRet closed_out (unlock_instance k3 i))) as Haft.
    { intros k2. assert (hal (close_count k2 i).2 = hal k2) as Hcc.
      { unfold close_count. by destruct (InstanceTable.get _ _). }
      destruct (close_count k2 i) as [d k3]. cbn [snd] in Hcc. destruct d; [|by cbn; rewrite Hcc].
      apply (hal_moves_from k2 k3); [by rewrite Hcc|]. unfold close_destroy.
      destruct (entries_of k3 i) as [ep|]; [|by cbn].
      pose proof (call_ta_hal k3 i (ta_destroy (ep_destroy ep)) (conf_destroy _)) as Hc.
      by destruct (call_ta _ _ _). }
    unfold close_locked. destruct (entries_of k1 i) as [ep|]; [|apply Haft].
    pose proof (call_ta_hal k1 i (ta_close_session (ep_close_session ep) (ta_sess_ctx sess)) (conf_close _ _)) as Hc.
    destruct (call_ta _ _ _) as [[] k2|k2]; [|done]. eapply hal_moves_from; [exact Hc|]. apply Haft.
Qed.

Lemma handle_hal k cmd : hal_moves k (handle aarch64 k cmd).
Proof.
  unfold handle. destruct (negb _); [by cbn|].
  destruct cmd as [u l ps c t|s cmd ps c t|s|c|resp]; [apply open_hal|apply invoke_hal|apply close_hal|by cbn|].
  unfold rpc_complete. destruct (yielding k) as [y|]; [|by cbn].
  destruct resp as [bs| | | |code]; try by cbn. unfold load_and_bind.
  destruct (cancelled _ _); [by cbn|]. destruct (load_image bs) as [ld| |]; [|by cbn..].
  destruct (negb _); [by cbn|]. pose proof (conf_new (hal k)) as Hn. cbn [hal set_yielding].
  destruct (new_address_space (hal k)) as [asp h]. cbn [snd] in Hn.
  destruct (map_elf _ _ _) as [[eps| |] asp']; [|done..].
  eapply hal_moves_from; [|apply instantiate_hal]. exact Hn.
Qed.
End HalFrame.

Section Answers.
Context {H AS PTA : Type} {O : HalOps H AS} `{!CryptoProvider} `{!PtaOps PTA} {T : TaCode H}.
Context (aarch64 : bool).
Abbreviation K := (Kernel H AS PTA).
Implicit Types k : K.

(** A result, or a request for an image. *)
Definition answer_ok (o : kres (H:=H) (AS:=AS) (PTA:=PTA) KernelOut) : Prop :=
  match o with KRet (Rpc r) _ => exists u, r = RpcLoadTa u | _ => True end.

Lemma bind_unlock_answer k i u l ps : answer_ok (bind_unlock k i u l ps).
Proof.
  assert (forall (q : K) ps ctx r q', bind_record q i u l ps ctx <> (Rpc r, q')) as Hr.
  { intros. unfold bind_record. by destruct (SessionTable.alloc _ _) as [[s|] st]. }
  unfold bind_unlock, bind_session. destruct (entries_of k i) as [ep|].
  - destruct (map_params k i ps) as [[e|[raw vas]] k1]; [done|].
    destruct (call_ta _ _ _) as [[[code raw'] ctx] k2|k2]; [|done]. destruct (negb _); [done|].
    destruct (bind_record _ _ _ _ _ _) as [[|r] k3] eqn:E; [done|by apply Hr in E].
  - destruct (bind_record _ _ _ _ _ _) as [[|r] k3] eqn:E; [done|by apply Hr in E].
Qed.

Lemma instantiate_answer k p u l ps eps asp : answer_ok (instantiate_and_bind k p u l ps eps asp).
Proof.
  unfold instantiate_and_bind. destruct (negb _); [done|]. destruct (take_aspace k asp) as [a k1].
  destruct (InstanceTable.alloc _ _) as [[i|] it]; [|done]. destruct (lock_instance _ i) as [[e|] k2]; [done|].
  destruct eps as [ep|]; [|apply bind_unlock_answer]. destruct (call_ta _ _ _) as [code k3|k3]; [|done].
  destruct (negb _); [done|apply bind_unlock_answer].
Qed.

Lemma close_locked_answer k sess i : answer_ok (close_locked k sess i).
Proof.
  assert (forall k2 : K, answer_ok (let '(d, k3) := close_count k2 i in
    if d : bool then close_destroy k3 i else KRet closed_out (unlock_instance k3 i))) as Haft.
  { intros k2. destruct (close_count k2 i) as [[] k3]; [|done]. unfold close_destroy.
    destruct (entries_of k3 i); [|done]. by destruct (call_ta _ _ _). }
  unfold close_locked. destruct (entries_of k i); [|apply Haft]. destruct (call_ta _ _ _); [apply Haft|done].
Qed.

Lemma handle_answer k cmd : answer_ok (handle aarch64 k cmd).
Proof.
  unfold handle. destruct (negb _); [done|]. destruct cmd as [u l ps c t|s cmd ps c t|s|c|resp].
  - unfold open. destruct (cancelled k c) eqn:Ec; [done|]. destruct (PtaRegistry.get _ _) as [pta|].
    { destruct (pta_open _ _) as [[[e|ctx] ps'] p|p]; [done| |done].
      by destruct (SessionTable.alloc _ _) as [[sid|] st]. }
    unfold open_user_ta. rewrite Ec. destruct (InstanceTable.live_single _ _) as [i|].
    + destruct (InstanceTable.get _ _) as [x|]; [|done]. destruct (_ && _); [done|].
      destruct (lock_instance k i) as [[e|] k1]; [done|apply bind_unlock_answer].
    + destruct (EarlyTas.get _ _); [apply instantiate_answer|]. case_bool_decide; [done|by eexists].
  - unfold invoke. destruct (cancelled k c); [done|]. destruct (SessionTable.get _ _) as [sess|]; [|done].
    case_bool_decide; [done|]. destruct (kind sess).
    + destruct (instance sess) as [i|]; [|done]. destruct (lock_instance k i) as [[e|] k1]; [done|].
      unfold invoke_locked. destruct (map_params _ _ _) as [[e|[raw vas]] k2]; [done|].
      by destruct (match entries_of k2 i with Some _ => _ | None => _ end) as [[]|].
    + destruct (PtaRegistry.get _ _); [|done]. by destruct (pta_invoke _ _ _ _) as [[]|].
  - unfold close. destruct (SessionTable.take _ _) as [[sess|] st]; [|done]. destruct (kind sess).
    + destruct (instance sess) as [i|]; [|done]. destruct (lock_instance _ i) as [[e|] k1]; [done|].
      apply close_locked_answer.
    + destruct (PtaRegistry.get _ _); [|done]. by destruct (pta_close _ _).
  - done.
  - unfold rpc_complete. destruct (yielding k) as [y|]; [|done]. destruct resp as [bs| | | |code]; try done.
    unfold load_and_bind. destruct (cancelled _ _); [done|]. destruct (load_image bs) as [ld| |]; [|done..].
    destruct (negb _); [done|]. destruct (new_address_space _) as [asp h].
    destruct (map_elf _ _ _) as [[eps| |] asp']; [apply instantiate_answer|done..].
Qed.
End Answers.
