(* ===== verification/HalVirt.v ===== *)
(** The virt isolation HAL (src/crates/rustee-hal-virt/src/lib.rs, vsock.rs,
    rng.rs): the PDU stream over virtio-vsock, the call gate, the bounce pool,
    shared-memory objects, TA address spaces and the entropy source.  [VirtHal]
    implements the kernel's HAL interface ([virt_hal]).

    [PduHeader] and [CallFrame] of this crate have the fields and layout of
    rustee-proto's, whose records are used.  Where [map_image] puts a TA image
    is the allocator's choice, the parameter [image_addr]. *)
From Stdlib Require Import ZArith Lia.
From stdpp Require Import base list numbers.
From S2P Require Import Prelude Proto Abi Iface.

Local Open Scope Z_scope.
Local Open Scope rust_scope.

(** * Frames and headers *)

Definition VirtPdu_decode (b : list u8) : res HalError PduHeader :=
  if zlen b <? PDU_HDR_LEN then Err Fault else
  let k := le32 b 0 in
  if negb (kind_known k) then Err InvalidParam else
  Ok {| pdu_kind := k; pdu_seq := le32 b 4; pdu_arg_len := le32 b 8; pdu_bounce_len := le32 b 12 |}.

Definition VirtPdu_encode (h : PduHeader) : list u8 := PduHeader_encode h.

Definition encode_frame (f : CallFrame) : list u8 := put_words (zeros CALL_FRAME_LEN) 0 (cf_r f).

Definition decode_frame (b : list u8) : res HalError CallFrame :=
  if zlen b <? CALL_FRAME_LEN then Err Fault
  else Ok {| cf_r := map (fun i => le64 b (i * 8)) [0; 1; 2; 3; 4; 5; 6; 7] |}.

(** rustee-hal's [cookie_a1a2] and [set_cookie_a1a2]: register 1 holds the high
    half, register 2 the low half. *)
Definition cookie_a1a2 (f : CallFrame) : u64 :=
  Z.lor (wrap 64 (Z.shiftl (Z.land (reg f 1) 0xffffffff) 32)) (Z.land (reg f 2) 0xffffffff).
Definition set_cookie_a1a2 (f : CallFrame) (c : u64) : CallFrame :=
  set_reg (set_reg f 1 (Z.shiftr c 32)) 2 (Z.land c 0xffffffff).

(** * virtio-vsock *)

Definition VIRTIO_VSOCK_TYPE_STREAM : u16 := 1.
Definition VIRTIO_VSOCK_OP_REQUEST : u16 := 1.
Definition VIRTIO_VSOCK_OP_RESPONSE : u16 := 2.
Definition VIRTIO_VSOCK_OP_RW : u16 := 5.
Definition VIRTIO_VSOCK_OP_CREDIT_UPDATE : u16 := 6.
Definition VIRTIO_VSOCK_OP_CREDIT_REQUEST : u16 := 7.
Definition VIRTIO_VSOCK_HDR_LEN : usize := 44.
Definition VSOCK_BUF_ALLOC : u32 := 256 * 1024.

Record VirtioVsockHdr := {
  src_cid : u64; dst_cid : u64; src_port : u32; dst_port : u32; vh_len : u32;
  ty : u16; op : u16; flags : u32; buf_alloc : u32; fwd_cnt : u32 }.

Definition VirtioVsockHdr_encode (h : VirtioVsockHdr) : list u8 :=
  let b := zeros VIRTIO_VSOCK_HDR_LEN in
  let b := splice b 0 (to_le 8 (src_cid h)) in
  let b := splice b 8 (to_le 8 (dst_cid h)) in
  let b := splice b 16 (to_le 4 (src_port h)) in
  let b := splice b 20 (to_le 4 (dst_port h)) in
  let b := splice b 24 (to_le 4 (vh_len h)) in
  let b := splice b 28 (to_le 2 (ty h)) in
  let b := splice b 30 (to_le 2 (op h)) in
  let b := splice b 32 (to_le 4 (flags h)) in
  let b := splice b 36 (to_le 4 (buf_alloc h)) in
  splice b 40 (to_le 4 (fwd_cnt h)).

Definition VirtioVsockHdr_decode (b : list u8) : res HalError VirtioVsockHdr :=
  if zlen b <? VIRTIO_VSOCK_HDR_LEN then Err Fault else
  Ok {| src_cid := le64 b 0; dst_cid := le64 b 8; src_port := le32 b 16; dst_port := le32 b 20;
        vh_len := le32 b 24; ty := le16 b 28; op := le16 b 30; flags := le32 b 32;
        buf_alloc := le32 b 36; fwd_cnt := le32 b 40 |}.

Record VsockListener := { l_cid : u32; l_port : u32; listening : bool }.
Definition VsockListener_default : VsockListener :=
  {| l_cid := VSOCK_GUEST_CID; l_port := VSOCK_PORT; listening := false |}.
Definition listen (l : VsockListener) : VsockListener :=
  {| l_cid := l_cid l; l_port := l_port l; listening := true |}.

Definition accept (l : VsockListener) (req : VirtioVsockHdr) : res HalError VirtioVsockHdr :=
  if negb (listening l) then Err Busy else
  if negb (op req =? VIRTIO_VSOCK_OP_REQUEST) || negb (ty req =? VIRTIO_VSOCK_TYPE_STREAM)
     || negb (dst_cid req =? l_cid l) || negb (dst_port req =? l_port l)
  then Err InvalidParam else
  Ok {| src_cid := l_cid l; dst_cid := src_cid req; src_port := l_port l; dst_port := src_port req;
        vh_len := 0; ty := VIRTIO_VSOCK_TYPE_STREAM; op := VIRTIO_VSOCK_OP_RESPONSE; flags := 0;
        buf_alloc := VSOCK_BUF_ALLOC; fwd_cnt := 0 |}.

Record VsockConn := {
  guest_cid : u64; guest_port : u32; host_cid : u64; host_port : u32;
  conn_fwd_cnt : u32; conn_rx : list u8 }.

Definition from_accept (req : VirtioVsockHdr) (l : VsockListener) : VsockConn :=
  {| guest_cid := l_cid l; guest_port := l_port l; host_cid := src_cid req; host_port := src_port req;
     conn_fwd_cnt := 0; conn_rx := [] |}.

Definition conn_with (c : VsockConn) (fwd : u32) (rx : list u8) : VsockConn :=
  {| guest_cid := guest_cid c; guest_port := guest_port c; host_cid := host_cid c;
     host_port := host_port c; conn_fwd_cnt := fwd; conn_rx := rx |}.

Definition push_rw (c : VsockConn) (hdr : VirtioVsockHdr) (payload : list u8) : res HalError VsockConn :=
  if negb (op hdr =? VIRTIO_VSOCK_OP_RW) || negb (dst_cid hdr =? guest_cid c)
     || negb (dst_port hdr =? guest_port c) || negb (src_cid hdr =? host_cid c)
     || negb (zlen payload =? vh_len hdr)
  then Err InvalidParam else
  Ok (conn_with c (wrapping_add 32 (conn_fwd_cnt c) (vh_len hdr)) (conn_rx c ++ payload)).

(** [recv_exact(&mut buf)] with [buf.len() = n]: the bytes and the rest. *)
Definition recv_exact (c : VsockConn) (n : usize) : res HalError (list u8 * VsockConn) :=
  if zlen (conn_rx c) <? n then Err NotFound else
  Ok (sub (conn_rx c) 0 n, conn_with c (conn_fwd_cnt c) (drop (Z.to_nat n) (conn_rx c))).

(** Drains the stream only when a whole PDU is buffered. *)
Definition take_pdu (c : VsockConn) : res HalError (PduHeader * CallFrame * list u8) * VsockConn :=
  if zlen (conn_rx c) <? PDU_HDR_LEN then (Err NotFound, c) else
  match VirtPdu_decode (sub (conn_rx c) 0 PDU_HDR_LEN) with
  | Err e => (Err e, c)
  | Panic => (Panic, c)
  | Ok hdr =>
      if negb (pdu_arg_len hdr =? CALL_FRAME_LEN) then (Err InvalidParam, c) else
      match checked_add 64 (PDU_HDR_LEN + CALL_FRAME_LEN) (pdu_bounce_len hdr) with
      | None => (Err InvalidParam, c)
      | Some total =>
          if zlen (conn_rx c) <? total then (Err NotFound, c) else
          let bs := sub (conn_rx c) 0 total in
          let c := conn_with c (conn_fwd_cnt c) (drop (Z.to_nat total) (conn_rx c)) in
          (let? frame := decode_frame (sub bs PDU_HDR_LEN CALL_FRAME_LEN) in
           Ok (hdr, frame, drop (Z.to_nat (PDU_HDR_LEN + CALL_FRAME_LEN)) bs), c)
      end
  end.
Definition read_pdu (c : VsockConn) := take_pdu c.

Definition encode_pdu (hdr : PduHeader) (frame : CallFrame) (bounce : list u8) : list u8 :=
  VirtPdu_encode hdr ++ encode_frame frame ++ bounce.

Definition wrap_rw (c : VsockConn) (payload : list u8) : VirtioVsockHdr :=
  {| src_cid := guest_cid c; dst_cid := host_cid c; src_port := guest_port c; dst_port := host_port c;
     vh_len := as_u32 (zlen payload); ty := VIRTIO_VSOCK_TYPE_STREAM; op := VIRTIO_VSOCK_OP_RW; flags := 0;
     buf_alloc := VSOCK_BUF_ALLOC; fwd_cnt := conn_fwd_cnt c |}.

Definition conn_credit_update (c : VsockConn) : VirtioVsockHdr :=
  {| src_cid := guest_cid c; dst_cid := host_cid c; src_port := guest_port c; dst_port := host_port c;
     vh_len := 0; ty := VIRTIO_VSOCK_TYPE_STREAM; op := VIRTIO_VSOCK_OP_CREDIT_UPDATE; flags := 0;
     buf_alloc := VSOCK_BUF_ALLOC; fwd_cnt := conn_fwd_cnt c |}.

(** * Entropy *)

Record VirtEntropy := { ent_pool : list u8; ent_req : u32 }.
Definition VirtEntropy_new : VirtEntropy := {| ent_pool := []; ent_req := 1 |}.
Definition ent_complete (e : VirtEntropy) (bs : list u8) : VirtEntropy :=
  {| ent_pool := ent_pool e ++ bs; ent_req := ent_req e |}.

(** The generator of [kick_request]: [n] bytes from the state [s]. *)
Fixpoint lcg_block (n : nat) (s : u32) : list u8 :=
  match n with
  | O => []
  | S n' =>
      let s := wrap 32 (wrap 32 (s * 1664525) + 1013904223) in
      as_u8 (Z.shiftr s 24) :: lcg_block n' s
  end.
Definition kick_request (e : VirtEntropy) (n : usize) : VirtEntropy :=
  let req := wrapping_add 32 (ent_req e) 1 in
  let s := wrap 32 (req * 0x9e3779b9) in
  ent_complete {| ent_pool := ent_pool e; ent_req := req |} (lcg_block (Z.to_nat n) s).

(** [fill(&mut buf)] with [buf.len() = n], [buf] the bytes it held. *)
Definition ent_fill (e : VirtEntropy) (buf : list u8) : list u8 * VirtEntropy :=
  match buf with
  | [] => ([], e)
  | _ =>
      let e := if zlen (ent_pool e) <? zlen buf then kick_request e (Z.max (zlen buf) 32) else e in
      let n := Z.min (zlen buf) (zlen (ent_pool e)) in
      let buf := splice buf 0 (sub (ent_pool e) 0 n) in
      let e := {| ent_pool := drop (Z.to_nat n) (ent_pool e); ent_req := ent_req e |} in
      let buf := if forallb (fun b => b =? 0) buf then <[0%nat := 0xa5]> buf else buf in
      (buf, e)
  end.

(** * The call gate *)

Record VirtCallGate := {
  g_yielding : bool; g_rx : option (PduHeader * CallFrame); g_tx : option (PduHeader * CallFrame);
  g_seq : u32; last_cookie : u64; last_bounce_len : u32 }.

Definition gate_new : VirtCallGate :=
  {| g_yielding := false; g_rx := None; g_tx := None; g_seq := 0; last_cookie := 0; last_bounce_len := 0 |}.

Definition gate_set_rx (g : VirtCallGate) (rx : option (PduHeader * CallFrame)) : VirtCallGate :=
  {| g_yielding := g_yielding g; g_rx := rx; g_tx := g_tx g; g_seq := g_seq g;
     last_cookie := last_cookie g; last_bounce_len := last_bounce_len g |}.

Definition is_frame_of (kind : u32) (hdr : PduHeader) : bool :=
  (pdu_kind hdr =? kind) && (pdu_arg_len hdr =? CALL_FRAME_LEN).

Definition gate_recv (g : VirtCallGate) : res HalError CallFrame * VirtCallGate :=
  if g_yielding g then (Err Busy, g) else
  let g' := gate_set_rx g None in
  match g_rx g with
  | Some (hdr, frame) =>
      if is_frame_of KIND_ENTER hdr
      then (Ok frame, {| g_yielding := g_yielding g; g_rx := None; g_tx := g_tx g; g_seq := pdu_seq hdr;
                         last_cookie := cookie_a1a2 frame; last_bounce_len := pdu_bounce_len hdr |})
      else (Err InvalidParam, g')
  | None => (Err NotFound, g')
  end.

(** The header of an outgoing PDU: the sequence number and window of the call. *)
Definition out_hdr (g : VirtCallGate) (kind : u32) : PduHeader :=
  {| pdu_kind := kind; pdu_seq := g_seq g; pdu_arg_len := CALL_FRAME_LEN; pdu_bounce_len := last_bounce_len g |}.

Definition gate_complete (g : VirtCallGate) (out : CallFrame) : VirtCallGate :=
  {| g_yielding := false; g_rx := None; g_tx := Some (out_hdr g KIND_COMPLETE, out); g_seq := g_seq g;
     last_cookie := last_cookie g; last_bounce_len := last_bounce_len g |}.

Definition gate_rpc_yield (g : VirtCallGate) (out : CallFrame) : res HalError CallFrame * VirtCallGate :=
  let g1 := {| g_yielding := true; g_rx := None; g_tx := Some (out_hdr g KIND_RPC, out); g_seq := g_seq g;
               last_cookie := last_cookie g; last_bounce_len := last_bounce_len g |} in
  match g_rx g with
  | Some (hdr, frame) =>
      if is_frame_of KIND_RPC_REPLY hdr
      then (Ok frame, {| g_yielding := false; g_rx := None; g_tx := g_tx g1; g_seq := g_seq g1;
                         last_cookie := cookie_a1a2 frame; last_bounce_len := pdu_bounce_len hdr |})
      else (Err InvalidParam, g1)
  | None => (Err NotFound, g1)
  end.

(** * Shared memory and address spaces *)

Record VirtShm := { shm_cookie : u64; vshm_len : usize; shm_perms : Perms }.

Record VirtAs := { mapped : usize; as_pool_va : u64; images : list (list u8) }.

Section Virt.
Context (image_addr : list (list u8) -> u64).

Definition virt_map_image (a : VirtAs) (va : u64) (src : list u8) (perms : Perms)
  : (HalError + u64) * VirtAs :=
  if p_exec perms && (zlen src =? 0) then (inl InvalidParam, a) else
  let imgs := images a ++ [src] in
  (inr (image_addr imgs),
   {| mapped := sat_add 64 (mapped a) 1; as_pool_va := as_pool_va a; images := imgs |}).

Definition map_shm (a : VirtAs) (shm : VirtShm) (perms : Perms) : (HalError + u64) * VirtAs :=
  if p_exec perms || p_exec (shm_perms shm) then (inl PermDenied, a) else
  if vshm_len shm =? 0 then (inl InvalidParam, a) else
  let start := shm_cookie shm in
  match checked_add 64 start (vshm_len shm) with
  | None => (inl InvalidParam, a)
  | Some e =>
      if BOUNCE_POOL_SIZE <? e then (inl InvalidParam, a) else
      (inr (wrapping_add 64 (as_pool_va a) start),
       {| mapped := sat_add 64 (mapped a) 1; as_pool_va := as_pool_va a; images := images a |})
  end.

Definition virt_unmap (a : VirtAs) (va : u64) : VirtAs :=
  {| mapped := sat_sub (mapped a) 1; as_pool_va := as_pool_va a; images := images a |}.

Definition virt_drop_all (a : VirtAs) : VirtAs :=
  {| mapped := 0; as_pool_va := as_pool_va a; images := [] |}.

(** * The HAL *)

Record VirtHal := {
  gate : VirtCallGate; bounce_len : usize; bounce_mem : list u8; pool_va : u64;
  entropy : VirtEntropy; shms : list (option VirtShm); listener : VsockListener;
  conn : option VsockConn; enter_cookie : u64; enter_bounce_len : u32 }.

(** [Hal::init] with the boot information [VirtHal::new] passes; [va] is where
    the pool was allocated. *)
Definition VirtHal_init (va : u64) : VirtHal :=
  {| gate := gate_new; bounce_len := BOUNCE_POOL_SIZE; bounce_mem := zeros BOUNCE_POOL_SIZE; pool_va := va;
     entropy := VirtEntropy_new; shms := replicate 32 None; listener := listen VsockListener_default;
     conn := None; enter_cookie := 0; enter_bounce_len := 0 |}.

Definition set_gate (h : VirtHal) (g : VirtCallGate) : VirtHal :=
  {| gate := g; bounce_len := bounce_len h; bounce_mem := bounce_mem h; pool_va := pool_va h;
     entropy := entropy h; shms := shms h; listener := listener h; conn := conn h;
     enter_cookie := enter_cookie h; enter_bounce_len := enter_bounce_len h |}.
Definition set_mem (h : VirtHal) (m : list u8) : VirtHal :=
  {| gate := gate h; bounce_len := bounce_len h; bounce_mem := m; pool_va := pool_va h;
     entropy := entropy h; shms := shms h; listener := listener h; conn := conn h;
     enter_cookie := enter_cookie h; enter_bounce_len := enter_bounce_len h |}.
Definition set_shms (h : VirtHal) (s : list (option VirtShm)) : VirtHal :=
  {| gate := gate h; bounce_len := bounce_len h; bounce_mem := bounce_mem h; pool_va := pool_va h;
     entropy := entropy h; shms := s; listener := listener h; conn := conn h;
     enter_cookie := enter_cookie h; enter_bounce_len := enter_bounce_len h |}.
Definition set_conn (h : VirtHal) (c : option VsockConn) : VirtHal :=
  {| gate := gate h; bounce_len := bounce_len h; bounce_mem := bounce_mem h; pool_va := pool_va h;
     entropy := entropy h; shms := shms h; listener := listener h; conn := c;
     enter_cookie := enter_cookie h; enter_bounce_len := enter_bounce_len h |}.
Definition set_enter (h : VirtHal) (c : u64) (l : u32) : VirtHal :=
  {| gate := gate h; bounce_len := bounce_len h; bounce_mem := bounce_mem h; pool_va := pool_va h;
     entropy := entropy h; shms := shms h; listener := listener h; conn := conn h;
     enter_cookie := c; enter_bounce_len := l |}.

Definition copy_bounce_in (h : VirtHal) (ck : u64) (bounce : list u8) : res HalError VirtHal :=
  let start := ck in
  let? e := ok_or (checked_add 64 start (zlen bounce)) InvalidParam in
  if bounce_len h <? e then Err InvalidParam else
  let? _ := index_range (bounce_mem h) start e in
  Ok (set_mem h (splice (bounce_mem h) start bounce)).

Definition feed_pdu (h : VirtHal) (hdr : PduHeader) (frame : CallFrame) (bounce : list u8)
  : res HalError VirtHal :=
  if negb (pdu_arg_len hdr =? CALL_FRAME_LEN) then Err InvalidParam else
  if negb (zlen bounce =? pdu_bounce_len hdr) then Err InvalidParam else
  let? h := copy_bounce_in h (cookie_a1a2 frame) bounce in
  Ok (set_gate h (gate_set_rx (gate h) (Some (hdr, frame)))).

Definition gate_take_tx (g : VirtCallGate) : VirtCallGate :=
  {| g_yielding := g_yielding g; g_rx := g_rx g; g_tx := None; g_seq := g_seq g;
     last_cookie := last_cookie g; last_bounce_len := last_bounce_len g |}.

(** [None]: nothing queued. *)
Definition take_tx (h : VirtHal) : res HalError (option (PduHeader * CallFrame * list u8) * VirtHal) :=
  match g_tx (gate h) with
  | None => Ok (None, h)
  | Some (hdr, frame) =>
      let h := set_gate h (gate_take_tx (gate h)) in
      let start := last_cookie (gate h) in
      let len := pdu_bounce_len hdr in
      let? e := uadd start len in
      let bounce := if e <=? zlen (bounce_mem h) then sub (bounce_mem h) start len else [] in
      Ok (Some (hdr, frame, bounce), h)
  end.

Definition bounce_at (h : VirtHal) (ck : u64) (len : usize) : option (list u8) :=
  match checked_add 64 ck len with
  | None => None
  | Some e => get_range (bounce_mem h) ck e
  end.

(** Re-import of a known cookie updates its object in place. *)
Fixpoint reimport (l : list (option VirtShm)) (offset : u64) (len : usize) (perms : Perms)
  : option (list (option VirtShm)) :=
  match l with
  | [] => None
  | Some s :: l' =>
      if shm_cookie s =? offset
      then Some (Some {| shm_cookie := shm_cookie s; vshm_len := len; shm_perms := perms |} :: l')
      else option_map (cons (Some s)) (reimport l' offset len perms)
  | None :: l' => option_map (cons None) (reimport l' offset len perms)
  end.

Fixpoint add_shm (l : list (option VirtShm)) (s : VirtShm) : option (list (option VirtShm)) :=
  match l with
  | [] => None
  | None :: l' => Some (Some s :: l')
  | Some x :: l' => option_map (cons (Some x)) (add_shm l' s)
  end.

Definition import_shm (h : VirtHal) (offset : u64) (len : usize) (perms : Perms) : res HalError VirtHal :=
  if p_exec perms then Err PermDenied else
  let? e := uadd offset len in
  if bounce_len h <? e then Err InvalidParam else
  if negb (offset mod MSG_ARG_ALIGN =? 0) then Err BadAlignment else
  match reimport (shms h) offset len perms with
  | Some l => Ok (set_shms h l)
  | None =>
      let? l := ok_or (add_shm (shms h) {| shm_cookie := offset; vshm_len := len; shm_perms := perms |}) NoMemory in
      Ok (set_shms h l)
  end.

Definition listen_vsock (h : VirtHal) : VirtHal :=
  {| gate := gate h; bounce_len := bounce_len h; bounce_mem := bounce_mem h; pool_va := pool_va h;
     entropy := entropy h; shms := shms h; listener := listen (listener h); conn := conn h;
     enter_cookie := enter_cookie h; enter_bounce_len := enter_bounce_len h |}.

Definition vsock_bound (h : VirtHal) : option (u32 * u32) :=
  if listening (listener h) then Some (l_cid (listener h), l_port (listener h)) else None.

Definition feed_rng (h : VirtHal) (bs : list u8) : VirtHal :=
  {| gate := gate h; bounce_len := bounce_len h; bounce_mem := bounce_mem h; pool_va := pool_va h;
     entropy := ent_complete (entropy h) bs; shms := shms h; listener := listener h; conn := conn h;
     enter_cookie := enter_cookie h; enter_bounce_len := enter_bounce_len h |}.

Definition accept_connect (h : VirtHal) (req : VirtioVsockHdr) : res HalError (VirtioVsockHdr * VirtHal) :=
  let? resp := accept (listener h) req in
  Ok (resp, set_conn h (Some (from_accept req (listener h)))).

Definition push_host_rw (h : VirtHal) (hdr : VirtioVsockHdr) (payload : list u8) : res HalError VirtHal :=
  let? c := ok_or (conn h) NotFound in
  let? c := push_rw c hdr payload in
  Ok (set_conn h (Some c)).

(** The PDU at the head of the stream, and the HAL with it drained. *)
Definition next_pdu (h : VirtHal) : res HalError (PduHeader * CallFrame * list u8) * VirtHal :=
  match conn h with
  | None => (Err NotFound, h)
  | Some c => let '(r, c) := read_pdu c in (r, set_conn h (Some c))
  end.

Definition recv_enter (h : VirtHal) : res HalError CallFrame * VirtHal :=
  match next_pdu h with
  | (Err e, h) => (Err e, h)
  | (Panic, h) => (Panic, h)
  | (Ok (hdr, frame, bounce), h) =>
      match feed_pdu h hdr frame bounce with
      | Err e => (Err e, h)
      | Panic => (Panic, h)
      | Ok h => let '(r, g) := gate_recv (gate h) in (r, set_gate h g)
      end
  end.

Definition gate_set_window (g : VirtCallGate) (y : bool) (rx : option (PduHeader * CallFrame))
  (ck : u64) (len : u32) : VirtCallGate :=
  {| g_yielding := y; g_rx := rx; g_tx := g_tx g; g_seq := g_seq g;
     last_cookie := ck; last_bounce_len := len |}.

Definition set_rpc_window (h : VirtHal) (ck : u64) (len : u32) : VirtHal :=
  let h := set_enter h (last_cookie (gate h)) (last_bounce_len (gate h)) in
  set_gate h (gate_set_window (gate h) (g_yielding (gate h)) (g_rx (gate h)) ck len).

Definition recv_rpc_reply (h : VirtHal) : res HalError CallFrame * VirtHal :=
  match next_pdu h with
  | (Err e, h) => (Err e, h)
  | (Panic, h) => (Panic, h)
  | (Ok (hdr, frame, bounce), h) =>
      if negb (is_frame_of KIND_RPC_REPLY hdr) then (Err InvalidParam, h) else
      match feed_pdu h hdr frame bounce with
      | Err e => (Err e, h)
      | Panic => (Panic, h)
      | Ok h =>
          (Ok frame, set_gate h (gate_set_window (gate h) false None (enter_cookie h) (enter_bounce_len h)))
      end
  end.

Definition wrap_outgoing (h : VirtHal) (payload : list u8) : res HalError VirtioVsockHdr :=
  let? c := ok_or (conn h) NotFound in Ok (wrap_rw c payload).

Definition credit_update (h : VirtHal) : res HalError VirtioVsockHdr :=
  let? c := ok_or (conn h) NotFound in Ok (conn_credit_update c).

Definition complete_stream (h : VirtHal) (out : CallFrame) : res HalError (VirtioVsockHdr * list u8) * VirtHal :=
  let h := set_gate h (gate_complete (gate h) out) in
  match take_tx h with
  | Panic => (Panic, h)
  | Err e => (Err e, h)
  | Ok (None, h) => (Err Fault, h)
  | Ok (Some (hdr, frame, bounce), h) =>
      let pdu := encode_pdu hdr frame bounce in
      (let? c := ok_or (conn h) NotFound in Ok (wrap_rw c pdu, pdu), h)
  end.

Definition import_arg (h : VirtHal) (offset : u64) (len : usize) : res HalError u64 :=
  if negb (offset mod MSG_ARG_ALIGN =? 0) then Err BadAlignment else
  let? e := uadd offset len in
  if bounce_len h <? e then Err InvalidParam else Ok offset.

(** ** The kernel's view *)

Definition lookup_shm (h : VirtHal) (ck : u64) : option VirtShm :=
  List.find (fun s => shm_cookie s =? ck) (omap id (shms h)).

#[export] Instance virt_hal : HalOps VirtHal VirtAs :=
  {| hal_entropy_origin := fun _ => ReeHost;
     new_address_space := fun h => ({| mapped := 0; as_pool_va := pool_va h; images := [] |}, h);
     shm_len := fun h c => option_map vshm_len (lookup_shm h c);
     shm_sync_in := fun h c => option_map (fun _ => (inr tt, h)) (lookup_shm h c);
     shm_sync_out := fun h c => option_map (fun _ => (inr tt, h)) (lookup_shm h c);
     shm_map_into := fun h c a p => option_map (fun s => map_shm a s p) (lookup_shm h c);
     map_image := virt_map_image; as_unmap := virt_unmap; as_drop_all := virt_drop_all |}.
End Virt.

(** * Lemmas *)

Lemma VirtPdu_decode_encode h tl : PduHeader_wf h -> VirtPdu_decode (VirtPdu_encode h ++ tl) = Ok h.
Proof.
  intros Hh. pose proof (PduHeader_decode_encode h tl Hh) as Hd. unfold VirtPdu_encode.
  unfold PduHeader_decode in Hd. unfold VirtPdu_decode.
  destruct (_ <? _); [done|]. destruct (negb (kind_known _)); [done|].
  destruct (negb (_ =? _)); [done|]. f_equal. by injection Hd.
Qed.

Lemma decode_encode_frame f tl : CallFrame_wf f -> decode_frame (encode_frame f ++ tl) = Ok f.
Proof.
  intros Hf. pose proof (CallFrame_decode_encode f tl Hf) as Hd.
  unfold CallFrame_decode, CallFrame_encode in Hd. unfold decode_frame, encode_frame.
  destruct (_ <? _); [done|]. f_equal. by injection Hd.
Qed.

Lemma zlen_encode_frame f : CallFrame_wf f -> zlen (encode_frame f) = 64.
Proof.
  destruct f as [ws]. intros [Hl _]. cbn [cf_r] in Hl.
  do 8 (destruct ws as [|? ws]; [discriminate|]). destruct ws; [|discriminate]. done.
Qed.

Lemma zlen_encode_pdu_hdr h : zlen (VirtPdu_encode h) = 16.
Proof. done. Qed.

(** A PDU as the peer sends it. *)
Definition Pdu : Type := PduHeader * CallFrame * list u8.
Definition pdu_wf (p : Pdu) : Prop :=
  let '(h, f, b) := p in PduHeader_wf h /\ CallFrame_wf f /\ zlen b = pdu_bounce_len h.
Definition pdu_bytes (p : Pdu) : list u8 := let '(h, f, b) := p in encode_pdu h f b.

Lemma zlen_pdu_bytes h f b :
  CallFrame_wf f -> zlen (encode_pdu h f b) = 80 + zlen b.
Proof.
  intros Hf. unfold encode_pdu. rewrite !zlen_app, zlen_encode_pdu_hdr, zlen_encode_frame by done. lia.
Qed.

(** The first header of a stream that starts with (part of) a PDU. *)
Lemma peek_header p rx tl :
  pdu_wf p -> pdu_bytes p ++ tl = rx -> VirtPdu_decode (sub rx 0 PDU_HDR_LEN) = Ok p.1.1.
Proof.
  destruct p as [[h f] b]. intros (Hh & Hf & Hb) <-. cbn [pdu_bytes fst]. unfold encode_pdu.
  rewrite <- !app_assoc. rewrite (sub_app_l _ _ PDU_HDR_LEN) by (symmetry; apply zlen_encode_pdu_hdr).
  rewrite <- (app_nil_r (VirtPdu_encode h)). by apply VirtPdu_decode_encode.
Qed.

(** A whole PDU at the head of the stream is taken, and only it. *)
Lemma take_pdu_whole c p tl :
  pdu_wf p -> conn_rx c = pdu_bytes p ++ tl ->
  take_pdu c = (Ok p, conn_with c (conn_fwd_cnt c) tl).
Proof.
  intros Hp Hrx. pose proof (peek_header p _ tl Hp eq_refl) as Hpk. destruct p as [[h f] b].
  destruct Hp as (Hh & Hf & Hb). cbn [pdu_bytes fst] in *. pose proof (zlen_pdu_bytes h f b Hf) as HL.
  pose proof (zlen_nonneg tl). pose proof (zlen_nonneg b).
  pose proof Hh as (Hk & Hs & Ha & Hbl). unfold in_width in Hbl.
  assert (zlen (encode_pdu h f b ++ tl) = 80 + zlen b + zlen tl) as HL2 by (rewrite zlen_app; lia).
  unfold take_pdu. rewrite Hrx. unfold PDU_HDR_LEN, CALL_FRAME_LEN in *.
  rewrite HL2. decide_guards. rewrite Hpk, Ha. cbn [negb Z.eqb Pos.eqb].
  unfold checked_add. decide_guards.
  rewrite sub_app_l by (rewrite HL; lia).
  assert (drop (Z.to_nat (16 + 64 + pdu_bounce_len h)) (encode_pdu h f b ++ tl) = tl) as ->.
  { rewrite drop_app_ge by (unfold zlen in *; lia).
    replace (_ - _)%nat with 0%nat by (unfold zlen in *; lia). done. }
  assert (sub (encode_pdu h f b) 16 64 = encode_frame f) as ->.
  { unfold encode_pdu. rewrite sub_app_r by (rewrite zlen_encode_pdu_hdr; lia).
    rewrite zlen_encode_pdu_hdr. apply sub_app_l. by rewrite zlen_encode_frame. }
  pose proof (decode_encode_frame f [] Hf) as Hdf. rewrite app_nil_r in Hdf. rewrite Hdf. cbn [rbind].
  do 3 f_equal. unfold encode_pdu. rewrite app_assoc.
  rewrite drop_app_ge by (rewrite length_app; pose proof (zlen_encode_frame f Hf);
    pose proof (zlen_encode_pdu_hdr h); unfold zlen in *; lia).
  replace (_ - _)%nat with 0%nat; [done|]. rewrite length_app.
  pose proof (zlen_encode_frame f Hf). pose proof (zlen_encode_pdu_hdr h). unfold zlen in *. lia.
Qed.

(** A partial PDU is left in the buffer. *)
Lemma take_pdu_partial c p rest :
  pdu_wf p -> pdu_bytes p = conn_rx c ++ rest -> rest <> [] ->
  take_pdu c = (Err NotFound, c).
Proof.
  intros Hp Hrx Hne. destruct p as [[h f] b] eqn:Ep. destruct Hp as (Hh & Hf & Hb).
  cbn [pdu_bytes] in Hrx. pose proof (zlen_pdu_bytes h f b Hf) as HL. rewrite Hrx, zlen_app in HL.
  assert (0 < zlen rest) by (destruct rest; [done|rewrite zlen_cons; pose proof (zlen_nonneg rest); lia]).
  unfold take_pdu, PDU_HDR_LEN, CALL_FRAME_LEN. destruct (Z.ltb_spec (zlen (conn_rx c)) 16); [done|].
  assert (VirtPdu_decode (sub (conn_rx c) 0 16) = Ok h) as ->.
  { pose proof (peek_header (h, f, b) (encode_pdu h f b) [] (conj Hh (conj Hf Hb)) (app_nil_r _)) as Hpk.
    cbn [fst] in Hpk. rewrite <- Hpk. unfold PDU_HDR_LEN. rewrite Hrx. f_equal. unfold sub. rewrite !drop_0.
    symmetry. apply take_app_le. unfold zlen in *. lia. }
  destruct Hh as (_ & _ & Ha & Hbl). unfold in_width in Hbl. rewrite Ha.
  unfold CALL_FRAME_LEN. cbn [negb Z.eqb Pos.eqb]. unfold checked_add. by decide_guards.
Qed.

(** The host's RW packet for a payload on this connection. *)
Definition host_rw (c : VsockConn) (payload : list u8) : VirtioVsockHdr :=
  {| src_cid := host_cid c; dst_cid := guest_cid c; src_port := host_port c; dst_port := guest_port c;
     vh_len := zlen payload; ty := VIRTIO_VSOCK_TYPE_STREAM; op := VIRTIO_VSOCK_OP_RW; flags := 0;
     buf_alloc := 0; fwd_cnt := 0 |}.

Lemma push_host_rw_ok h c payload : conn h = Some c ->
  push_host_rw h (host_rw c payload) payload =
    Ok (set_conn h (Some (conn_with c (wrapping_add 32 (conn_fwd_cnt c) (zlen payload)) (conn_rx c ++ payload)))).
Proof.
  intros Hc. unfold push_host_rw. rewrite Hc. cbn [ok_or rbind]. unfold push_rw, host_rw.
  cbn [op dst_cid dst_port src_cid vh_len]. by rewrite !Z.eqb_refl.
Qed.

Lemma app_prefix {A} (x y u v : list A) : x ++ y = u ++ v -> (length x <= length u)%nat ->
  exists w, u = x ++ w /\ y = w ++ v.
Proof.
  intros E Hl. exists (drop (length x) u). rewrite <- (take_drop (length x) u) in E at 1.
  rewrite <- app_assoc in E. apply app_inj_1 in E as [E1 E2]; [|rewrite length_take; lia].
  split; [|done]. by rewrite E1, take_drop at 1.
Qed.

(** A buffer with a front part of a stream of PDUs: its first PDU is taken whole,
    or it is not there yet and nothing is taken. *)
Lemma take_pdu_stream c p ps rest :
  pdu_wf p -> conn_rx c ++ rest = pdu_bytes p ++ ps ->
  (exists rx, take_pdu c = (Ok p, conn_with c (conn_fwd_cnt c) rx) /\ rx ++ rest = ps) \/
  (take_pdu c = (Err NotFound, c) /\ (length (conn_rx c) < length (pdu_bytes p))%nat).
Proof.
  intros Hp Hrx. destruct (decide (length (pdu_bytes p) <= length (conn_rx c))%nat) as [Hle|Hgt].
  - destruct (app_prefix _ _ _ _ (eq_sym Hrx) Hle) as (tl & Hc & Ht). left. exists tl. split; [|done].
    by apply take_pdu_whole.
  - right. split; [|lia]. destruct (app_prefix _ _ _ _ Hrx ltac:(lia)) as (w & Hw & _).
    apply (take_pdu_partial c p w Hp Hw). intros ->. rewrite app_nil_r in Hw. rewrite Hw in Hgt. lia.
Qed.

(** * The bounce pool and the call window *)

Definition pool_ok (h : VirtHal) : Prop := zlen (bounce_mem h) = bounce_len h /\ bounce_len h < 2 ^ 63.

Lemma cookie_nonneg f : 0 <= cookie_a1a2 f.
Proof.
  unfold cookie_a1a2. apply Z.lor_nonneg. split.
  - apply wrap_width. lia.
  - apply Z.land_nonneg. by right.
Qed.

Lemma feed_pdu_cases h hdr frame b : pool_ok h ->
  match feed_pdu h hdr frame b with
  | Ok h' =>
      pdu_arg_len hdr = CALL_FRAME_LEN /\ zlen b = pdu_bounce_len hdr /\
      cookie_a1a2 frame + zlen b <= bounce_len h /\
      h' = set_gate (set_mem h (splice (bounce_mem h) (cookie_a1a2 frame) b))
                    (gate_set_rx (gate h) (Some (hdr, frame)))
  | Err e => e = InvalidParam
  | Panic => False
  end.
Proof.
  intros [Hm Hl]. pose proof (cookie_nonneg frame) as Hc. unfold feed_pdu.
  destruct (Z.eqb_spec (pdu_arg_len hdr) CALL_FRAME_LEN); [cbn [negb]|done].
  destruct (Z.eqb_spec (zlen b) (pdu_bounce_len hdr)); [cbn [negb]|done].
  unfold copy_bounce_in, checked_add. pose proof (zlen_nonneg b).
  destruct (Z.ltb_spec (cookie_a1a2 frame + zlen b) (2 ^ 64)); cbn [ok_or rbind]; [|done].
  destruct (Z.ltb_spec (bounce_len h) (cookie_a1a2 frame + zlen b)); [done|].
  unfold index_range. rewrite get_range_some by lia. cbn [or_panic rbind]. done.
Qed.

(** What the REE can write: a PDU is accepted only if its bounce data has
    the announced length and fits in the pool at the frame's cookie; then the
    pool holds that data there, every other byte of it and its size are
    unchanged, and it waits in the call gate.  Any other PDU is rejected with
    the HAL unchanged; feeding never panics. *)
Theorem feed_pdu_confined h hdr frame b : pool_ok h ->
  match feed_pdu h hdr frame b with
  | Ok h' =>
      let c := cookie_a1a2 frame in
      zlen b = pdu_bounce_len hdr /\ c + zlen b <= bounce_len h /\ pool_ok h' /\
      sub (bounce_mem h') c (zlen b) = b /\
      (forall off n, 0 <= off -> 0 <= n -> off + n <= c \/ c + zlen b <= off ->
         sub (bounce_mem h') off n = sub (bounce_mem h) off n) /\
      g_rx (gate h') = Some (hdr, frame) /\ shms h' = shms h
  | Err e => e = InvalidParam
  | Panic => False
  end.
Proof.
  intros Hp. pose proof (cookie_nonneg frame) as Hc.
  pose proof (feed_pdu_cases h hdr frame b Hp) as Hcase. destruct (feed_pdu _ _ _ _) as [h'| |]; [|done..].
  destruct Hcase as (_ & Hb & Hin & ->). destruct Hp as [Hm Hl].
  cbn [bounce_mem bounce_len set_gate set_mem shms g_rx gate gate_set_rx].
  refine (conj Hb (conj Hin (conj _ (conj _ (conj _ (conj eq_refl eq_refl)))))).
  - split; cbn [bounce_mem bounce_len set_gate set_mem]; [|done]. by rewrite zlen_splice by lia.
  - apply sub_splice_same; lia.
  - intros. apply sub_splice_other; lia.
Qed.

(** The RPC request: point the window at the request, queue the PDU, take it. *)
Definition rpc_request (h : VirtHal) (ck : u64) (len : u32) (out : CallFrame)
  : res HalError (option (PduHeader * CallFrame * list u8) * VirtHal) :=
  let h := set_rpc_window h ck len in
  let h := set_gate h (snd (gate_rpc_yield (gate h) out)) in
  take_tx h.

(** The parts of the HAL the kernel and the byte stream leave alone. *)
Definition same_call (h h' : VirtHal) : Prop :=
  gate h' = gate h /\ enter_cookie h' = enter_cookie h /\ enter_bounce_len h' = enter_bounce_len h /\
  zlen (bounce_mem h') = zlen (bounce_mem h) /\ bounce_len h' = bounce_len h.

Lemma next_pdu_frame h r h' : next_pdu h = (r, h') -> h' = set_conn h (conn h').
Proof. unfold next_pdu. destruct (conn h) eqn:E; [destruct (read_pdu _)|]; intros [= <- <-]; [done|by destruct h]. Qed.

Lemma recv_enter_window h frame h1 :
  pool_ok h -> recv_enter h = (Ok frame, h1) ->
  last_cookie (gate h1) = cookie_a1a2 frame /\ g_rx (gate h1) = None /\ g_yielding (gate h1) = false /\
  0 <= last_bounce_len (gate h1) /\ cookie_a1a2 frame + last_bounce_len (gate h1) <= bounce_len h1 /\
  pool_ok h1.
Proof.
  intros Hp Hr. unfold recv_enter in Hr. destruct (next_pdu h) as [[[[hdr f] b]| |] h0] eqn:E; [|done..].
  assert (pool_ok h0) as Hp0 by (rewrite (next_pdu_frame _ _ _ E); exact Hp).
  destruct (feed_pdu h0 hdr f b) as [h2| |] eqn:Ef; [|done..].
  pose proof (feed_pdu_cases h0 hdr f b Hp0) as Hcase. rewrite Ef in Hcase.
  destruct Hcase as (_ & Hb & Hin & ->). destruct Hp0 as [Hm0 Hl0]. pose proof (zlen_nonneg b).
  pose proof (cookie_nonneg f).
  unfold gate_recv in Hr. cbn [gate set_gate set_mem gate_set_rx g_yielding g_rx] in Hr.
  destruct (g_yielding (gate h0)) eqn:Ey; [done|].
  destruct (is_frame_of _ _); [|done]. injection Hr as -> <-. unfold pool_ok.
  cbn [gate bounce_mem bounce_len set_gate set_mem last_cookie last_bounce_len g_rx g_yielding] in *.
  rewrite zlen_splice by lia. split_and!; try done; lia.
Qed.

(** A call that asked the REE for an image still completes in its own
    window: after ENTER, a LOAD_TA request at any other window and its reply,
    COMPLETE carries the sequence number of the ENTER and the pool bytes of the
    ENTER's cookie and length, not of the RPC's. *)
Theorem complete_uses_enter_window h frame h1 h1' ck len out tx h2 h3 f2 h4 fin :
  pool_ok h -> recv_enter h = (Ok frame, h1) -> same_call h1 h1' ->
  rpc_request h1' ck len out = Ok (tx, h2) -> same_call h2 h3 ->
  recv_rpc_reply h3 = (Ok f2, h4) ->
  (exists hdr b, tx = Some (hdr, out, b) /\ pdu_kind hdr = KIND_RPC /\ pdu_seq hdr = g_seq (gate h1) /\
                 pdu_bounce_len hdr = len) /\
  g_yielding (gate h4) = false /\
  match complete_stream h4 fin with
  | (Ok (vh, pdu), h5) =>
      pdu = encode_pdu {| pdu_kind := KIND_COMPLETE; pdu_seq := g_seq (gate h1); pdu_arg_len := CALL_FRAME_LEN;
                          pdu_bounce_len := last_bounce_len (gate h1) |} fin
              (sub (bounce_mem h4) (cookie_a1a2 frame) (last_bounce_len (gate h1)))
  | (Err e, _) => False
  | (Panic, _) => False
  end.
Proof.
  intros Hp Hr (S1 & S2 & S3 & S4 & S5) Hq (T1 & T2 & T3 & T4 & T5) Hrep.
  destruct (recv_enter_window h frame h1 Hp Hr) as (W1 & W2 & W3 & W4 & W5 & W6).
  unfold rpc_request, take_tx, set_rpc_window, gate_rpc_yield in Hq.
  cbn [gate set_gate set_enter gate_set_window g_rx g_tx snd g_yielding] in Hq. rewrite S1, W2 in Hq.
  cbn [gate snd g_tx last_cookie gate_take_tx set_gate out_hdr pdu_bounce_len last_bounce_len gate_set_window] in Hq.
  destruct (uadd ck len) as [e| |] eqn:Eu; cbn [rbind] in Hq; [|done..]. injection Hq as <- <-.
  cbn [gate enter_cookie enter_bounce_len set_gate set_enter bounce_mem bounce_len] in *.
  assert (pool_ok h3) as Hp3 by (destruct W6; split; congruence).
  unfold recv_rpc_reply in Hrep. destruct (next_pdu h3) as [[[[hdr f] b]| |] h0] eqn:E; [|done..].
  destruct (negb _); [done|]. destruct (feed_pdu h0 hdr f b) as [h5| |] eqn:Ef; [|done..].
  injection Hrep as -> <-. pose proof (next_pdu_frame _ _ _ E) as E0.
  assert (exists c, conn h0 = Some c) as [c Ec].
  { unfold next_pdu in E. destruct (conn h3); [|done]. destruct (read_pdu _). injection E as _ <-. by eexists. }
  assert (pool_ok h0) as Hp0 by (rewrite E0; exact Hp3). pose proof (cookie_nonneg f2).
  pose proof (feed_pdu_cases h0 hdr f2 b Hp0) as Hcase. rewrite Ef in Hcase.
  destruct Hcase as (_ & Hb & Hin & ->). clear Ef E. destruct Hp0 as [Hm0 Hl0].
  assert (enter_cookie h0 = cookie_a1a2 frame /\ enter_bounce_len h0 = last_bounce_len (gate h1) /\
    g_seq (gate h0) = g_seq (gate h1) /\ bounce_len h0 = bounce_len h1) as (E1 & E2 & E3 & E4).
  { rewrite E0. cbn. rewrite T1, T2, T3, T5. split_and!; try done; congruence. }
  clear E0. split; [by do 2 eexists|]. split; [done|]. pose proof (cookie_nonneg frame).
  unfold complete_stream, take_tx, out_hdr. cbn [gate set_gate set_mem gate_complete g_tx gate_take_tx last_cookie
    out_hdr gate_set_rx pdu_bounce_len gate_set_window last_bounce_len g_seq bounce_mem conn enter_cookie
    enter_bounce_len].
  rewrite ?E1, ?E2. destruct W6 as [W6 W7]. pose proof (zlen_nonneg b).
  rewrite uadd_ok by lia. cbn [rbind]. rewrite zlen_splice by lia.
  rewrite (proj2 (Z.leb_le _ _)) by lia.
  unfold out_hdr. cbn [conn set_gate set_mem gate_complete gate_take_tx gate_set_window gate_set_rx last_bounce_len g_seq].
  rewrite Ec. cbn [ok_or rbind]. by rewrite ?E2, ?E3.
Qed.

(** * Entropy *)

Lemma length_lcg_block n s : length (lcg_block n s) = n.
Proof. revert s. induction n as [|n IH]; intros s; cbn; [done|by rewrite IH]. Qed.

(** The block [kick_request] adds for a request of [n] bytes at counter [req]. *)
Definition pseudo_block (req : u32) (n : usize) : list u8 :=
  lcg_block (Z.to_nat n) (wrap 32 (wrapping_add 32 req 1 * 0x9e3779b9)).

(** The bytes [fill] delivers before its all-zero check. *)
Definition raw_fill (e : VirtEntropy) (n : usize) : list u8 :=
  if zlen (ent_pool e) <? n
  then ent_pool e ++ take (Z.to_nat n - length (ent_pool e)) (pseudo_block (ent_req e) (Z.max n 32))
  else sub (ent_pool e) 0 n.

Definition all_zero (l : list u8) : bool := forallb (fun b => b =? 0) l.

Lemma splice_whole {A} (l new : list A) : length new = length l -> splice l 0 new = new.
Proof.
  intros Hl. unfold splice. rewrite take_0, drop_ge by (unfold zlen; lia). by rewrite app_nil_r.
Qed.

Lemma ent_fill_raw e buf : buf <> [] ->
  exists e', ent_fill e buf =
    ((if all_zero (raw_fill e (zlen buf)) then <[0%nat := 0xa5]> (raw_fill e (zlen buf))
      else raw_fill e (zlen buf)), e') /\
    length (raw_fill e (zlen buf)) = length buf /\
    ((zlen (ent_pool e) <? zlen buf) = false ->
       e' = {| ent_pool := drop (length buf) (ent_pool e); ent_req := ent_req e |}).
Proof.
  intros Hne. unfold ent_fill, raw_fill. destruct buf as [|b0 buf0] eqn:Eb; [done|]. rewrite <- Eb.
  clear Eb Hne b0 buf0. destruct (Z.ltb_spec (zlen (ent_pool e)) (zlen buf)) as [Hlt|Hge].
  - unfold kick_request, ent_complete. cbn [ent_pool ent_req].
    fold (pseudo_block (ent_req e) (Z.max (zlen buf) 32)).
    assert (length (pseudo_block (ent_req e) (Z.max (zlen buf) 32)) = Z.to_nat (Z.max (zlen buf) 32)) as Hpl
      by apply length_lcg_block.
    set (blk := pseudo_block _ _) in *.
    rewrite (Z.min_l (zlen buf)) by (rewrite zlen_app; unfold zlen in *; lia).
    assert (sub (ent_pool e ++ blk) 0 (zlen buf) =
            ent_pool e ++ take (Z.to_nat (zlen buf) - length (ent_pool e)) blk) as ->.
    { unfold sub. rewrite drop_0, take_app, take_ge by (unfold zlen in *; lia). done. }
    assert (length (ent_pool e ++ take (Z.to_nat (zlen buf) - length (ent_pool e)) blk) = length buf) as Hl.
    { rewrite length_app, length_take. unfold zlen in *. lia. }
    rewrite splice_whole by done. by eexists.
  - rewrite Z.min_l by lia.
    assert (length (sub (ent_pool e) 0 (zlen buf)) = length buf) as Hl by (rewrite length_sub; unfold zlen in *; lia).
    rewrite splice_whole by done. eexists. split; [done|]. split; [done|]. intros _.
    by replace (Z.to_nat (zlen buf)) with (length buf) by (unfold zlen; lia).
Qed.

Lemma all_zero_fixed l : l <> [] -> all_zero (if all_zero l then <[0%nat := 0xa5]> l else l) = false.
Proof. intros Hl. destruct (all_zero l) eqn:E; [|done]. by destruct l. Qed.

(** Where random bytes come from: [fill] fills the whole buffer and never
    with zeros only; while the host's bytes last they are handed out in order,
    each once.  When they run out the missing bytes are a fixed function of the
    request counter: nothing asks the device again. *)
Theorem entropy_fill e buf :
  buf <> [] ->
  exists out e', ent_fill e buf = (out, e') /\ length out = length buf /\ all_zero out = false /\
    (zlen buf <= zlen (ent_pool e) ->
       ent_pool e' = drop (length buf) (ent_pool e) /\ ent_req e' = ent_req e /\
       (all_zero (sub (ent_pool e) 0 (zlen buf)) = false -> out = sub (ent_pool e) 0 (zlen buf))) /\
    (zlen (ent_pool e) < zlen buf ->
       let bs := ent_pool e ++ take (length buf - length (ent_pool e))
                                 (pseudo_block (ent_req e) (Z.max (zlen buf) 32)) in
       all_zero bs = false -> out = bs).
Proof.
  intros Hne. destruct (ent_fill_raw e buf Hne) as (e' & Hf & Hl & He). rewrite Hf. eexists _, e'.
  split; [done|]. split_and!.
  - destruct (all_zero _); [rewrite length_insert|]; done.
  - apply all_zero_fixed. intros Hn. rewrite Hn in Hl. by destruct buf.
  - intros Hle. rewrite He by (apply Z.ltb_ge; lia). split; [done|]. split; [done|].
    unfold raw_fill. rewrite (proj2 (Z.ltb_ge _ _)) by lia. by intros ->.
  - intros Hlt. unfold raw_fill. rewrite (proj2 (Z.ltb_lt _ _)) by lia.
    replace (Z.to_nat (zlen buf)) with (length buf) by (unfold zlen; lia). by intros ->.
Qed.

(** * Shared memory *)

Lemma reimport_spec l off len perms :
  match reimport l off len perms with
  | None => List.find (fun s => shm_cookie s =? off) (omap id l) = None
  | Some l' =>
      length l' = length l /\
      List.find (fun s => shm_cookie s =? off) (omap id l') =
        Some {| shm_cookie := off; vshm_len := len; shm_perms := perms |} /\
      forall c, c <> off -> List.find (fun s => shm_cookie s =? c) (omap id l') =
                            List.find (fun s => shm_cookie s =? c) (omap id l)
  end.
Proof.
  induction l as [|[s|] l IH]; cbn [reimport]; [done| |].
  - destruct (Z.eqb_spec (shm_cookie s) off) as [E|E].
    + split; [done|]. cbn. rewrite (proj2 (Z.eqb_eq _ _) E). split; [by rewrite E|]. intros c Hc.
      by rewrite (proj2 (Z.eqb_neq (shm_cookie s) c)) by congruence.
    + destruct (reimport l off len perms) as [l'|]; cbn in *.
      * destruct IH as (Hl & Hf & Ho). rewrite (proj2 (Z.eqb_neq (shm_cookie s) off)) by done.
        split_and!; [by f_equal|done|]. intros c Hc. by rewrite Ho.
      * by rewrite (proj2 (Z.eqb_neq (shm_cookie s) off)).
  - destruct (reimport l off len perms) as [l'|]; cbn in *; [|done].
    destruct IH as (Hl & Hf & Ho). split; [by f_equal|done].
Qed.

Lemma add_shm_spec l s :
  List.find (fun x => shm_cookie x =? shm_cookie s) (omap id l) = None ->
  match add_shm l s with
  | None => None ∉ l
  | Some l' =>
      length l' = length l /\
      List.find (fun x => shm_cookie x =? shm_cookie s) (omap id l') = Some s /\
      forall c, c <> shm_cookie s -> List.find (fun x => shm_cookie x =? c) (omap id l') =
                                     List.find (fun x => shm_cookie x =? c) (omap id l)
  end.
Proof.
  induction l as [|[x|] l IH]; cbn [add_shm]; intros Hn.
  - by intros ?%elem_of_nil.
  - cbn in Hn. destruct (Z.eqb_spec (shm_cookie x) (shm_cookie s)) as [E|E]; [done|].
    specialize (IH Hn). destruct (add_shm l s) as [l'|]; cbn.
    + destruct IH as (Hl & Hf & Ho). rewrite (proj2 (Z.eqb_neq _ _)) by done.
      split_and!; [by f_equal|done|]. intros c Hc. by rewrite Ho.
    + by intros [?|?]%elem_of_cons.
  - cbn. rewrite Z.eqb_refl. split_and!; [done..|]. intros c Hc.
    by rewrite (proj2 (Z.eqb_neq (shm_cookie s) c)) by congruence.
Qed.

(** Every object lies in the pool, is page aligned and is not executable. *)
Definition shm_ok (h : VirtHal) (s : VirtShm) : Prop :=
  0 <= shm_cookie s /\ 0 <= vshm_len s /\ shm_cookie s + vshm_len s <= bounce_len h /\
  shm_cookie s mod MSG_ARG_ALIGN = 0 /\ p_exec (shm_perms s) = false.
Definition shms_ok (h : VirtHal) : Prop := forall c s, lookup_shm h c = Some s -> shm_cookie s = c /\ shm_ok h s.

(** Importing a shared buffer: it is refused unless it lies in the pool,
    aligned and not executable; then exactly this cookie resolves to the new
    object, every other cookie is as before, and all objects stay in the pool.
    The only other failure is a table whose slots are all taken: no operation
    of the HAL frees one. *)
Theorem import_shm_table h off len perms :
  pool_ok h -> shms_ok h -> 0 <= off -> 0 <= len -> off + len < 2 ^ 64 ->
  match import_shm h off len perms with
  | Ok h' =>
      off + len <= bounce_len h /\ shms_ok h' /\
      lookup_shm h' off = Some {| shm_cookie := off; vshm_len := len; shm_perms := perms |} /\
      (forall c, c <> off -> lookup_shm h' c = lookup_shm h c) /\ bounce_mem h' = bounce_mem h
  | Err PermDenied => p_exec perms = true
  | Err InvalidParam => bounce_len h < off + len
  | Err BadAlignment => off mod MSG_ARG_ALIGN <> 0
  | Err NoMemory => lookup_shm h off = None /\ None ∉ shms h
  | _ => False
  end.
Proof.
  intros Hp Hs Ho Hl Hb. unfold import_shm. destruct (p_exec perms) eqn:Ep; [done|].
  rewrite uadd_ok by lia. cbn [rbind].
  destruct (Z.ltb_spec (bounce_len h) (off + len)); [done|].
  destruct (Z.eqb_spec (off mod MSG_ARG_ALIGN) 0); cbn [negb]; [|done].
  pose (s := {| shm_cookie := off; vshm_len := len; shm_perms := perms |}).
  assert (forall l,
    List.find (fun x => shm_cookie x =? off) (omap id l) = Some s ->
    (forall c, c <> off -> List.find (fun x => shm_cookie x =? c) (omap id l) = lookup_shm h c) ->
    off + len <= bounce_len h /\ shms_ok (set_shms h l) /\ lookup_shm (set_shms h l) off = Some s /\
    (forall c, c <> off -> lookup_shm (set_shms h l) c = lookup_shm h c) /\
    bounce_mem (set_shms h l) = bounce_mem h) as Hdone.
  { intros l Hf Hc. split; [done|]. split; [|done]. intros c x Hx.
    destruct (decide (c = off)) as [->|Hne].
    - unfold lookup_shm in Hx. cbn [shms set_shms] in Hx. rewrite Hf in Hx. injection Hx as <-. split; [done|].
      by split_and!.
    - apply Hs. by rewrite <- Hc. }
  pose proof (reimport_spec (shms h) off len perms) as Hr.
  destruct (reimport (shms h) off len perms) as [l|]; [destruct Hr as (_ & ? & ?); by apply Hdone|].
  pose proof (add_shm_spec (shms h) s Hr) as Ha. fold s.
  destruct (add_shm (shms h) s) as [l|]; cbn [ok_or rbind]; [destruct Ha as (_ & ? & ?); by apply Hdone|done].
Qed.

(** The window a TA sees is inside the bounce pool: through the kernel's
    HAL interface a shared buffer is mapped only without execute permission and
    at its own offset in the pool, its whole length below the end of the pool;
    and a non-empty buffer of the table can always be mapped so. *)
Theorem shm_windows_in_pool image_addr h c a p :
  shms_ok h -> bounce_len h = BOUNCE_POOL_SIZE -> 0 <= as_pool_va a -> as_pool_va a + BOUNCE_POOL_SIZE < 2 ^ 64 ->
  let _ := virt_hal image_addr in
  match shm_map_into h c a p, shm_len h c with
  | Some (inr va, a'), Some l =>
      p_exec p = false /\ as_pool_va a <= va /\ va - as_pool_va a = c /\
      va + l <= as_pool_va a + BOUNCE_POOL_SIZE /\ as_pool_va a' = as_pool_va a
  | Some (inl e, a'), Some l => a' = a /\ (p_exec p = true \/ l = 0)
  | None, None => lookup_shm h c = None
  | _, _ => False
  end.
Proof.
  intros Hs Hb Hv Hlt. cbn [shm_map_into shm_len virt_hal]. destruct (lookup_shm h c) as [s|] eqn:E; cbn [option_map]; [|done].
  destruct (Hs c s E) as (<- & H0 & H1 & H2 & _ & Hx). unfold map_shm. rewrite Hx, orb_false_r.
  destruct (p_exec p) eqn:Ep; [tauto|].
  destruct (Z.eqb_spec (vshm_len s) 0); [tauto|].
  unfold BOUNCE_POOL_SIZE in *. rewrite checked_add_ok by lia. rewrite (proj2 (Z.ltb_ge _ _)) by lia.
  cbn [as_pool_va]. unfold wrapping_add. rewrite wrap_id by (unfold in_width; lia). split_and!; try done; lia.
Qed.

(** * Witnesses *)

Module Sample.
Definition frame (lo : u64) : CallFrame := {| cf_r := [0xff00; 0; lo; 0; 0; 0; 0; 0] |}.
Definition hdr (kind seq n : u32) : PduHeader :=
  {| pdu_kind := kind; pdu_seq := seq; pdu_arg_len := CALL_FRAME_LEN; pdu_bounce_len := n |}.
Definition enter : Pdu := (hdr KIND_ENTER 7 4, frame 16, [1; 2; 3; 4]).
Definition reply : Pdu := (hdr KIND_RPC_REPLY 7 3, frame 64, [9; 9; 9]).
Definition fresh_conn : VsockConn :=
  {| guest_cid := VSOCK_GUEST_CID; guest_port := VSOCK_PORT; host_cid := 2; host_port := 1024;
     conn_fwd_cnt := 0; conn_rx := [] |}.

(** A HAL with a pool of 128 bytes and the two PDUs in the stream. *)
Definition small : VirtHal :=
  {| gate := gate_new; bounce_len := 128; bounce_mem := zeros 128; pool_va := 0x10000; entropy := VirtEntropy_new;
     shms := replicate 32 None; listener := listen VsockListener_default;
     conn := Some (conn_with fresh_conn 0 (pdu_bytes enter ++ pdu_bytes reply));
     enter_cookie := 0; enter_bounce_len := 0 |}.
Definition perms_rw : Perms := {| p_read := true; p_write := true; p_exec := false |}.
(** The HAL of the guest with one page shared. *)
Definition one_page : VirtHal :=
  set_shms (VirtHal_init 0x10000000) [Some {| shm_cookie := 4096; vshm_len := 100; shm_perms := perms_rw |}; None].

Lemma enter_wf : pdu_wf enter.
Proof. by_compute. Qed.
Lemma reply_wf : pdu_wf reply.
Proof. by_compute. Qed.
Lemma small_ok : pool_ok small.
Proof. by_compute. Qed.
Lemma one_page_shms : shms_ok one_page.
Proof.
  intros c s. unfold lookup_shm. cbn [shms one_page set_shms omap list_omap id List.find shm_cookie].
  destruct (Z.eqb_spec 4096 c) as [<-|]; [|done]. intros [= <-]. unfold shm_ok. cbn. done.
Qed.
End Sample.

Lemma feed_pdu_confined_witness :
  exists h', feed_pdu Sample.small (Sample.hdr KIND_ENTER 7 4) (Sample.frame 16) [1; 2; 3; 4] = Ok h' /\
    sub (bounce_mem h') 16 4 = [1; 2; 3; 4] /\ sub (bounce_mem h') 20 100 = zeros 100.
Proof.
  pose proof (feed_pdu_confined Sample.small (Sample.hdr KIND_ENTER 7 4) (Sample.frame 16) [1; 2; 3; 4] Sample.small_ok)
    as Hf.
  destruct (feed_pdu _ _ _ _) as [h'| |] eqn:E; [|vm_compute in E; discriminate E..].
  exists h'. destruct Hf as (_ & _ & _ & H1 & H2 & _). split; [reflexivity|]. split; [exact H1|].
  rewrite H2; [vm_compute; reflexivity|lia|lia|right; vm_compute; discriminate].
Defined.

(** ENTER with a window of 4 bytes at 16, an RPC at 64 and its reply: COMPLETE
    returns the 4 bytes at 16. *)
Lemma complete_uses_enter_window_witness :
  exists tx h2 h4,
    rpc_request (recv_enter Sample.small).2 64 32 (Sample.frame 64) = Ok (tx, h2) /\
    recv_rpc_reply h2 = (Ok (Sample.frame 64), h4) /\
    (match complete_stream h4 (Sample.frame 16) with
     | (Ok (_, pdu), _) => pdu = pdu_bytes (Sample.hdr KIND_COMPLETE 7 4, Sample.frame 16, [1; 2; 3; 4])
     | _ => False
     end).
Proof.
  destruct (recv_enter Sample.small) as [r1 h1] eqn:E1.
  destruct (rpc_request h1 64 32 (Sample.frame 64)) as [[tx h2]| |] eqn:E2;
    [|vm_compute in E1; injection E1 as <- <-; vm_compute in E2; discriminate E2..].
  destruct (recv_rpc_reply h2) as [r3 h4] eqn:E3.
  assert (r1 = Ok (Sample.frame 16)) as -> by (vm_compute in E1; injection E1 as <- <-; reflexivity).
  assert (r3 = Ok (Sample.frame 64)) as ->.
  { vm_compute in E1. injection E1 as <-. vm_compute in E2. injection E2 as <- <-. vm_compute in E3.
    injection E3 as <- <-. reflexivity. }
  exists tx, h2, h4. cbn [snd]. split; [exact E2|]. split; [exact E3|].
  destruct (complete_uses_enter_window Sample.small (Sample.frame 16) h1 h1 64 32 (Sample.frame 64) tx h2 h2
    (Sample.frame 64) h4 (Sample.frame 16) Sample.small_ok E1) as (_ & _ & Hc);
    [by unfold same_call|exact E2|by unfold same_call|exact E3|].
  destruct (complete_stream h4 (Sample.frame 16)) as [[[vh pdu]|e|] h5]; [|exact Hc|exact Hc].
  rewrite Hc. clear Hc. vm_compute in E1. injection E1 as <-. vm_compute in E2. injection E2 as <- <-.
  vm_compute in E3. injection E3 as <-. vm_compute. reflexivity.
Defined.

(** The first eight bytes after boot when the host has delivered none. *)
Lemma entropy_fill_witness :
  exists e', ent_fill VirtEntropy_new (zeros 8) = (take 8 (pseudo_block 1 32), e').
Proof.
  destruct (entropy_fill VirtEntropy_new (zeros 8)) as (out & e' & -> & _ & _ & _ & H); [discriminate|].
  exists e'. f_equal. apply H; [vm_compute; reflexivity|vm_compute; reflexivity].
Defined.

Lemma import_shm_table_witness :
  exists h', import_shm Sample.one_page 8192 200 Sample.perms_rw = Ok h' /\
    lookup_shm h' 8192 = Some {| shm_cookie := 8192; vshm_len := 200; shm_perms := Sample.perms_rw |} /\
    lookup_shm h' 4096 = Some {| shm_cookie := 4096; vshm_len := 100; shm_perms := Sample.perms_rw |}.
Proof.
  assert (pool_ok Sample.one_page) as Hp.
  { split; [|reflexivity]. cbn [bounce_mem bounce_len Sample.one_page set_shms VirtHal_init].
    apply zlen_zeros. discriminate. }
  pose proof (import_shm_table Sample.one_page 8192 200 Sample.perms_rw Hp Sample.one_page_shms
    ltac:(lia) ltac:(lia) ltac:(lia)) as Hi.
  destruct (import_shm Sample.one_page 8192 200 Sample.perms_rw) as [h'|e|] eqn:E;
    [|unfold import_shm in E; cbn in E; discriminate E..].
  exists h'. destruct Hi as (_ & _ & H1 & H2 & _). split; [reflexivity|]. split; [exact H1|].
  rewrite H2 by discriminate. reflexivity.
Defined.

Lemma shm_windows_in_pool_witness :
  exists va a', shm_map_into (HalOps := virt_hal (fun _ => 0x50000000)) Sample.one_page 4096
    {| mapped := 0; as_pool_va := 0x10000000; images := [] |} Sample.perms_rw = Some (inr va, a') /\
    va = 0x10001000.
Proof.
  pose proof (shm_windows_in_pool (fun _ => 0x50000000) Sample.one_page 4096
    {| mapped := 0; as_pool_va := 0x10000000; images := [] |} Sample.perms_rw Sample.one_page_shms eq_refl
    ltac:(vm_compute; discriminate) ltac:(vm_compute; reflexivity)) as Hm. cbv zeta in Hm.
  destruct (shm_map_into _ _ _ _) as [[[e|va] a']|] eqn:E; [cbn in E; discriminate E| |cbn in E; discriminate E].
  exists va, a'. split; [reflexivity|]. destruct (shm_len _ _) as [l|]; [|contradiction].
  destruct Hm as (_ & _ & H & _). cbn [as_pool_va] in H. lia.
Defined.
