(* ===== verification/ProtoCmd.v ===== *)
(** The guest's view of the protocol (src/guest/rustee-guest/src/proto_cmd.rs):
    an OP-TEE style message in the bounce pool becomes a kernel command, the
    kernel's answer is written back into the message, and the LOAD_TA request
    and its reply are packed and read. *)
From Stdlib Require Import ZArith Lia.
From stdpp Require Import base list numbers.
From S2P Require Import Prelude Proto Abi.

Local Open Scope Z_scope.
Local Open Scope rust_scope.

Definition ty (p : MsgParam) : u64 := Z.land (p_attr p) ATTR_TYPE_MASK.

Definition dir_of (t : u64) : Dir :=
  if (t =? ATTR_TYPE_TMEM_INPUT) || (t =? ATTR_TYPE_VALUE_INPUT) then In_
  else if (t =? ATTR_TYPE_TMEM_OUTPUT) || (t =? ATTR_TYPE_VALUE_OUTPUT) then Out
  else InOut.

Definition param (p : MsgParam) : Param :=
  let t := ty p in
  if t =? ATTR_TYPE_NONE then PNone
  else if (t =? ATTR_TYPE_VALUE_INPUT) || (t =? ATTR_TYPE_VALUE_OUTPUT) || (t =? ATTR_TYPE_VALUE_INOUT)
  then PValue (as_u32 (p_a p)) (as_u32 (p_b p)) (dir_of t)
  else if (t =? ATTR_TYPE_TMEM_INPUT) || (t =? ATTR_TYPE_TMEM_OUTPUT) || (t =? ATTR_TYPE_TMEM_INOUT)
  then PMemref (Ree (p_a p) 0) (p_b p) (dir_of t)
  else PNone.

Definition RPC_COOKIE : u64 := 0x800000.
Definition LOAD_TA_CAP : u64 := 2 * 1024 * 1024.

Definition uuid_from_words (hi lo : u64) : Uuid :=
  let time_low := as_u32 (Z.shiftr hi 32) in
  let time_mid := as_u16 (Z.shiftr hi 16) in
  let time_hi := as_u16 hi in
  let b := zeros 16 in
  let b := splice b 0 (to_be 4 time_low) in
  let b := splice b 4 (to_be 2 time_mid) in
  let b := splice b 6 (to_be 2 time_hi) in
  splice b 8 (to_be 8 lo).

Definition uuid_to_words (u : Uuid) : u64 * u64 :=
  let time_low := from_be (sub u 0 4) in
  let time_mid := from_be (sub u 4 2) in
  let time_hi := from_be (sub u 6 2) in
  let hi := Z.lor (Z.lor (wrap 64 (Z.shiftl time_low 32)) (wrap 64 (Z.shiftl time_mid 16))) time_hi in
  let lo := from_be (sub u 8 8) in
  (hi, lo).

Definition load_ta_hdr : MsgArgHdr :=
  {| m_cmd := RPC_CMD_LOAD_TA; m_func := m_func MsgArgHdr_default; m_session := m_session MsgArgHdr_default;
     m_cancel_id := m_cancel_id MsgArgHdr_default; m_pad := m_pad MsgArgHdr_default; m_ret := m_ret MsgArgHdr_default;
     m_ret_origin := m_ret_origin MsgArgHdr_default; m_num_params := 2 |}.

(** The window of the request and the pool with the message in it. *)
Definition pack_load_ta (pool : list u8) (uuid : Uuid) : res unit (u64 * u32 * list u8) :=
  let '(hi, lo) := uuid_to_words uuid in
  let? dest := uadd RPC_COOKIE (MSG_ARG_HDR_SIZE + 2 * MSG_PARAM_SIZE) in
  if negb (dest mod 8 =? 0) || (dest <? RPC_COOKIE) then Err tt else
  let params := [MsgParam_value ATTR_TYPE_VALUE_INPUT hi lo 0;
                 MsgParam_tmem ATTR_TYPE_TMEM_OUTPUT dest LOAD_TA_CAP 0] in
  let? (pool, n) := map_err (fun _ => tt) (write_msg pool RPC_COOKIE load_ta_hdr params) in
  Ok (RPC_COOKIE, as_u32 n, pool).

Definition take_load_ta (pool : list u8) : res u32 (list u8) :=
  let? (hdr, params, _) := map_err (fun _ => TEE_ERROR_BAD_PARAMETERS) (decode_msg pool RPC_COOKIE) in
  if negb (m_ret hdr =? 0) then Err (m_ret hdr) else
  if m_num_params hdr <? 2 then Err TEE_ERROR_BAD_PARAMETERS else
  let? p1 := or_panic (params !! 1%nat) in
  let dest := p_a p1 in
  let size := p_b p1 in
  let? e := ok_or (checked_add 64 dest size) TEE_ERROR_BAD_PARAMETERS in
  if (dest <? RPC_COOKIE) || (zlen pool <? e) then Err TEE_ERROR_ITEM_NOT_FOUND else
  index_range pool dest e.

Definition is_meta (p : MsgParam) : bool := negb (Z.land (p_attr p) ATTR_META =? 0).

(** [if ui < PARAM_COUNT { user[ui] = param(p); ui += 1 }] *)
Definition add_user (user : Params) (ui : usize) (p : MsgParam) : Params * usize :=
  if ui <? PARAM_COUNT then (<[Z.to_nat ui := param p]> user, ui + 1) else (user, ui).

(** The loop of OPEN_SESSION over the parameters from position [i]. *)
Fixpoint open_loop (i : usize) (ps : list MsgParam) (uuid : Uuid) (login : Login) (user : Params) (ui : usize)
  : Uuid * Login * Params :=
  match ps with
  | [] => (uuid, login, user)
  | p :: ps' =>
      if is_meta p then
        if (ty p =? ATTR_TYPE_VALUE_INPUT) && (i =? 0)
        then open_loop (i + 1) ps' (uuid_from_words (p_a p) (p_b p)) login user ui
        else if as_u32 (p_c p) =? MSG_LOGIN_PUBLIC
        then open_loop (i + 1) ps' uuid Public user ui
        else open_loop (i + 1) ps' uuid login user ui
      else let '(user, ui) := add_user user ui p in open_loop (i + 1) ps' uuid login user ui
  end.

(** The loop of INVOKE_COMMAND. *)
Fixpoint invoke_loop (ps : list MsgParam) (user : Params) (ui : usize) : Params :=
  match ps with
  | [] => user
  | p :: ps' =>
      if is_meta p then invoke_loop ps' user ui
      else let '(user, ui) := add_user user ui p in invoke_loop ps' user ui
  end.

Definition decode_cmd (pool : list u8) (cookie : u64) : res unit KernelCmd :=
  let? (hdr, params, _) := map_err (fun _ => tt) (decode_msg pool cookie) in
  let cmd := m_cmd hdr in
  if cmd =? MSG_CMD_OPEN_SESSION then
    let? ps := first_n params (m_num_params hdr) in
    let '(uuid, login, user) := open_loop 0 ps (zeros 16) Public none_params 0 in
    Ok (OpenSession uuid login user (m_cancel_id hdr) TEE_TIMEOUT_INFINITE)
  else if cmd =? MSG_CMD_INVOKE_COMMAND then
    let? ps := first_n params (m_num_params hdr) in
    Ok (Invoke (m_session hdr) (m_func hdr) (invoke_loop ps none_params 0) (m_cancel_id hdr) TEE_TIMEOUT_INFINITE)
  else if cmd =? MSG_CMD_CLOSE_SESSION then Ok (CloseSession (m_session hdr))
  else if cmd =? MSG_CMD_CANCEL then Ok (Cancel (m_cancel_id hdr))
  else Err tt.

(** [params[i].b = size] for an output memref, otherwise unchanged. *)
Definition write_back (p : MsgParam) (q : Param) : MsgParam :=
  match q with
  | PMemref _ size dir =>
      if bool_decide (dir <> In_)
      then {| p_attr := p_attr p; p_a := p_a p; p_b := size; p_c := p_c p |} else p
  | _ => p
  end.

Fixpoint done_loop (ps : list MsgParam) (produced : Params) (ui : usize) : list MsgParam :=
  match ps with
  | [] => []
  | p :: ps' =>
      if is_meta p then p :: done_loop ps' produced ui
      else if ui <? PARAM_COUNT
      then write_back p (nth (Z.to_nat ui) produced PNone) :: done_loop ps' produced (ui + 1)
      else p :: done_loop ps' produced ui
  end.

Definition done_hdr (hdr : MsgArgHdr) (ret origin session : u32) : MsgArgHdr :=
  {| m_cmd := m_cmd hdr; m_func := m_func hdr; m_session := session; m_cancel_id := m_cancel_id hdr;
     m_pad := m_pad hdr; m_ret := ret; m_ret_origin := origin; m_num_params := m_num_params hdr |}.

(** The pool afterwards: unchanged when the message cannot be decoded or
    written. *)
Definition write_done (pool : list u8) (cookie : u64) (ret origin session : u32) (produced : Params)
  : res unit (list u8) :=
  match decode_msg pool cookie with
  | Panic => Panic
  | Err _ => Ok pool
  | Ok (hdr, params, _) =>
      let hdr := done_hdr hdr ret origin session in
      let? ps := first_n params (m_num_params hdr) in
      match write_msg pool cookie hdr (done_loop ps produced 0) with
      | Panic => Panic
      | Err _ => Ok pool
      | Ok (pool, _) => Ok pool
      end
  end.

(** * UUID words *)

(** Three fields packed into 64 bits with shifts, and back. *)
Definition pack_fields (tl tm th : Z) : Z :=
  Z.lor (Z.lor (wrap 64 (Z.shiftl tl 32)) (wrap 64 (Z.shiftl tm 16))) th.

Lemma pack_fields_sum tl tm th : in_width 32 tl -> in_width 16 tm -> in_width 16 th ->
  pack_fields tl tm th = tl * 2 ^ 32 + tm * 2 ^ 16 + th.
Proof.
  unfold in_width. intros Hl Hm Hh. unfold pack_fields. rewrite !Z.shiftl_mul_pow2 by lia.
  rewrite !wrap_id by (unfold in_width; lia).
  rewrite lor_disjoint_add by lia.
  replace (tl * 2 ^ 32 + tm * 2 ^ 16) with ((tl * 2 ^ 16 + tm) * 2 ^ 16) by lia.
  by rewrite lor_disjoint_add by lia.
Qed.

Lemma fields_of_pack tl tm th : in_width 32 tl -> in_width 16 tm -> in_width 16 th ->
  let hi := pack_fields tl tm th in
  as_u32 (Z.shiftr hi 32) = tl /\ as_u16 (Z.shiftr hi 16) = tm /\ as_u16 hi = th.
Proof.
  intros Hl Hm Hh hi. unfold hi. rewrite pack_fields_sum by done. unfold in_width, as_u32, as_u16, wrap in *.
  rewrite !Z.shiftr_div_pow2 by lia. split_and!; Z.to_euclidean_division_equations; lia.
Qed.

Lemma pack_of_fields hi : in_width 64 hi ->
  pack_fields (as_u32 (Z.shiftr hi 32)) (as_u16 (Z.shiftr hi 16)) (as_u16 hi) = hi.
Proof.
  unfold in_width. intros H. rewrite pack_fields_sum; [|apply wrap_width; lia..].
  unfold as_u32, as_u16, wrap. rewrite !Z.shiftr_div_pow2 by lia. Z.to_euclidean_division_equations. lia.
Qed.

Lemma uuid_from_words_bytes hi lo :
  uuid_from_words hi lo = to_be 4 (as_u32 (Z.shiftr hi 32)) ++ to_be 2 (as_u16 (Z.shiftr hi 16)) ++
                          to_be 2 (as_u16 hi) ++ to_be 8 lo.
Proof. reflexivity. Qed.

Lemma uuid_to_from_words hi lo : in_width 64 hi -> in_width 64 lo ->
  uuid_to_words (uuid_from_words hi lo) = (hi, lo).
Proof.
  intros Hh Hl. rewrite uuid_from_words_bytes. unfold uuid_to_words.
  change (sub _ 0 4) with (to_be 4 (as_u32 (Z.shiftr hi 32))).
  change (sub _ 4 2) with (to_be 2 (as_u16 (Z.shiftr hi 16))).
  change (sub _ 6 2) with (to_be 2 (as_u16 hi)).
  change (sub _ 8 8) with (to_be 8 lo).
  rewrite !from_to_be by (done || apply wrap_width; lia). f_equal. by apply pack_of_fields.
Qed.

Lemma uuid_from_to_words u : uuid_ok u ->
  in_width 64 (uuid_to_words u).1 /\ in_width 64 (uuid_to_words u).2 /\
  uuid_from_words (uuid_to_words u).1 (uuid_to_words u).2 = u.
Proof.
  intros [Hl Hb].
  pose proof (from_be_bound (sub u 0 4) (bytes_ok_sub _ _ _ Hb)) as B0. rewrite zlen_sub in B0 by (unfold zlen; lia).
  pose proof (from_be_bound (sub u 4 2) (bytes_ok_sub _ _ _ Hb)) as B1. rewrite zlen_sub in B1 by (unfold zlen; lia).
  pose proof (from_be_bound (sub u 6 2) (bytes_ok_sub _ _ _ Hb)) as B2. rewrite zlen_sub in B2 by (unfold zlen; lia).
  pose proof (from_be_bound (sub u 8 8) (bytes_ok_sub _ _ _ Hb)) as B3. rewrite zlen_sub in B3 by (unfold zlen; lia).
  cbn [fst snd uuid_to_words]. fold (pack_fields (from_be (sub u 0 4)) (from_be (sub u 4 2)) (from_be (sub u 6 2))).
  destruct (fields_of_pack (from_be (sub u 0 4)) (from_be (sub u 4 2)) (from_be (sub u 6 2))) as (F0 & F1 & F2);
    [unfold in_width; lia..|].
  split; [rewrite pack_fields_sum; unfold in_width; lia|]. split; [unfold in_width; lia|].
  rewrite uuid_from_words_bytes, F0, F1, F2.
  rewrite !to_from_be by (auto using bytes_ok_sub; symmetry; apply length_sub; unfold zlen; lia).
  do 16 (destruct u as [|? u]; [discriminate|]). destruct u; [reflexivity|discriminate].
Qed.

(** * The LOAD_TA exchange *)

Definition load_ta_dest : u64 := RPC_COOKIE + 96.

(** The parameters of a request for [uuid] whose second one announces [size]
    bytes at the destination. *)
Definition load_ta_params (uuid : Uuid) (size : u64) : list MsgParam :=
  [MsgParam_value ATTR_TYPE_VALUE_INPUT (uuid_to_words uuid).1 (uuid_to_words uuid).2 0;
   MsgParam_tmem ATTR_TYPE_TMEM_OUTPUT load_ta_dest size 0].

Lemma load_ta_params_wf uuid size : uuid_ok uuid -> in_width 64 size -> Forall MsgParam_wf (load_ta_params uuid size).
Proof.
  intros Hu Hs. destruct (uuid_from_to_words uuid Hu) as (H1 & H2 & _).
  unfold load_ta_params, MsgParam_wf. cbn [p_attr p_a p_b p_c MsgParam_value MsgParam_tmem].
  assert (in_width 64 0 /\ in_width 64 1 /\ in_width 64 0xa /\ in_width 64 load_ta_dest) as (? & ? & ? & ?) by by_compute.
  rewrite !Forall_cons_iff. by split_and!.
Qed.

Lemma pack_load_ta_image pool uuid :
  zlen pool = BOUNCE_POOL_SIZE ->
  pack_load_ta pool uuid =
    Ok (RPC_COOKIE, 96, splice pool RPC_COOKIE (hdr_bytes load_ta_hdr ++ params_bytes (load_ta_params uuid LOAD_TA_CAP))).
Proof.
  intros Hp. unfold pack_load_ta. rewrite (surjective_pairing (uuid_to_words uuid)). cbn [rbind].
  change (@uadd unit RPC_COOKIE (MSG_ARG_HDR_SIZE + 2 * MSG_PARAM_SIZE)) with (@Ok unit _ load_ta_dest). cbn [rbind].
  change (negb (load_ta_dest mod 8 =? 0) || (load_ta_dest <? RPC_COOKIE)) with false. cbn [negb].
  fold (load_ta_params uuid LOAD_TA_CAP).
  rewrite write_msg_image; [done|..]; try rewrite Hp; done.
Qed.

(** The LOAD_TA request and its reply: for every UUID the guest puts a
    96-byte message at its window that the client decodes to LOAD_TA with the
    words of that UUID and 2 MiB of room; no byte of the pool outside the
    message changes, so no message of the calling CA.  When the client puts an
    image that fits at the announced place and its size into the message, the
    guest reads back that image. *)
Theorem load_ta_exchange pool uuid image :
  zlen pool = BOUNCE_POOL_SIZE -> uuid_ok uuid -> zlen image <= LOAD_TA_CAP ->
  exists pool', pack_load_ta pool uuid = Ok (RPC_COOKIE, 96, pool') /\
    zlen pool' = BOUNCE_POOL_SIZE /\
    decode_msg pool' RPC_COOKIE = Ok (load_ta_hdr, pad6 (load_ta_params uuid LOAD_TA_CAP), 96) /\
    (forall off n, 0 <= off -> 0 <= n -> off + n <= RPC_COOKIE \/ RPC_COOKIE + 96 <= off ->
       sub pool' off n = sub pool off n) /\
    exists pool'', write_msg (splice pool' load_ta_dest image) RPC_COOKIE load_ta_hdr
                     (load_ta_params uuid (zlen image)) = Ok (pool'', 96) /\
      take_load_ta pool'' = Ok image.
Proof.
  intros Hp Hu Hi. rewrite (pack_load_ta_image pool uuid Hp).
  set (img := hdr_bytes load_ta_hdr ++ params_bytes (load_ta_params uuid LOAD_TA_CAP)).
  assert (zlen img = 96) as Himg by (unfold img; by rewrite zlen_app, zlen_hdr_bytes, zlen_params_bytes).
  assert (MsgArgHdr_wf load_ta_hdr) as Hwf by by_compute.
  pose proof (zlen_nonneg image). unfold BOUNCE_POOL_SIZE, LOAD_TA_CAP, RPC_COOKIE, load_ta_dest in *.
  assert (zlen (splice pool 0x800000 img) = zlen pool) as Hz by (apply zlen_splice; lia).
  eexists. split; [done|]. split; [lia|]. split.
  { unfold img. apply decode_msg_image; try done.
    - by apply load_ta_params_wf.
    - change (byte_size load_ta_hdr) with 96. lia.
    - lia. }
  split; [intros; apply sub_splice_other; lia|].
  set (pool2 := splice (splice pool _ _) _ image).
  assert (zlen pool2 = zlen pool) as Hz2 by (unfold pool2; rewrite zlen_splice; unfold RPC_COOKIE; lia).
  assert (0x800000 + byte_size load_ta_hdr <= zlen pool2) as Hfit by (change (byte_size load_ta_hdr) with 96; lia).
  rewrite write_msg_image by (done || lia).
  eexists. split; [done|]. unfold take_load_ta, RPC_COOKIE.
  rewrite decode_msg_image by (done || lia || (apply load_ta_params_wf; [done|unfold in_width; lia])).
  set (img2 := hdr_bytes load_ta_hdr ++ params_bytes (load_ta_params uuid (zlen image))).
  assert (zlen img2 = 96) as Himg2 by (unfold img2; by rewrite zlen_app, zlen_hdr_bytes, zlen_params_bytes).
  cbn [map_err rbind]. change (negb (m_ret load_ta_hdr =? 0)) with false.
  change (m_num_params load_ta_hdr <? 2) with false. cbn iota.
  change (pad6 _ !! 1%nat) with (Some (MsgParam_tmem ATTR_TYPE_TMEM_OUTPUT load_ta_dest (zlen image) 0)).
  cbn [or_panic rbind p_a p_b MsgParam_tmem]. unfold load_ta_dest, RPC_COOKIE.
  rewrite checked_add_ok by lia. cbn [ok_or rbind]. rewrite zlen_splice by lia. rewrite Hz2, Hp. decide_guards.
  cbn [orb]. unfold index_range. rewrite get_range_some by (rewrite ?zlen_splice; lia). cbn [or_panic].
  f_equal. replace (_ - _) with (zlen image) by lia. rewrite sub_splice_other by lia.
  unfold pool2. apply sub_splice_same; lia.
Qed.

(** A hostile reply: whatever the pool holds, reading the image never
    panics, and an accepted image is a range of the pool that starts in the
    RPC area. *)
Theorem take_load_ta_confined pool :
  bytes_ok pool -> zlen pool < 2 ^ 63 ->
  match take_load_ta pool with
  | Ok bs => exists dest, RPC_COOKIE <= dest /\ dest + zlen bs <= zlen pool /\ bs = sub pool dest (zlen bs)
  | Err e => True
  | Panic => False
  end.
Proof.
  intros Hb Hl. assert (0 <= RPC_COOKIE < 2 ^ 64 - 32) as Hc by by_compute. unfold take_load_ta.
  destruct (decode_msg pool RPC_COOKIE) as [[[hdr ps] n]|e|] eqn:E; cbn [map_err rbind]; [|done|].
  2:{ pose proof (decode_msg_outcome pool RPC_COOKIE Hb Hl Hc) as Ho. rewrite E in Ho. inversion Ho. }
  destruct (decode_msg_wf _ _ _ _ _ Hb Hl Hc E) as (_ & Hps & Hlen & _).
  destruct (negb _); [done|]. destruct (_ <? 2); [done|].
  destruct (ps !! 1%nat) as [p1|] eqn:Ep; [|apply lookup_ge_None in Ep; lia]. cbn [or_panic rbind].
  pose proof (Forall_lookup_1 _ _ _ _ Hps Ep) as Hwf. unfold MsgParam_wf in Hwf. inv_forall. unfold in_width in *.
  unfold checked_add. destruct (Z.ltb_spec (p_a p1 + p_b p1) (2 ^ 64)); cbn [ok_or rbind]; [|done].
  destruct (Z.ltb_spec (p_a p1) RPC_COOKIE); [done|]. destruct (Z.ltb_spec (zlen pool) (p_a p1 + p_b p1)); [done|].
  cbn [orb]. unfold index_range. rewrite get_range_some by lia. cbn [or_panic].
  exists (p_a p1). rewrite zlen_sub by lia. replace (p_a p1 + p_b p1 - p_a p1) with (p_b p1) by lia. done.
Qed.

(** * Decoding a command *)

(** A user parameter as the guest makes it: in range, memrefs at offset 0 of a
    cookie of the REE. *)
Definition guest_param (p : Param) : Prop :=
  param_ok p /\ match p with PMemref src _ _ => exists ck, src = Ree ck 0 | _ => True end.

Lemma param_guest p : MsgParam_wf p -> guest_param (param p).
Proof.
  intros Hp. unfold MsgParam_wf in Hp. inv_forall. unfold param.
  destruct (_ =? _); [done|]. destruct (_ || _).
  - split; [|done]. split; apply wrap_width; lia.
  - destruct (_ || _); [|done]. split; [|by eexists]. by split_and!.
Qed.

Definition user_ok (user : Params) : Prop := length user = 4%nat /\ Forall guest_param user.

Lemma add_user_ok user ui p : user_ok user -> MsgParam_wf p -> user_ok (add_user user ui p).1.
Proof.
  intros [Hl Hu] Hp. unfold add_user. destruct (_ <? _); cbn [fst]; [|done].
  split; [by rewrite length_insert|]. apply Forall_insert; [done|by apply param_guest].
Qed.

Lemma none_params_ok : user_ok none_params.
Proof. split; [done|]. apply list.Forall_replicate. done. Qed.

Lemma invoke_loop_ok ps user ui : Forall MsgParam_wf ps -> user_ok user -> user_ok (invoke_loop ps user ui).
Proof.
  revert user ui. induction ps as [|p ps IH]; intros user ui Hps Hu; [done|]. inv_forall. cbn [invoke_loop].
  destruct (is_meta p); [by apply IH|]. pose proof (add_user_ok user ui p Hu ltac:(done)) as Ha.
  destruct (add_user user ui p). by apply IH.
Qed.

Lemma uuid_from_words_ok hi lo : uuid_ok (uuid_from_words hi lo).
Proof.
  rewrite uuid_from_words_bytes. split; [done|]. unfold to_be. rewrite !bytes_ok_app.
  split_and!; apply bytes_ok_rev, to_le_ok.
Qed.

Lemma open_loop_ok i ps uuid user ui :
  Forall MsgParam_wf ps -> uuid_ok uuid -> user_ok user ->
  exists u us, open_loop i ps uuid Public user ui = (u, Public, us) /\ uuid_ok u /\ user_ok us.
Proof.
  revert i uuid user ui. induction ps as [|p ps IH]; intros i uuid user ui Hps Hu Hus.
  { exists uuid, user. done. }
  inv_forall. cbn [open_loop]. destruct (is_meta p).
  - destruct (_ && _); [apply IH; try done; apply uuid_from_words_ok|]. destruct (_ =? _); by apply IH.
  - pose proof (add_user_ok user ui p Hus ltac:(done)) as Ha. destruct (add_user user ui p). by apply IH.
Qed.

(** A command as the guest hands it to the kernel. *)
Definition guest_cmd (c : KernelCmd) : Prop :=
  match c with
  | OpenSession uuid login ps cid t => uuid_ok uuid /\ login = Public /\ user_ok ps /\ in_width 32 cid
  | Invoke s cmd ps cid t => in_width 32 s /\ in_width 32 cmd /\ user_ok ps /\ in_width 32 cid
  | CloseSession s => in_width 32 s
  | Cancel cid => in_width 32 cid
  | RpcComplete _ => False
  end.

Lemma decode_cmd_no_panic pool ck :
  bytes_ok pool -> zlen pool < 2 ^ 63 -> 0 <= ck < 2 ^ 64 - 32 -> decode_cmd pool ck <> Panic.
Proof.
  intros Hb Hl Hc. unfold decode_cmd. destruct (decode_msg _ _) as [[[hd ps] n]|e|] eqn:Em; cbn [map_err rbind].
  - destruct (decode_msg_wf _ _ _ _ _ Hb Hl Hc Em) as (_ & _ & H6 & Hn & _). rewrite first_n_ok by (unfold zlen; lia). cbn [rbind].
    destruct (open_loop _ _ _ _ _ _) as [[] ?]. repeat (destruct (_ =? _); [done|]). done.
  - done.
  - pose proof (decode_msg_outcome pool ck Hb Hl Hc) as Ho. rewrite Em in Ho. inversion Ho.
Qed.


(** * Writing the answer *)

Lemma length_done_loop ps produced ui : length (done_loop ps produced ui) = length ps.
Proof.
  revert ui. induction ps as [|p ps IH]; intros ui; cbn [done_loop]; [done|].
  destruct (is_meta p); [|destruct (_ <? _)]; cbn; by rewrite IH.
Qed.

Lemma write_back_wf p q : MsgParam_wf p -> param_ok q -> MsgParam_wf (write_back p q).
Proof.
  intros Hp Hq. destruct q as [|a b d|src size d]; cbn [write_back]; [done..|].
  case_bool_decide; [|done]. unfold MsgParam_wf in *. inv_forall. cbn [p_attr p_a p_b p_c].
  rewrite !Forall_cons_iff. destruct src; cbn in Hq; destruct_and?; by split_and!.
Qed.

Lemma done_loop_wf ps produced ui :
  Forall MsgParam_wf ps -> Forall param_ok produced -> Forall MsgParam_wf (done_loop ps produced ui).
Proof.
  intros Hps Hpr. revert ui. induction ps as [|p ps IH]; intros ui; cbn [done_loop]; [done|].
  inv_forall. specialize (IH ltac:(done)).
  destruct (is_meta p); [by apply Forall_cons|]. destruct (_ <? _); [|by apply Forall_cons].
  apply Forall_cons; [|done]. apply write_back_wf; [done|].
  destruct (nth_in_or_default (Z.to_nat ui) produced PNone) as [Hin| ->]; [|done].
  rewrite List.Forall_forall in Hpr. by apply Hpr.
Qed.

(** No memref among the results: no parameter of the message changes. *)
Lemma done_loop_values ps produced ui :
  (forall src size d, ~ In (PMemref src size d) produced) -> done_loop ps produced ui = ps.
Proof.
  intros Hv. revert ui. induction ps as [|p ps IH]; intros ui; cbn [done_loop]; [done|]. rewrite !IH.
  destruct (is_meta p); [done|]. destruct (_ <? _); [|done]. f_equal.
  destruct (nth_in_or_default (Z.to_nat ui) produced PNone) as [Hin| ->]; [|done].
  destruct (nth _ _ _); [done..|]. by apply Hv in Hin.
Qed.

(** Without metadata parameters the results line up with the message. *)
Lemma done_loop_zip ps produced ui :
  Forall (fun p => is_meta p = false) ps -> 0 <= ui -> ui + zlen ps <= 4 -> length produced = 4%nat ->
  done_loop ps produced ui = zip_with write_back ps (drop (Z.to_nat ui) produced).
Proof.
  intros Hm Hu Hl Hp. revert ui Hu Hl. induction ps as [|p ps IH]; intros ui Hu Hl; [done|].
  apply Forall_cons_1 in Hm as [Hm Hms]. rewrite zlen_cons in Hl. pose proof (zlen_nonneg ps).
  cbn [done_loop]. rewrite Hm, (proj2 (Z.ltb_lt ui PARAM_COUNT)) by (unfold PARAM_COUNT; lia).
  destruct (lookup_lt_is_Some_2 produced (Z.to_nat ui)) as [q Hq]; [lia|].
  rewrite (drop_S produced q (Z.to_nat ui) Hq). cbn [zip_with].
  rewrite (nth_lookup_Some _ _ PNone _ Hq), IH by (done || lia).
  by replace (Z.to_nat (ui + 1)) with (S (Z.to_nat ui)) by lia.
Qed.

Lemma take_pad6 ps (n : nat) : n = length ps -> take n (pad6 ps) = ps.
Proof. intros ->. unfold pad6. apply take_app_length. Qed.

Lemma bytes_ok_params ps : bytes_ok (params_bytes ps).
Proof.
  induction ps as [|p ps IH]; [by apply Forall_nil|]. unfold params_bytes. cbn [map concat]. apply bytes_ok_app.
  split; [|exact IH]. unfold param_bytes. rewrite !bytes_ok_app. split_and!; apply to_le_ok.
Qed.

Lemma bytes_ok_hdr h : bytes_ok (hdr_bytes h).
Proof. unfold hdr_bytes. rewrite !bytes_ok_app. split_and!; apply to_le_ok. Qed.

(** Writing the answer never panics and keeps the pool a pool. *)
Lemma write_done_total pool ck ret origin session produced :
  bytes_ok pool -> zlen pool < 2 ^ 63 -> 0 <= ck < 2 ^ 64 - 32 ->
  exists pool', write_done pool ck ret origin session produced = Ok pool' /\ zlen pool' = zlen pool /\ bytes_ok pool'.
Proof.
  intros Hb Hl Hc. unfold write_done. destruct (decode_msg pool ck) as [[[hdr ps] n]|e|] eqn:E; [|by exists pool|].
  2:{ pose proof (decode_msg_outcome pool ck Hb Hl Hc) as Ho. rewrite E in Ho. inversion Ho. }
  destruct (decode_msg_wf _ _ _ _ _ Hb Hl Hc E) as (Hh & _ & H6 & Hn6 & Ha & _ & Hfit).
  assert (0 <= m_num_params hdr) as Hn0 by (unfold MsgArgHdr_wf in Hh; inv_forall; unfold in_width in *; lia).
  cbn [m_num_params done_hdr]. rewrite first_n_ok by (unfold zlen; lia). cbn [rbind]. set (out := done_loop _ _ _).
  assert (zlen out = m_num_params hdr) as Ho.
  { unfold out, zlen. rewrite length_done_loop, length_take. cbn [m_num_params done_hdr]. lia. }
  rewrite write_msg_image by (done || lia). eexists. split; [done|]. split.
  - apply zlen_splice; [lia|]. rewrite zlen_app, zlen_hdr_bytes, zlen_params_bytes, Ho.
    unfold byte_size, MSG_ARG_HDR_SIZE, MSG_PARAM_SIZE in Hfit. lia.
  - apply bytes_ok_splice; [done|]. apply bytes_ok_app. split; [apply bytes_ok_hdr|apply bytes_ok_params].
Qed.

(** The answer: the message keeps its command, ids and metadata; the
    result, its origin and the session are written, and the size of each output
    memref; nothing outside the message changes.  Values a TA produced are not
    written: with no memref among the results the parameters are those the
    client sent. *)
Theorem write_done_message pool ck ret origin session produced hdr ps n :
  bytes_ok pool -> zlen pool < 2 ^ 63 -> 0 <= ck < 2 ^ 64 - 32 ->
  Forall (in_width 32) [ret; origin; session] -> length produced = 4%nat -> Forall param_ok produced ->
  decode_msg pool ck = Ok (hdr, ps, n) ->
  let sent := take (Z.to_nat (m_num_params hdr)) ps in
  exists pool' out, write_done pool ck ret origin session produced = Ok pool' /\
    decode_msg pool' ck = Ok (done_hdr hdr ret origin session, pad6 out, n) /\
    length out = length sent /\ zlen pool' = zlen pool /\
    (Forall (fun p => is_meta p = false) sent -> (length sent <= 4)%nat -> out = zip_with write_back sent produced) /\
    ((forall src size d, ~ In (PMemref src size d) produced) -> out = sent) /\
    (forall off k, 0 <= off -> 0 <= k -> off + k <= ck \/ ck + n <= off -> sub pool' off k = sub pool off k) /\
    sub pool' ck n = hdr_bytes (done_hdr hdr ret origin session) ++ params_bytes out.
Proof.
  intros Hb Hl Hc Hr Hpl Hpo Hd sent.
  destruct (decode_msg_wf _ _ _ _ _ Hb Hl Hc Hd) as (Hh & Hps & H6 & Hn6 & Ha & -> & Hfit).
  assert (MsgArgHdr_wf (done_hdr hdr ret origin session) /\ 0 <= m_num_params hdr) as [Hh' Hn0].
  { unfold MsgArgHdr_wf in *. inv_forall. unfold in_width in *. cbn [m_cmd m_func m_session m_cancel_id m_pad m_ret
      m_ret_origin m_num_params done_hdr]. rewrite !Forall_cons_iff. split_and!; try done; lia. }
  set (out := done_loop sent produced 0). exists (splice pool ck (hdr_bytes (done_hdr hdr ret origin session) ++ params_bytes out)), out.
  assert (length sent = Z.to_nat (m_num_params hdr)) as Hsl by (unfold sent; rewrite length_take; lia).
  assert (length out = length sent) as Hol by apply length_done_loop.
  assert (zlen out = m_num_params (done_hdr hdr ret origin session)) as Hzo by (unfold zlen; cbn; lia).
  assert (Forall MsgParam_wf out) as Hwo by (apply done_loop_wf; [by apply list.Forall_take|done]).
  assert (byte_size (done_hdr hdr ret origin session) = byte_size hdr) as Hbs by done.
  assert (zlen (hdr_bytes (done_hdr hdr ret origin session) ++ params_bytes out) = byte_size hdr) as Hlen.
  { rewrite zlen_app, zlen_hdr_bytes, zlen_params_bytes, Hzo. done. }
  assert (0 <= byte_size hdr) by (unfold byte_size, MSG_ARG_HDR_SIZE, MSG_PARAM_SIZE; lia).
  split_and!.
  - unfold write_done. rewrite Hd. cbn [m_num_params done_hdr]. rewrite first_n_ok by (unfold zlen; lia). cbn [rbind]. fold sent. fold out.
    by rewrite write_msg_image by (done || lia).
  - rewrite <- Hbs. apply decode_msg_image; try done; try lia. cbn in Hzo. lia.
  - done.
  - apply zlen_splice; lia.
  - intros Hm H4. unfold out. rewrite done_loop_zip by (done || unfold zlen; lia). done.
  - intros Hv. by apply done_loop_values.
  - intros. apply sub_splice_other; lia.
  - apply sub_splice_same; lia.
Qed.

(** * Witnesses *)

Module Sample.
(** An invoke of command 3 in session 5 with a value output and a buffer. *)
Definition hdr : MsgArgHdr :=
  {| m_cmd := MSG_CMD_INVOKE_COMMAND; m_func := 3; m_session := 5; m_cancel_id := 0; m_pad := 0; m_ret := 0;
     m_ret_origin := 0; m_num_params := 2 |}.
Definition params : list MsgParam :=
  [MsgParam_value ATTR_TYPE_VALUE_OUTPUT 1 2 0; MsgParam_tmem ATTR_TYPE_TMEM_OUTPUT 0x1000 64 0x1000].
Definition pool : list u8 := splice (zeros 256) 64 (hdr_bytes hdr ++ params_bytes params).
Definition produced : Params := [PValue 7 8 Out; PMemref (Ree 0x1000 0) 17 Out; PNone; PNone].
(** The hello-rs TA. *)
Definition uuid : Uuid := [0x8d; 0x82; 0x5f; 0x6a; 0x1c; 0x4b; 0x4c; 0x9f; 0x9e; 0x3a; 0x2b; 0x7c; 0x6d; 0x5e; 0x4f; 0x30].
End Sample.

Lemma load_ta_exchange_witness :
  exists pool', pack_load_ta (zeros BOUNCE_POOL_SIZE) Sample.uuid = Ok (RPC_COOKIE, 96, pool') /\
    decode_msg pool' RPC_COOKIE =
      Ok (load_ta_hdr, pad6 [MsgParam_value ATTR_TYPE_VALUE_INPUT 0x8d825f6a1c4b4c9f 0x9e3a2b7c6d5e4f30 0;
                             MsgParam_tmem ATTR_TYPE_TMEM_OUTPUT 0x800060 0x200000 0], 96).
Proof.
  destruct (load_ta_exchange (zeros BOUNCE_POOL_SIZE) Sample.uuid [1; 2; 3]) as (pool' & H1 & _ & H2 & _).
  - apply zlen_zeros. discriminate.
  - by_compute.
  - vm_compute. discriminate.
  - exists pool'. split; [exact H1|exact H2].
Defined.

Lemma take_load_ta_confined_witness :
  match take_load_ta Sample.pool with
  | Ok bs => exists dest, RPC_COOKIE <= dest /\ dest + zlen bs <= zlen Sample.pool /\ bs = sub Sample.pool dest (zlen bs)
  | Err e => True
  | Panic => False
  end.
Proof. apply take_load_ta_confined; [by_compute|vm_compute; reflexivity]. Defined.


(** The size of the buffer comes back, the value does not. *)
Lemma write_done_message_witness :
  exists pool', write_done Sample.pool 64 0 4 5 Sample.produced = Ok pool' /\
    decode_msg pool' 64 = Ok (done_hdr Sample.hdr 0 4 5,
      pad6 [MsgParam_value ATTR_TYPE_VALUE_OUTPUT 1 2 0; MsgParam_tmem ATTR_TYPE_TMEM_OUTPUT 0x1000 17 0x1000], 96).
Proof.
  destruct (write_done_message Sample.pool 64 0 4 5 Sample.produced Sample.hdr (pad6 Sample.params) 96)
    as (pool' & out & H1 & H2 & _ & _ & H3 & _).
  - by_compute.
  - by_compute.
  - lia.
  - by_compute.
  - reflexivity.
  - repeat first [apply Forall_nil | apply Forall_cons; [cbn [param_ok]|]]; by_compute.
  - vm_compute. reflexivity.
  - exists pool'. split; [exact H1|]. rewrite H2, H3; [reflexivity|by_compute|vm_compute; lia].
Defined.
