(* ===== verification/Guest.v ===== *)
(** The guest's main loop (src/guest/rustee-guest/src/main.rs): virtio-vsock
    packets in, kernel calls, packets out.  The virtqueues are the list of
    packets received and the list sent; the text on the UART is left out (its
    [write_str] always succeeds).

    [fail_halt] prints and stops; a Rust panic ends in the panic handler, which
    loops forever: no caller hands it to [Kernel::on_panic]. *)
From Stdlib Require Import ZArith Lia.
From stdpp Require Import base list gmap numbers.
From S2P Require Import Prelude Proto Abi Header Iface Tables Elf Kernel HalVirt ProtoCmd.

Local Open Scope Z_scope.
Local Open Scope rust_scope.

Section Guest.
Context {PTA : Type} `{!CryptoProvider} `{!PtaOps PTA} `{!TaCode VirtHal}.
Context (image_addr : list (list u8) -> u64).
#[local] Instance guest_hal : HalOps VirtHal VirtAs := virt_hal image_addr.
Abbreviation K := (Kernel VirtHal VirtAs PTA).

(** The kernel, the call that waits for an RPC reply, and what was sent. *)
Record GuestState := { gk : K; waiting : option CallFrame; tx : list (list u8) }.

Inductive gout := Running (g : GuestState) | FailHalt | PanicLoop.

Definition set_k (g : GuestState) (k : K) : GuestState := {| gk := k; waiting := waiting g; tx := tx g |}.
Definition set_waiting (g : GuestState) (w : option CallFrame) : GuestState := {| gk := gk g; waiting := w; tx := tx g |}.
Definition add_out (g : GuestState) (pkt : list u8) : GuestState :=
  {| gk := gk g; waiting := waiting g; tx := tx g ++ [pkt] |}.
Definition hal_mut (g : GuestState) (h : VirtHal) : GuestState := set_k g (set_hal (gk g) h).

Definition gbind (o : gout) (f : GuestState -> gout) : gout :=
  match o with Running g => f g | FailHalt => FailHalt | PanicLoop => PanicLoop end.

Definition send_rw (g : GuestState) (vh : VirtioVsockHdr) (pdu : list u8) : GuestState :=
  add_out g (VirtioVsockHdr_encode vh ++ pdu).

(** [if let Ok((vh, pdu)) = complete_stream(frame) { send_rw(..) }] *)
Definition complete_rw (g : GuestState) (frame : CallFrame) : gout :=
  match complete_stream (hal (gk g)) frame with
  | (Ok (vh, pdu), h) => Running (send_rw (hal_mut g h) vh pdu)
  | (Err _, h) => Running (hal_mut g h)
  | (Panic, _) => PanicLoop
  end.

(** [if let Some(buf) = bounce_at_mut(0, POOL) { write_done(buf, ..) }] *)
Definition write_done_at (g : GuestState) (ck : u64) (ret origin session : u32) (ps : Params) : gout :=
  match bounce_at (hal (gk g)) 0 BOUNCE_POOL_SIZE with
  | None => Running g
  | Some buf =>
      match write_done buf ck ret origin session ps with
      | Ok buf => Running (hal_mut g (set_mem (hal (gk g)) (splice (bounce_mem (hal (gk g))) 0 buf)))
      | Err _ => Running g
      | Panic => PanicLoop
      end
  end.

Definition send_load_ta (g : GuestState) (uuid : Uuid) : gout :=
  let h := hal (gk g) in
  match bounce_at h 0 BOUNCE_POOL_SIZE with
  | None => FailHalt
  | Some buf =>
      match pack_load_ta buf uuid with
      | Panic => PanicLoop
      | Err _ => FailHalt
      | Ok (ck, len, buf) =>
          let h := set_mem h (splice (bounce_mem h) 0 buf) in
          let h := set_rpc_window h ck len in
          let rpc_frame := set_cookie_a1a2 CallFrame_default ck in
          let h := set_gate h (snd (gate_rpc_yield (gate h) rpc_frame)) in
          match take_tx h with
          | Panic => PanicLoop
          | Err _ => FailHalt
          | Ok (None, _) => FailHalt
          | Ok (Some (hdr, fr, bounce), h) =>
              let g := hal_mut g h in
              let pdu := encode_pdu hdr fr bounce in
              match wrap_outgoing h pdu with
              | Ok vh => Running (send_rw g vh pdu)
              | Err _ => Running g
              | Panic => PanicLoop
              end
          end
      end
  end.

Definition dispatch_out (g : GuestState) (frame : CallFrame) (out : KernelOut) : gout :=
  match out with
  | Done result session params =>
      gbind (write_done_at g (cookie_a1a2 frame) (code result) (Origin_as_gp (origin result))
               (default 0 session) params)
        (fun g => complete_rw g frame)
  | Rpc (RpcLoadTa uuid) => gbind (send_load_ta g uuid) (fun g => Running (set_waiting g (Some frame)))
  | Rpc _ => FailHalt
  end.

Definition import_perms (d : Dir) : Perms :=
  match d with In_ => Perms_READ | Out => Perms_WRITE | InOut => Perms_RW end.

(** One parameter of [import_memrefs]: the result of [import_shm] is ignored. *)
Definition import_param (h : VirtHal) (p : Param) : res HalError VirtHal :=
  match p with
  | PMemref (Ree ck offs) size dir =>
      let? start := uadd ck offs in
      let len := Z.max size 1 in
      match import_shm h start len (import_perms dir) with
      | Ok h => Ok h
      | Err _ => Ok h
      | Panic => Panic
      end
  | _ => Ok h
  end.

Fixpoint import_params (h : VirtHal) (ps : Params) : res HalError VirtHal :=
  match ps with
  | [] => Ok h
  | p :: ps' => let? h := import_param h p in import_params h ps'
  end.

Definition import_memrefs (h : VirtHal) (cmd : KernelCmd) : res HalError VirtHal :=
  match cmd with
  | OpenSession _ _ ps _ _ => import_params h ps
  | Invoke _ _ ps _ _ => import_params h ps
  | _ => Ok h
  end.

(** [k.handle(cmd)] and what is done with its result. *)
Definition handle_cmd (g : GuestState) (frame : CallFrame) (cmd : KernelCmd) : gout :=
  match handle true (gk g) cmd with
  | KPanic _ => PanicLoop
  | KRet out k => dispatch_out (set_k g k) frame out
  end.

Definition handle_enter (g : GuestState) (frame : CallFrame) : gout :=
  let ck := cookie_a1a2 frame in
  match bounce_at (hal (gk g)) 0 BOUNCE_POOL_SIZE with
  | None => FailHalt
  | Some pool =>
      match decode_cmd pool ck with
      | Panic => PanicLoop
      | Err _ => gbind (write_done_at g ck 0xFFFF0006 4 0 none_params) (fun g => complete_rw g frame)
      | Ok cmd =>
          match import_memrefs (hal (gk g)) cmd with
          | Ok h => handle_cmd (hal_mut g h) frame cmd
          | Err _ => PanicLoop
          | Panic => PanicLoop
          end
      end
  end.

Definition handle_rpc_reply (g : GuestState) (enter : CallFrame) : gout :=
  match bounce_at (hal (gk g)) 0 BOUNCE_POOL_SIZE with
  | None => FailHalt
  | Some pool =>
      match take_load_ta pool with
      | Panic => PanicLoop
      | Ok bs => handle_cmd g enter (RpcComplete (RespLoadTa bs))
      | Err code => handle_cmd g enter (RpcComplete (RespError code))
      end
  end.

(** [if let Ok(cu) = credit_update() { add_out(cu.encode()) }] *)
Definition send_credit (g : GuestState) : gout :=
  match credit_update (hal (gk g)) with
  | Ok cu => Running (add_out g (VirtioVsockHdr_encode cu))
  | Err _ => Running g
  | Panic => PanicLoop
  end.

Definition on_request (g : GuestState) (hdr : VirtioVsockHdr) : gout :=
  match accept_connect (hal (gk g)) hdr with
  | Ok (resp, h) => send_credit (add_out (hal_mut g h) (VirtioVsockHdr_encode resp))
  | Err _ => FailHalt
  | Panic => PanicLoop
  end.

(** Data from the host: one PDU at most is taken per packet. *)
Definition on_rw (g : GuestState) (hdr : VirtioVsockHdr) (payload : list u8) : gout :=
  match push_host_rw (hal (gk g)) hdr payload with
  | Panic => PanicLoop
  | Err _ => Running g
  | Ok h =>
      let g := hal_mut g h in
      gbind
        (match waiting g with
         | Some enter =>
             match recv_rpc_reply h with
             | (Ok _, h) => handle_rpc_reply (set_waiting (hal_mut g h) None) enter
             | (Err NotFound, h) => Running (hal_mut g h)
             | (Err _, _) => FailHalt
             | (Panic, _) => PanicLoop
             end
         | None =>
             match recv_enter h with
             | (Ok frame, h) => handle_enter (hal_mut g h) frame
             | (Err _, h) => Running (hal_mut g h)
             | (Panic, _) => PanicLoop
             end
         end)
        send_credit
  end.

(** The receive buffer, and the data one packet can carry in it. *)
Definition RXBUF_LEN : usize := 4096.
Definition RW_MAX : usize := RXBUF_LEN - VIRTIO_VSOCK_HDR_LEN.

(** One used buffer of the receive queue: the device reports [len] bytes,
    [pkt].  The header is read from the buffer's front; the slice
    [rxbuf[44..len]] panics when the device reports more than the buffer holds. *)
Definition vsock_step (g : GuestState) (pkt : list u8) : gout :=
  if zlen pkt <? VIRTIO_VSOCK_HDR_LEN then Running g else
  match VirtioVsockHdr_decode (sub pkt 0 VIRTIO_VSOCK_HDR_LEN) with
  | Panic => PanicLoop
  | Err _ => Running g
  | Ok hdr =>
      if RXBUF_LEN <? zlen pkt then PanicLoop else
      let payload := drop (Z.to_nat VIRTIO_VSOCK_HDR_LEN) pkt in
      if op hdr =? VIRTIO_VSOCK_OP_REQUEST then on_request g hdr
      else if op hdr =? VIRTIO_VSOCK_OP_RW then on_rw g hdr payload
      else if op hdr =? VIRTIO_VSOCK_OP_CREDIT_REQUEST then send_credit g
      else Running g
  end.

Fixpoint vsock_loop (g : GuestState) (pkts : list (list u8)) : gout :=
  match pkts with
  | [] => Running g
  | p :: ps => gbind (vsock_step g p) (fun g => vsock_loop g ps)
  end.
End Guest.
