(* ===== verification/GuestProps.v ===== *)
(** Properties of the guest's main loop: every call is answered, in the window
    and with the sequence number of its ENTER; a buffer the guest could not
    import ends the session it was meant for. *)
From Stdlib Require Import ZArith Lia.
From stdpp Require Import base list gmap numbers.
From S2P Require Import Prelude Proto Abi Header Iface Tables Elf Kernel KernelInv KernelFrame KernelProps KernelHal HalVirt ProtoCmd Guest.

Local Open Scope Z_scope.
Local Open Scope rust_scope.

(** * What TA code may do to the HAL: write the bounce pool *)

Definition mem_only (h h' : VirtHal) : Prop :=
  exists m, h' = set_mem h m /\ zlen m = zlen (bounce_mem h) /\ (bytes_ok (bounce_mem h) -> bytes_ok m).

Lemma set_mem_same h : set_mem h (bounce_mem h) = h.
Proof. by destruct h. Qed.

#[export] Instance mem_only_preorder : PreOrder mem_only.
Proof.
  split.
  - intros h. exists (bounce_mem h). by rewrite set_mem_same.
  - intros h1 h2 h3 (m1 & -> & Hl1 & Hb1) (m2 & -> & Hl2 & Hb2). exists m2. cbn [bounce_mem set_mem] in *.
    split; [done|]. split; [congruence|]. auto.
Qed.

#[export] Instance virt_hal_confined image_addr : HalConfined (virt_hal image_addr) mem_only.
Proof.
  split.
  - done.
  - intros h c r h'. cbn. by destruct (lookup_shm h c); intros [= _ <-].
  - intros h c r h'. cbn. by destruct (lookup_shm h c); intros [= _ <-].
Qed.

(** The virt HAL's [sync_in] leaves the registered buffers, so on it the
    parameters a TA is given lie in the buffers registered at the call. *)
Lemma virt_sync_keeps_len image_addr : sync_keeps_len (HalOps0:=virt_hal image_addr).
Proof. intros h c r h1 c'. cbn. by destruct (lookup_shm h c); intros [= _ <-]. Qed.

(** The pool of the guest: 16 MiB of bytes. *)
Definition pool_full (h : VirtHal) : Prop :=
  zlen (bounce_mem h) = BOUNCE_POOL_SIZE /\ bounce_len h = BOUNCE_POOL_SIZE /\ bytes_ok (bounce_mem h).

Lemma pool_full_ok h : pool_full h -> pool_ok h.
Proof. intros (H1 & H2 & _). split; [congruence|]. by rewrite H2. Qed.

Lemma mem_only_full h h' : mem_only h h' -> pool_full h -> pool_full h'.
Proof. intros (m & -> & Hl & Hb) (H1 & H2 & H3). split_and!; cbn; [congruence|done|auto]. Qed.

Lemma bounce_at_full h : pool_full h -> bounce_at h 0 BOUNCE_POOL_SIZE = Some (bounce_mem h).
Proof.
  intros (H1 & _). unfold bounce_at. rewrite checked_add_ok by done. rewrite get_range_some by (unfold BOUNCE_POOL_SIZE in *; lia).
  f_equal. by apply sub_all.
Qed.

Lemma splice_all {A} (l new : list A) : zlen new = zlen l -> splice l 0 new = new.
Proof. intros H. apply splice_whole. unfold zlen in H. lia. Qed.

(** * Importing buffers changes only the table of shared objects *)

Lemma import_shm_frame h off len p h' : import_shm h off len p = Ok h' -> h' = set_shms h (shms h').
Proof.
  unfold import_shm. destruct (p_exec p); [done|]. destruct (uadd off len); cbn [rbind]; [|done..].
  destruct (_ <? _); [done|]. destruct (negb _); [done|]. destruct (reimport _ _ _ _); [by intros [= <-]|].
  destruct (add_shm _ _); cbn [ok_or rbind]; [|done]. by intros [= <-].
Qed.

Lemma import_params_frame ps h h' : import_params h ps = Ok h' -> h' = set_shms h (shms h').
Proof.
  revert h. induction ps as [|p ps IH]; intros h; cbn [import_params]; [intros [= <-]; by destruct h|].
  destruct (import_param h p) as [h1| |] eqn:E; cbn [rbind]; [|done..]. intros Hi. apply IH in Hi.
  assert (h1 = set_shms h (shms h1)) as E1.
  { destruct p as [| |[ck offs|va] size dir]; cbn [import_param] in E; try (injection E as <-; by destruct h).
    destruct (uadd ck offs); cbn [rbind] in E; [|done..].
    destruct (import_shm _ _ _ _) eqn:Es; [|injection E as <-; by destruct h|done]. injection E as <-.
    by apply import_shm_frame in Es. }
  rewrite Hi, E1. done.
Qed.

Lemma import_memrefs_frame cmd h h' : import_memrefs h cmd = Ok h' -> h' = set_shms h (shms h').
Proof.
  destruct cmd; cbn [import_memrefs]; try (intros [= <-]; by destruct h); apply import_params_frame.
Qed.

Lemma import_memrefs_no_err cmd h e : import_memrefs h cmd <> Err e.
Proof.
  assert (forall ps h, import_params h ps <> Err e) as Hno.
  { clear h. induction ps as [|p ps IH]; intros h; cbn [import_params]; [done|].
    destruct (import_param h p) as [h'|e0|] eqn:E; cbn [rbind]; [apply IH| |done]. exfalso.
    destruct p as [| |[ck offs|va] size dir]; cbn [import_param] in E; try done.
    unfold uadd in E. destruct (checked_add _ _ _); cbn [or_panic rbind] in E; [|done].
    by destruct (import_shm _ _ _ _). }
  destruct cmd; cbn [import_memrefs]; try done; apply Hno.
Qed.

(** * The stream delivers bytes *)

Definition conn_bytes (h : VirtHal) : Prop := forall c, conn h = Some c -> bytes_ok (conn_rx c).

Lemma take_pdu_bytes c r c' : take_pdu c = (r, c') -> bytes_ok (conn_rx c) ->
  bytes_ok (conn_rx c') /\ (forall hdr f b, r = Ok (hdr, f, b) -> bytes_ok b).
Proof.
  unfold take_pdu. intros E Hb. destruct (_ <? _); [by injection E as <- <-|].
  destruct (VirtPdu_decode _); [|by injection E as <- <-..].
  destruct (negb _); [by injection E as <- <-|]. destruct (checked_add _ _ _); [|by injection E as <- <-].
  destruct (_ <? _); [by injection E as <- <-|]. injection E as <- <-. split.
  - cbn [conn_rx conn_with]. by apply Forall_drop.
  - intros hdr f b. destruct (decode_frame _); cbn [rbind]; [|done..]. intros [= _ _ <-].
    by apply Forall_drop, bytes_ok_sub.
Qed.

Lemma next_pdu_bytes h r h' : next_pdu h = (r, h') -> conn_bytes h ->
  conn_bytes h' /\ (forall hdr f b, r = Ok (hdr, f, b) -> bytes_ok b /\ is_Some (conn h')).
Proof.
  unfold next_pdu, conn_bytes. destruct (conn h) as [c|] eqn:Ec; [|intros [= <- <-] Hb; split; [by rewrite Ec|done]].
  unfold read_pdu. destruct (take_pdu c) as [r' c'] eqn:E. intros [= <- <-] Hb.
  destruct (take_pdu_bytes _ _ _ E (Hb c eq_refl)) as [H1 H2]. split.
  - cbn. by intros ? [= <-].
  - intros hdr f b Hr. split; [by eapply H2|]. cbn. by eexists.
Qed.

(** A PDU off the stream says how much data it carries. *)
Lemma next_pdu_lengths h hdr f b h' :
  next_pdu h = (Ok (hdr, f, b), h') -> conn_bytes h ->
  pdu_arg_len hdr = CALL_FRAME_LEN /\ zlen b = pdu_bounce_len hdr.
Proof.
  unfold next_pdu, conn_bytes. destruct (conn h) as [c|]; [|done]. unfold read_pdu, take_pdu. intros E Hb.
  specialize (Hb c eq_refl). destruct (Z.ltb_spec (zlen (conn_rx c)) PDU_HDR_LEN); [done|].
  destruct (VirtPdu_decode _) as [hd| |] eqn:Ed; [|done..].
  assert (0 <= pdu_bounce_len hd) as H0.
  { unfold VirtPdu_decode in Ed. destruct (_ <? _); [done|]. destruct (negb _); [done|]. injection Ed as <-.
    cbn [pdu_bounce_len]. by apply le32_bound, bytes_ok_sub. }
  destruct (Z.eqb_spec (pdu_arg_len hd) CALL_FRAME_LEN) as [Ha|]; cbn [negb] in E; [|done].
  destruct (checked_add _ _ _) as [t|] eqn:Et; [|done]. apply checked_add_Some in Et as [-> _].
  destruct (Z.ltb_spec (zlen (conn_rx c)) (PDU_HDR_LEN + CALL_FRAME_LEN + pdu_bounce_len hd)); [done|].
  destruct (decode_frame _); cbn [rbind] in E; [|done..]. injection E as <- <- <- _. split; [done|].
  unfold PDU_HDR_LEN, CALL_FRAME_LEN in *. rewrite zlen_drop; rewrite zlen_sub; lia.
Qed.

(** The window an ENTER names lies in the pool. *)
Definition in_pool (ehdr : PduHeader) (frame : CallFrame) : Prop :=
  cookie_a1a2 frame + pdu_bounce_len ehdr <= BOUNCE_POOL_SIZE.

(** What the ENTER at the head of the stream does to the gate and the pool. *)
Lemma recv_enter_full h ehdr frame b h0 :
  pool_full h -> conn_bytes h -> g_yielding (gate h) = false ->
  next_pdu h = (Ok (ehdr, frame, b), h0) -> pdu_kind ehdr = KIND_ENTER ->
  (~ in_pool ehdr frame /\ recv_enter h = (Err InvalidParam, h0)) \/
  (in_pool ehdr frame /\ exists h1, recv_enter h = (Ok frame, h1) /\ pool_full h1 /\ conn h1 = conn h0 /\
     gate h1 = {| g_yielding := false; g_rx := None; g_tx := g_tx (gate h); g_seq := pdu_seq ehdr;
                  last_cookie := cookie_a1a2 frame; last_bounce_len := pdu_bounce_len ehdr |}).
Proof.
  intros Hp Hc Hy E Hk. destruct (next_pdu_lengths _ _ _ _ _ E Hc) as [Ha Hb].
  destruct (proj2 (next_pdu_bytes _ _ _ E Hc) _ _ _ eq_refl) as [Hbytes _].
  pose proof (next_pdu_frame _ _ _ E) as E0. destruct Hp as (P1 & P2 & P3). pose proof (cookie_nonneg frame).
  pose proof (zlen_nonneg b). unfold recv_enter. rewrite E. unfold feed_pdu, copy_bounce_in, in_pool.
  rewrite Ha, Hb, !Z.eqb_refl. cbn [negb]. rewrite <- Hb.
  assert (bounce_len h0 = BOUNCE_POOL_SIZE /\ bounce_mem h0 = bounce_mem h /\ gate h0 = gate h) as (L0 & M0 & G0)
    by (by rewrite E0).
  destruct (decide (cookie_a1a2 frame + zlen b <= BOUNCE_POOL_SIZE)) as [Hin|Hout]; [right|left]; (split; [done|]).
  - unfold BOUNCE_POOL_SIZE in *. rewrite checked_add_ok by lia. cbn [ok_or rbind]. rewrite L0.
    rewrite (proj2 (Z.ltb_ge _ _)) by lia. unfold index_range. rewrite get_range_some by (rewrite ?M0; lia).
    cbn [or_panic rbind]. unfold gate_recv. cbn [gate set_gate set_mem gate_set_rx g_yielding g_rx].
    rewrite G0, Hy. unfold is_frame_of. rewrite Hk, Ha, !Z.eqb_refl. cbn [andb].
    eexists. split; [done|]. split; [|by rewrite Hb].
    split_and!; cbn [bounce_mem bounce_len set_gate set_mem]; [|done|].
    + rewrite M0, zlen_splice; [done|done|]. rewrite P1. lia.
    + rewrite M0. by apply bytes_ok_splice.
  - destruct (checked_add _ _ _) as [t|] eqn:Et; cbn [ok_or rbind]; [|done]. apply checked_add_Some in Et as [-> _].
    rewrite L0, (proj2 (Z.ltb_lt _ _)) by lia. done.
Qed.

(** * One answer per call *)

Section Answer.
Context {PTA : Type} `{!CryptoProvider} `{!PtaOps PTA} {T : TaCode VirtHal} `{!TaConfined T mem_only}.
Context (image_addr : list (list u8) -> u64).
#[local] Instance answer_hal : HalOps VirtHal VirtAs := virt_hal image_addr.
Abbreviation G := (GuestState (PTA:=PTA)).
Implicit Types g : G.

(** The call being served: [h0] is the HAL right after its ENTER.  The gate and
    the connection are those of the ENTER, the pool is whole. *)
Definition serving (h0 h : VirtHal) : Prop :=
  pool_full h /\ gate h = gate h0 /\ conn h = conn h0.

(** [pkt] carries a PDU of this kind with this sequence number. *)
Definition answers (seq : u32) (kind : u32) (pkt : list u8) : Prop :=
  exists vh fr b len, pkt = VirtioVsockHdr_encode vh ++
    encode_pdu {| pdu_kind := kind; pdu_seq := seq; pdu_arg_len := CALL_FRAME_LEN; pdu_bounce_len := len |} fr b.

Lemma serving_mem h0 h h' : serving h0 h -> mem_only h h' -> serving h0 h'.
Proof. intros (H1 & H2 & H3) Hm. split; [by eapply mem_only_full|]. by destruct Hm as (m & -> & _). Qed.

Lemma write_done_at_ok g ck ret origin session ps :
  pool_full (hal (gk g)) -> 0 <= ck < 2 ^ 64 - 32 ->
  exists h, write_done_at g ck ret origin session ps = Running (hal_mut g h) /\ mem_only (hal (gk g)) h.
Proof.
  intros Hp Hc. unfold write_done_at. rewrite bounce_at_full by done. destruct Hp as (P1 & P2 & P3).
  destruct (write_done_total (bounce_mem (hal (gk g))) ck ret origin session ps P3) as (m & -> & Hl & Hb);
    [by rewrite P1|done|].
  eexists. split; [done|]. rewrite splice_all by done. by exists m.
Qed.

Lemma complete_rw_ok g h0 frame :
  serving h0 (hal (gk g)) -> is_Some (conn h0) ->
  0 <= last_cookie (gate h0) -> 0 <= last_bounce_len (gate h0) ->
  last_cookie (gate h0) + last_bounce_len (gate h0) <= BOUNCE_POOL_SIZE ->
  exists h pkt, complete_rw g frame = Running (add_out (hal_mut g h) pkt) /\ answers (g_seq (gate h0)) KIND_COMPLETE pkt /\
    conn h = conn h0.
Proof.
  intros (Hp & Hg & Hc) [c Ec] H1 H2 H3. unfold complete_rw, complete_stream, take_tx.
  cbn [gate set_gate gate_complete g_tx gate_take_tx last_cookie out_hdr pdu_bounce_len]. rewrite Hg.
  unfold BOUNCE_POOL_SIZE in H3. rewrite uadd_ok by lia. cbn [rbind conn set_gate]. rewrite Hc, Ec. cbn [ok_or rbind].
  eexists _, _. split; [done|]. split; [by do 4 eexists|]. cbn [conn set_gate]. by rewrite Hc.
Qed.

Lemma send_load_ta_ok g h0 uuid :
  serving h0 (hal (gk g)) -> is_Some (conn h0) -> g_rx (gate h0) = None ->
  exists h pkt, send_load_ta g uuid = Running (add_out (hal_mut g h) pkt) /\ answers (g_seq (gate h0)) KIND_RPC pkt /\
    conn h = conn h0.
Proof.
  intros (Hp & Hg & Hc) [c Ec] Hrx. unfold send_load_ta. rewrite bounce_at_full by done.
  rewrite pack_load_ta_image by (by destruct Hp).
  unfold set_rpc_window, gate_rpc_yield, take_tx, wrap_outgoing.
  cbn [gate set_gate set_enter set_mem gate_set_window g_rx g_tx snd g_yielding]. rewrite Hg, Hrx.
  cbn [gate snd g_tx last_cookie gate_take_tx set_gate out_hdr pdu_bounce_len last_bounce_len gate_set_window].
  rewrite uadd_ok by (unfold RPC_COOKIE; lia). cbn [rbind conn set_gate set_enter set_mem]. rewrite Hc, Ec.
  cbn [ok_or rbind]. eexists _, _. split; [done|]. split; [by do 4 eexists|]. cbn. by rewrite Hc.
Qed.

(** What the loop does with a call once it has an outcome. *)
Definition answered (h0 : VirtHal) (frame : CallFrame) g (o : gout (PTA:=PTA)) : Prop :=
  exists k pkt w kind, o = Running {| gk := k; waiting := w; tx := tx g ++ [pkt] |} /\
    answers (g_seq (gate h0)) kind pkt /\ conn (hal k) = conn h0 /\
    (kind = KIND_COMPLETE /\ w = waiting g \/ kind = KIND_RPC /\ w = Some frame).

(** The window of the call lies in the pool. *)
Definition enter_ok (h0 : VirtHal) (frame : CallFrame) : Prop :=
  is_Some (conn h0) /\ g_rx (gate h0) = None /\ last_cookie (gate h0) = cookie_a1a2 frame /\
  0 <= last_bounce_len (gate h0) /\ cookie_a1a2 frame + last_bounce_len (gate h0) <= BOUNCE_POOL_SIZE.

Lemma cookie_range h0 frame : enter_ok h0 frame -> 0 <= cookie_a1a2 frame < 2 ^ 64 - 32.
Proof. intros (_ & _ & _ & H1 & H2). pose proof (cookie_nonneg frame). unfold BOUNCE_POOL_SIZE in H2. lia. Qed.

Lemma done_answered g h0 frame ret origin session ps :
  serving h0 (hal (gk g)) -> enter_ok h0 frame ->
  answered h0 frame g (gbind (write_done_at g (cookie_a1a2 frame) ret origin session ps) (fun g => complete_rw g frame)).
Proof.
  intros Hs He. pose proof (cookie_range _ _ He) as Hr. destruct He as (E1 & E2 & E3 & E4 & E5).
  destruct (write_done_at_ok g (cookie_a1a2 frame) ret origin session ps) as (h & -> & Hm); [by destruct Hs|done|].
  cbn [gbind]. destruct (complete_rw_ok (hal_mut g h) h0 frame) as (h' & pkt & -> & Ha & Hc);
    [by eapply serving_mem|done|lia|done|rewrite E3; done|].
  eexists _, pkt, _, KIND_COMPLETE. split; [done|]. split_and!; [done|exact Hc|by left].
Qed.

Lemma dispatch_answered g h0 frame out :
  serving h0 (hal (gk g)) -> enter_ok h0 frame ->
  (match out with Rpc r => exists u, r = RpcLoadTa u | _ => True end) ->
  answered h0 frame g (dispatch_out g frame out).
Proof.
  intros Hs He Ho. destruct out as [res s ps|r]; cbn [dispatch_out]; [by apply done_answered|].
  destruct Ho as [u ->]. destruct He as (E1 & E2 & _).
  destruct (send_load_ta_ok g h0 u Hs E1 E2) as (h & pkt & -> & Ha & Hc). cbn [gbind].
  eexists _, pkt, _, KIND_RPC. split; [done|]. split_and!; [done|exact Hc|by right].
Qed.

Lemma handle_cmd_answered g h0 frame cmd :
  serving h0 (hal (gk g)) -> enter_ok h0 frame ->
  answered h0 frame g (handle_cmd image_addr g frame cmd) \/
  handle_cmd image_addr g frame cmd = PanicLoop /\ (exists k', handle true (gk g) cmd = KPanic k').
Proof.
  intros Hs He. unfold handle_cmd. change (guest_hal image_addr) with answer_hal.
  pose proof (handle_hal mem_only true (gk g) cmd) as Hm.
  pose proof (handle_answer true (gk g) cmd) as Ha.
  destruct (handle true (gk g) cmd) as [out k|k]; [left|right; by split; [|eexists]].
  cbn [hal_moves answer_ok] in Hm, Ha.
  destruct (dispatch_answered (set_k g k) h0 frame out) as (k' & pkt & w & kind & -> & H1 & H2 & H3);
    [cbn [gk set_k]; by eapply serving_mem|done|by destruct out|].
  by exists k', pkt, w, kind.
Qed.

(** Whatever answered the call, the credit update follows it. *)
Lemma answered_credit g h1 frame o : waiting g = None -> is_Some (conn h1) -> answered h1 frame g o ->
  exists g' pkt credit kind, gbind o send_credit = Running g' /\ tx g' = tx g ++ [pkt; credit] /\
    answers (g_seq (gate h1)) kind pkt /\
    (kind = KIND_COMPLETE /\ waiting g' = None \/ kind = KIND_RPC /\ waiting g' = Some frame).
Proof.
  intros Hw [c1 Ec] (k & pkt & w & kind & -> & Ha & Hck & Hk). cbn [gbind]. unfold send_credit, credit_update.
  cbn [gk]. rewrite Hck, Ec. cbn [ok_or rbind]. eexists _, pkt, _, kind. split; [done|].
  cbn [add_out tx waiting]. rewrite Hw in Hk. split_and!; [by rewrite <- app_assoc|done..].
Qed.

End Answer.

(** * Buffers that cannot be imported *)

Lemma import_shm_aligned h off len p h' ck :
  import_shm h off len p = Ok h' -> ck mod MSG_ARG_ALIGN <> 0 -> lookup_shm h' ck = lookup_shm h ck.
Proof.
  unfold import_shm. destruct (p_exec p); [done|]. destruct (uadd off len); cbn [rbind]; [|done..].
  destruct (_ <? _); [done|]. destruct (Z.eqb_spec (off mod MSG_ARG_ALIGN) 0); cbn [negb]; [|done].
  intros Hi Hck. assert (ck <> off) as Hne by congruence.
  pose proof (reimport_spec (shms h) off len p) as Hr. destruct (reimport (shms h) off len p) as [l|].
  { injection Hi as <-. destruct Hr as (_ & _ & Ho). by apply Ho. }
  pose proof (add_shm_spec (shms h) {| shm_cookie := off; vshm_len := len; shm_perms := p |} Hr) as Ha.
  destruct (add_shm _ _) as [l|]; cbn [ok_or rbind] in Hi; [|done]. injection Hi as <-.
  destruct Ha as (_ & _ & Ho). by apply Ho.
Qed.

Lemma import_params_aligned ps h h' ck :
  import_params h ps = Ok h' -> ck mod MSG_ARG_ALIGN <> 0 -> lookup_shm h' ck = lookup_shm h ck.
Proof.
  intros Hi Hck. revert h Hi. induction ps as [|p ps IH]; intros h; cbn [import_params]; [by intros [= <-]|].
  destruct (import_param h p) as [h1| |] eqn:E; cbn [rbind]; [|done..]. intros Hi. rewrite (IH _ Hi).
  destruct p as [| |[c offs|va] size dir]; cbn [import_param] in E; try by injection E as <-.
  destruct (uadd c offs); cbn [rbind] in E; [|done..].
  destruct (import_shm _ _ _ _) eqn:Es; [|by injection E as <-|done]. injection E as <-.
  by eapply import_shm_aligned.
Qed.

Section Buffers.
Context {PTA : Type} `{!CryptoProvider} `{!PtaOps PTA} {T : TaCode VirtHal}.
Context (image_addr : list (list u8) -> u64).
#[local] Instance buffers_hal : HalOps VirtHal VirtAs := virt_hal image_addr.

(** An unaligned buffer ends a session: the guest ignores that the HAL
    refuses to import a buffer whose offset is not a multiple of 8, so the
    kernel does not find it; the invoke returns [TEE_ERROR_BAD_PARAMETERS] and
    every later invoke on that session returns [TEE_ERROR_TARGET_DEAD], although
    the TA never ran.  The client needs nothing but its own open session. *)
Theorem unaligned_buffer_kills_session (k : Kernel VirtHal VirtAs PTA) s sess i x asp ck size dir ps cmd cid t h :
  kernel_ok k -> notices_ok k = true -> cancelled k cid = false ->
  SessionTable.get (sessions k) s = Some sess -> kind sess = UserTa -> sess_state sess = Ready ->
  instance sess = Some i -> InstanceTable.get (instances k) i = Some x -> inst_state x = Live ->
  aspace x = Some asp ->
  ck mod MSG_ARG_ALIGN <> 0 -> lookup_shm (hal k) ck = None ->
  let c := Invoke s cmd (PMemref (Ree ck 0) size dir :: ps) cid t in
  import_memrefs (hal k) c = Ok h ->
  exists k', handle true (set_hal k h) c = KRet (done_err TEE_ERROR_BAD_PARAMETERS) k' /\
    forall cmd' ps' t', exists k'', handle true k' (Invoke s cmd' ps' cid t') =
               KRet (done_err TEE_ERROR_TARGET_DEAD) k''.
Proof.
  intros Hk Hn Hc Hs Hkd Hst Hi Hx HL Ha Hck Hno c Him.
  assert (lookup_shm h ck = None) as Hno' by (rewrite <- Hno; exact (import_params_aligned _ _ _ _ Him Hck)).
  destruct (unknown_buffer_dead true (set_hal k h) s sess i x asp ck 0 size dir ps cmd cid t) as (k' & H1 & _ & H2);
    try done.
  - cbn. by rewrite Hno'.
  - cbn. by rewrite Hno'.
  - by exists k'.
Qed.
End Buffers.

(** * Witnesses *)

Module Sample.
Export KernelProps.Sample.

(** TA code that leaves the HAL alone. *)
#[export] Instance ta : TaCode VirtHal :=
  {| ta_create := fun _ h => Returned TEE_SUCCESS h;
     ta_destroy := fun _ h => Returned tt h;
     ta_open_session := fun _ types raw h => Returned (TEE_SUCCESS, raw, 7) h;
     ta_close_session := fun _ _ h => Returned tt h;
     ta_invoke := fun _ _ cmd _ raw h => Returned (TEE_SUCCESS, raw) h |}.
#[export] Instance ta_confined : TaConfined ta mem_only.
Proof. split; intros; reflexivity. Qed.

(** The message of an open of the hello-rs TA, at offset 64 of the pool. *)
Definition msg : list u8 :=
  hdr_bytes {| m_cmd := MSG_CMD_OPEN_SESSION; m_func := 0; m_session := 0; m_cancel_id := 0; m_pad := 0; m_ret := 0;
               m_ret_origin := 0; m_num_params := 1 |} ++
  param_bytes (MsgParam_value (Z.lor ATTR_TYPE_VALUE_INPUT ATTR_META) 0x8d825f6a1c4b4c9f 0x9e3a2b7c6d5e4f30 0).
Definition frame : CallFrame := {| cf_r := [SMC_CALL_WITH_ARG; 0; 64; 0; 0; 0; 0; 0] |}.
Definition enter_hdr : PduHeader :=
  {| pdu_kind := KIND_ENTER; pdu_seq := 9; pdu_arg_len := CALL_FRAME_LEN; pdu_bounce_len := 64 |}.
Definition bytes : list u8 := encode_pdu enter_hdr frame msg.
Definition conn0 : VsockConn := HalVirt.Sample.fresh_conn.
Definition guest_hal0 : VirtHal := set_conn (VirtHal_init 0x10000000) (Some conn0).
Definition guest0 : GuestState (PTA:=unit) :=
  {| gk := Kernel_new (HalOps0 := virt_hal (fun _ => 0x50000000)) guest_hal0; waiting := None; tx := [] |}.
Lemma guest0_full : pool_full guest_hal0.
Proof.
  split_and!; [|done|apply bytes_ok_zeros]. cbn [bounce_mem guest_hal0 set_conn VirtHal_init]. by apply zlen_zeros.
Qed.

#[local] Instance virt : HalOps VirtHal VirtAs := virt_hal (fun _ => 0x50000000).
(** A kernel with one session of one instance, on a HAL with no shared object. *)
Definition writer : Writer := {| written := []; lines_left := 2 |}.
Definition kernel : Kernel VirtHal VirtAs unit := KernelProps.boot HalVirt.Sample.small writer None [] [early_ta].
Definition opened : Kernel VirtHal VirtAs unit :=
  match handle true kernel open_cmd with KRet _ k => k | KPanic k => k end.
Lemma virt_opened_ok : kernel_ok opened.
Proof.
  pose proof (KernelProps.boot_ok (H:=VirtHal) (AS:=VirtAs) (PTA:=unit) HalVirt.Sample.small writer None [] [early_ta])
    as (Hb & Hid & _).
  pose proof (handle_inv true 1 1 kernel open_cmd Hb Hid ltac:(by_compute) ltac:(by_compute)) as Hh.
  exists 2, 2. unfold opened. destruct (handle true kernel open_cmd) as [o k|k] eqn:E; [exact Hh|].
  exfalso. vm_compute in E. discriminate E.
Qed.
Definition bad_invoke : KernelCmd := Invoke 1 2 (PMemref (Ree 65 0) 16 In_ :: drop 1 none_params) 9 0.
End Sample.

Import Sample.


Lemma unaligned_buffer_kills_session_witness :
  exists k', handle (HalOps0 := Sample.virt) true Sample.opened Sample.bad_invoke =
      KRet (done_err TEE_ERROR_BAD_PARAMETERS) k' /\
    exists k'', handle (HalOps0 := Sample.virt) true k' (Invoke 1 2 none_params 9 0) =
      KRet (done_err TEE_ERROR_TARGET_DEAD) k''.
Proof.
  destruct (InstanceTable.get (instances Sample.opened) 1) as [x|] eqn:Ex; [|vm_compute in Ex; discriminate Ex].
  destruct (unaligned_buffer_kills_session (fun _ => 0x50000000) Sample.opened 1
    (sess_set_id 1 (new_session (replicate 16 6) UserTa (Some 1) 7 Public)) 1 x
    {| mapped := 0; as_pool_va := 0x10000; images := [] |} 65 16 In_ (drop 1 none_params) 2 9 0 (Kernel.hal Sample.opened)
    Sample.virt_opened_ok) as (k' & H1 & H2);
    [vm_compute; reflexivity|vm_compute; reflexivity|vm_compute; reflexivity|reflexivity|reflexivity|reflexivity
    |exact Ex|vm_compute in Ex; by injection Ex as <-|vm_compute in Ex; by injection Ex as <-
    |vm_compute; discriminate|vm_compute; reflexivity|vm_compute; reflexivity|].
  exists k'. split; [exact H1|]. apply H2.
Defined.
