(* ===== verification/GuestStream.v ===== *)
(** The PDU stream through the guest's loop: what the RW packets of the host,
    however they are cut, hand to the kernel.  The loop makes one attempt to take
    a PDU per packet ([on_rw] of [Guest]). *)
From Stdlib Require Import ZArith Lia.
From stdpp Require Import base list gmap numbers.
From S2P Require Import Prelude Proto Abi Header Iface Tables Elf Kernel KernelHal KernelInv KernelProps HalVirt ProtoCmd Guest GuestProps.

Local Open Scope Z_scope.
Local Open Scope rust_scope.

Section Stream.
Context {PTA : Type} `{!CryptoProvider} `{!PtaOps PTA} {T : TaCode VirtHal} `{!TaConfined T mem_only}.
Context (image_addr : list (list u8) -> u64).
#[local] Instance stream_hal : HalOps VirtHal VirtAs := virt_hal image_addr.
Abbreviation G := (GuestState (PTA:=PTA)).
Implicit Types g : G.

(** * Serving a PDU leaves the connection alone *)

Definition conn_of g : option VsockConn := conn (hal (gk g)).
Definition keeps (c : option VsockConn) (o : gout (PTA:=PTA)) : Prop :=
  match o with Running g => conn_of g = c | _ => True end.

Lemma keeps_bind c o f : keeps c o -> (forall g, conn_of g = c -> keeps c (f g)) -> keeps c (gbind o f).
Proof. destruct o; cbn; auto. Qed.

Lemma take_tx_conn h r h' : take_tx h = Ok (r, h') -> conn h' = conn h.
Proof.
  unfold take_tx. destruct (g_tx (gate h)) as [[hd f]|]; [|by intros [= _ <-]].
  destruct (uadd _ _); cbn [rbind]; [|done..]. by intros [= _ <-].
Qed.

Lemma write_done_keeps g ck r o s ps : keeps (conn_of g) (write_done_at g ck r o s ps).
Proof. unfold write_done_at. destruct (bounce_at _ _ _); [|done]. by destruct (write_done _ _ _ _ _ _). Qed.

Lemma complete_keeps g frame : keeps (conn_of g) (complete_rw g frame).
Proof.
  unfold complete_rw, complete_stream. destruct (take_tx _) as [[[[[hd f] b]|] h]| |] eqn:E; [| |done..];
    apply take_tx_conn in E; [|done]. by destruct (ok_or (conn h) NotFound).
Qed.

Lemma load_ta_keeps g uuid : keeps (conn_of g) (send_load_ta g uuid).
Proof.
  unfold send_load_ta. destruct (bounce_at _ _ _); [|done]. destruct (pack_load_ta _ _) as [[[ck len] buf]| |]; [|done..].
  destruct (take_tx _) as [[[[[hd f] b]|] h]| |] eqn:E; [|done..]. apply take_tx_conn in E.
  by destruct (wrap_outgoing _ _).
Qed.

Lemma handle_cmd_keeps g frame cmd : keeps (conn_of g) (handle_cmd image_addr g frame cmd).
Proof.
  unfold handle_cmd. change (guest_hal image_addr) with stream_hal.
  pose proof (handle_hal mem_only true (gk g) cmd) as Hm. destruct (handle true (gk g) cmd) as [out k|k]; [|done].
  assert (conn_of (set_k g k) = conn_of g) as <- by (unfold conn_of; cbn in Hm |- *; by destruct Hm as (m & -> & _)).
  destruct out as [res s ps|r]; [|destruct r]; cbn [dispatch_out]; try done; apply keeps_bind.
  - apply write_done_keeps.
  - intros g1 <-. apply complete_keeps.
  - apply load_ta_keeps.
  - done.
Qed.

Lemma enter_keeps g frame : keeps (conn_of g) (handle_enter image_addr g frame).
Proof.
  unfold handle_enter. destruct (bounce_at _ _ _); [|done]. destruct (decode_cmd _ _) as [cmd| |]; [| |done].
  - destruct (import_memrefs _ cmd) as [h| |] eqn:E; [|done..]. apply import_memrefs_frame in E.
    assert (conn_of (hal_mut g h) = conn_of g) as <- by (unfold conn_of; cbn; by rewrite E). apply handle_cmd_keeps.
  - apply keeps_bind; [apply write_done_keeps|]. intros g1 <-. apply complete_keeps.
Qed.

Lemma reply_keeps g enter : keeps (conn_of g) (handle_rpc_reply image_addr g enter).
Proof.
  unfold handle_rpc_reply. destruct (bounce_at _ _ _); [|done].
  destruct (take_load_ta _); [apply handle_cmd_keeps..|done].
Qed.

Lemma credit_keeps g : keeps (conn_of g) (send_credit g).
Proof. unfold send_credit. by destruct (credit_update _). Qed.

Lemma feed_conn h hd f b h' : feed_pdu h hd f b = Ok h' -> conn h' = conn h.
Proof.
  unfold feed_pdu, copy_bounce_in. destruct (negb _); [done|]. destruct (negb _); [done|].
  destruct (ok_or _ _); cbn [rbind]; [|done..]. destruct (_ <? _); [done|].
  destruct (index_range _ _ _); cbn [rbind]; [|done..]. by intros [= <-].
Qed.

Lemma recv_enter_conn h r h' : recv_enter h = (r, h') -> conn h' = conn (next_pdu h).2.
Proof.
  unfold recv_enter. destruct (next_pdu h) as [[[[hd f] b]| |] h0]; [|by intros [= _ <-]..].
  destruct (feed_pdu _ _ _ _) eqn:E; [|by intros [= _ <-]..]. apply feed_conn in E.
  destruct (gate_recv _). by intros [= _ <-].
Qed.

Lemma recv_reply_conn h r h' : recv_rpc_reply h = (r, h') -> conn h' = conn (next_pdu h).2.
Proof.
  unfold recv_rpc_reply. destruct (next_pdu h) as [[[[hd f] b]| |] h0]; [|by intros [= _ <-]..].
  destruct (negb _); [by intros [= _ <-]|].
  destruct (feed_pdu _ _ _ _) eqn:E; [|by intros [= _ <-]..]. apply feed_conn in E. by intros [= _ <-].
Qed.

(** The connection after a packet is the one [next_pdu] left. *)
Lemma on_rw_keeps g hdr payload h : push_host_rw (hal (gk g)) hdr payload = Ok h ->
  keeps (conn (next_pdu h).2) (on_rw image_addr g hdr payload).
Proof.
  intros E. unfold on_rw. rewrite E. apply keeps_bind; [|intros g1 <-; apply credit_keeps].
  destruct (waiting (hal_mut g h)) as [enter|].
  - destruct (recv_rpc_reply h) as [[f|e|] h1] eqn:Er; [| |done]; apply recv_reply_conn in Er; rewrite <- Er.
    + apply (reply_keeps (set_waiting (hal_mut (hal_mut g h) h1) None)).
    + by destruct e.
  - destruct (recv_enter h) as [[f|e|] h1] eqn:Er; [| |done]; apply recv_enter_conn in Er; rewrite <- Er; [|done].
    apply (enter_keeps (hal_mut (hal_mut g h) h1)).
Qed.

(** * A run over the host's packets *)

(** The PDU a packet hands to the guest: the one [recv_enter] or
    [recv_rpc_reply] takes off the stream once the packet is pushed. *)
Definition taken g (c : VsockConn) (ch : list u8) : list Pdu :=
  match push_host_rw (hal (gk g)) (host_rw c ch) ch with
  | Ok h => match (next_pdu h).1 with Ok p => [p] | _ => [] end
  | _ => []
  end.

(** The guest runs on the packets [chs] of its connection and is handed [got]. *)
Inductive rx_run : G -> list (list u8) -> list Pdu -> G -> Prop :=
| rx_done g : rx_run g [] [] g
| rx_more g c ch chs g1 got g2 :
    conn_of g = Some c -> on_rw image_addr g (host_rw c ch) ch = Running g1 -> rx_run g1 chs got g2 ->
    rx_run g (ch :: chs) (taken g c ch ++ got) g2.

(** [rx] is what the guest has buffered. *)
Definition buffered g (rx : list u8) : Prop := exists c, conn_of g = Some c /\ conn_rx c = rx.

Definition stream (ps : list Pdu) : list u8 := concat (map pdu_bytes ps).

(** One packet of a stream of PDUs. *)
Lemma packet_takes g c ch g1 rx p ps rest :
  conn_of g = Some c -> conn_rx c = rx -> on_rw image_addr g (host_rw c ch) ch = Running g1 ->
  pdu_wf p -> (rx ++ ch) ++ rest = pdu_bytes p ++ ps ->
  (exists rx1, taken g c ch = [p] /\ buffered g1 rx1 /\ rx1 ++ rest = ps) \/
  (taken g c ch = [] /\ buffered g1 (rx ++ ch) /\ (length (rx ++ ch) < length (pdu_bytes p))%nat).
Proof.
  intros Hc <- Hr Hp Hs. pose proof (push_host_rw_ok (hal (gk g)) c ch Hc) as Hpush.
  pose proof (on_rw_keeps g _ _ _ Hpush) as Hk. rewrite Hr in Hk. cbn [keeps] in Hk. unfold taken. rewrite Hpush.
  set (c1 := conn_with c _ _) in *. unfold next_pdu in *. cbn [conn set_conn] in *. unfold read_pdu in *.
  destruct (take_pdu_stream c1 p ps rest Hp Hs) as [(rx1 & Ht & Hrest)|[Ht Hl]]; rewrite Ht in *; cbn in Hk |- *.
  - left. exists rx1. split; [done|]. split; [|done]. by eexists.
  - right. split; [done|]. split; [|exact Hl]. by exists c1.
Qed.

(** An empty stream hands over nothing. *)
Lemma packet_empty g c g1 : conn_of g = Some c -> conn_rx c = [] ->
  on_rw image_addr g (host_rw c []) [] = Running g1 -> taken g c [] = [] /\ buffered g1 [].
Proof.
  intros Hc Hrx Hr. pose proof (push_host_rw_ok (hal (gk g)) c [] Hc) as Hpush.
  pose proof (on_rw_keeps g _ _ _ Hpush) as Hk. rewrite Hr in Hk. cbn [keeps] in Hk. unfold taken. rewrite Hpush.
  rewrite Hrx in *. set (c1 := conn_with c _ ([] ++ [])) in *. split; [reflexivity|]. by exists c1.
Qed.

Lemma run_prefix g chs got g' : rx_run g chs got g' -> forall rx ps rest,
  buffered g rx -> Forall pdu_wf ps -> rx ++ concat chs ++ rest = stream ps ->
  exists left rx', ps = got ++ left /\ buffered g' rx' /\ rx' ++ rest = stream left /\ (length got <= length chs)%nat.
Proof.
  induction 1 as [g|g c ch chs g1 got g2 Hc Hr _ IH]; intros rx ps rest Hb Hwf Hs.
  { exists ps, rx. by split_and!. }
  destruct Hb as (c' & Hc' & Hrx). assert (c' = c) as -> by congruence. cbn [concat] in Hs.
  destruct ps as [|p ps].
  - cbn in Hs. apply app_nil in Hs as [Hs1 Hs2]. rewrite <- app_assoc in Hs2. apply app_nil in Hs2 as [-> Hs2].
    subst rx. destruct (packet_empty g c g1 Hc Hs1 Hr) as [-> Hb1].
    destruct (IH [] [] rest Hb1 Hwf Hs2) as (l & rx' & E & H1 & H2 & H3). exists l, rx'. cbn. split_and!; try done. lia.
  - apply Forall_cons_1 in Hwf as [Hp Hwf]. change (stream (p :: ps)) with (pdu_bytes p ++ stream ps) in Hs.
    destruct (packet_takes g c ch g1 rx p (stream ps) (concat chs ++ rest) Hc Hrx Hr Hp) as
      [(rx1 & -> & Hb1 & Hs1)|(-> & Hb1 & _)]; [by rewrite <- !app_assoc in *|..].
    + destruct (IH rx1 ps rest Hb1 Hwf Hs1) as (l & rx' & -> & H1 & H2 & H3). exists l, rx'. cbn. split_and!; try done. lia.
    + destruct (IH (rx ++ ch) (p :: ps) rest Hb1) as (l & rx' & E & H1 & H2 & H3);
        [by constructor|by rewrite <- !app_assoc in *|]. exists l, rx'. cbn. split_and!; try done. lia.
Qed.

Lemma run_app chs1 chs2 g got g' : rx_run g (chs1 ++ chs2) got g' ->
  exists got1 g1 got2, rx_run g chs1 got1 g1 /\ rx_run g1 chs2 got2 g' /\ got = got1 ++ got2.
Proof.
  revert g got. induction chs1 as [|ch chs1 IH]; intros g got Hr; [by exists [], g, got; split_and!; [constructor|..]|].
  cbn in Hr. inversion Hr as [|? c ? ? gm got' ? Hc Ho Hr']; subst. destruct (IH gm got' Hr') as (a & g1 & b & H1 & H2 & ->).
  exists (taken g c ch ++ a), g1, b. split_and!; [by econstructor|done|by rewrite app_assoc].
Qed.

(** The packets of one PDU, and nothing else in them. *)
Definition cuts (p : Pdu) (chs : list (list u8)) : Prop :=
  concat chs = pdu_bytes p /\ Forall (fun ch => ch <> []) chs.

Lemma cut_taken p chs : forall g got g' rx, rx_run g chs got g' -> buffered g rx -> pdu_wf p ->
  rx ++ concat chs = pdu_bytes p -> Forall (fun ch => ch <> []) chs -> chs <> [] -> got = [p] /\ buffered g' [].
Proof.
  induction chs as [|ch chs IH]; intros g got g' rx Hr (c & Hc & Hrx) Hp Hs Hne Hnil; [done|].
  inversion Hr as [|? c' ? ? gm got' ? Hc' Ho Hr']; subst. assert (c' = c) as -> by congruence.
  apply Forall_cons_1 in Hne as [Hch Hne]. cbn [concat] in Hs.
  destruct (packet_takes g c ch gm (conn_rx c) p [] (concat chs) Hc eq_refl Ho Hp) as
    [(rx1 & -> & Hb1 & Hs1)|(-> & Hb1 & Hl)]; [by rewrite app_nil_r, <- app_assoc|..].
  - apply app_nil in Hs1 as [-> Hcs]. destruct chs as [|ch2 chs]; [inversion Hr'; by subst|].
    exfalso. apply Forall_cons_1 in Hne as [H2 _]. cbn in Hcs. by apply app_nil in Hcs as [-> _].
  - cbn. destruct chs as [|ch2 chs].
    + exfalso. cbn in Hs. rewrite app_nil_r in Hs. rewrite Hs in Hl. lia.
    + eapply (IH gm got' g' (conn_rx c ++ ch)); try done. by rewrite <- app_assoc.
Qed.

Lemma pdu_bytes_ne p : pdu_wf p -> pdu_bytes p <> [].
Proof.
  destruct p as [[h f] b]. intros (_ & Hf & _) E. pose proof (zlen_pdu_bytes h f b Hf) as HL. cbn in E.
  rewrite E in HL. pose proof (zlen_nonneg b). change (zlen []) with 0 in HL. lia.
Qed.

Lemma cuts_taken ps chss : Forall2 cuts ps chss -> forall g got g',
  rx_run g (concat chss) got g' -> buffered g [] -> Forall pdu_wf ps -> got = ps /\ buffered g' [].
Proof.
  induction 1 as [|p chs ps chss [Hc Hne] _ IH]; intros g got g' Hr Hb Hwf.
  { cbn in Hr. inversion Hr; by subst. }
  apply Forall_cons_1 in Hwf as [Hp Hwf]. cbn in Hr. apply run_app in Hr as (got1 & g1 & got2 & H1 & H2 & ->).
  destruct (cut_taken p chs g got1 g1 [] H1 Hb Hp Hc Hne) as [-> Hb1].
  { intros ->. by apply (pdu_bytes_ne p Hp). }
  by destruct (IH g1 got2 g' H2 Hb1 Hwf) as [-> Hb2].
Qed.

(** C13. The PDU stream.  The host sends the PDUs [ps] over a fresh connection
    and the guest runs on the packets [chs] that carry a front part of their
    bytes, cut anywhere.  The PDUs it is handed are the first ones sent, in order
    and each whole; what it was not handed is still in its buffer, up to the bytes
    not yet delivered; a packet hands over at most one PDU.  When no packet holds
    bytes of two PDUs and all packets have arrived, it was handed every PDU and
    nothing is left. *)
Theorem pdu_stream_reassembly g chs got g' ps rest :
  rx_run g chs got g' -> buffered g [] -> Forall pdu_wf ps -> concat chs ++ rest = stream ps ->
  (exists left rx, ps = got ++ left /\ buffered g' rx /\ rx ++ rest = stream left) /\
  (length got <= length chs)%nat /\
  (forall chss, chs = concat chss -> Forall2 cuts ps chss -> got = ps /\ buffered g' []).
Proof.
  intros Hr Hb Hwf Hs. destruct (run_prefix g chs got g' Hr [] ps rest Hb Hwf Hs) as (l & rx & H1 & H2 & H3 & H4).
  split_and!; [by exists l, rx|done|]. intros chss -> Hcuts. by apply (cuts_taken ps chss Hcuts g got g').
Qed.

(** Two PDUs in one packet: the first is handed over, the second stays in the
    buffer, although it is complete, until another packet arrives. *)
Theorem coalesced_pdu_waits g p q got g' :
  buffered g [] -> pdu_wf p -> rx_run g [pdu_bytes p ++ pdu_bytes q] got g' -> got = [p] /\ buffered g' (pdu_bytes q).
Proof.
  intros (c & Hc & Hrx) Hp Hr. inversion Hr as [|? c' ? ? gm got' ? Hc' Ho Hr']; subst.
  assert (c' = c) as -> by congruence. inversion Hr'; subst.
  destruct (packet_takes g c _ g' [] p (pdu_bytes q) [] Hc Hrx Ho Hp) as [(rx & -> & Hb & <-)|(_ & _ & Hl)];
    [by rewrite app_nil_r|by rewrite !app_nil_r in *|]. exfalso. rewrite app_nil_l, length_app in Hl. lia.
Qed.
End Stream.

Module StreamSample.
Export GuestProps.Sample.

Definition image : list (list u8) -> u64 := fun _ => 0x50000000.
Definition pipe : VirtHal := set_conn HalVirt.Sample.small (Some HalVirt.Sample.fresh_conn).
Definition guest : GuestState (PTA:=unit) :=
  {| gk := Kernel_new (HalOps0 := virt_hal image) pipe; waiting := None; tx := [] |}.
Definition one : Pdu := (HalVirt.Sample.hdr KIND_ENTER 7 4, HalVirt.Sample.frame 1000, [1; 2; 3; 4]).
Definition two : Pdu := (HalVirt.Sample.hdr KIND_ENTER 8 3, HalVirt.Sample.frame 1000, [5; 6; 7]).
Lemma sent_wf : Forall pdu_wf [one; two].
Proof. repeat constructor; by_compute. Qed.
End StreamSample.
Import StreamSample.

(** Two PDUs in three packets, the first PDU cut in two. *)
Lemma pdu_stream_reassembly_witness :
  let chs := [take 30 (pdu_bytes one); drop 30 (pdu_bytes one); pdu_bytes two] in
  exists got g', rx_run image guest chs got g' /\ got = [one; two] /\ buffered g' [].
Proof.
  intros chs. assert (exists got g', rx_run image guest chs got g') as (got & g' & Hr).
  { eexists _, _. eapply rx_more; [reflexivity|vm_compute; reflexivity|]. eapply rx_more; [reflexivity|vm_compute; reflexivity|].
    eapply rx_more; [reflexivity|vm_compute; reflexivity|]. apply rx_done. }
  exists got, g'. split; [exact Hr|].
  apply (pdu_stream_reassembly image guest chs _ _ [one; two] [] Hr)
    with (chss := [[take 30 (pdu_bytes one); drop 30 (pdu_bytes one)]; [pdu_bytes two]]).
  - by eexists.
  - exact sent_wf.
  - vm_compute. reflexivity.
  - reflexivity.
  - repeat constructor; vm_compute; done.
Defined.
