(* ===== verification/Client.v ===== *)
(** The client API on the host (src/crates/gp-client/src/lib.rs, wire.rs): the
    bump allocator of the bounce pool, the session calls over a [Transport],
    the in-memory [Loopback] and the byte-stream transport.

    A call takes [&mut Context] and returns a [Result]; the model returns the
    result and the context afterwards, which keeps what was changed before an
    error. *)
From Stdlib Require Import ZArith Lia.
From stdpp Require Import base list numbers.
From S2P Require Import Prelude Proto Abi ProtoCmd.

Local Open Scope Z_scope.
Local Open Scope rust_scope.

Definition PAGE_SIZE : usize := 4096.
Definition TEEC_CONFIG_SHAREDMEM_MAX_SIZE : u32 := 0x80000.
Definition TEEC_SUCCESS : u32 := 0.
Definition TEEC_ERROR_BAD_PARAMETERS : u32 := 0xFFFF0006.
Definition TEEC_ERROR_COMMUNICATION : u32 := 0xFFFF000E.
Definition TEEC_ERROR_OUT_OF_MEMORY : u32 := 0xFFFF000C.
Definition TEEC_ERROR_BUSY : u32 := 0xFFFF000D.
Definition TEEC_ORIGIN_TEE : u32 := 3.
Definition TEEC_LOGIN_PUBLIC : u32 := 0.

(** * UUIDs *)

Record ClientUuid := { time_low : u32; time_mid : u16; time_hi_and_version : u16; clock_seq_and_node : list u8 }.

(** [for (i, b) in ..enumerate() { lo |= (b as u64) << (56 - i * 8) }] *)
Fixpoint lo_word (i : Z) (bs : list u8) (lo : u64) : u64 :=
  match bs with
  | [] => lo
  | b :: bs' => lo_word (i + 1) bs' (Z.lor lo (wrap 64 (Z.shiftl b (56 - i * 8))))
  end.

Definition words (u : ClientUuid) : u64 * u64 :=
  let hi := Z.lor (Z.lor (wrap 64 (Z.shiftl (time_low u) 32)) (wrap 64 (Z.shiftl (time_mid u) 16)))
                  (time_hi_and_version u) in
  (hi, lo_word 0 (clock_seq_and_node u) 0).

Definition from_bytes (b : list u8) : ClientUuid :=
  {| time_low := from_be (sub b 0 4); time_mid := from_be (sub b 4 2); time_hi_and_version := from_be (sub b 6 2);
     clock_seq_and_node := sub b 8 8 |}.

(** * Transports *)

(** [enter(frame, &mut bounce, bounce_len)]: the result, the bounce slice and
    the transport afterwards. *)
Class Transport (T : Type) := {
  enter : T -> CallFrame -> list u8 -> u32 -> res u32 CallFrame * list u8 * T }.

(** A slice keeps its length and holds bytes. *)
Class TransportOk {T} (E : Transport T) := {
  enter_slice t f b n : length (enter t f b n).1.2 = length b /\ (bytes_ok b -> bytes_ok (enter t f b n).1.2) }.

Record Loopback := { last_kind : u32; last_cookie : u64 }.
Definition Loopback_default : Loopback := {| last_kind := 0; last_cookie := 0 |}.

(** The copy of the echo command: the pool and the parameters afterwards. *)
Definition echo (bounce : list u8) (p : list MsgParam) : res u32 (list u8 * list MsgParam) :=
  let p0 := nth 0 p MsgParam_default in
  let p1 := nth 1 p MsgParam_default in
  let in_off := p_a p0 in
  let in_sz := p_b p0 in
  let out_off := p_a p1 in
  let out_cap := p_b p1 in
  let copy := Z.min in_sz out_cap in
  let fits off := match checked_add 64 off copy with Some e => e <=? zlen bounce | None => false end in
  if fits in_off && fits out_off then
    let? tmp := index_range bounce in_off (in_off + copy) in
    Ok (splice bounce out_off tmp,
        <[1%nat := {| p_attr := p_attr p1; p_a := p_a p1; p_b := copy; p_c := p_c p1 |}]> p)
  else Ok (bounce, p).

Definition loopback_hdr (hdr : MsgArgHdr) : MsgArgHdr :=
  {| m_cmd := m_cmd hdr; m_func := m_func hdr;
     m_session := if m_cmd hdr =? MSG_CMD_OPEN_SESSION then 1 else m_session hdr;
     m_cancel_id := m_cancel_id hdr; m_pad := m_pad hdr; m_ret := TEEC_SUCCESS; m_ret_origin := TEEC_ORIGIN_TEE;
     m_num_params := m_num_params hdr |}.

(** The body of [Loopback::enter] after the state is recorded: the pool
    written so far is kept on an error; [pbuf[..n]] and [params[..n]] panic past
    six. *)
Definition loopback_serve (frame : CallFrame) (bounce : list u8) : res u32 CallFrame * list u8 :=
  if negb (as_u32 (reg frame 0) =? SMC_CALL_WITH_ARG) then (Err TEEC_ERROR_COMMUNICATION, bounce) else
  match decode_msg bounce (cookie frame) with
  | Panic => (Panic, bounce)
  | Err _ => (Err TEEC_ERROR_COMMUNICATION, bounce)
  | Ok (hdr, params, _) =>
      let hdr := loopback_hdr hdr in
      let n := m_num_params hdr in
      if 6 <? n then (Panic, bounce) else
      let pbuf := take (Z.to_nat n) params ++ replicate (6 - Z.to_nat n) MsgParam_default in
      let of_type k i := Z.land (p_attr (nth i pbuf MsgParam_default)) ATTR_TYPE_MASK =? k in
      match (if (m_cmd hdr =? MSG_CMD_INVOKE_COMMAND) && (2 <=? n) && of_type ATTR_TYPE_TMEM_INPUT 0%nat
                && of_type ATTR_TYPE_TMEM_OUTPUT 1%nat
             then echo bounce pbuf else Ok (bounce, pbuf)) with
      | Panic => (Panic, bounce)
      | Err e => (Err e, bounce)
      | Ok (bounce, pbuf) =>
          match write_msg bounce (cookie frame) hdr (take (Z.to_nat n) pbuf) with
          | Panic => (Panic, bounce)
          | Err _ => (Err TEEC_ERROR_COMMUNICATION, bounce)
          | Ok (bounce, _) => (Ok frame, bounce)
          end
      end
  end.

#[export] Instance loopback_transport : Transport Loopback :=
  {| enter := fun t frame bounce bounce_len =>
       (loopback_serve frame bounce, {| last_kind := KIND_ENTER; last_cookie := cookie frame |}) |}.

(** * Contexts *)

Record Context (T : Type) := { transport : T; bounce : list u8; ctx_seq : u32; bump : usize }.
Arguments transport {T} _.
Arguments bounce {T} _.
Arguments ctx_seq {T} _.
Arguments bump {T} _.

Section ClientOps.
Context {T : Type} `{!Transport T}.
Abbreviation C := (Context T).

Definition Context_new (t : T) : C :=
  {| transport := t; bounce := zeros BOUNCE_POOL_SIZE; ctx_seq := 1; bump := PAGE_SIZE |}.

Definition set_bounce (c : C) (b : list u8) : C :=
  {| transport := transport c; bounce := b; ctx_seq := ctx_seq c; bump := bump c |}.
Definition set_bump (c : C) (n : usize) : C :=
  {| transport := transport c; bounce := bounce c; ctx_seq := ctx_seq c; bump := n |}.

Definition initialize (c : C) : res u32 unit :=
  let? uid := ok_or (answer_fast_smccc SMC_CALLS_UID 0) TEEC_ERROR_COMMUNICATION in
  if negb (beqb uid CALLS_UID_WORDS) then Err TEEC_ERROR_COMMUNICATION else
  let? caps := ok_or (answer_fast_smccc SMC_EXCHANGE_CAPABILITIES 0) TEEC_ERROR_COMMUNICATION in
  if negb (at_ caps 1 =? V0_SEC_CAPS) then Err TEEC_ERROR_COMMUNICATION else
  Ok tt.

(** [bump.div_ceil(align) * align] *)
Definition align_up (x align : usize) : usize := (x + align - 1) / align * align.

Definition alloc (c : C) (len align : usize) : res u32 (u64 * C) :=
  let a := align_up (bump c) align in
  let? e := ok_or (checked_add 64 a len) TEEC_ERROR_OUT_OF_MEMORY in
  if zlen (bounce c) <? e then Err TEEC_ERROR_OUT_OF_MEMORY else
  Ok (a, set_bump c e).

(** [self.transport.enter(frame, &mut self.bounce, n)] *)
Definition ctx_enter (c : C) (frame : CallFrame) (n : u32) : res u32 CallFrame * C :=
  let '(r, b, t) := enter (transport c) frame (bounce c) n in
  (r, {| transport := t; bounce := b; ctx_seq := ctx_seq c; bump := bump c |}).

Definition msg_hdr (cmd func session num_params : u32) : MsgArgHdr :=
  {| m_cmd := cmd; m_func := func; m_session := session; m_cancel_id := 0; m_pad := 0; m_ret := 0;
     m_ret_origin := 0; m_num_params := num_params |}.

(** [write_msg(..).map_err(|_| BAD_PARAMETERS)?], then [enter(..)?] with the
    message's size, or with [blen n] bytes. *)
Definition send_msg (c : C) (ck : u64) (hdr : MsgArgHdr) (ps : list MsgParam) (blen : usize -> u32)
  : res u32 CallFrame * C :=
  match write_msg (bounce c) ck hdr ps with
  | Panic => (Panic, c)
  | Err _ => (Err TEEC_ERROR_BAD_PARAMETERS, c)
  | Ok (b, n) => ctx_enter (set_bounce c b) (yielding_enter ck) (blen n)
  end.

(** [let (out, params, _) = decode_msg(..)?; if out.ret != SUCCESS { Err(out.ret) }] *)
Definition read_answer (c : C) (ck : u64) : res u32 (MsgArgHdr * list MsgParam) :=
  let? (out, params, _) := map_err (fun _ => TEEC_ERROR_COMMUNICATION) (decode_msg (bounce c) ck) in
  if negb (m_ret out =? TEEC_SUCCESS) then Err (m_ret out) else Ok (out, params).

Definition open_params (dest : ClientUuid) (login : u32) : list MsgParam :=
  let '(ta_hi, ta_lo) := words dest in
  [MsgParam_value (Z.lor ATTR_TYPE_VALUE_INPUT ATTR_META) ta_hi ta_lo 0;
   MsgParam_value (Z.lor ATTR_TYPE_VALUE_INPUT ATTR_META) 0 0 login].

Definition open_session (c : C) (dest : ClientUuid) (login : u32) : res u32 u32 * C :=
  match alloc c (MSG_ARG_ALIGN * 8) MSG_ARG_ALIGN with
  | Panic => (Panic, c)
  | Err e => (Err e, c)
  | Ok (ck, c) =>
      match send_msg c ck (msg_hdr MSG_CMD_OPEN_SESSION 0 0 2) (open_params dest login) as_u32 with
      | (Panic, c) => (Panic, c)
      | (Err e, c) => (Err e, c)
      | (Ok _, c) => (let? (out, _) := read_answer c ck in Ok (m_session out), c)
      end
  end.

(** [invoke] and [close_session]: a message without parameters, whose answer is
    not read. *)
Definition call_plain (c : C) (hdr : MsgArgHdr) : res u32 unit * C :=
  match alloc c (MSG_ARG_ALIGN * 4) MSG_ARG_ALIGN with
  | Panic => (Panic, c)
  | Err e => (Err e, c)
  | Ok (ck, c) =>
      match send_msg c ck hdr [] as_u32 with
      | (Panic, c) => (Panic, c)
      | (Err e, c) => (Err e, c)
      | (Ok _, c) => (Ok tt, c)
      end
  end.

Definition invoke (c : C) (session cmd : u32) : res u32 unit * C :=
  call_plain c (msg_hdr MSG_CMD_INVOKE_COMMAND cmd session 0).
Definition close_session (c : C) (session : u32) : res u32 unit * C :=
  call_plain c (msg_hdr MSG_CMD_CLOSE_SESSION 0 session 0).

(** The three allocations of [invoke_shm]: message, input, output. *)
Definition alloc3 (c : C) (n1 n2 n3 : usize) : res u32 (u64 * u64 * u64) * C :=
  match alloc c n1 MSG_ARG_ALIGN with
  | Panic => (Panic, c) | Err e => (Err e, c)
  | Ok (a1, c) =>
      match alloc c n2 MSG_ARG_ALIGN with
      | Panic => (Panic, c) | Err e => (Err e, c)
      | Ok (a2, c) =>
          match alloc c n3 MSG_ARG_ALIGN with
          | Panic => (Panic, c) | Err e => (Err e, c)
          | Ok (a3, c) => (Ok (a1, a2, a3), c)
          end
      end
  end.

(** The bytes written to [dst]: [dst] afterwards and how many. *)
Definition copy_out (c : C) (out_off : u64) (dst : list u8) (params : list MsgParam) : res u32 (usize * list u8) :=
  let? p1 := or_panic (params !! 1%nat) in
  let wrote := p_b p1 in
  let ncpy := Z.min wrote (zlen dst) in
  let? w := index_range (bounce c) out_off (out_off + ncpy) in
  Ok (ncpy, splice dst 0 w).

Definition shm_params (in_off n out_off m : u64) : list MsgParam :=
  [MsgParam_tmem ATTR_TYPE_TMEM_INPUT in_off n in_off; MsgParam_tmem ATTR_TYPE_TMEM_OUTPUT out_off m out_off].

Definition invoke_shm (c : C) (session cmd : u32) (src dst : list u8) : res u32 (usize * list u8) * C :=
  if (TEEC_CONFIG_SHAREDMEM_MAX_SIZE <? zlen src) || (TEEC_CONFIG_SHAREDMEM_MAX_SIZE <? zlen dst)
  then (Err TEEC_ERROR_BAD_PARAMETERS, c) else
  match alloc3 c (MSG_ARG_HDR_SIZE + MSG_PARAM_SIZE * 2) (Z.max (zlen src) 1) (Z.max (zlen dst) 1) with
  | (Panic, c) => (Panic, c)
  | (Err e, c) => (Err e, c)
  | (Ok (ck, in_off, out_off), c) =>
      match @index_range u32 _ (bounce c) in_off (in_off + zlen src) with
      | Panic => (Panic, c) | Err e => (Err e, c)
      | Ok _ =>
          let c := set_bounce c (splice (bounce c) in_off src) in
          let blen n := as_u32 (Z.max (out_off + zlen dst) (ck + n) - ck) in
          match send_msg c ck (msg_hdr MSG_CMD_INVOKE_COMMAND cmd session 2)
                  (shm_params in_off (zlen src) out_off (zlen dst)) blen with
          | (Panic, c) => (Panic, c)
          | (Err e, c) => (Err e, c)
          | (Ok _, c) => (let? (_, params) := read_answer c ck in copy_out c out_off dst params, c)
          end
      end
  end.

(** Registration writes its message at offset 32 and announces 32 bytes. *)
Definition send_reg (c : C) (cmd : u32) (p : MsgParam) : res u32 unit * C :=
  match send_msg c 32 (msg_hdr cmd 0 0 1) [p] (fun _ => 32) with
  | (Panic, c) => (Panic, c)
  | (Err e, c) => (Err e, c)
  | (Ok _, c) => (Ok tt, c)
  end.

Definition register_shm (c : C) (size : usize) : res u32 u64 * C :=
  if TEEC_CONFIG_SHAREDMEM_MAX_SIZE <? size then (Err TEEC_ERROR_BAD_PARAMETERS, c) else
  match alloc c (Z.max size PAGE_SIZE) PAGE_SIZE with
  | Panic => (Panic, c)
  | Err e => (Err e, c)
  | Ok (ck, c) =>
      let '(r, c) := send_reg c MSG_CMD_REGISTER_SHM (MsgParam_tmem ATTR_TYPE_TMEM_INPUT ck size ck) in
      (let? _ := r in Ok ck, c)
  end.

Definition unregister_shm (c : C) (ck : u64) : res u32 unit * C :=
  send_reg c MSG_CMD_UNREGISTER_SHM (MsgParam_rmem ATTR_TYPE_RMEM_INPUT 0 0 ck).
End ClientOps.

(** * The byte-stream transport (wire.rs) *)

(** A blocking stream: [write_all], and [read_exact] of [n] bytes, with the
    bytes read, fewer than [n] on an I/O error (the [bool] is [is_ok]). *)
Class Stream (S : Type) := {
  write_all : S -> list u8 -> bool * S;
  read_exact : S -> usize -> bool * list u8 * S }.

Record StreamTransport (S : Type) := {
  sock : S; st_seq : u32; yielding : bool;
  on_rpc : option (list u8 -> u64 -> res u32 u32 * list u8) }.
Arguments sock {S} _.
Arguments st_seq {S} _.
Arguments yielding {S} _.
Arguments on_rpc {S} _.

Section Wire.
Context {S : Type} `{!Stream S}.

Definition write_pdu (w : S) (kind seq : u32) (frame : CallFrame) (bounce : list u8) (bounce_len : u32)
  : res u32 unit * S :=
  let '(ok, w) := write_all w (PduHeader_encode (PduHeader_yielding kind seq bounce_len)) in
  if negb ok then (Err TEEC_ERROR_COMMUNICATION, w) else
  let '(ok, w) := write_all w (CallFrame_encode frame) in
  if negb ok then (Err TEEC_ERROR_COMMUNICATION, w) else
  let c := cookie frame in
  if match checked_add 64 c bounce_len with Some e => zlen bounce <? e | None => true end
  then (Err TEEC_ERROR_COMMUNICATION, w) else
  let '(ok, w) := write_all w (sub bounce c bounce_len) in
  if negb ok then (Err TEEC_ERROR_COMMUNICATION, w) else (Ok tt, w).

(** The header and frame, the bounce slice and the stream afterwards. *)
Definition wire_read_pdu (r : S) (bounce : list u8) : res u32 (PduHeader * CallFrame) * list u8 * S :=
  let '(ok, hb, r) := read_exact r PDU_HDR_LEN in
  if negb ok then (Err TEEC_ERROR_COMMUNICATION, bounce, r) else
  match PduHeader_decode hb with
  | Panic => (Panic, bounce, r)
  | Err _ => (Err TEEC_ERROR_COMMUNICATION, bounce, r)
  | Ok hdr =>
      let '(ok, fb, r) := read_exact r CALL_FRAME_LEN in
      if negb ok then (Err TEEC_ERROR_COMMUNICATION, bounce, r) else
      match CallFrame_decode fb with
      | Panic => (Panic, bounce, r)
      | Err _ => (Err TEEC_ERROR_COMMUNICATION, bounce, r)
      | Ok frame =>
          let c := cookie frame in
          let n := pdu_bounce_len hdr in
          if match checked_add 64 c n with Some e => zlen bounce <? e | None => true end
          then (Err TEEC_ERROR_COMMUNICATION, bounce, r) else
          if 0 <? n then
            let '(ok, bs, r) := read_exact r n in
            ((if ok : bool then Ok (hdr, frame) else Err TEEC_ERROR_COMMUNICATION), splice bounce c bs, r)
          else (Ok (hdr, frame), bounce, r)
      end
  end.

Definition stamp_rpc_ret (bounce : list u8) (ck : u64) (ret : u32) : res u32 (list u8) :=
  let ret := if ret =? 0 then TEEC_ERROR_COMMUNICATION else ret in
  match decode_msg bounce ck with
  | Panic => Panic
  | Err _ => Ok bounce
  | Ok (hdr, params, _) =>
      let hdr := {| m_cmd := m_cmd hdr; m_func := m_func hdr; m_session := m_session hdr;
                    m_cancel_id := m_cancel_id hdr; m_pad := m_pad hdr; m_ret := ret;
                    m_ret_origin := m_ret_origin hdr; m_num_params := m_num_params hdr |} in
      let? ps := first_n params (m_num_params hdr) in
      match write_msg bounce ck hdr ps with
      | Panic => Panic
      | Err _ => Ok bounce
      | Ok (bounce, _) => Ok bounce
      end
  end.

Definition set_sock (t : StreamTransport S) (s : S) : StreamTransport S :=
  {| sock := s; st_seq := st_seq t; yielding := yielding t; on_rpc := on_rpc t |}.
Definition set_st_yielding (t : StreamTransport S) (y : bool) : StreamTransport S :=
  {| sock := sock t; st_seq := st_seq t; yielding := y; on_rpc := on_rpc t |}.

(** What [on_rpc] makes of an RPC: the length of the reply and the bounce. *)
Definition serve_rpc (t : StreamTransport S) (hdr : PduHeader) (out : CallFrame) (bounce : list u8)
  : res u32 u32 * list u8 :=
  match on_rpc t with
  | None => (Ok (pdu_bounce_len hdr), bounce)
  | Some h =>
      match h bounce (cookie out) with
      | (Panic, bounce) => (Panic, bounce)
      | (Ok n, bounce) => (Ok (if 0 <? n then n else pdu_bounce_len hdr), bounce)
      | (Err code, bounce) =>
          match stamp_rpc_ret bounce (cookie out) code with
          | Ok bounce => (Ok (pdu_bounce_len hdr), bounce)
          | Err e => (Err e, bounce)
          | Panic => (Panic, bounce)
          end
      end
  end.

(** The loop of [enter]: one PDU per turn, [fuel] PDUs at most.  [None]: the
    peer kept sending RPC requests. *)
Fixpoint enter_loop (fuel : nat) (t : StreamTransport S) (bounce : list u8)
  : option (res u32 CallFrame * list u8 * StreamTransport S) :=
  match fuel with
  | O => None
  | Datatypes.S n =>
      let '(r, bounce, s) := wire_read_pdu (sock t) bounce in
      let t := set_sock t s in
      match r with
      | Panic => Some (Panic, bounce, t)
      | Err e => Some (Err e, bounce, t)
      | Ok (hdr, out) =>
          if pdu_kind hdr =? KIND_COMPLETE then Some (Ok out, bounce, set_st_yielding t false)
          else if pdu_kind hdr =? KIND_RPC then
            let '(r, bounce) := serve_rpc t hdr out bounce in
            match r with
            | Panic => Some (Panic, bounce, t)
            | Err e => Some (Err e, bounce, t)
            | Ok reply_len =>
                let '(r, s) := write_pdu (sock t) KIND_RPC_REPLY (pdu_seq hdr) (return_from_rpc (cookie out))
                                 bounce reply_len in
                let t := set_sock t s in
                match r with
                | Panic => Some (Panic, bounce, t)
                | Err e => Some (Err e, bounce, t)
                | Ok _ => enter_loop n t bounce
                end
            end
          else Some (Err TEEC_ERROR_COMMUNICATION, bounce, set_st_yielding t false)
      end
  end.

Definition stream_enter (fuel : nat) (t : StreamTransport S) (frame : CallFrame) (bounce : list u8)
  (bounce_len : u32) : option (res u32 CallFrame * list u8 * StreamTransport S) :=
  if yielding t then Some (Err TEEC_ERROR_BUSY, bounce, t) else
  let seq := st_seq t in
  let t := {| sock := sock t; st_seq := wrapping_add 32 (st_seq t) 1; yielding := true; on_rpc := on_rpc t |} in
  let '(r, s) := write_pdu (sock t) KIND_ENTER seq frame bounce bounce_len in
  let t := set_sock t s in
  match r with
  | Panic => Some (Panic, bounce, t)
  | Err e => Some (Err e, bounce, t)
  | Ok _ => enter_loop fuel t bounce
  end.
End Wire.
