(* ===== verification/ClientProps.v ===== *)
(** What the client sends is what the guest executes: the messages the client
    API writes are the commands the guest decodes from its own copy of the
    pool, and the byte-stream transport carries them. *)
From Stdlib Require Import ZArith Lia.
From stdpp Require Import base list numbers.
From S2P Require Import Prelude Proto Abi HalVirt ProtoCmd Client.

Local Open Scope Z_scope.
Local Open Scope rust_scope.

(** * UUID words on the client side *)

(** The loop places byte [i] at bit [56 - 8i]. *)
Lemma lo_word_spec bs i hi :
  bytes_ok bs -> 0 <= i -> i + zlen bs = 8 -> 0 <= hi < 256 ^ i ->
  lo_word i bs (hi * 2 ^ (64 - 8 * i)) = hi * 2 ^ (64 - 8 * i) + from_be bs.
Proof.
  revert i hi. induction bs as [|b bs IH]; intros i hi Hb Hi Hl Hh; [cbn; lia|].
  rewrite zlen_cons in Hl. pose proof (zlen_nonneg bs). cbn [lo_word].
  apply Forall_cons_1 in Hb as [Hb0 Hb]. unfold byte_ok, in_width in Hb0.
  assert (2 ^ (64 - 8 * i) = 256 * 2 ^ (56 - i * 8)) as Hp.
  { change 256 with (2 ^ 8). rewrite <- Z.pow_add_r by lia. f_equal. lia. }
  assert (0 < 2 ^ (56 - i * 8)) by (apply Z.pow_pos_nonneg; lia).
  assert (2 ^ (64 - 8 * i) <= 2 ^ 64) by (apply Z.pow_le_mono_r; lia).
  rewrite Z.shiftl_mul_pow2, wrap_id by (unfold in_width; nia || lia).
  rewrite lor_disjoint_add by nia.
  replace (hi * 2 ^ (64 - 8 * i) + b * 2 ^ (56 - i * 8)) with ((hi * 256 + b) * 2 ^ (64 - 8 * (i + 1))).
  2:{ replace (64 - 8 * (i + 1)) with (56 - i * 8) by lia. rewrite Hp. lia. }
  rewrite IH; [|done|lia|lia|].
  - rewrite from_be_cons. replace (64 - 8 * (i + 1)) with (56 - i * 8) by lia. rewrite Hp.
    replace (256 ^ zlen bs) with (2 ^ (56 - i * 8)); [lia|].
    change 256 with (2 ^ 8). rewrite <- Z.pow_mul_r by lia. f_equal. lia.
  - rewrite Z.pow_add_r by lia. change (256 ^ 1) with 256. nia.
Qed.

Lemma words_from_bytes u : uuid_ok u -> words (from_bytes u) = uuid_to_words u.
Proof.
  intros [Hl Hb]. unfold words, uuid_to_words. cbn [time_low time_mid time_hi_and_version clock_seq_and_node from_bytes].
  f_equal. assert (zlen (sub u 8 8) = 8) as Hz by (apply zlen_sub; unfold zlen; lia).
  pose proof (lo_word_spec (sub u 8 8) 0 0 (bytes_ok_sub _ _ _ Hb)) as H. cbn [Z.mul] in H.
  rewrite Z.add_0_l in H. apply H; lia.
Qed.

(** * Windows of the pool *)

(** A pool that holds [w] at [ck] is one into which [w] was written there. *)
Lemma sub_sub {A} (l : list A) off n k m :
  0 <= off -> 0 <= k -> 0 <= m -> k + m <= n -> sub (sub l off n) k m = sub l (off + k) m.
Proof.
  intros. unfold sub. rewrite skipn_firstn_comm, firstn_firstn, drop_drop. f_equal; [lia|]. f_equal. lia.
Qed.

(** The guest's decoder on a pool that agrees with the client's on the message. *)
Lemma decode_sent pool2 b ck hdr ps :
  0 <= ck -> ck mod 8 = 0 -> MsgArgHdr_wf hdr -> Forall MsgParam_wf ps -> zlen ps = m_num_params hdr ->
  zlen ps <= 6 -> zlen b = BOUNCE_POOL_SIZE -> zlen pool2 = BOUNCE_POOL_SIZE -> ck + byte_size hdr <= BOUNCE_POOL_SIZE ->
  sub pool2 ck (byte_size hdr) = sub (splice b ck (hdr_bytes hdr ++ params_bytes ps)) ck (byte_size hdr) ->
  decode_msg pool2 ck = Ok (hdr, pad6 ps, byte_size hdr).
Proof.
  intros Hc Ha Hh Hp Hn H6 Hb H2 Hfit Hsame. pose proof (zlen_nonneg ps).
  assert (byte_size hdr = 32 + 32 * zlen ps) as Hbs by (unfold byte_size, MSG_ARG_HDR_SIZE, MSG_PARAM_SIZE; lia).
  assert (zlen (hdr_bytes hdr ++ params_bytes ps) = byte_size hdr) as Hlen
    by (rewrite zlen_app, zlen_hdr_bytes, zlen_params_bytes; lia).
  rewrite sub_splice_same in Hsame by lia.
  rewrite <- (splice_sub_same pool2 ck (byte_size hdr)) by lia. rewrite Hsame.
  apply decode_msg_image; try done; unfold BOUNCE_POOL_SIZE in *; lia.
Qed.

Lemma align_up_spec x : 0 <= x -> x <= align_up x 8 < x + 8 /\ align_up x 8 mod 8 = 0.
Proof.
  intros. unfold align_up. split; [|apply Z.mod_mul; lia].
  pose proof (Z.div_mod (x + 8 - 1) 8 ltac:(lia)). pose proof (Z.mod_pos_bound (x + 8 - 1) 8 ltac:(lia)). lia.
Qed.

(** The guest reads the cookie the client put into the frame. *)
Lemma enter_cookie_read ck : 0 <= ck < 2 ^ 32 -> cookie_a1a2 (yielding_enter ck) = ck.
Proof.
  intros H. unfold cookie_a1a2.
  change (reg (yielding_enter ck) 1) with (Z.shiftr ck 32). change (reg (yielding_enter ck) 2) with (Z.land ck 0xffffffff).
  assert (Z.shiftr ck 32 = 0) as -> by (rewrite Z.shiftr_div_pow2 by lia; apply Z.div_small; lia).
  change 0xffffffff with (Z.ones 32). rewrite !Z.land_ones by lia. rewrite Z.mod_mod by lia. rewrite (Z.mod_small ck) by lia. apply Z.lor_0_l.
Qed.

(** A call whose message was written at [ck] into [b]: the frame is entered with
    the message in the pool, and the call's result is made of the answer. *)
Section Sent.
Context {T : Type} `{!Transport T}.
Implicit Types c : Context T.

Lemma send_msg_image c ck hdr ps blen :
  zlen (bounce c) = BOUNCE_POOL_SIZE -> 0 <= ck -> ck mod 8 = 0 -> zlen ps = m_num_params hdr ->
  ck + byte_size hdr <= BOUNCE_POOL_SIZE ->
  send_msg c ck hdr ps blen =
    ctx_enter (set_bounce c (splice (bounce c) ck (hdr_bytes hdr ++ params_bytes ps))) (yielding_enter ck)
      (blen (byte_size hdr)).
Proof.
  intros Hb Hc Ha Hn Hfit. unfold send_msg. rewrite write_msg_image; [done|lia|done|done|lia|].
  rewrite Hb. done.
Qed.

Lemma alloc_ok c len : zlen (bounce c) = BOUNCE_POOL_SIZE -> 0 <= bump c -> 0 <= len ->
  align_up (bump c) 8 + len <= BOUNCE_POOL_SIZE ->
  alloc c len 8 = Ok (align_up (bump c) 8, set_bump c (align_up (bump c) 8 + len)).
Proof.
  intros Hb H0 Hl Hfit. unfold alloc. unfold BOUNCE_POOL_SIZE in *. rewrite checked_add_ok by lia.
  cbn [ok_or rbind]. by rewrite (proj2 (Z.ltb_ge _ _)) by lia.
Qed.

Lemma open_params_bytes u login : uuid_ok u ->
  open_params (from_bytes u) login =
    [MsgParam_value 0x101 (uuid_to_words u).1 (uuid_to_words u).2 0; MsgParam_value 0x101 0 0 login].
Proof. intros Hu. unfold open_params. rewrite words_from_bytes by done. by destruct (uuid_to_words u). Qed.

Lemma open_loop_open u login : uuid_ok u ->
  open_loop 0 [MsgParam_value 0x101 (uuid_to_words u).1 (uuid_to_words u).2 0; MsgParam_value 0x101 0 0 login]
    (zeros 16) Public none_params 0 = (u, Public, none_params).
Proof.
  intros Hu. destruct (uuid_from_to_words u Hu) as (_ & _ & Wu). cbn [open_loop p_a p_b p_c MsgParam_value].
  change (is_meta (MsgParam_value 0x101 (uuid_to_words u).1 (uuid_to_words u).2 0)) with true.
  change (ty (MsgParam_value 0x101 (uuid_to_words u).1 (uuid_to_words u).2 0) =? ATTR_TYPE_VALUE_INPUT) with true.
  change (is_meta (MsgParam_value 0x101 0 0 login)) with true. cbn [andb Z.eqb].
  change (0 + 1 =? 0) with false. rewrite andb_false_r, Wu. by destruct (_ =? _).
Qed.

(** C16. Opening a session from the client: the call enters the TEE with a
    frame whose cookie the guest reads back and 96 bytes, and a guest whose pool
    holds these bytes decodes exactly an open of the TA the client named, without
    parameters.  The result is the session in the answer. *)
Theorem open_session_reaches_kernel c u login :
  zlen (bounce c) = BOUNCE_POOL_SIZE -> 0 <= bump c -> bump c + 104 <= BOUNCE_POOL_SIZE ->
  uuid_ok u -> in_width 32 login ->
  exists ck b, cookie_a1a2 (yielding_enter ck) = ck /\
    open_session c (from_bytes u) login =
      (let '(r, c') := ctx_enter (set_bounce (set_bump c (ck + 64)) b) (yielding_enter ck) 96 in
       (let? _ := r in let? (out, _) := read_answer c' ck in Ok (m_session out), c')) /\
    forall pool, zlen pool = BOUNCE_POOL_SIZE -> sub pool ck 96 = sub b ck 96 ->
      decode_cmd pool ck = Ok (OpenSession u Public none_params 0 TEE_TIMEOUT_INFINITE).
Proof.
  intros Hb H0 Hfit Hu Hl. destruct (align_up_spec (bump c) H0) as [Ha1 Ha2].
  set (ck := align_up (bump c) 8) in *. set (hdr := msg_hdr MSG_CMD_OPEN_SESSION 0 0 2).
  pose proof (open_params_bytes u login Hu) as Hps. destruct (uuid_from_to_words u Hu) as (W1 & W2 & Wu).
  exists ck, (splice (bounce c) ck (hdr_bytes hdr ++ params_bytes (open_params (from_bytes u) login))).
  unfold BOUNCE_POOL_SIZE in *. split; [apply enter_cookie_read; lia|]. split.
  - unfold open_session. change (MSG_ARG_ALIGN * 8) with 64. change MSG_ARG_ALIGN with 8.
    rewrite alloc_ok by (unfold BOUNCE_POOL_SIZE; fold ck; lia). fold ck. fold hdr.
    rewrite send_msg_image; [|done|lia|done|by rewrite Hps|change (byte_size hdr) with 96; unfold BOUNCE_POOL_SIZE; lia].
    change (as_u32 (byte_size hdr)) with 96. cbn [bounce set_bump].
    by destruct (ctx_enter _ _ _) as [[] c'].
  - intros pool Hp Hsame. unfold decode_cmd.
    rewrite (decode_sent pool (bounce c) ck hdr (open_params (from_bytes u) login)).
    + rewrite Hps. cbn [map_err rbind m_num_params m_cmd m_cancel_id hdr msg_hdr].
      cbn [Z.eqb MSG_CMD_OPEN_SESSION]. rewrite first_n_ok by (unfold zlen; cbn; lia). cbn [rbind].
      change (take (Z.to_nat 2) (pad6 ?l)) with l. by rewrite open_loop_open.
    + lia.
    + done.
    + by_compute.
    + rewrite Hps. unfold MsgParam_wf, in_width in *. rewrite !Forall_cons_iff. cbn [p_attr p_a p_b p_c MsgParam_value]. split_and!; try done; lia.
    + by rewrite Hps.
    + by rewrite Hps.
    + done.
    + done.
    + change (byte_size hdr) with 96. unfold BOUNCE_POOL_SIZE. lia.
    + exact Hsame.
Qed.

(** The places [alloc3] takes. *)
Lemma alloc3_ok c n1 n2 n3 :
  zlen (bounce c) = BOUNCE_POOL_SIZE -> 0 <= bump c -> 0 <= n1 -> 0 <= n2 -> 0 <= n3 ->
  bump c + n1 + n2 + n3 + 24 <= BOUNCE_POOL_SIZE ->
  exists a1 a2 a3, alloc3 c n1 n2 n3 = (Ok (a1, a2, a3), set_bump c (a3 + n3)) /\
    0 <= a1 /\ a1 mod 8 = 0 /\ a1 + n1 <= a2 /\ a2 mod 8 = 0 /\ a2 + n2 <= a3 /\ a3 mod 8 = 0 /\
    a3 + n3 <= BOUNCE_POOL_SIZE /\ a3 + n3 <= bump c + n1 + n2 + n3 + 24 /\ bump c <= a1.
Proof.
  intros Hb H0 H1 H2 H3 Hfit. unfold alloc3. change MSG_ARG_ALIGN with 8.
  destruct (align_up_spec (bump c) H0) as [A1 M1]. set (a1 := align_up (bump c) 8) in *.
  destruct (align_up_spec (a1 + n1)) as [A2 M2]; [lia|]. set (a2 := align_up (a1 + n1) 8) in *.
  destruct (align_up_spec (a2 + n2)) as [A3 M3]; [lia|]. set (a3 := align_up (a2 + n2) 8) in *.
  exists a1, a2, a3. rewrite alloc_ok by (done || fold a1; lia). fold a1.
  rewrite alloc_ok by (done || cbn [bump set_bump]; fold a2; lia). cbn [bump set_bump]. fold a2.
  rewrite alloc_ok by (done || cbn [bump set_bump]; fold a3; lia). cbn [bump set_bump]. fold a3.
  split; [done|]. split_and!; try done; lia.
Qed.

Lemma invoke_loop_shm a n b m :
  invoke_loop (shm_params a n b m) none_params 0 = [PMemref (Ree a 0) n In_; PMemref (Ree b 0) m Out; PNone; PNone].
Proof. reflexivity. Qed.

(** Invoking a command with buffers: the message, the input and the output
    lie apart in the pool, aligned as the HAL demands, with the client's data in
    the input; a guest whose pool holds the message decodes it, and the command
    with the two memrefs at these places.  The result is what the answer says was
    written, copied from the output buffer. *)
Theorem invoke_shm_reaches_kernel c session cmd src dst :
  zlen (bounce c) = BOUNCE_POOL_SIZE -> 0 <= bump c ->
  zlen src <= TEEC_CONFIG_SHAREDMEM_MAX_SIZE -> zlen dst <= TEEC_CONFIG_SHAREDMEM_MAX_SIZE ->
  bump c + zlen src + zlen dst + 128 <= BOUNCE_POOL_SIZE -> in_width 32 session -> in_width 32 cmd ->
  exists ck in_off out_off b,
    cookie_a1a2 (yielding_enter ck) = ck /\ bump c <= ck /\ ck mod 8 = 0 /\ ck + 96 <= in_off /\
    in_off + Z.max (zlen src) 1 <= out_off /\
    in_off mod 8 = 0 /\ out_off mod 8 = 0 /\ out_off + Z.max (zlen dst) 1 <= BOUNCE_POOL_SIZE /\
    out_off + Z.max (zlen dst) 1 <= bump c + zlen src + zlen dst + 122 /\
    zlen b = BOUNCE_POOL_SIZE /\ (bytes_ok (bounce c) -> bytes_ok src -> bytes_ok b) /\ sub b in_off (zlen src) = src /\
    let blen := out_off + zlen dst - ck in
    invoke_shm c session cmd src dst =
      (let '(r, c') := ctx_enter (set_bounce (set_bump c (out_off + Z.max (zlen dst) 1)) b) (yielding_enter ck) blen in
       (let? _ := r in let? (_, params) := read_answer c' ck in copy_out c' out_off dst params, c')) /\
    forall pool, zlen pool = BOUNCE_POOL_SIZE -> sub pool ck 96 = sub b ck 96 ->
      decode_msg pool ck = Ok (msg_hdr MSG_CMD_INVOKE_COMMAND cmd session 2,
                               pad6 (shm_params in_off (zlen src) out_off (zlen dst)), 96) /\
      decode_cmd pool ck =
        Ok (Invoke session cmd [PMemref (Ree in_off 0) (zlen src) In_; PMemref (Ree out_off 0) (zlen dst) Out; PNone; PNone]
              0 TEE_TIMEOUT_INFINITE).
Proof.
  intros Hb H0 Hs Hd Hfit Hw1 Hw2. pose proof (zlen_nonneg src). pose proof (zlen_nonneg dst).
  destruct (alloc3_ok c 96 (Z.max (zlen src) 1) (Z.max (zlen dst) 1) Hb H0) as
    (ck & i & o & Ha & C0 & C8 & G1 & I8 & G2 & O8 & G3 & G4 & G5); [lia..|].
  set (hdr := msg_hdr MSG_CMD_INVOKE_COMMAND cmd session 2).
  set (ps := shm_params i (zlen src) o (zlen dst)). set (img := hdr_bytes hdr ++ params_bytes ps).
  assert (zlen img = 96) as Himg by (unfold img; by rewrite zlen_app, zlen_hdr_bytes, zlen_params_bytes).
  set (b1 := splice (bounce c) i src).
  assert (zlen b1 = BOUNCE_POOL_SIZE) as Hb1 by (unfold b1; rewrite zlen_splice; lia).
  exists ck, i, o, (splice b1 ck img). unfold BOUNCE_POOL_SIZE in *.
  split; [apply enter_cookie_read; lia|]. split_and!; try done; try lia.
  - rewrite zlen_splice; lia.
  - intros Hbc Hsrc. apply bytes_ok_splice; [apply bytes_ok_splice; done|]. apply bytes_ok_app. split; [apply bytes_ok_hdr|apply bytes_ok_params].
  - rewrite sub_splice_other by lia. unfold b1. apply sub_splice_same; lia.
  - unfold invoke_shm. rewrite !(proj2 (Z.ltb_ge _ _)) by lia. cbn [orb].
    change (MSG_ARG_HDR_SIZE + MSG_PARAM_SIZE * 2) with 96. rewrite Ha. cbn [bounce set_bump].
    unfold index_range. rewrite get_range_some by lia. cbn [or_panic]. fold b1. fold hdr.
    rewrite send_msg_image; [|done|lia|done|done|change (byte_size hdr) with 96; unfold BOUNCE_POOL_SIZE; lia].
    change (byte_size hdr) with 96. cbn [bounce set_bounce]. fold ps. fold img.
    rewrite (Z.max_l (o + zlen dst)) by lia. unfold as_u32. rewrite wrap_id by (unfold in_width; lia).
    by destruct (ctx_enter _ _ _) as [[] c'].
  - intros pool Hp Hsame.
    assert (decode_msg pool ck = Ok (hdr, pad6 ps, 96)) as Hdec.
    { rewrite (decode_sent pool b1 ck hdr ps); try done; try lia.
      - unfold MsgArgHdr_wf. rewrite !Forall_cons_iff. cbn. split_and!; done || by_compute.
      - unfold ps, shm_params, MsgParam_wf, in_width. unfold TEEC_CONFIG_SHAREDMEM_MAX_SIZE in *. rewrite !Forall_cons_iff.
        cbn [p_attr p_a p_b p_c MsgParam_tmem]. split_and!; try done; lia.
      - change (byte_size hdr) with 96. unfold BOUNCE_POOL_SIZE. lia.
    }
    split; [exact Hdec|]. unfold decode_cmd. by rewrite Hdec.
Qed.

(** A command without buffers: the call returns success as soon as the
    transport delivered an answer, whatever result the answer holds. *)
Theorem invoke_ignores_answer c session cmd :
  zlen (bounce c) = BOUNCE_POOL_SIZE -> 0 <= bump c -> bump c + 40 <= BOUNCE_POOL_SIZE ->
  exists ck b, let '(r, c') := ctx_enter (set_bounce (set_bump c (ck + 32)) b) (yielding_enter ck) 32 in
    invoke c session cmd = (let? _ := r in Ok tt, c').
Proof.
  intros Hb H0 Hfit. destruct (align_up_spec (bump c) H0) as [Ha1 Ha2].
  set (ck := align_up (bump c) 8) in *. set (hdr := msg_hdr MSG_CMD_INVOKE_COMMAND cmd session 0).
  exists ck, (splice (bounce c) ck (hdr_bytes hdr ++ params_bytes [])). unfold BOUNCE_POOL_SIZE in *.
  unfold invoke, call_plain. change (MSG_ARG_ALIGN * 4) with 32. change MSG_ARG_ALIGN with 8.
  rewrite alloc_ok by (unfold BOUNCE_POOL_SIZE; fold ck; lia). fold ck. fold hdr.
  rewrite send_msg_image; [|done|lia|done|done|change (byte_size hdr) with 32; unfold BOUNCE_POOL_SIZE; lia].
  change (as_u32 (byte_size hdr)) with 32. cbn [bounce set_bump]. by destruct (ctx_enter _ _ _) as [[] c'].
Qed.
End Sent.

(** * The byte stream *)

(** A stream whose unread bytes are known: reading what is there takes it off the
    front. *)
Class ByteStream (S : Type) `{!Stream S} := {
  pending : S -> list u8;
  set_pending : S -> list u8 -> S;
  set_pending_twice s a b : set_pending (set_pending s a) b = set_pending s b;
  pending_set s a : pending (set_pending s a) = a;
  read_pending s a b n : pending s = a ++ b -> n = zlen a -> read_exact s n = (true, a, set_pending s b) }.

(** A connected socket: what the peer has sent and what was written.  Reading
    past the end is the peer closing the connection. *)
Record Pipe := { inp : list u8; outp : list u8 }.
#[export] Instance pipe_stream : Stream Pipe :=
  {| write_all := fun s b => (true, {| inp := inp s; outp := outp s ++ b |});
     read_exact := fun s n =>
       if zlen (inp s) <? n then (false, inp s, {| inp := []; outp := outp s |})
       else (true, sub (inp s) 0 n, {| inp := drop (Z.to_nat n) (inp s); outp := outp s |}) |}.

Lemma read_front (a b : list u8) n : n = zlen a ->
  (zlen (a ++ b) <? n) = false /\ sub (a ++ b) 0 n = a /\ drop (Z.to_nat n) (a ++ b) = b.
Proof.
  intros ->. rewrite zlen_app. pose proof (zlen_nonneg b). split; [apply Z.ltb_ge; lia|]. split; [by apply sub_app_l|].
  unfold zlen. rewrite Nat2Z.id. apply drop_app_length.
Qed.

#[export] Program Instance pipe_bytes : ByteStream Pipe :=
  {| pending := inp; set_pending := fun s b => {| inp := b; outp := outp s |} |}.
Next Obligation. done. Qed.
Next Obligation. done. Qed.
Next Obligation. intros s a b n Hi Hn. cbn. rewrite Hi. by destruct (read_front a b n Hn) as (-> & -> & ->). Qed.

Lemma write_pdu_pipe s kind seq frame bnc n :
  0 <= cookie frame -> 0 <= n -> cookie frame + n <= zlen bnc -> zlen bnc < 2 ^ 64 ->
  write_pdu s kind seq frame bnc n =
    (Ok tt, {| inp := inp s;
               outp := outp s ++ pdu_bytes (PduHeader_yielding kind seq n, frame, sub bnc (cookie frame) n) |}).
Proof.
  intros Hc Hn Hfit Hb. unfold write_pdu. cbn [write_all pipe_stream negb].
  rewrite checked_add_ok by lia. rewrite (proj2 (Z.ltb_ge _ _)) by lia. cbn [negb inp outp].
  by rewrite <- !app_assoc.
Qed.

(** The client's reader takes a whole PDU off the stream and puts its window into
    the pool. *)
Lemma wire_read_bytes {S} `{!Stream S, !ByteStream S} (s : S) bnc hdr f b tl :
  pdu_wf (hdr, f, b) -> pending s = pdu_bytes (hdr, f, b) ++ tl -> 0 <= cookie f -> cookie f + zlen b <= zlen bnc ->
  zlen bnc < 2 ^ 64 ->
  wire_read_pdu s bnc = (Ok (hdr, f), splice bnc (cookie f) b, set_pending s tl).
Proof.
  intros (Hh & Hf & Hb) Hi Hc Hfit Hl. unfold wire_read_pdu. cbn [pdu_bytes] in Hi. unfold encode_pdu in Hi.
  rewrite <- !app_assoc in Hi. rewrite (read_pending s _ _ _ Hi) by done. cbn [negb].
  rewrite <- (app_nil_r (VirtPdu_encode hdr)). unfold VirtPdu_encode. rewrite PduHeader_decode_encode by done.
  erewrite read_pending; [|by rewrite pending_set|by rewrite zlen_encode_frame]. cbn [negb]. rewrite set_pending_twice.
  rewrite <- (app_nil_r (encode_frame f)). unfold encode_frame.
  rewrite (CallFrame_decode_encode f [] Hf : CallFrame_decode (put_words _ _ _ ++ []) = _).
  pose proof (zlen_nonneg b). rewrite <- Hb, checked_add_ok by lia. rewrite (proj2 (Z.ltb_ge _ _)) by lia.
  destruct (Z.ltb_spec 0 (zlen b)).
  - erewrite read_pending; [|by rewrite pending_set|done]. by rewrite set_pending_twice.
  - destruct b as [|x b]; [|rewrite zlen_cons in *; pose proof (zlen_nonneg b); lia].
    unfold splice. cbn [app length]. by rewrite Nat.add_0_r, take_drop.
Qed.

(** One call over the stream: the bytes written are one whole ENTER PDU
    with the next sequence number and the window of the pool, which is what the
    guest's reassembly takes; when COMPLETE arrives the call returns its frame,
    the pool holds its data at its cookie, the rest of the stream is left for
    the next call, and the transport is free again. *)
Theorem stream_call fuel (t : StreamTransport Pipe) frame bnc n hdr f b tl :
  yielding t = false -> 0 <= cookie frame -> 0 <= n -> cookie frame + n <= zlen bnc -> zlen bnc < 2 ^ 64 ->
  pdu_wf (hdr, f, b) -> pdu_kind hdr = KIND_COMPLETE -> 0 <= cookie f -> cookie f + zlen b <= zlen bnc ->
  inp (sock t) = pdu_bytes (hdr, f, b) ++ tl ->
  exists t', stream_enter (S fuel) t frame bnc n = Some (Ok f, splice bnc (cookie f) b, t') /\
    yielding t' = false /\ inp (sock t') = tl /\ st_seq t' = wrapping_add 32 (st_seq t) 1 /\
    outp (sock t') = outp (sock t) ++
      pdu_bytes (PduHeader_yielding KIND_ENTER (st_seq t) n, frame, sub bnc (cookie frame) n).
Proof.
  intros Hy Hc Hn Hfit Hl Hwf Hk Hc2 Hfit2 Hi. unfold stream_enter. rewrite Hy. cbn [sock].
  rewrite write_pdu_pipe by done. cbn [enter_loop sock set_sock].
  erewrite wire_read_bytes; [|exact Hwf|exact Hi|done..]. rewrite Hk. eexists. split; [done|]. done.
Qed.

(** When the peer closes the connection in a call, the call fails and the
    transport stays marked busy: every later call is refused without I/O. *)
Theorem closed_stream_wedges fuel (t : StreamTransport Pipe) frame bnc n fuel' frame' bnc' n' :
  yielding t = false -> inp (sock t) = [] -> 0 <= cookie frame -> 0 <= n -> cookie frame + n <= zlen bnc ->
  zlen bnc < 2 ^ 64 ->
  exists t', stream_enter (S fuel) t frame bnc n = Some (Err TEEC_ERROR_COMMUNICATION, bnc, t') /\
    stream_enter fuel' t' frame' bnc' n' = Some (Err TEEC_ERROR_BUSY, bnc', t').
Proof.
  intros Hy Hi Hc Hn Hfit Hl. unfold stream_enter at 1. rewrite Hy. cbn [sock].
  rewrite write_pdu_pipe by done. cbn [enter_loop sock set_sock]. unfold wire_read_pdu.
  cbn [read_exact pipe_stream inp]. rewrite Hi. change (zlen [] <? PDU_HDR_LEN) with true. cbn [negb].
  eexists. split; [done|]. done.
Qed.

(** * Witnesses *)

Module Sample.
Definition ctx : Context Loopback := Context_new Loopback_default.
Lemma ctx_pool : zlen (bounce ctx) = BOUNCE_POOL_SIZE.
Proof. apply zlen_zeros. discriminate. Qed.
Definition complete : Pdu := (PduHeader_yielding KIND_COMPLETE 1 4, yielding_enter 8, [1; 2; 3; 4]).
Definition stream : StreamTransport Pipe :=
  {| sock := {| inp := pdu_bytes complete ++ [5]; outp := [] |}; st_seq := 1; yielding := false; on_rpc := None |}.
End Sample.

Lemma open_session_reaches_kernel_witness :
  exists ck b, cookie_a1a2 (yielding_enter ck) = ck /\
    forall pool, zlen pool = BOUNCE_POOL_SIZE -> sub pool ck 96 = sub b ck 96 ->
      decode_cmd pool ck = Ok (OpenSession ProtoCmd.Sample.uuid Public none_params 0 TEE_TIMEOUT_INFINITE).
Proof.
  destruct (open_session_reaches_kernel Sample.ctx ProtoCmd.Sample.uuid 0 Sample.ctx_pool) as (ck & b & H1 & _ & H2).
  - vm_compute. discriminate.
  - vm_compute. discriminate.
  - by_compute.
  - by_compute.
  - exists ck, b. split; [exact H1|exact H2].
Defined.

Lemma stream_call_witness :
  exists t', stream_enter 1 Sample.stream (yielding_enter 8) (zeros 32) 4 =
      Some (Ok (yielding_enter 8), splice (zeros 32) 8 [1; 2; 3; 4], t') /\
    yielding t' = false /\ inp (sock t') = [5].
Proof.
  destruct (stream_call 0 Sample.stream (yielding_enter 8) (zeros 32) 4 (PduHeader_yielding KIND_COMPLETE 1 4)
    (yielding_enter 8) [1; 2; 3; 4] [5]) as (t' & H1 & H2 & H3 & _);
    [reflexivity|vm_compute; discriminate|lia|vm_compute; discriminate|vm_compute; reflexivity|by_compute|reflexivity
    |vm_compute; discriminate|vm_compute; discriminate|reflexivity|].
  exists t'. split; [exact H1|]. split; [exact H2|exact H3].
Defined.

Lemma invoke_ignores_answer_witness :
  exists ck b, let '(r, c') := ctx_enter (set_bounce (set_bump Sample.ctx (ck + 32)) b) (yielding_enter ck) 32 in
    invoke Sample.ctx 1 0 = (let? _ := r in Ok tt, c').
Proof.
  apply (invoke_ignores_answer Sample.ctx 1 0 Sample.ctx_pool); vm_compute; discriminate.
Defined.
