(* ===== verification/ClientConn.v ===== *)
(** How the client gets its transport (src/crates/gp-client/src/wire.rs:
    [set_timeo], [connect_vsock], [vsock_transport]) and the rest of lib.rs: the C
    entry points, [param_attr], [pdu_enter].

    The socket calls are those of the libc crate: a class over the state of the
    process, with the constants the source names.  What the theorem uses of them
    is the class [LibcLaws], each field what the manual page of the call says. *)
From Stdlib Require Import ZArith Lia.
From stdpp Require Import base list numbers gmap.
From S2P Require Import Prelude Proto Abi ProtoCmd Client.

Local Open Scope Z_scope.
Local Open Scope rust_scope.

Definition VSOCK_TIMEOUT_MS : Z := 5000.
Definition GUEST_CID : u32 := VSOCK_GUEST_CID.
Definition GUEST_PORT : u32 := VSOCK_PORT.

(** * The socket calls *)

(** The fields of [sockaddr_vm] the source sets; the others are zero. *)
Record sockaddr_vm := { svm_family : Z; svm_port : u32; svm_cid : u32 }.
Record timeval := { tv_sec : Z; tv_usec : Z }.

(** [W]: the process and its descriptors.  A call returns its result and the
    state afterwards; [getsockopt] also the option it stored. *)
Class Libc (W : Type) := {
  AF_VSOCK : Z; SOCK_STREAM : Z; F_GETFL : Z; F_SETFL : Z; O_NONBLOCK : Z; EINPROGRESS : Z; POLLOUT : Z;
  SOL_SOCKET : Z; SO_ERROR : Z; SO_RCVTIMEO : Z; SO_SNDTIMEO : Z;
  socket : Z -> Z -> Z -> W -> Z * W;
  fcntl : Z -> Z -> Z -> W -> Z * W;
  connect : Z -> sockaddr_vm -> W -> Z * W;
  (** [Error::last_os_error().raw_os_error()] *)
  last_os_error : W -> option Z;
  poll : Z -> Z -> Z -> W -> Z * W;
  getsockopt : Z -> Z -> Z -> W -> Z * Z * W;
  setsockopt : Z -> Z -> Z -> timeval -> W -> Z * W;
  libc_close : Z -> W -> Z * W }.

Section Connect.
Context {W : Type} `{!Libc W}.

Definition set_timeo (fd : Z) (secs : Z) (w : W) : res u32 unit * W :=
  let tv := {| tv_sec := secs; tv_usec := 0 |} in
  let '(rc, w) := setsockopt fd SOL_SOCKET SO_RCVTIMEO tv w in
  if negb (rc =? 0) then (Err TEEC_ERROR_COMMUNICATION, w) else
  let '(rc, w) := setsockopt fd SOL_SOCKET SO_SNDTIMEO tv w in
  if negb (rc =? 0) then (Err TEEC_ERROR_COMMUNICATION, w) else (Ok tt, w).

(** [libc::close(fd); return Err(TEEC_ERROR_COMMUNICATION)] *)
Definition give_up_fd (fd : Z) (w : W) : res u32 Z * W := (Err TEEC_ERROR_COMMUNICATION, (libc_close fd w).2).

(** The wait for a connection in progress, after [connect] failed: [false] when
    the function gives up. *)
Definition await_connect (fd : Z) (w : W) : bool * W :=
  let e := default 0 (last_os_error w) in
  if negb (e =? EINPROGRESS) then (false, w) else
  let '(n, w) := poll fd POLLOUT VSOCK_TIMEOUT_MS w in
  if n <=? 0 then (false, w) else
  let '(rc, so_err, w) := getsockopt fd SOL_SOCKET SO_ERROR w in
  if negb (rc =? 0) || negb (so_err =? 0) then (false, w) else (true, w).

(** The end: the flags as they were, and both timeouts. *)
Definition finish_connect (fd flags : Z) (w : W) : res u32 Z * W :=
  let '(rc, w) := fcntl fd F_SETFL flags w in
  if negb (rc =? 0) then give_up_fd fd w else
  let '(r, w) := set_timeo fd (VSOCK_TIMEOUT_MS / 1000) w in
  match r with
  | Ok _ => (Ok fd, w)
  | _ => give_up_fd fd w
  end.

Definition connect_vsock (cid port : u32) (w : W) : res u32 Z * W :=
  let '(fd, w) := socket AF_VSOCK SOCK_STREAM 0 w in
  if fd <? 0 then (Err TEEC_ERROR_COMMUNICATION, w) else
  let '(flags, w) := fcntl fd F_GETFL 0 w in
  if flags <? 0 then give_up_fd fd w else
  let '(rc, w) := fcntl fd F_SETFL (Z.lor flags O_NONBLOCK) w in
  if negb (rc =? 0) then give_up_fd fd w else
  let addr := {| svm_family := AF_VSOCK; svm_port := port; svm_cid := cid |} in
  let '(rc, w) := connect fd addr w in
  let '(ok, w) := if negb (rc =? 0) then await_connect fd w else (true, w) in
  if negb ok then give_up_fd fd w else
  finish_connect fd flags w.

(** [StreamTransport::new] *)
Definition StreamTransport_new {S} (s : S) : StreamTransport S :=
  {| sock := s; st_seq := 1; yielding := false; on_rpc := None |}.

(** The stream is the [File] made from the descriptor. *)
Definition vsock_transport (cid port : u32) (w : W) : res u32 (StreamTransport Z) * W :=
  let '(r, w) := connect_vsock cid port w in
  (let? fd := r in Ok (StreamTransport_new fd), w).
End Connect.

(** * The rest of lib.rs *)

(** The C entry points; a pointer is an address, null is 0. *)
Definition TEEC_InitializeContext (name ctx : usize) : u32 :=
  if ctx =? 0 then TEEC_ERROR_BAD_PARAMETERS else TEEC_SUCCESS.
Definition TEEC_FinalizeContext (ctx : usize) : unit := tt.
Definition TEEC_RequestCancellation (op : usize) : unit := tt.

Definition TEEC_NONE : u32 := 0.
Definition TEEC_VALUE_INPUT : u32 := 1.
Definition TEEC_VALUE_OUTPUT : u32 := 2.
Definition TEEC_VALUE_INOUT : u32 := 3.
Definition TEEC_MEMREF_TEMP_INPUT : u32 := 5.
Definition TEEC_MEMREF_TEMP_OUTPUT : u32 := 6.
Definition TEEC_MEMREF_TEMP_INOUT : u32 := 7.

Definition param_attr (t : u32) : u64 :=
  if t =? TEEC_NONE then ATTR_TYPE_NONE
  else if t =? TEEC_VALUE_INPUT then ATTR_TYPE_VALUE_INPUT
  else if t =? TEEC_VALUE_OUTPUT then ATTR_TYPE_VALUE_OUTPUT
  else if t =? TEEC_VALUE_INOUT then ATTR_TYPE_VALUE_INOUT
  else if t =? TEEC_MEMREF_TEMP_INPUT then ATTR_TYPE_TMEM_INPUT
  else if t =? TEEC_MEMREF_TEMP_OUTPUT then ATTR_TYPE_TMEM_OUTPUT
  else if t =? TEEC_MEMREF_TEMP_INOUT then ATTR_TYPE_TMEM_INOUT
  else ATTR_TYPE_NONE.

Definition pdu_enter (seq bounce_len : u32) : PduHeader := PduHeader_yielding KIND_ENTER seq bounce_len.

(** * What the socket calls promise *)

(** The descriptors open in the process, the flags F_GETFL reports of one, the peer
    it is connected to, the address it is connecting to, whether [poll] said the
    attempt ended, and its timeouts.  F_SETFL ignores the access mode and the
    creation flags it is given, so its law speaks of O_NONBLOCK only. *)
Class LibcLaws {W} (L : Libc W) := {
  open_fds : W -> gset Z;
  fl : W -> Z -> Z;
  peer : W -> Z -> option sockaddr_vm;
  connecting : W -> Z -> option sockaddr_vm;
  writable : W -> Z -> bool;
  timeo : W -> Z -> Z -> option timeval;

  consts_differ : F_GETFL <> F_SETFL /\ SO_RCVTIMEO <> SO_SNDTIMEO;
  socket_spec ty w fd w' : socket AF_VSOCK ty 0 w = (fd, w') ->
    if fd <? 0 then open_fds w' = open_fds w
    else (fd ∉ open_fds w) /\ open_fds w' = {[fd]} ∪ open_fds w /\ Z.land (fl w' fd) O_NONBLOCK = 0;
  getfl_spec fd w r w' : fcntl fd F_GETFL 0 w = (r, w') ->
    open_fds w' = open_fds w /\ fl w' = fl w /\ (0 <= r -> r = fl w fd);
  setfl_spec fd v w r w' : fcntl fd F_SETFL v w = (r, w') ->
    open_fds w' = open_fds w /\ peer w' = peer w /\
    (r = 0 -> Z.land (fl w' fd) O_NONBLOCK = Z.land v O_NONBLOCK);
  connect_spec fd a w r w' : connect fd a w = (r, w') ->
    open_fds w' = open_fds w /\ (r = 0 -> peer w' fd = Some a) /\
    (r <> 0 -> last_os_error w' = Some EINPROGRESS -> connecting w' fd = Some a);
  einprogress : EINPROGRESS <> 0;
  poll_spec fd ev ms w n w' : poll fd ev ms w = (n, w') ->
    open_fds w' = open_fds w /\ connecting w' = connecting w /\ (ev = POLLOUT -> 0 < n -> writable w' fd = true);
  so_error_spec fd w r e w' : getsockopt fd SOL_SOCKET SO_ERROR w = (r, e, w') ->
    open_fds w' = open_fds w /\
    (forall a, r = 0 -> e = 0 -> writable w fd = true -> connecting w fd = Some a -> peer w' fd = Some a);
  timeo_spec fd opt tv w r w' : setsockopt fd SOL_SOCKET opt tv w = (r, w') ->
    open_fds w' = open_fds w /\ peer w' = peer w /\ fl w' = fl w /\
    (r = 0 -> timeo w' fd opt = Some tv) /\ (forall o, o <> opt -> timeo w' fd o = timeo w fd o);
  close_spec fd w : open_fds (libc_close fd w).2 = open_fds w ∖ {[fd]} }.

(** * Connecting *)

Section ConnectProps.
Context {W : Type} {L : Libc W} `{!LibcLaws L}.
Implicit Types (w : W) (fd : Z).

(** [r] is a connected descriptor [fd], or the descriptor is closed again: what
    the function may do from the point where [fd] is the one it opened on top of
    [fds]. *)
Definition owns (fds : gset Z) fd (a : sockaddr_vm) (o : res u32 Z * W) : Prop :=
  match o with
  | (Ok fd', w) => fd' = fd /\ open_fds w = {[fd]} ∪ fds /\ peer w fd = Some a /\
      Z.land (fl w fd) O_NONBLOCK = 0 /\
      timeo w fd SO_RCVTIMEO = Some {| tv_sec := 5; tv_usec := 0 |} /\
      timeo w fd SO_SNDTIMEO = Some {| tv_sec := 5; tv_usec := 0 |}
  | (Err e, w) => e = TEEC_ERROR_COMMUNICATION /\ open_fds w = fds
  | (Panic, _) => False
  end.

Lemma give_up_owns fds fd a w : (fd ∉ fds) -> open_fds w = {[fd]} ∪ fds -> owns fds fd a (give_up_fd fd w).
Proof. intros Hn Ho. split; [done|]. rewrite close_spec, Ho. set_solver. Qed.

Lemma set_timeo_spec fd s w r w' : set_timeo fd s w = (r, w') ->
  open_fds w' = open_fds w /\ peer w' = peer w /\ fl w' = fl w /\ r <> Panic /\
  (r = Ok tt -> forall o, o = SO_RCVTIMEO \/ o = SO_SNDTIMEO -> timeo w' fd o = Some {| tv_sec := s; tv_usec := 0 |}).
Proof.
  unfold set_timeo. destruct (setsockopt fd _ SO_RCVTIMEO _ w) as [r1 w1] eqn:E1. apply timeo_spec in E1 as (O1 & P1 & F1 & T1 & _).
  destruct (Z.eqb_spec r1 0) as [H1|]; cbn [negb]; [|by intros [= <- <-]].
  destruct (setsockopt fd _ SO_SNDTIMEO _ w1) as [r2 w2] eqn:E2. apply timeo_spec in E2 as (O2 & P2 & F2 & T2 & K2).
  destruct (Z.eqb_spec r2 0) as [H2|]; cbn [negb]; intros [= <- <-]; (split_and!; [congruence..|done|]); [|done].
  intros _ o [->| ->]; [|by apply T2]. rewrite K2 by apply consts_differ. by apply T1.
Qed.

Lemma finish_owns fds fd a flags w :
  (fd ∉ fds) -> open_fds w = {[fd]} ∪ fds -> peer w fd = Some a -> Z.land flags O_NONBLOCK = 0 ->
  owns fds fd a (finish_connect fd flags w).
Proof.
  intros Hn Ho Hp Hf. unfold finish_connect. destruct (fcntl fd F_SETFL flags w) as [r1 w1] eqn:E1.
  apply setfl_spec in E1 as (O1 & P1 & F1).
  destruct (Z.eqb_spec r1 0) as [->|]; cbn [negb]; [|apply give_up_owns; [done|congruence]].
  destruct (set_timeo _ _ _) as [r w2] eqn:E2. apply set_timeo_spec in E2 as (O2 & P2 & F2 & _ & T2).
  destruct r as [[]|e|]; [|apply give_up_owns; [done|congruence]..].
  cbn [owns]. rewrite O2, P2, F2, O1, P1, F1 by done. split_and!; auto.
Qed.

Lemma await_spec fd w ok w' : await_connect fd w = (ok, w') ->
  open_fds w' = open_fds w /\
  (ok = true -> forall a, (last_os_error w = Some EINPROGRESS -> connecting w fd = Some a) -> peer w' fd = Some a).
Proof.
  unfold await_connect. destruct (Z.eqb_spec (default 0 (last_os_error w)) EINPROGRESS) as [He|]; cbn [negb]; [|by intros [= <- <-]].
  assert (last_os_error w = Some EINPROGRESS) as Hle.
  { pose proof einprogress. destruct (last_os_error w); cbn in He; congruence. }
  destruct (poll _ _ _ _) as [n w1] eqn:E1. apply poll_spec in E1 as (O1 & C1 & W1).
  destruct (Z.leb_spec n 0); [by intros [= <- <-]|].
  destruct (getsockopt _ _ _ _) as [[rc e] w2] eqn:E2. apply so_error_spec in E2 as (O2 & P2).
  destruct (Z.eqb_spec rc 0) as [->|]; destruct (Z.eqb_spec e 0) as [->|]; cbn [negb orb]; intros [= <- <-];
    (split; [congruence|]); try done.
  intros _ a Ha. apply P2; [done|done|by apply W1|]. rewrite C1. auto.
Qed.

(** C17. Connecting to the guest never leaks a descriptor: whatever the socket calls
    answer, either the call returns a new descriptor, the only one it added,
    connected to the address asked for, in blocking mode again and with the
    five-second limit on both directions, or it returns the communication error
    and the process has the descriptors it had. *)
Theorem connect_vsock_owns cid port w :
  match connect_vsock cid port w with
  | (Ok fd, w') => (fd ∉ open_fds w) /\
      owns (open_fds w) fd {| svm_family := AF_VSOCK; svm_port := port; svm_cid := cid |} (Ok fd, w')
  | (Err e, w') => e = TEEC_ERROR_COMMUNICATION /\ open_fds w' = open_fds w
  | (Panic, _) => False
  end.
Proof.
  unfold connect_vsock. destruct (socket _ _ _ w) as [fd w1] eqn:E1. apply socket_spec in E1.
  destruct (fd <? 0); [done|]. destruct E1 as (Hn & O1 & F1).
  set (a := {| svm_family := AF_VSOCK; svm_port := port; svm_cid := cid |}).
  assert (forall o, owns (open_fds w) fd a o -> match o with
    | (Ok fd, w') => (fd ∉ open_fds w) /\ owns (open_fds w) fd a (Ok fd, w')
    | (Err e, w') => e = TEEC_ERROR_COMMUNICATION /\ open_fds w' = open_fds w
    | (Panic, _) => False end) as Hfin.
  { intros [[fd'| |] w'] Ho; [|exact Ho..]. pose proof Ho as (-> & _). by split. }
  destruct (fcntl _ _ _ _) as [flags w2] eqn:E2. apply getfl_spec in E2 as (O2 & F2 & R2).
  destruct (Z.ltb_spec flags 0); [apply Hfin, give_up_owns; [done|congruence]|].
  destruct (fcntl _ _ _ w2) as [r3 w3] eqn:E3. apply setfl_spec in E3 as (O3 & _ & _).
  destruct (r3 =? 0); cbn [negb]; [|apply Hfin, give_up_owns; [done|congruence]].
  destruct (connect fd a w3) as [r4 w4] eqn:E4. apply connect_spec in E4 as (O4 & P4 & C4).
  assert (exists ok w5, (if negb (r4 =? 0) then await_connect fd w4 else (true, w4)) = (ok, w5) /\
    open_fds w5 = open_fds w4 /\ (ok = true -> peer w5 fd = Some a)) as (ok & w5 & -> & O5 & P5).
  { destruct (Z.eqb_spec r4 0) as [H4|H4]; cbn [negb]; [exists true, w4; auto|].
    destruct (await_connect fd w4) as [ok w5] eqn:E5. exists ok, w5. apply await_spec in E5 as (? & ?). auto. }
  destruct ok; cbn [negb]; apply Hfin; [apply finish_owns|apply give_up_owns]; try done; try congruence; [by apply P5|].
  rewrite (R2 ltac:(lia)). done.
Qed.
End ConnectProps.

(** The type a client gives a parameter is the type number the TA is told, for
    every type of the client API that has an attribute; any other type becomes no
    parameter. *)
Lemma param_attr_decoded t a b c :
  param_type_of (param {| p_attr := param_attr t; p_a := a; p_b := b; p_c := c |}) =
  (if bool_decide (t ∈ [1; 2; 3; 5; 6; 7]) then t else 0).
Proof.
  unfold param_attr. repeat match goal with |- context [t =? ?k] => destruct (Z.eqb_spec t k) as [->|]; [reflexivity|] end.
  rewrite bool_decide_false; [reflexivity|]. rewrite !elem_of_cons, elem_of_nil. tauto.
Qed.

(** * A process and its sockets *)

Module Net.
(** Descriptors are numbered upwards; a connection is always in progress at first,
    and [refuse] says how it ends. *)
Record World := {
  w_next : Z; w_open : gset Z; w_fl : Z -> Z; w_peer : Z -> option sockaddr_vm; w_conn : Z -> option sockaddr_vm;
  w_ready : Z -> bool; w_timeo : Z -> Z -> option timeval; w_errno : option Z; refuse : bool }.

Definition upd {A} (f : Z -> A) (k : Z) (v : A) : Z -> A := fun x => if x =? k then v else f x.

Definition w_socket (w : World) : World :=
  {| w_next := w_next w + 1; w_open := {[w_next w]} ∪ w_open w; w_fl := upd (w_fl w) (w_next w) 2; w_peer := w_peer w;
     w_conn := w_conn w; w_ready := w_ready w; w_timeo := w_timeo w; w_errno := w_errno w; refuse := refuse w |}.
(** The access mode stays as it is. *)
Definition w_setfl (fd v : Z) (w : World) : World :=
  {| w_next := w_next w; w_open := w_open w; w_fl := upd (w_fl w) fd (Z.lor (Z.land (w_fl w fd) 3) (Z.ldiff v 3)); w_peer := w_peer w; w_conn := w_conn w;
     w_ready := w_ready w; w_timeo := w_timeo w; w_errno := w_errno w; refuse := refuse w |}.
Definition w_connect (fd : Z) (a : sockaddr_vm) (w : World) : World :=
  {| w_next := w_next w; w_open := w_open w; w_fl := w_fl w; w_peer := w_peer w; w_conn := upd (w_conn w) fd (Some a);
     w_ready := w_ready w; w_timeo := w_timeo w; w_errno := Some 115; refuse := refuse w |}.
Definition w_poll (fd : Z) (w : World) : World :=
  {| w_next := w_next w; w_open := w_open w; w_fl := w_fl w; w_peer := w_peer w; w_conn := w_conn w;
     w_ready := upd (w_ready w) fd true; w_timeo := w_timeo w; w_errno := w_errno w; refuse := refuse w |}.
Definition w_settle (fd : Z) (w : World) : World :=
  {| w_next := w_next w; w_open := w_open w; w_fl := w_fl w; w_peer := upd (w_peer w) fd (w_conn w fd); w_conn := w_conn w;
     w_ready := w_ready w; w_timeo := w_timeo w; w_errno := w_errno w; refuse := refuse w |}.
Definition w_settimeo (fd opt : Z) (tv : timeval) (w : World) : World :=
  {| w_next := w_next w; w_open := w_open w; w_fl := w_fl w; w_peer := w_peer w; w_conn := w_conn w; w_ready := w_ready w;
     w_timeo := fun f o => if (f =? fd) && (o =? opt) then Some tv else w_timeo w f o; w_errno := w_errno w;
     refuse := refuse w |}.
Definition w_close (fd : Z) (w : World) : World :=
  {| w_next := w_next w; w_open := w_open w ∖ {[fd]}; w_fl := w_fl w; w_peer := w_peer w; w_conn := w_conn w;
     w_ready := w_ready w; w_timeo := w_timeo w; w_errno := w_errno w; refuse := refuse w |}.

#[global] Instance world_libc : Libc World := {|
  AF_VSOCK := 40; SOCK_STREAM := 1; F_GETFL := 3; F_SETFL := 4; O_NONBLOCK := 2048; EINPROGRESS := 115; POLLOUT := 4;
  SOL_SOCKET := 1; SO_ERROR := 4; SO_RCVTIMEO := 20; SO_SNDTIMEO := 21;
  socket := fun _ _ _ w => if bool_decide (w_next w < 0 \/ w_next w ∈ w_open w) then (-1, w) else (w_next w, w_socket w);
  fcntl := fun fd cmd v w => if cmd =? 3 then (w_fl w fd, w) else (0, w_setfl fd v w);
  connect := fun fd a w => (-1, w_connect fd a w);
  last_os_error := w_errno;
  poll := fun fd _ _ w => (1, w_poll fd w);
  getsockopt := fun fd _ _ w => if refuse w then (0, 111, w) else (0, 0, w_settle fd w);
  setsockopt := fun fd _ opt tv w => (0, w_settimeo fd opt tv w);
  libc_close := fun fd w => (0, w_close fd w) |}.

#[global] Program Instance world_laws : LibcLaws world_libc := {|
  open_fds := w_open; fl := w_fl; peer := w_peer; connecting := w_conn; writable := w_ready; timeo := w_timeo |}.
Next Obligation. done. Qed.
Next Obligation.
  intros ty w fd w'. cbn. case_bool_decide as H; intros [= <- <-]; [done|].
  apply Decidable.not_or in H as [H1 H2]. rewrite (proj2 (Z.ltb_ge _ _)) by lia. split_and!; [done|done|].
  cbn. unfold upd. by rewrite Z.eqb_refl.
Qed.
Next Obligation. by intros fd w r w' [= <- <-]. Qed.
Next Obligation.
  intros fd v w r w' [= <- <-]. split_and!; try done. intros _. cbn [w_setfl w_fl O_NONBLOCK world_libc]. unfold upd.
  rewrite Z.eqb_refl, Z.land_lor_distr_l, Z.ldiff_land, <- !Z.land_assoc. change (Z.land 3 2048) with 0.
  change (Z.land (Z.lnot 3) 2048) with 2048. by rewrite Z.land_0_r.
Qed.
Next Obligation.
  intros fd a w r w' [= <- <-]. split_and!; [done|done|]. intros _ _. cbn. unfold upd. by rewrite Z.eqb_refl.
Qed.
Next Obligation. done. Qed.
Next Obligation. intros fd ev ms w n w' [= <- <-]. split_and!; try done. intros _ _. cbn. unfold upd. by rewrite Z.eqb_refl. Qed.
Next Obligation.
  intros fd w r e w'. cbn. destruct (refuse w); intros [= <- <- <-]; (split; [done|]); [done|].
  intros a _ _ _ Ha. cbn. unfold upd. by rewrite Z.eqb_refl.
Qed.
Next Obligation.
  intros fd opt tv w r w' [= <- <-]. split_and!; try done; cbn.
  - intros _. by rewrite !Z.eqb_refl.
  - intros o Ho. by rewrite (proj2 (Z.eqb_neq _ _) Ho), andb_false_r.
Qed.
Next Obligation. done. Qed.

Definition world (r : bool) : World :=
  {| w_next := 5; w_open := {[0; 1; 2]}; w_fl := fun _ => 2; w_peer := fun _ => None; w_conn := fun _ => None;
     w_ready := fun _ => false; w_timeo := fun _ _ => None; w_errno := None; refuse := r |}.
End Net.

(** One process connects to the guest's port, the other is refused: the first has
    one descriptor more, the second what it had. *)
Lemma connect_vsock_owns_witness :
  (exists w, connect_vsock GUEST_CID GUEST_PORT (Net.world false) = (Ok 5, w) /\ open_fds w = {[5; 0; 1; 2]} /\
     peer w 5 = Some {| svm_family := 40; svm_port := 7007; svm_cid := 3 |}) /\
  (exists w, connect_vsock GUEST_CID GUEST_PORT (Net.world true) = (Err TEEC_ERROR_COMMUNICATION, w) /\
     open_fds w = {[0; 1; 2]}).
Proof.
  pose proof (connect_vsock_owns GUEST_CID GUEST_PORT (Net.world false)) as H1.
  pose proof (connect_vsock_owns GUEST_CID GUEST_PORT (Net.world true)) as H2.
  destruct (connect_vsock _ _ (Net.world false)) as [r1 w1] eqn:E1.
  destruct (connect_vsock _ _ (Net.world true)) as [r2 w2] eqn:E2.
  assert (r1 = Ok 5) as -> by (change r1 with (r1, w1).1; rewrite <- E1; reflexivity).
  assert (r2 = Err TEEC_ERROR_COMMUNICATION) as -> by (change r2 with (r2, w2).1; rewrite <- E2; reflexivity).
  split; eexists; (split; [reflexivity|]).
  - destruct H1 as (_ & _ & Ho & Hp & _). split; [|exact Hp]. rewrite Ho. reflexivity.
  - apply H2.
Defined.
