(* ===== verification/Arith.v ===== *)
(** Big-number arithmetic (src/crates/rustee-crypto/src/arith.rs): numbers in
    buffers of 32-bit words, [[0]] the flags (bit 0: negative), [[1]] the number
    of limbs, [[2..]] the limbs, little end first.

    A function that writes [dest: &mut [u32]] takes the buffer and returns it;
    an index out of range is a panic.  [dest] never overlaps an operand (the
    borrow checker), so a loop that writes words of [dest] while it reads the
    operands is a function from the operands' limbs to the words written.  The
    64-bit sums of the loops cannot overflow. *)
From Stdlib Require Import ZArith Lia.
From stdpp Require Import base list numbers.
From S2P Require Import Prelude.

Local Open Scope Z_scope.
Local Open Scope rust_scope.

Definition MAX_BIGINT_BITS : u32 := 4096.
Definition FLAG_NEG : u32 := 1.

Inductive ArithError := BadSize | ShortBuffer.

Definition bigint_size_in_u32 (nbits : u32) : usize := (nbits + 31) / 32 + 2.
Definition fmm_context_size_in_u32 (modulus_bits : usize) : usize := bigint_size_in_u32 (as_u32 modulus_bits) + 4.
Definition fmm_size_in_u32 (modulus_bits : usize) : usize := bigint_size_in_u32 (as_u32 modulus_bits).

(** [op[i]] and [op[i] = v] *)
Definition idx {E} (op : list u32) (i : Z) : res E u32 := or_panic (op !! Z.to_nat i).
Definition upd {E} (op : list u32) (i : Z) (v : u32) : res E (list u32) :=
  if i <? zlen op then Ok (<[Z.to_nat i := v]> op) else Panic.
(** [op.first().copied().unwrap_or(0)] *)
Definition first_word (op : list u32) : u32 := hd 0 op.

Definition cap (op : list u32) : res ArithError usize :=
  if zlen op <? 2 then Err BadSize else Ok (zlen op - 2).

Definition nlimbs (op : list u32) : res ArithError usize :=
  let? _ := cap op in
  let? n := idx op 1 in
  if zlen op <? 2 + n then Err BadSize else Ok n.

(** [nlimbs(op).unwrap_or(0)] *)
Definition nl (op : list u32) : usize := match nlimbs op with Ok n => n | _ => 0 end.

Definition limbs (op : list u32) : res ArithError (list u32) :=
  let? n := nlimbs op in Ok (sub op 2 n).

(** [while n > 0 && op[1 + n] == 0 { n -= 1 }] *)
Fixpoint trim_len (op : list u32) (n : nat) : res ArithError nat :=
  match n with
  | O => Ok O
  | S n' =>
      let? w := idx op (1 + Z.of_nat n) in
      if w =? 0 then trim_len op n' else Ok n
  end.

Definition trim (op : list u32) : res ArithError (list u32) :=
  let? n := idx op 1 in
  let? n := trim_len op (Z.to_nat n) in
  let? op := upd op 1 (as_u32 (Z.of_nat n)) in
  if Z.of_nat n =? 0 then upd op 0 0 else Ok op.

Definition init (op : list u32) (nbits : usize) : list u32 := zeros (zlen op).

Definition init_fmm_context1 (ctx modulus : list u32) : list u32 :=
  let ctx := zeros (zlen ctx) in
  let n := Z.min (zlen modulus) (zlen ctx) in
  splice ctx 0 (sub modulus 0 n).

Definition init_fmm (op : list u32) (nbits : usize) : list u32 := init op nbits.

(** [v : i32] *)
Definition from_s32 (op : list u32) (v : Z) : res ArithError (list u32) :=
  let op := init op 32 in
  if v =? 0 then Ok op else
  if v <? 0 then
    let? op := upd op 0 FLAG_NEG in
    let? op := upd op 1 1 in
    upd op 2 (Z.abs v)
  else
    let? op := upd op 1 1 in
    upd op 2 (as_u32 v).

Definition i32_MAX : Z := 2 ^ 31 - 1.

Definition to_s32 (op : list u32) : res ArithError Z :=
  let? n := nlimbs op in
  if n =? 0 then Ok 0 else
  let? w := idx op 2 in
  if (1 <? n) || ((n =? 1) && (i32_MAX <? w)) then Err BadSize else
  let? f := idx op 0 in
  Ok (if negb (Z.land f FLAG_NEG =? 0) then - w else w).

(** * Octet strings *)

(** [while bytes.len() % 4 != 0 { bytes.push(0) }] *)
Definition pad4 (bs : list u8) : list u8 := bs ++ zeros ((- zlen bs) mod 4).

(** [n] little-endian words of [bs]. *)
Fixpoint le_words (n : nat) (bs : list u8) : list u32 :=
  match n with
  | O => []
  | S n' => from_le (take 4 bs) :: le_words n' (drop 4 bs)
  end.

(** The buffer is cleared before the size is checked. *)
Definition from_octet_string (op : list u32) (buf : list u8) (sign : Z) : res ArithError unit * list u32 :=
  let op := init op (zlen buf * 8) in
  if zlen buf =? 0 then (Ok tt, op) else
  let bytes := pad4 (rev buf) in
  let n := zlen bytes / 4 in
  match cap op with
  | Err e => (Err e, op)
  | Panic => (Panic, op)
  | Ok c =>
      if c <? n then (Err BadSize, op) else
      let op := splice op 2 (le_words (Z.to_nat n) bytes) in
      let r := let? op := upd op 1 (as_u32 n) in
               let? op := if sign <? 0 then upd op 0 FLAG_NEG else Ok op in
               trim op in
      match r with Ok op => (Ok tt, op) | Err e => (Err e, op) | Panic => (Panic, op) end
  end.

(** [while bytes.last() == Some(&0) && bytes.len() > 1 { bytes.pop() }], on the
    reversed bytes. *)
Fixpoint drop_zeros (bs : list u8) : list u8 :=
  match bs with
  | 0 :: (_ :: _) as bs' => drop_zeros bs'
  | _ => bs
  end.

(** The number of bytes and [buf] afterwards. *)
Definition to_octet_string (op : list u32) (buf : list u8) : res ArithError (usize * list u8) :=
  let? ls := limbs op in
  match ls with
  | [] => Ok (0, buf)
  | _ =>
      let bytes := drop_zeros (rev (concat (map (to_le 4) ls))) in
      if zlen buf <? zlen bytes then Err ShortBuffer else
      Ok (zlen bytes, splice buf 0 bytes)
  end.

(** * Comparison *)

(** The loop [for i in (0..la).rev()] over the limbs from the top. *)
Fixpoint cmp_top (xs ys : list u32) : Z :=
  match xs, ys with
  | x :: xs', y :: ys' => if y <? x then 1 else if x <? y then -1 else cmp_top xs' ys'
  | _, _ => 0
  end.

Definition cmp_mag (a b : list u32) : Z :=
  let la := nl a in
  let lb := nl b in
  if lb <? la then 1 else
  if la <? lb then -1 else
  cmp_top (rev (sub a 2 la)) (rev (sub b 2 lb)).

Definition sign_bit (op : list u32) : u32 := Z.land (first_word op) FLAG_NEG.

Definition cmp (a b : list u32) : Z :=
  let sa := sign_bit a in
  let sb := sign_bit b in
  if negb (sa =? 0) && (sb =? 0) then -1 else
  if (sa =? 0) && negb (sb =? 0) then 1 else
  let mag := cmp_mag a b in
  if negb (sa =? 0) then - mag else mag.

Definition cmp_s32 (a : list u32) (b : Z) : res ArithError Z :=
  let? tmp := from_s32 (zeros 4) b in Ok (cmp a tmp).

(** * Copies and signs *)

Definition assign (dest src : list u32) : list u32 :=
  let n := Z.min (zlen dest) (zlen src) in
  splice (zeros (zlen dest)) 0 (sub src 0 n).

Definition abs (dest src : list u32) : res ArithError (list u32) :=
  let dest := assign dest src in
  let? f := idx dest 0 in
  upd dest 0 (Z.land f (Z.lxor FLAG_NEG (2 ^ 32 - 1))).

Definition neg (dest op : list u32) : res ArithError (list u32) :=
  let dest := assign dest op in
  if nl dest =? 0 then upd dest 0 0 else
  let? f := idx dest 0 in
  upd dest 0 (Z.lxor f FLAG_NEG).

(** * Bits *)

Definition get_bit (src : list u32) (bit : u32) : bool :=
  let i := bit / 32 in
  let n := nl src in
  if n <=? i then false else
  Z.land (Z.shiftr (at_ src (2 + i)) (bit mod 32)) 1 =? 1.

(** [32 - w.leading_zeros()] *)
Definition bit_len (w : u32) : Z := if w =? 0 then 0 else Z.log2 w + 1.

Definition get_bit_count (src : list u32) : usize :=
  let ls := match limbs src with Ok ls => ls | _ => [] end in
  match list.last ls with
  | None => 0
  | Some w => (zlen ls - 1) * 32 + bit_len w
  end.

Definition set_bit (op : list u32) (bit : u32) (val : bool) : res ArithError (list u32) :=
  let i := bit / 32 in
  if zlen op <=? 2 + i then Ok op else
  let w := at_ op (2 + i) in
  if val then
    let op := <[Z.to_nat (2 + i) := Z.lor w (Z.shiftl 1 (bit mod 32))]> op in
    if at_ op 1 <? i + 1 then upd op 1 (i + 1) else Ok op
  else if i <? nl op then
    trim (<[Z.to_nat (2 + i) := Z.land w (Z.lxor (Z.shiftl 1 (bit mod 32)) (2 ^ 32 - 1))]> op)
  else Ok op.

(** * Shifts *)

(** The loop of [shift_right], from the top limb: the limbs and the carry out
    of the lowest one. *)
Fixpoint shr_loop (rem : Z) (ls : list u32) : list u32 * u32 :=
  match ls with
  | [] => ([], 0)
  | cur :: ls' =>
      let '(ys, carry) := shr_loop rem ls' in
      (Z.lor (Z.shiftr cur rem) carry :: ys, wrap 32 (Z.shiftl cur (32 - rem)))
  end.

Definition shift_right (dest src : list u32) (bits : usize) : res ArithError (list u32) :=
  let dest := assign dest src in
  if bits =? 0 then Ok dest else
  let words := bits / 32 in
  let rem := bits mod 32 in
  let n := nl dest in
  if n <=? words then Ok (init dest 0) else
  let ls := sub dest (2 + words) (n - words) in
  let new_n := n - words in
  let ls := if 0 <? rem then (shr_loop rem ls).1 else ls in
  let? dest := upd (splice (zeros (zlen dest)) 0 (take 2 dest)) 1 (as_u32 new_n) in
  trim (splice dest 2 ls).

(** The loop of [shl_words] that shifts within limbs: the limbs and the carry. *)
Fixpoint shl_loop (rem : Z) (ls : list u32) (carry : u32) : list u32 * u32 :=
  match ls with
  | [] => ([], carry)
  | cur :: ls' =>
      let '(ys, c) := shl_loop rem ls' (Z.shiftr cur (32 - rem)) in
      (Z.lor (wrap 32 (Z.shiftl cur rem)) carry :: ys, c)
  end.

Definition is_zero (op : list u32) : bool := nl op =? 0.

(** Nothing is shifted when the result might not fit. *)
Definition shl_words (op : list u32) (bits : usize) : list u32 :=
  if (bits =? 0) || is_zero op then op else
  let words := bits / 32 in
  let rem := bits mod 32 in
  let n := nl op in
  if zlen op <? 2 + n + words + 1 then op else
  let op := if 0 <? words
            then <[1%nat := as_u32 (n + words)]> (splice op 2 (zeros words ++ sub op 2 n)) else op in
  if 0 <? rem then
    let n := nl op in
    let '(ls, carry) := shl_loop rem (sub op 2 n) 0 in
    let op := splice op 2 ls in
    if negb (carry =? 0) && (2 + n <? zlen op)
    then <[1%nat := as_u32 (n + 1)]> (<[Z.to_nat (2 + n) := carry]> op) else op
  else op.

(** * Addition and subtraction *)

(** The words [s as u32] and the last carry. *)
Fixpoint add_loop (n : nat) (xs ys : list u32) (carry : Z) : list u32 * Z :=
  match n with
  | O => ([], carry)
  | S n' =>
      let s := hd 0 xs + hd 0 ys + carry in
      let '(ds, c) := add_loop n' (tl xs) (tl ys) (Z.shiftr s 32) in
      (as_u32 s :: ds, c)
  end.

Definition add_mag (dest a b : list u32) : res ArithError (list u32) :=
  let? la := nlimbs a in
  let? lb := nlimbs b in
  let n := Z.max la lb in
  let? c := cap dest in
  if c <? n + 1 then Err BadSize else
  let '(ds, carry) := add_loop (Z.to_nat n) (Prelude.sub a 2 la) (Prelude.sub b 2 lb) 0 in
  let dest := splice dest 2 ds in
  let? dest := upd dest (2 + n) (as_u32 carry) in
  let? dest := upd dest 1 (as_u32 (n + (if negb (carry =? 0) then 1 else 0))) in
  upd dest 0 0.

(** The words [d as u32]; [borrow] is 0 or 1. *)
Fixpoint sub_loop (xs ys : list u32) (borrow : Z) : list u32 :=
  match xs with
  | [] => []
  | x :: xs' =>
      let d := x - hd 0 ys - borrow in
      if d <? 0 then as_u32 (d + 2 ^ 32) :: sub_loop xs' (tl ys) 1
      else as_u32 d :: sub_loop xs' (tl ys) 0
  end.

(** Writing limb [la - 1] panics when [dest] is too short. *)
Definition sub_mag (dest a b : list u32) : res ArithError (list u32) :=
  let? la := nlimbs a in
  let? lb := nlimbs b in
  if zlen dest <? 2 + la then Panic else
  let dest := splice dest 2 (sub_loop (Prelude.sub a 2 la) (Prelude.sub b 2 lb) 0) in
  let? dest := upd dest 1 (as_u32 la) in
  let? dest := upd dest 0 0 in
  trim dest.

(** [let _ = f(dest, ..)]: an error leaves [dest] as it was. *)
Definition ignore_err (dest : list u32) (r : res ArithError (list u32)) : res ArithError (list u32) :=
  match r with Err _ => Ok dest | r => r end.

Definition add (dest op1 op2 : list u32) : res ArithError (list u32) :=
  let s1 := sign_bit op1 in
  let s2 := sign_bit op2 in
  if s1 =? s2 then
    let? dest := ignore_err dest (add_mag dest op1 op2) in
    let? dest := upd dest 0 s1 in
    if nl dest =? 0 then upd dest 0 0 else Ok dest
  else
    let c := cmp_mag op1 op2 in
    if c =? 0 then Ok (init dest 0)
    else if c =? 1 then
      let? dest := ignore_err dest (sub_mag dest op1 op2) in upd dest 0 s1
    else
      let? dest := ignore_err dest (sub_mag dest op2 op1) in upd dest 0 s2.

(** The scratch buffers [[0u32; 130]]. *)
Definition buf130 : list u32 := zeros 130.

Definition sub (dest op1 op2 : list u32) : res ArithError (list u32) :=
  let neg := assign buf130 op2 in
  let? neg := if negb (nl neg =? 0)
              then let? f := idx neg 0 in upd neg 0 (Z.lxor f FLAG_NEG) else Ok neg in
  add dest op1 neg.

(** * Multiplication *)

(** One row: [tmp[i..]] after the inner loop and the store of its carry. *)
Fixpoint mul_row (x : u32) (ys acc : list u32) (carry : Z) : list u32 :=
  match ys, acc with
  | y :: ys', t :: acc' =>
      let p := t + x * y + carry in
      as_u32 p :: mul_row x ys' acc' (Z.shiftr p 32)
  | [], _ :: acc' => as_u32 carry :: acc'
  | _, [] => []
  end.

Fixpoint mul_rows (xs ys acc : list u32) : list u32 :=
  match xs with
  | [] => acc
  | x :: xs' =>
      match mul_row x ys acc 0 with
      | [] => []
      | w :: acc' => w :: mul_rows xs' ys acc'
      end
  end.

Definition mul (dest op1 op2 : list u32) : res ArithError (list u32) :=
  let la := nl op1 in
  let lb := nl op2 in
  let tmp := zeros (2 + la + lb + 1) in
  let tmp := splice tmp 2 (mul_rows (Prelude.sub op1 2 la) (Prelude.sub op2 2 lb) (drop 2 tmp)) in
  let? tmp := upd tmp 1 (as_u32 (la + lb)) in
  let? tmp := upd tmp 0 (Z.land (Z.lxor (first_word op1) (first_word op2)) FLAG_NEG) in
  let? tmp := trim tmp in
  Ok (assign dest tmp).

Definition square (dest op : list u32) : res ArithError (list u32) := mul dest op op.

(** * Division *)

(** The turn of the loop with shift [i]. *)
Definition div_step (dvs : list u32) (i : Z) (quot rem : list u32) : res ArithError (list u32 * list u32) :=
  let shifted := shl_words (assign buf130 dvs) i in
  if 0 <=? cmp_mag rem shifted then
    let? nrem := ignore_err buf130 (sub_mag buf130 rem shifted) in
    let? quot := set_bit quot (as_u32 i) true in
    Ok (quot, assign rem nrem)
  else Ok (quot, rem).

(** [for i in (0..bits).rev()] *)
Fixpoint div_loop (dvs : list u32) (bits : nat) (quot rem : list u32) : res ArithError (list u32 * list u32) :=
  match bits with
  | O => Ok (quot, rem)
  | S b =>
      let? (quot, rem) := div_step dvs (Z.of_nat b) quot rem in
      div_loop dvs b quot rem
  end.

(** The quotient and the remainder. *)
Definition div (quot rem op1 op2 : list u32) : res ArithError (list u32 * list u32) :=
  if is_zero op2 then Ok (init quot 0, init rem 0) else
  let quot := init quot 0 in
  let rem := assign rem op1 in
  let? rem := upd rem 0 0 in
  let? dvs := upd (assign buf130 op2) 0 0 in
  if cmp_mag rem dvs <? 0 then
    let? rem := upd rem 0 (sign_bit op1) in Ok (quot, rem)
  else
    let bits := sat_sub (get_bit_count rem) (get_bit_count dvs) + 1 in
    let? (quot, rem) := div_loop dvs (Z.to_nat bits) quot rem in
    let? quot := upd quot 0 (Z.land (Z.lxor (first_word op1) (first_word op2)) FLAG_NEG) in
    let? rem := upd rem 0 (sign_bit op1) in
    let? quot := trim quot in
    let? rem := trim rem in
    Ok (quot, rem).

(** * Modular arithmetic *)

Definition modulo (dest op n : list u32) : res ArithError (list u32) :=
  let? (_, dest) := div buf130 dest op n in
  let? dest := upd dest 0 0 in
  if negb (sign_bit op =? 0) && negb (is_zero dest) then
    let? t := sub buf130 n dest in
    upd (assign dest t) 0 0
  else Ok dest.

Definition add_mod (dest op1 op2 n : list u32) : res ArithError (list u32) :=
  let? s := add buf130 op1 op2 in modulo dest s n.
Definition sub_mod (dest op1 op2 n : list u32) : res ArithError (list u32) :=
  let? s := sub buf130 op1 op2 in modulo dest s n.
Definition mul_mod (dest op1 op2 n : list u32) : res ArithError (list u32) :=
  let? s := mul (zeros 260) op1 op2 in modulo dest s n.
Definition square_mod (dest op n : list u32) : res ArithError (list u32) := mul_mod dest op op n.

(** The loop of [exp_mod] from bit [i] on. *)
Fixpoint exp_loop (exp n : list u32) (bits : nat) (i : Z) (result base : list u32) : res ArithError (list u32) :=
  match bits with
  | O => Ok result
  | S b =>
      let? result := if get_bit exp (as_u32 i)
                     then let? t := mul_mod buf130 result base n in Ok (assign result t)
                     else Ok result in
      let? sq := square_mod buf130 base n in
      exp_loop exp n b (i + 1) result (assign base sq)
  end.

Definition exp_mod (dest op exp n : list u32) : res ArithError (list u32) :=
  let? base := modulo buf130 op n in
  let? result := from_s32 buf130 1 in
  let? result := exp_loop exp n (Z.to_nat (get_bit_count exp)) 0 result base in
  Ok (assign dest result).

(** ** The extended Euclidean algorithm *)

Record Egcd := { e_r0 : list u32; e_r1 : list u32; e_s0 : list u32; e_s1 : list u32; e_t0 : list u32; e_t1 : list u32 }.

(** One turn of the [while]. *)
Definition egcd_step (e : Egcd) : res ArithError Egcd :=
  let? (q, r) := div buf130 buf130 (e_r0 e) (e_r1 e) in
  let r0 := assign (e_r0 e) (e_r1 e) in
  let r1 := assign (e_r1 e) r in
  let? tmp := mul buf130 q (e_s1 e) in
  let? ns := sub buf130 (e_s0 e) tmp in
  let s0 := assign (e_s0 e) (e_s1 e) in
  let s1 := assign (e_s1 e) ns in
  let? tmp := mul tmp q (e_t1 e) in
  let? nt := sub buf130 (e_t0 e) tmp in
  let t0 := assign (e_t0 e) (e_t1 e) in
  let t1 := assign (e_t1 e) nt in
  Ok {| e_r0 := r0; e_r1 := r1; e_s0 := s0; e_s1 := s1; e_t0 := t0; e_t1 := t1 |}.

(** [None]: out of fuel. *)
Fixpoint egcd_loop (fuel : nat) (e : Egcd) : option (res ArithError Egcd) :=
  if is_zero (e_r1 e) then Some (Ok e) else
  match fuel with
  | O => None
  | S f =>
      match egcd_step e with
      | Ok e => egcd_loop f e
      | Err x => Some (Err x)
      | Panic => Some Panic
      end
  end.

(** A bound on the turns of the loop.  It is proved enough for operands below 127
    limbs ([egcd_terminates] of [ArithProps]); for wider ones, where [div] is not
    division, running out of it ([None]) says nothing of the source's loop. *)
Definition EGCD_FUEL : nat := Z.to_nat 8192.

(** [gcd], [u] and [v]. *)
Definition compute_extended_gcd (gcd u v op1 op2 : list u32)
  : option (res ArithError (list u32 * list u32 * list u32)) :=
  let start :=
    let? r0 := upd (assign buf130 op1) 0 0 in
    let? r1 := upd (assign buf130 op2) 0 0 in
    let? s0 := from_s32 buf130 1 in
    let? t1 := from_s32 buf130 1 in
    Ok {| e_r0 := r0; e_r1 := r1; e_s0 := s0; e_s1 := buf130; e_t0 := buf130; e_t1 := t1 |} in
  match start with
  | Panic => Some Panic
  | Err e => Some (Err e)
  | Ok e =>
      match egcd_loop EGCD_FUEL e with
      | None => None
      | Some r => Some (let? e := r in Ok (assign gcd (e_r0 e), assign u (e_s0 e), assign v (e_t0 e)))
      end
  end.

(** [compute_extended_gcd] into scratch buffers, then [cmp(&g, &one) == 0]. *)
Definition egcd_is_one (op1 op2 : list u32) : option (res ArithError (bool * list u32)) :=
  match compute_extended_gcd buf130 buf130 buf130 op1 op2 with
  | None => None
  | Some r =>
      Some (let? (g, u, _) := r in
            let? one := from_s32 (zeros 4) 1 in
            Ok (cmp g one =? 0, u))
  end.

Definition inv_mod (dest op n : list u32) : option (res ArithError (list u32)) :=
  match egcd_is_one op n with
  | None => None
  | Some r => Some (let? (b, u) := r in if negb b then Ok (init dest 0) else modulo dest u n)
  end.

Definition relative_prime (op1 op2 : list u32) : option (res ArithError bool) :=
  match egcd_is_one op1 op2 with
  | None => None
  | Some r => Some (let? (b, _) := r in Ok b)
  end.

(** * Primality *)

(** [for r in 0..rounds], from round [r] on. *)
Fixpoint prime_loop (op n1 : list u32) (rounds : nat) (r : Z) : res ArithError Z :=
  match rounds with
  | O => Ok 1
  | S k =>
      let? a := from_s32 (zeros 4) (2 + r) in
      if 0 <=? cmp_mag a op then Ok 1 else
      let? x := exp_mod buf130 a n1 op in
      let? one := from_s32 (zeros 4) 1 in
      if negb (cmp x one =? 0) then Ok 0 else
      prime_loop op n1 k (r + 1)
  end.

Definition is_probable_prime (op : list u32) (confidence : u32) : res ArithError Z :=
  if negb (sign_bit op =? 0) then Ok 0 else
  if is_zero op then Ok 0 else
  let? two := from_s32 (zeros 4) 2 in
  if cmp op two <? 0 then Ok 0 else
  if cmp op two =? 0 then Ok 1 else
  if negb (get_bit op 0) then Ok 0 else
  let rounds := Z.max 1 (Z.min confidence 8) in
  let? one := from_s32 (zeros 4) 1 in
  let? n1 := sub buf130 op one in
  prime_loop op n1 (Z.to_nat rounds) 0.

(** * Fast modular multiplication: plain numbers *)

Definition convert_to_fmm (dest src n ctx : list u32) : res ArithError (list u32) := modulo dest src n.
Definition convert_from_fmm (dest src n ctx : list u32) : res ArithError (list u32) := modulo dest src n.
Definition compute_fmm (dest op1 op2 n ctx : list u32) : res ArithError (list u32) := mul_mod dest op1 op2 n.
