(* ===== verification/ArithBn.v ===== *)
(** Lemmas on the numbers of [Arith]: the value of a list of limbs, the
    predicate [Bn x op] that buffer [op] holds the integer [x], and what each
    limb loop and each primitive operation does to that value.  A buffer is
    normal: the top limb is not zero and zero has no sign. *)
From Stdlib Require Import ZArith Lia.
From stdpp Require Import base list numbers.
From S2P Require Import Prelude Arith.

Local Open Scope Z_scope.
Local Open Scope rust_scope.

(** * Powers of the base *)

Definition W (k : Z) : Z := 2 ^ (32 * k).

Lemma W_def k : W k = 2 ^ (32 * k).
Proof. done. Qed.
Lemma W_0 : W 0 = 1.
Proof. done. Qed.
Lemma W_1 : W 1 = 2 ^ 32.
Proof. done. Qed.
Lemma W_add i j : 0 <= i -> 0 <= j -> W (i + j) = W i * W j.
Proof. intros. unfold W. rewrite Z.mul_add_distr_l, Z.pow_add_r by lia. done. Qed.
Lemma W_succ k : 0 <= k -> W (1 + k) = 2 ^ 32 * W k.
Proof. intros. by rewrite W_add, W_1 by lia. Qed.
Lemma W_pos k : 0 <= k -> 1 <= W k.
Proof. intros. unfold W. pose proof (Z.pow_pos_nonneg 2 (32 * k)). lia. Qed.
Lemma W_mono i j : 0 <= i <= j -> W i <= W j.
Proof. intros. unfold W. apply Z.pow_le_mono_r; lia. Qed.
Lemma W_lt_inv i j : 0 <= i -> 0 <= j -> W i < W j -> i < j.
Proof. intros ?? H. destruct (Z_lt_le_dec i j); [done|]. pose proof (W_mono j i). lia. Qed.

(** * The value of a list of limbs *)

Fixpoint eval (ls : list u32) : Z :=
  match ls with [] => 0 | x :: t => x + 2 ^ 32 * eval t end.

Definition words_ok (ls : list u32) : Prop := Forall (in_width 32) ls.

Lemma eval_bound ls : words_ok ls -> 0 <= eval ls < W (zlen ls).
Proof.
  induction 1 as [|x t Hx Ht IH]; [change (zlen []) with 0; rewrite W_0; cbn [eval]; lia|].
  rewrite zlen_cons, W_succ by apply zlen_nonneg. unfold in_width in Hx. cbn [eval]. lia.
Qed.

Lemma eval_app a b : eval (a ++ b) = eval a + W (zlen a) * eval b.
Proof.
  induction a as [|x t IH]; cbn [app eval]; [change (zlen []) with 0; rewrite W_0; lia|].
  rewrite zlen_cons, W_succ by apply zlen_nonneg. rewrite IH. ring.
Qed.

Lemma eval_replicate n : eval (replicate n 0) = 0.
Proof. induction n as [|k IH]; cbn [replicate eval]; lia. Qed.

Lemma eval_zeros n : eval (zeros n) = 0.
Proof. apply eval_replicate. Qed.

Lemma words_ok_zeros n : words_ok (zeros n).
Proof. unfold zeros, words_ok. apply list.Forall_replicate. unfold in_width. lia. Qed.

Lemma words_ok_app a b : words_ok (a ++ b) <-> words_ok a /\ words_ok b.
Proof. apply Forall_app. Qed.

Lemma as_u32_ok x : in_width 32 (as_u32 x).
Proof. apply wrap_width. lia. Qed.

Lemma as_u32_id x : in_width 32 x -> as_u32 x = x.
Proof. apply wrap_id. Qed.

(** A value split at its low word. *)
Lemma split_word s : as_u32 s + 2 ^ 32 * Z.shiftr s 32 = s.
Proof.
  unfold as_u32, wrap. rewrite Z.shiftr_div_pow2 by lia.
  pose proof (Z.div_mod s (2 ^ 32)). lia.
Qed.

(** A normal list of limbs: its top limb is not zero. *)
Definition trimmed (ls : list u32) : Prop := list.last ls <> Some 0.

Lemma trimmed_lower ls : words_ok ls -> trimmed ls -> ls <> [] -> W (zlen ls - 1) <= eval ls.
Proof.
  intros Hw Ht Hn. destruct ls as [|w t _] using rev_ind; [done|].
  apply words_ok_app in Hw as [Ho Hw]. apply Forall_cons_1 in Hw as [Hw _].
  unfold trimmed in Ht. rewrite last_snoc in Ht.
  rewrite eval_app, zlen_app. cbn [eval]. unfold in_width in Hw.
  replace (zlen t + zlen [w] - 1) with (zlen t) by (unfold zlen; simpl; lia).
  pose proof (eval_bound t Ho). pose proof (W_pos (zlen t) (zlen_nonneg _)).
  assert (w <> 0) by congruence. nia.
Qed.

Lemma trimmed_of_lower ls : words_ok ls -> W (zlen ls - 1) <= eval ls -> trimmed ls.
Proof.
  intros Hw Hl Ht. destruct ls as [|w t _] using rev_ind; [done|].
  rewrite last_snoc in Ht. injection Ht as ->.
  apply words_ok_app in Hw as [Ho _]. rewrite eval_app, zlen_app in Hl.
  replace (zlen t + zlen [0] - 1) with (zlen t) in Hl by (unfold zlen; simpl; lia).
  pose proof (eval_bound t Ho). cbn [eval] in Hl. lia.
Qed.

(** A normal list has no more limbs than its value needs. *)
Lemma trimmed_fits ls k : words_ok ls -> trimmed ls -> 0 <= k -> eval ls < W k -> zlen ls <= k.
Proof.
  intros Hw Ht Hk Hlt. destruct ls as [|w t]; [done|].
  pose proof (trimmed_lower _ Hw Ht ltac:(done)) as Hl.
  enough (zlen (w :: t) - 1 < k) by lia. apply W_lt_inv; [|done|lia].
  rewrite zlen_cons. pose proof (zlen_nonneg t). lia.
Qed.

Lemma trimmed_zero ls : words_ok ls -> trimmed ls -> eval ls = 0 -> ls = [].
Proof.
  intros Hw Ht H0. destruct ls as [|w t]; [done|].
  pose proof (trimmed_lower _ Hw Ht ltac:(done)).
  rewrite zlen_cons in *. pose proof (W_pos (1 + zlen t - 1)). pose proof (zlen_nonneg t). lia.
Qed.

(** * Buffers *)

Definition flag (x : Z) : u32 := if x <? 0 then 1 else 0.

(** Buffer [op] holds [x]. *)
Inductive Bn (x : Z) : list u32 -> Prop :=
| bn_intro ls rest :
    words_ok ls -> trimmed ls -> zlen ls < 2 ^ 32 -> eval ls = Z.abs x ->
    Bn x (flag x :: zlen ls :: ls ++ rest).

Lemma flag_01 x : flag x = 0 \/ flag x = 1.
Proof. unfold flag. case_match; auto. Qed.

Lemma nlimbs_raw f ls rest : nlimbs (f :: zlen ls :: ls ++ rest) = Ok (zlen ls).
Proof.
  unfold nlimbs, cap, idx. rewrite !zlen_cons, zlen_app.
  pose proof (zlen_nonneg ls). pose proof (zlen_nonneg rest).
  rewrite (proj2 (Z.ltb_ge _ _)) by lia. cbn [rbind lookup or_panic].
  change (or_panic _) with (@Ok ArithError Z (zlen ls)). cbn [rbind].
  by rewrite (proj2 (Z.ltb_ge _ _)) by lia.
Qed.

Lemma nl_raw f ls rest : nl (f :: zlen ls :: ls ++ rest) = zlen ls.
Proof. unfold nl. by rewrite nlimbs_raw. Qed.

Lemma sub_raw {A} (f n : A) ls rest : Prelude.sub (f :: n :: ls ++ rest) 2 (zlen ls) = ls.
Proof. change (f :: n :: ls ++ rest) with ([f; n] ++ ls ++ rest). rewrite sub_app_r by done. by apply sub_app_l. Qed.

Lemma limbs_raw f ls rest : limbs (f :: zlen ls :: ls ++ rest) = Ok ls.
Proof. unfold limbs. rewrite nlimbs_raw. cbn [rbind]. by rewrite sub_raw. Qed.

Lemma upd0 {E} f n t g : @upd E (f :: n :: t) 0 g = Ok (g :: n :: t).
Proof. unfold upd. rewrite !zlen_cons. pose proof (zlen_nonneg t). by rewrite (proj2 (Z.ltb_lt _ _)) by lia. Qed.
Lemma upd1 {E} f n t m : @upd E (f :: n :: t) 1 m = Ok (f :: m :: t).
Proof. unfold upd. rewrite !zlen_cons. pose proof (zlen_nonneg t). by rewrite (proj2 (Z.ltb_lt _ _)) by lia. Qed.

Create Rewrite HintDb bn.
#[export] Hint Rewrite nlimbs_raw nl_raw @sub_raw limbs_raw @upd0 @upd1 : bn.

(** A buffer of at least [2 + k] words, and limbs written at its start. *)
Lemma buffer_split (op : list u32) k : 0 <= k -> 2 + k <= zlen op ->
  exists f n a b, op = f :: n :: a ++ b /\ zlen a = k.
Proof.
  intros Hk H. destruct op as [|f [|n t]]; [unfold zlen in H; cbn in H; lia..|].
  rewrite !zlen_cons in H. exists f, n, (take (Z.to_nat k) t), (drop (Z.to_nat k) t).
  rewrite take_drop. split; [done|]. unfold zlen in *. rewrite length_take. lia.
Qed.

Lemma splice2 {A} (f n : A) a b new :
  zlen new = zlen a -> splice (f :: n :: a ++ b) 2 new = f :: n :: new ++ b.
Proof.
  unfold splice, zlen. intros H. change (Z.to_nat 2) with 2%nat. cbn [take app drop].
  replace (2 + length new)%nat with (S (S (length a))) by lia. cbn [drop].
  by rewrite drop_app_length.
Qed.

Lemma bn_zero (op : list u32) : 2 <= zlen op -> Bn 0 (zeros (zlen op)).
Proof.
  intros H. destruct op as [|? [|? t]]; [unfold zlen in H; cbn in H; lia..|].
  unfold zeros. rewrite !zlen_cons.
  replace (Z.to_nat (1 + (1 + zlen t))) with (S (S (Z.to_nat (zlen t))))
    by (pose proof (zlen_nonneg t); lia).
  apply (bn_intro 0 [] (replicate (Z.to_nat (zlen t)) 0)); try done. by constructor.
Qed.

Lemma bn_zlen x op : Bn x op -> 2 <= zlen op.
Proof. intros [ls rest]. rewrite !zlen_cons. pose proof (zlen_nonneg (ls ++ rest)). lia. Qed.

Lemma bn_sign x op : Bn x op -> sign_bit op = flag x.
Proof.
  intros [ls rest]. unfold sign_bit, first_word. cbn [hd].
  by destruct (flag_01 x) as [-> | ->].
Qed.

Lemma bn_first x op : Bn x op -> first_word op = flag x.
Proof. by intros [ls rest]. Qed.

Lemma bn_is_zero x op : Bn x op -> is_zero op = (x =? 0).
Proof.
  intros [ls rest Hw Ht Hs He]. unfold is_zero. autorewrite with bn.
  destruct (Z.eqb_spec x 0) as [-> | Hx].
  - apply trimmed_zero in He as ->; done.
  - destruct ls; [cbn in He; lia|]. rewrite zlen_cons. pose proof (zlen_nonneg ls).
    decide_guards. done.
Qed.

Lemma bn_nl_zero x op : Bn x op -> (nl op =? 0) = (x =? 0).
Proof. intros H. by rewrite <- (bn_is_zero x op). Qed.

(** A new sign: [s] is 0 or 1 and the number is not zero, or [s] is 0. *)
Lemma bn_reflag x f n t x' :
  Bn x (f :: n :: t) -> Z.abs x' = Z.abs x -> Bn x' (flag x' :: n :: t).
Proof. inversion 1 as [ls rest Hw Ht Hs He]; subst. intros Ha. constructor; try done. by rewrite Ha. Qed.

(** * Trimming *)

Lemma trim_len_spec f n t k :
  (k <= length t)%nat -> exists m, (m <= k)%nat /\ trim_len (f :: n :: t) k = Ok m /\
    trimmed (take m t) /\ eval (take m t) = eval (take k t).
Proof.
  induction k as [|k IH]; intros Hk.
  - by exists O.
  - cbn [trim_len]. unfold idx.
    replace (Z.to_nat (1 + Z.of_nat (S k))) with (S (S k)) by lia.
    change ((f :: n :: t) !! S (S k)) with (t !! k).
    destruct (lookup_lt_is_Some_2 t k ltac:(lia)) as [w Hw]. rewrite Hw. cbn [or_panic rbind].
    rewrite (take_S_r _ _ _ Hw). case_match; bsplit.
    + destruct IH as (m & ? & ? & ? & Hm); [lia|]. exists m. split_and!; [lia|done..|].
      rewrite eval_app, Hm. subst w. cbn [eval]. lia.
    + exists (S k). split_and!; [done..| |]; rewrite (take_S_r _ _ _ Hw); [|done].
      unfold trimmed. rewrite last_snoc. congruence.
Qed.

(** [trim] makes a buffer normal without changing its value. *)
Lemma trim_raw f ls rest x :
  words_ok ls -> zlen ls < 2 ^ 32 -> eval ls = Z.abs x -> (f = flag x \/ x = 0) ->
  exists op, trim (f :: zlen ls :: ls ++ rest) = Ok op /\ Bn x op /\
    zlen op = 2 + zlen ls + zlen rest.
Proof.
  intros Hw Hs He Hf. unfold trim. unfold idx at 1.
  change (or_panic _) with (@Ok ArithError Z (zlen ls)). cbn [rbind].
  destruct (trim_len_spec f (zlen ls) (ls ++ rest) (Z.to_nat (zlen ls))) as (m & Hm & -> & Ht & Hv).
  { rewrite length_app. unfold zlen. lia. }
  assert (take m (ls ++ rest) = take m ls) as Et by (rewrite take_app_le; [done|unfold zlen in Hm; lia]).
  assert (words_ok (take m ls)) as Hwm by by apply list.Forall_take.
  rewrite Et in Ht, Hv. rewrite take_app_le, (take_ge ls (Z.to_nat (zlen ls))) in Hv by (unfold zlen; lia).
  cbn [rbind]. rewrite upd1. cbn [rbind].
  assert (zlen (take m ls) = Z.of_nat m) as Hl by (unfold zlen in *; rewrite length_take; lia).
  rewrite as_u32_id by (unfold in_width; lia).
  assert (Bn x (flag x :: Z.of_nat m :: ls ++ rest)) as HB.
  { rewrite <- (take_drop m ls), <- app_assoc, <- Hl at 1. constructor; try done; [lia|congruence]. }
  assert (x = 0 <-> m = O) as H0.
  { split; [intros ->; apply trimmed_zero in Ht; [|done|lia]; rewrite Ht in Hl; change (zlen []) with 0 in Hl; lia|].
    intros ->. rewrite take_0 in Hv. cbn in Hv. lia. }
  eexists. split; [|split; [exact HB|rewrite !zlen_cons, zlen_app; lia]].
  case_match; bsplit; [|destruct Hf as [-> | ->]; [done|lia]].
  rewrite upd0. assert (x = 0) as -> by (apply H0; lia). done.
Qed.

(** * Copies *)

Lemma zlen_assign dest src : zlen (assign dest src) = zlen dest.
Proof.
  unfold assign. pose proof (zlen_nonneg dest). pose proof (zlen_nonneg src).
  rewrite zlen_splice; rewrite ?zlen_zeros by lia; rewrite ?zlen_sub by lia; lia.
Qed.

Lemma assign_bn x dest src k :
  Bn x src -> zlen dest = 2 + k -> 0 <= k -> Z.abs x < W k -> Bn x (assign dest src).
Proof.
  intros [ls rest Hw Ht Hs He] Hd Hk Hx.
  pose proof (trimmed_fits ls k Hw Ht Hk ltac:(lia)) as Hls.
  unfold assign, splice, Prelude.sub. change (Z.to_nat 0) with O. rewrite take_0, drop_0. cbn [app].
  set (m := Z.to_nat (Z.min _ _)).
  assert (2 + length ls <= m)%nat as Hm.
  { subst m. rewrite !zlen_cons, zlen_app. pose proof (zlen_nonneg rest). unfold zlen in *. lia. }
  destruct m as [|[|m]]; [lia..|]. cbn [take]. rewrite take_app_ge by lia.
  rewrite <- !app_comm_cons, <- app_assoc. by constructor.
Qed.

(** * Comparison *)

Lemma cmp_top_spec xs ys :
  length xs = length ys -> words_ok xs -> words_ok ys ->
  cmp_top (rev xs) (rev ys) = Z.sgn (eval xs - eval ys).
Proof.
  revert ys. induction xs as [|x xs IH] using rev_ind; intros ys Hl Hx Hy.
  - by destruct ys.
  - destruct ys as [|y ys _] using rev_ind; [rewrite length_app in Hl; simpl in Hl; lia|].
    rewrite !length_app in Hl. simpl in Hl.
    apply words_ok_app in Hx as [Hx Hx1]. apply words_ok_app in Hy as [Hy Hy1].
    rewrite !rev_app_distr, !eval_app. cbn [rev app cmp_top eval].
    assert (zlen ys = zlen xs) as -> by (unfold zlen; lia).
    pose proof (eval_bound xs Hx). pose proof (eval_bound ys Hy) as Hb.
    assert (zlen ys = zlen xs) as E by (unfold zlen; lia). rewrite E in Hb.
    pose proof (W_pos (zlen xs) (zlen_nonneg _)).
    destruct (Z.ltb_spec y x); [|destruct (Z.ltb_spec x y)].
    + symmetry. apply Z.sgn_pos_iff. nia.
    + symmetry. apply Z.sgn_neg_iff. nia.
    + assert (x = y) as -> by lia. rewrite IH by (done || lia). f_equal. lia.
Qed.

Lemma cmp_mag_bn x y a b : Bn x a -> Bn y b -> cmp_mag a b = Z.sgn (Z.abs x - Z.abs y).
Proof.
  intros [la ra Hwa Hta Hsa Hea] [lb rb Hwb Htb Hsb Heb]. unfold cmp_mag. autorewrite with bn.
  rewrite <- Hea, <- Heb.
  pose proof (eval_bound la Hwa). pose proof (eval_bound lb Hwb).
  assert (forall l1 l2 : list Z, words_ok l1 -> trimmed l1 -> zlen l2 < zlen l1 -> W (zlen l2) <= eval l1) as Hlt.
  { intros l1 l2 Hw Ht Hl. etransitivity; [|apply trimmed_lower; [done..|]].
    - apply W_mono. pose proof (zlen_nonneg l2). lia.
    - intros ->. pose proof (zlen_nonneg l2). change (zlen []) with 0 in Hl. lia. }
  destruct (Z.ltb_spec (zlen lb) (zlen la)); [|destruct (Z.ltb_spec (zlen la) (zlen lb))].
  - symmetry. apply Z.sgn_pos_iff. pose proof (Hlt la lb Hwa Hta ltac:(lia)). lia.
  - symmetry. apply Z.sgn_neg_iff. pose proof (Hlt lb la Hwb Htb ltac:(lia)). lia.
  - apply cmp_top_spec; [unfold zlen in *; lia|done..].
Qed.

Lemma cmp_bn x y a b : Bn x a -> Bn y b -> cmp a b = Z.sgn (x - y).
Proof.
  intros Ha Hb. unfold cmp. rewrite (bn_sign _ _ Ha), (bn_sign _ _ Hb), (cmp_mag_bn _ _ _ _ Ha Hb).
  unfold flag. destruct (Z.ltb_spec x 0), (Z.ltb_spec y 0); cbn -[Z.sgn Z.sub].
  - rewrite !Z.abs_neq by lia. rewrite <- Z.sgn_opp. f_equal. lia.
  - symmetry. apply Z.sgn_neg_iff. lia.
  - symmetry. apply Z.sgn_pos_iff. lia.
  - rewrite !Z.abs_eq by lia. done.
Qed.

(** * Addition and subtraction *)

Lemma hd_eval l : words_ok l -> in_width 32 (hd 0 l) /\ words_ok (tl l) /\ eval l = hd 0 l + 2 ^ 32 * eval (tl l).
Proof. intros [|x t Hx Ht]; cbn [hd tl eval]; split_and!; try done. constructor. Qed.

Lemma add_loop_spec n xs ys c :
  (length xs <= n)%nat -> (length ys <= n)%nat -> words_ok xs -> words_ok ys -> 0 <= c <= 1 ->
  exists ds c', add_loop n xs ys c = (ds, c') /\ length ds = n /\ words_ok ds /\ 0 <= c' <= 1 /\
    eval ds + W (Z.of_nat n) * c' = eval xs + eval ys + c.
Proof.
  revert xs ys c. induction n as [|n IH]; intros xs ys c Hx Hy Hwx Hwy Hc.
  - destruct xs, ys; simpl in *; try lia. exists [], c. split_and!; try done; [lia..|].
    change (W (Z.of_nat 0)) with 1. cbn [eval]. lia.
  - cbn [add_loop]. destruct (hd_eval xs Hwx) as (Hx1 & Hx2 & ->). destruct (hd_eval ys Hwy) as (Hy1 & Hy2 & ->).
    set (s := hd 0 xs + hd 0 ys + c). pose proof (split_word s) as Hs. unfold in_width in *.
    pose proof (as_u32_ok s) as Ho. unfold in_width in Ho.
    destruct (IH (tl xs) (tl ys) (Z.shiftr s 32)) as (ds & c' & -> & Hl & Hd & Hc' & He); try done.
    + destruct xs; simpl in *; lia.
    + destruct ys; simpl in *; lia.
    + lia.
    + exists (as_u32 s :: ds), c'. rewrite Nat2Z.inj_succ, <- Z.add_1_l, W_succ by lia.
      split_and!; [done|simpl; lia|by constructor|lia..|]. cbn [eval]. lia.
Qed.

(** Limbs and a carry out of the top one. *)
Lemma carry_bn v ds c rest :
  words_ok ds -> in_width 32 c -> (c = 0 -> trimmed ds) -> zlen ds + 1 < 2 ^ 32 ->
  eval ds + W (zlen ds) * c = Z.abs v ->
  Bn v (flag v :: zlen ds + (if negb (c =? 0) then 1 else 0) :: ds ++ [c] ++ rest).
Proof.
  intros Hw Hc Ht Hl Hv. destruct (Z.eqb_spec c 0) as [-> | Hc0]; cbn [negb].
  - rewrite Z.add_0_r. constructor; auto with lia.
  - rewrite app_assoc. replace (zlen ds + 1) with (zlen (ds ++ [c])) by (by rewrite zlen_app).
    constructor; [| |by rewrite zlen_app|rewrite eval_app; cbn [eval]; lia].
    + apply words_ok_app; split; [done|]. constructor; [done|constructor].
    + unfold trimmed. rewrite last_snoc. congruence.
Qed.

(** A sum has at least the limbs of its longer operand. *)
Lemma trimmed_max la lb ds :
  words_ok la -> trimmed la -> words_ok lb -> trimmed lb -> words_ok ds ->
  zlen ds = Z.max (zlen la) (zlen lb) -> eval la + eval lb <= eval ds -> trimmed ds.
Proof.
  intros Hwa Hta Hwb Htb Hw Hl He. pose proof (eval_bound la Hwa). pose proof (eval_bound lb Hwb).
  destruct ds as [|d ds]; [done|]. apply trimmed_of_lower; [done|].
  rewrite zlen_cons in *. pose proof (zlen_nonneg ds).
  assert (1 + zlen ds = zlen la \/ 1 + zlen ds = zlen lb) as [Hn|Hn] by lia; rewrite Hn.
  - pose proof (trimmed_lower la Hwa Hta). destruct la; [change (zlen []) with 0 in Hn; lia|].
    enough (W (zlen (z :: la) - 1) <= eval (z :: la)) by lia. auto.
  - pose proof (trimmed_lower lb Hwb Htb). destruct lb; [change (zlen []) with 0 in Hn; lia|].
    enough (W (zlen (z :: lb) - 1) <= eval (z :: lb)) by lia. auto.
Qed.

Lemma add_mag_bn x y dest a b k :
  Bn x a -> Bn y b -> zlen dest = 2 + k -> 1 <= k < 2 ^ 32 ->
  Z.abs x < W (k - 1) -> Z.abs y < W (k - 1) ->
  exists t n, add_mag dest a b = Ok (0 :: n :: t) /\ Bn (Z.abs x + Z.abs y) (0 :: n :: t) /\
    zlen (0 :: n :: t) = zlen dest.
Proof.
  intros [la ra Hwa Hta Hsa Hea] [lb rb Hwb Htb Hsb Heb] Hd Hk Hx Hy.
  pose proof (trimmed_fits la (k - 1) Hwa Hta ltac:(lia) ltac:(lia)).
  pose proof (trimmed_fits lb (k - 1) Hwb Htb ltac:(lia) ltac:(lia)).
  pose proof (zlen_nonneg la). pose proof (zlen_nonneg lb).
  unfold add_mag, cap. rewrite !nlimbs_raw. cbn [rbind]. rewrite !sub_raw.
  set (n := Z.max (zlen la) (zlen lb)).
  rewrite (proj2 (Z.ltb_ge _ 2)) by lia. cbn [rbind]. rewrite (proj2 (Z.ltb_ge _ _)) by lia.
  destruct (add_loop_spec (Z.to_nat n) la lb 0) as (ds & c & -> & Hl & Hw & Hc & He);
    try done; [unfold zlen in *; lia..|]. rewrite Z2Nat.id in He by lia.
  assert (zlen ds = n) as Hln by (unfold zlen; lia).
  destruct (buffer_split dest (n + 1)) as (f0 & n0 & w1 & w2 & -> & Hw1); [lia..|].
  rewrite !zlen_cons, zlen_app in Hd.
  destruct w1 as [|w w1 _] using rev_ind; [change (zlen []) with 0 in Hw1; lia|].
  rewrite zlen_app in Hw1. change (zlen [w]) with 1 in Hw1.
  rewrite <- app_assoc. rewrite splice2 by lia.
  assert (@upd ArithError (f0 :: n0 :: ds ++ [w] ++ w2) (2 + n) (as_u32 c) = Ok (f0 :: n0 :: ds ++ [c] ++ w2)) as ->.
  { unfold upd. rewrite !zlen_cons, !zlen_app. change (zlen [w]) with 1. pose proof (zlen_nonneg w2).
    rewrite (proj2 (Z.ltb_lt _ _)) by lia. rewrite as_u32_id by (unfold in_width; lia).
    replace (Z.to_nat (2 + n)) with (S (S (length ds + 0))) by lia.
    change (<[S (S (length ds + 0)) := c]> (f0 :: n0 :: ds ++ [w] ++ w2))
      with (f0 :: n0 :: <[(length ds + 0)%nat := c]> (ds ++ [w] ++ w2)).
    by rewrite insert_app_r. }
  cbn [rbind]. rewrite upd1. cbn [rbind]. rewrite upd0.
  rewrite as_u32_id by (unfold in_width; case_match; lia).
  eexists _, _. split; [done|].
  split; [|rewrite !zlen_cons, !zlen_app; change (zlen [c]) with 1; change (zlen [w]) with 1; lia].
  assert (flag (Z.abs x + Z.abs y) = 0) as Hf by (unfold flag; case_match; bsplit; lia).
  match goal with |- Bn ?v (0 :: ?t) => enough (Bn v (flag v :: t)) by congruence end.
  rewrite <- Hln. apply carry_bn; [done|unfold in_width; lia| |lia|rewrite Hln; lia].
  intros ->. apply (trimmed_max la lb ds); try done; lia.
Qed.

Lemma sub_loop_spec xs ys b :
  (length ys <= length xs)%nat -> words_ok xs -> words_ok ys -> 0 <= b <= 1 ->
  words_ok (sub_loop xs ys b) /\ length (sub_loop xs ys b) = length xs /\
  exists b', 0 <= b' <= 1 /\
    eval (sub_loop xs ys b) = eval xs - eval ys - b + W (zlen xs) * b'.
Proof.
  revert ys b. induction xs as [|x xs IH]; intros ys b Hl Hwx Hwy Hb.
  - destruct ys; simpl in *; [|lia]. split_and!; try done. exists b. split; [done|].
    change (W (zlen [])) with 1. cbn [eval]. lia.
  - apply Forall_cons_1 in Hwx as [Hx Hwx]. destruct (hd_eval ys Hwy) as (Hy1 & Hy2 & ->).
    assert (length (tl ys) <= length xs)%nat as Hl' by (destruct ys; simpl in *; lia).
    unfold in_width in *. cbn [sub_loop eval].
    rewrite zlen_cons, W_succ by apply zlen_nonneg.
    destruct (Z.ltb_spec (x - hd 0 ys - b) 0).
    + destruct (IH (tl ys) 1) as (Hw & Hn & b' & Hb' & He); try done.
      split_and!; [constructor; [apply as_u32_ok|done]|simpl; lia|].
      exists b'. split; [done|]. cbn [eval]. rewrite as_u32_id by (unfold in_width; lia). lia.
    + destruct (IH (tl ys) 0) as (Hw & Hn & b' & Hb' & He); try done.
      split_and!; [constructor; [apply as_u32_ok|done]|simpl; lia|].
      exists b'. split; [done|]. cbn [eval]. rewrite as_u32_id by (unfold in_width; lia). lia.
Qed.

Lemma sub_mag_bn x y dest a b k :
  Bn x a -> Bn y b -> Z.abs y <= Z.abs x -> zlen dest = 2 + k -> 0 <= k < 2 ^ 32 -> Z.abs x < W k ->
  exists t n, sub_mag dest a b = Ok (0 :: n :: t) /\ Bn (Z.abs x - Z.abs y) (0 :: n :: t) /\
    zlen (0 :: n :: t) = zlen dest.
Proof.
  intros [la ra Hwa Hta Hsa Hea] [lb rb Hwb Htb Hsb Heb] Hxy Hd Hk Hx.
  pose proof (trimmed_fits la k Hwa Hta ltac:(lia) ltac:(lia)).
  pose proof (zlen_nonneg la). pose proof (eval_bound la Hwa).
  pose proof (trimmed_fits lb (zlen la) Hwb Htb ltac:(lia) ltac:(lia)).
  unfold sub_mag. rewrite !nlimbs_raw. cbn [rbind]. rewrite !sub_raw. rewrite (proj2 (Z.ltb_ge _ _)) by lia.
  destruct (sub_loop_spec la lb 0) as (Hw & Hl & b' & Hb' & He); [unfold zlen in *; lia|done..|].
  set (ds := sub_loop la lb 0) in *.
  assert (zlen ds = zlen la) as Hln by (unfold zlen; lia).
  pose proof (eval_bound ds Hw) as Hb. rewrite Hln in Hb.
  assert (b' = 0) as -> by nia.
  destruct (buffer_split dest (zlen la)) as (f0 & n0 & w1 & w2 & -> & Hw1); [lia..|].
  rewrite splice2, upd1 by lia. cbn [rbind]. rewrite upd0. cbn [rbind].
  rewrite as_u32_id, <- Hln by (unfold in_width; lia).
  destruct (trim_raw 0 ds w2 (Z.abs x - Z.abs y)) as (op & -> & HB & HL); [done|lia|lia| |].
  { left. unfold flag. case_match; bsplit; lia. }
  assert (exists n t, op = 0 :: n :: t) as (n & t & ->).
  { inversion HB; subst. unfold flag. case_match; bsplit; [lia|eauto]. }
  exists t, n. split_and!; [done|done|]. rewrite HL, !zlen_cons, zlen_app. lia.
Qed.

(** What [add] needs of its buffers: the operands fit, and when the signs agree
    one limb is spare. *)
Definition AddRoom (k x y : Z) : Prop :=
  1 <= k < 2 ^ 32 /\ Z.abs x < W k /\ Z.abs y < W k /\
  (flag x = flag y -> Z.abs x < W (k - 1) /\ Z.abs y < W (k - 1)).

Lemma add_bn x y dest a b k :
  Bn x a -> Bn y b -> zlen dest = 2 + k -> AddRoom k x y ->
  exists d, add dest a b = Ok d /\ Bn (x + y) d /\ zlen d = zlen dest.
Proof.
  intros Ha Hb Hd (Hk & Hx & Hy & Hroom). unfold add.
  rewrite (bn_sign _ _ Ha), (bn_sign _ _ Hb), (cmp_mag_bn _ _ _ _ Ha Hb).
  destruct (Z.eqb_spec (flag x) (flag y)) as [Hf|Hf].
  - destruct (Hroom Hf) as [Hx' Hy'].
    destruct (add_mag_bn x y dest a b k) as (t & n & -> & HB & HL); try done.
    cbn [ignore_err rbind]. rewrite upd0. cbn [rbind].
    assert (Z.abs (x + y) = Z.abs x + Z.abs y) as Habs
      by (unfold flag in Hf; destruct (Z.ltb_spec x 0), (Z.ltb_spec y 0); try done; lia).
    apply (bn_reflag _ _ _ _ (x + y)) in HB; [|lia].
    destruct (Z.eqb_spec (nl (flag x :: n :: t)) 0) as [E|E].
    + rewrite upd0. eexists. split; [done|]. split; [|done].
      apply Z.eqb_eq in E. change ((nl (flag (x + y) :: n :: t) =? 0) = true) in E.
      rewrite (bn_nl_zero _ _ HB) in E. bsplit. rewrite E in HB |- *. done.
    + eexists. split; [done|]. split; [|done].
      replace (flag x) with (flag (x + y)); [done|].
      unfold flag in *. destruct (Z.ltb_spec x 0), (Z.ltb_spec y 0), (Z.ltb_spec (x + y) 0); try done; lia.
  - assert (x + y = 0 -> Z.abs x = Z.abs y) by lia.
    destruct (Z.ltb_spec (Z.abs x) (Z.abs y)) as [Hlt|Hge]; [|destruct (Z.eqb_spec (Z.abs x) (Z.abs y)) as [E|Hne]].
    + rewrite (proj2 (Z.sgn_neg_iff _)) by lia. cbn [Z.eqb].
      destruct (sub_mag_bn y x dest b a k) as (t & n & -> & HB & HL); try done; try lia.
      cbn [ignore_err rbind]. rewrite upd0. eexists. split; [done|]. split; [|done].
      replace (flag y) with (flag (x + y)); [apply (bn_reflag _ _ _ _ _ HB)|]; unfold flag in *;
        destruct (Z.ltb_spec x 0), (Z.ltb_spec y 0), (Z.ltb_spec (x + y) 0); try done; lia.
    + rewrite E, Z.sub_diag. cbn [Z.sgn Z.eqb]. eexists. split; [done|].
      unfold init. rewrite zlen_zeros by apply zlen_nonneg. split; [|done].
      replace (x + y) with 0; [apply bn_zero; lia|].
      unfold flag in *; destruct (Z.ltb_spec x 0), (Z.ltb_spec y 0); try done; lia.
    + rewrite (proj2 (Z.sgn_pos_iff _)) by lia. cbn [Z.eqb].
      destruct (sub_mag_bn x y dest a b k) as (t & n & -> & HB & HL); try done; try lia.
      cbn [ignore_err rbind]. rewrite upd0. eexists. split; [done|]. split; [|done].
      replace (flag x) with (flag (x + y)); [apply (bn_reflag _ _ _ _ _ HB)|]; unfold flag in *;
        destruct (Z.ltb_spec x 0), (Z.ltb_spec y 0), (Z.ltb_spec (x + y) 0); try done; lia.
Qed.

Lemma zlen_buf130 : zlen buf130 = 2 + 128.
Proof. done. Qed.

Lemma flag_opp x : x <> 0 -> Z.lxor (flag x) FLAG_NEG = flag (- x).
Proof. intros. unfold flag. destruct (Z.ltb_spec x 0), (Z.ltb_spec (- x) 0); try done; lia. Qed.

Lemma flag_mul x y : x * y <> 0 -> Z.land (Z.lxor (flag x) (flag y)) FLAG_NEG = flag (x * y).
Proof.
  intros. unfold flag. destruct (Z.ltb_spec x 0), (Z.ltb_spec y 0), (Z.ltb_spec (x * y) 0); try done; nia.
Qed.

(** [dest[0] ^= FLAG_NEG] on a number that is not zero. *)
Lemma flip_bn x op : Bn x op -> x <> 0 ->
  exists d, (let? f := @idx ArithError op 0 in upd op 0 (Z.lxor f FLAG_NEG)) = Ok d /\ Bn (- x) d /\ zlen d = zlen op.
Proof.
  intros HB Hx. inversion HB as [ls rest Hw Ht Hs He]; subst op. unfold idx. cbn [lookup].
  change (or_panic _) with (@Ok ArithError Z (flag x)). cbn [rbind].
  rewrite upd0, flag_opp by done. eexists. split; [done|]. split; [|done].
  apply (bn_reflag x (flag x)); [done|lia].
Qed.

Lemma sub_bn x y dest a b k :
  Bn x a -> Bn y b -> zlen dest = 2 + k -> AddRoom k x (- y) -> Z.abs y < W 128 ->
  exists d, sub dest a b = Ok d /\ Bn (x - y) d /\ zlen d = zlen dest.
Proof.
  intros Ha Hb Hd Hr Hy. unfold sub.
  pose proof (assign_bn y buf130 b 128 Hb zlen_buf130 ltac:(lia) Hy) as Hn.
  rewrite (bn_nl_zero _ _ Hn). destruct (Z.eqb_spec y 0) as [-> | Hy0]; cbn [negb rbind].
  - rewrite Z.sub_0_r. destruct (add_bn x 0 dest a (assign buf130 b) k) as (d & -> & HB & HL); try done.
    exists d. split_and!; [done| |done]. by rewrite Z.add_0_r in HB.
  - destruct (flip_bn y _ Hn Hy0) as (ng & -> & HB & _). cbn [rbind].
    apply (add_bn x (- y) dest a ng k); done.
Qed.

(** * Multiplication *)

Lemma mul_row_spec x ys az c z :
  in_width 32 x -> words_ok ys -> words_ok az -> length az = length ys -> in_width 32 c ->
  exists row, mul_row x ys (az ++ 0 :: z) c = row ++ z /\ length row = S (length ys) /\
    words_ok row /\ eval row = eval az + x * eval ys + c.
Proof.
  intros Hx Hy. revert az c. induction Hy as [|y ys Hy Hys IH]; intros az c Ha Hl Hc.
  - destruct az; [|done]. exists [c]. cbn [mul_row app]. rewrite as_u32_id by done.
    split_and!; [done|done|constructor; [done|constructor]|cbn [eval]; lia].
  - destruct az as [|t az]; [done|]. injection Hl as Hl. apply Forall_cons_1 in Ha as [Ht Ha].
    cbn [app mul_row]. set (p := t + x * y + c).
    pose proof (split_word p) as Hp. pose proof (as_u32_ok p) as Ho. unfold in_width in *.
    assert (0 <= p < 2 ^ 64) by (subst p; nia).
    destruct (IH az (Z.shiftr p 32)) as (row & -> & Hr1 & Hr2 & Hr3); [done|done|unfold in_width; lia|].
    exists (as_u32 p :: row). split_and!; [done|simpl; lia|by constructor|].
    cbn [eval]. rewrite Hr3. subst p. lia.
Qed.

Lemma mul_rows_spec xs ys az k :
  words_ok xs -> words_ok ys -> words_ok az -> length az = length ys -> (length xs <= k)%nat ->
  exists res, mul_rows xs ys (az ++ replicate k 0) = res ++ replicate (k - length xs) 0 /\
    length res = (length xs + length ys)%nat /\ words_ok res /\
    eval res = eval az + eval xs * eval ys.
Proof.
  intros Hx Hy. revert az k. induction Hx as [|x xs Hx Hxs IH]; intros az k Ha Hl Hk.
  - exists az. rewrite Nat.sub_0_r. cbn [mul_rows eval]. split_and!; [done|done|done|lia].
  - destruct k as [|k]; [simpl in Hk; lia|]. cbn [mul_rows replicate].
    destruct (mul_row_spec x ys az 0 (replicate k 0)) as (row & -> & Hr1 & Hr2 & Hr3);
      try done.
    destruct row as [|w row]; [done|]. injection Hr1 as Hr1. apply Forall_cons_1 in Hr2 as [Hw Hr2].
    cbn [app]. destruct (IH row k) as (r & -> & H1 & H2 & H3); [done|done|simpl in Hk; lia|].
    exists (w :: r). split_and!; [done|simpl; lia|by constructor|].
    cbn [eval] in *. rewrite H3. lia.
Qed.

Lemma mul_bn x y dest a b k :
  Bn x a -> Bn y b -> zlen dest = 2 + k -> 0 <= k -> Z.abs (x * y) < W k ->
  zlen a + zlen b < 2 ^ 32 ->
  exists d, mul dest a b = Ok d /\ Bn (x * y) d /\ zlen d = zlen dest.
Proof.
  intros Ha Hb Hd Hk Hxy Hl. unfold mul. cbv zeta. rewrite (bn_first _ _ Ha), (bn_first _ _ Hb).
  destruct Ha as [la ra Hwa Hta Hsa Hea], Hb as [lb rb Hwb Htb Hsb Heb].
  rewrite !nl_raw, !sub_raw. pose proof (zlen_nonneg la). pose proof (zlen_nonneg lb).
  rewrite !zlen_cons, !zlen_app in Hl. pose proof (zlen_nonneg ra). pose proof (zlen_nonneg rb).
  assert (zeros (2 + zlen la + zlen lb + 1)
          = 0 :: 0 :: replicate (length lb) 0 ++ replicate (S (length la)) 0) as ->.
  { unfold zeros. rewrite <- replicate_add.
    change (0 :: 0 :: ?l) with (replicate 2 0 ++ l). rewrite <- replicate_add.
    f_equal. unfold zlen. lia. }
  cbn [drop]. rewrite drop_0. destruct (mul_rows_spec la lb (replicate (length lb) 0) (S (length la)))
    as (r & -> & Hr1 & Hr2 & Hr3); [done|done|apply list.Forall_replicate; unfold in_width; lia|by rewrite length_replicate|lia|].
  assert (zlen r = zlen la + zlen lb) as Hlr by (unfold zlen; lia).
  rewrite <- (app_nil_r (replicate (length lb) 0 ++ _)).
  rewrite splice2 by (rewrite !zlen_app; unfold zlen in *; rewrite !length_replicate; lia).
  rewrite app_nil_r, upd1. cbn [rbind]. rewrite upd0. cbn [rbind].
  rewrite as_u32_id, <- Hlr by (unfold in_width; lia).
  rewrite eval_replicate in Hr3.
  destruct (trim_raw (Z.land (Z.lxor (flag x) (flag y)) FLAG_NEG) r
              (replicate (S (length la) - length la) 0) (x * y)) as (op & -> & HB & HL);
    [done|lia|rewrite Hr3, Z.abs_mul; lia| |].
  { destruct (Z.eq_dec (x * y) 0); [by right|left]. by apply flag_mul. }
  cbn [rbind]. eexists. split; [done|]. split; [by apply (assign_bn _ _ _ k)|apply zlen_assign].
Qed.

(** * Shifts *)

(** A word split at bit [32 - rem]. *)
Lemma word_split cur rem :
  in_width 32 cur -> 0 < rem < 32 -> exists lo,
    wrap 32 (Z.shiftl cur rem) = lo * 2 ^ rem /\ cur = lo + 2 ^ (32 - rem) * Z.shiftr cur (32 - rem) /\
    0 <= lo < 2 ^ (32 - rem) /\ 0 <= Z.shiftr cur (32 - rem) < 2 ^ rem /\
    2 ^ 32 = 2 ^ (32 - rem) * 2 ^ rem.
Proof.
  intros Hc Hr. exists (cur mod 2 ^ (32 - rem)).
  assert (2 ^ 32 = 2 ^ (32 - rem) * 2 ^ rem) as E by (rewrite <- Z.pow_add_r by lia; f_equal; lia).
  pose proof (Z.pow_pos_nonneg 2 (32 - rem)). pose proof (Z.pow_pos_nonneg 2 rem).
  pose proof (Z.mod_pos_bound cur (2 ^ (32 - rem)) ltac:(lia)).
  pose proof (Z.div_mod cur (2 ^ (32 - rem)) ltac:(lia)) as Hd.
  rewrite Z.shiftr_div_pow2 by lia. unfold in_width in Hc. split_and!; try lia.
  - unfold wrap. rewrite Z.shiftl_mul_pow2, E by lia. by rewrite Z.mul_mod_distr_r by lia.
  - apply Z.div_pos; lia.
  - apply Z.div_lt_upper_bound; lia.
Qed.

Lemma shl_loop_spec rem ls c :
  0 < rem < 32 -> words_ok ls -> 0 <= c < 2 ^ rem ->
  exists ys c', shl_loop rem ls c = (ys, c') /\ length ys = length ls /\ words_ok ys /\
    0 <= c' < 2 ^ rem /\ eval ys + W (zlen ls) * c' = eval ls * 2 ^ rem + c.
Proof.
  intros Hr Hw. revert c. induction Hw as [|x ls Hx Hls IH]; intros c Hc.
  - exists [], c. split_and!; [done|done|constructor|lia..|].
    change (W (zlen [])) with 1. cbn [eval]. lia.
  - cbn [shl_loop]. destruct (word_split x rem Hx Hr) as (lo & E1 & E2 & Hlo & Hhi & E3).
    destruct (IH _ Hhi) as (ys & c' & -> & Hl & Hy & Hc' & He).
    rewrite E1, lor_disjoint_add by lia. eexists _, c'. split; [done|].
    rewrite zlen_cons, W_succ by apply zlen_nonneg.
    split_and!; [simpl; lia|constructor; [unfold in_width; nia|done]|lia..|].
    cbn [eval]. set (h := Z.shiftr x (32 - rem)) in *.
    transitivity (lo * 2 ^ rem + c + 2 ^ 32 * (eval ls * 2 ^ rem + h)); [lia|].
    rewrite E2, E3. ring.
Qed.

(** The two phases of [shl_words]: whole words, then bits. *)
Lemma shl_words_phase x ls rest words :
  words_ok ls -> trimmed ls -> eval ls = Z.abs x -> x <> 0 -> 0 < words ->
  words <= zlen rest -> zlen ls + words < 2 ^ 32 ->
  exists ls' rest', <[1%nat := as_u32 (zlen ls + words)]>
      (splice (flag x :: zlen ls :: ls ++ rest) 2 (zeros words ++ ls)) = flag x :: zlen ls' :: ls' ++ rest' /\
    words_ok ls' /\ trimmed ls' /\ eval ls' = Z.abs x * W words /\ zlen ls' = zlen ls + words /\
    zlen rest' = zlen rest - words.
Proof.
  intros Hw Ht He Hx Hwo Hr Hl. pose proof (zlen_nonneg ls). pose proof (zlen_nonneg rest).
  exists (zeros words ++ ls), (drop (length ls + Z.to_nat words) (ls ++ rest)).
  assert (zlen (zeros words ++ ls) = zlen ls + words) as Hz by (rewrite zlen_app, zlen_zeros by lia; lia).
  assert (words_ok (zeros words ++ ls)) as Hw' by (apply words_ok_app; split; [apply words_ok_zeros|done]).
  assert (eval (zeros words ++ ls) = Z.abs x * W words) as Hv
    by (rewrite eval_app, eval_zeros, zlen_zeros by lia; lia).
  split_and!; try done.
  - rewrite <- (take_drop (length ls + Z.to_nat words) (ls ++ rest)) at 1.
    rewrite splice2.
    + rewrite as_u32_id by (unfold in_width; lia). by rewrite Hz.
    + rewrite Hz. unfold zlen in *. rewrite length_take, length_app. lia.
  - apply trimmed_of_lower; [done|]. rewrite Hv, Hz, <- He.
    replace (zlen ls + words - 1) with (words + (zlen ls - 1)) by lia.
    assert (ls <> []) as Hn by (intros ->; cbn in He; lia).
    pose proof (trimmed_lower ls Hw Ht Hn). pose proof (W_pos words ltac:(lia)).
    rewrite W_add; [nia|lia|]. destruct ls; [done|]. rewrite zlen_cons. pose proof (zlen_nonneg ls). lia.
  - unfold zlen in *. rewrite length_drop, length_app. lia.
Qed.

Lemma shl_bits_phase x ls rest rem :
  words_ok ls -> trimmed ls -> eval ls = Z.abs x -> x <> 0 -> 0 < rem < 32 ->
  1 <= zlen rest -> zlen ls + 1 < 2 ^ 32 ->
  let '(ls', carry) := shl_loop rem ls 0 in
  let op := splice (flag x :: zlen ls :: ls ++ rest) 2 ls' in
  let op' := if negb (carry =? 0) && (2 + zlen ls <? zlen op)
             then <[1%nat := as_u32 (zlen ls + 1)]> (<[Z.to_nat (2 + zlen ls) := carry]> op) else op in
  Bn (x * 2 ^ rem) op' /\ zlen op' = 2 + zlen ls + zlen rest.
Proof.
  intros Hw Ht He Hx Hr Hre Hl. pose proof (zlen_nonneg ls).
  destruct (shl_loop_spec rem ls 0) as (ys & c & -> & Hly & Hwy & Hc & Hv); [done..|lia|].
  pose proof (Z.pow_pos_nonneg 2 rem). assert (2 ^ rem < 2 ^ 32) by (apply Z.pow_lt_mono_r; lia).
  assert (zlen ys = zlen ls) as Hz by (unfold zlen; lia). cbv zeta.
  rewrite splice2 by done. assert (flag (x * 2 ^ rem) = flag x) as Hf.
  { unfold flag. destruct (Z.ltb_spec x 0), (Z.ltb_spec (x * 2 ^ rem) 0); try done; nia. }
  assert (Z.abs (x * 2 ^ rem) = eval ls * 2 ^ rem) as Ha
    by (rewrite Z.abs_mul, (Z.abs_eq (2 ^ rem)) by lia; lia).
  destruct rest as [|w rest]; [change (zlen []) with 0 in Hre; lia|].
  rewrite !zlen_cons, !zlen_app, !zlen_cons. pose proof (zlen_nonneg rest).
  rewrite (proj2 (Z.ltb_lt _ _)), andb_true_r by lia.
  destruct (Z.eqb_spec c 0) as [-> | Hc0]; cbn [negb].
  - rewrite <- Hf, <- Hz. split; [constructor; [done| |lia..]|rewrite !zlen_cons, !zlen_app, !zlen_cons; lia].
    apply trimmed_of_lower; [done|]. rewrite Hz.
    pose proof (trimmed_lower ls Hw Ht ltac:(intros ->; cbn in He; lia)). nia.
  - replace (Z.to_nat (2 + zlen ls)) with (S (S (length ys + 0))) by (unfold zlen; lia).
    change (<[S (S (length ys + 0)) := c]> (flag x :: zlen ls :: ys ++ w :: rest))
      with (flag x :: zlen ls :: <[(length ys + 0)%nat := c]> (ys ++ w :: rest)).
    rewrite insert_app_r. change (<[0%nat := c]> (w :: rest)) with ([c] ++ rest).
    change (<[1%nat := ?a]> (?f :: ?b :: ?t)) with (f :: a :: t).
    rewrite as_u32_id by (unfold in_width; lia).
    split; [|rewrite !zlen_cons, !zlen_app; change (zlen [c]) with 1; lia].
    pose proof (carry_bn (x * 2 ^ rem) ys c rest) as Hb.
    rewrite (proj2 (Z.eqb_neq c 0)), Hf, Hz in Hb by done. cbn [negb] in Hb.
    apply Hb; [done|unfold in_width; lia|done|lia|lia].
Qed.

Lemma shl_words_bn x op bits k :
  Bn x op -> zlen op = 2 + k -> k < 2 ^ 32 -> 0 <= bits -> Z.abs x < W (k - bits / 32 - 1) ->
  bits / 32 + 1 <= k ->
  Bn (x * 2 ^ bits) (shl_words op bits) /\ zlen (shl_words op bits) = zlen op.
Proof.
  intros HB Hk Hk' Hb Hx Hk2. unfold shl_words. rewrite (bn_is_zero _ _ HB).
  destruct (Z.eqb_spec bits 0) as [-> | Hb0]; cbn [orb]; [by rewrite Z.mul_1_r|].
  destruct (Z.eqb_spec x 0) as [-> | Hx0]; [done|].
  destruct HB as [ls rest Hw Ht Hs He]. rewrite !nl_raw, !sub_raw.
  rewrite !zlen_cons, zlen_app in Hk. pose proof (zlen_nonneg ls).
  pose proof (Z.div_pos bits 32 Hb ltac:(lia)). pose proof (Z.mod_pos_bound bits 32 ltac:(lia)).
  pose proof (trimmed_fits ls (k - bits / 32 - 1) Hw Ht ltac:(lia) ltac:(lia)).
  rewrite (proj2 (Z.ltb_ge _ _)) by (rewrite !zlen_cons, zlen_app; lia).
  assert (2 ^ bits = W (bits / 32) * 2 ^ (bits mod 32)) as E.
  { unfold W. rewrite <- Z.pow_add_r by lia. f_equal. apply Z.div_mod. lia. }
  set (words := bits / 32) in *. set (rem := bits mod 32) in *.
  assert (exists ls' rest',
    (if 0 <? words then <[1%nat := as_u32 (zlen ls + words)]>
        (splice (flag x :: zlen ls :: ls ++ rest) 2 (zeros words ++ ls)) else flag x :: zlen ls :: ls ++ rest)
      = flag x :: zlen ls' :: ls' ++ rest' /\ words_ok ls' /\ trimmed ls' /\
      eval ls' = Z.abs x * W words /\ zlen ls' = zlen ls + words /\ zlen rest' = zlen rest - words)
    as (ls' & rest' & -> & Hw' & Ht' & He' & Hl' & Hr').
  { destruct (Z.ltb_spec 0 words); [apply shl_words_phase; try done; lia|].
    assert (words = 0) as -> by lia. exists ls, rest. rewrite W_0. split_and!; try done; lia. }
  pose proof (W_pos words ltac:(lia)).
  assert (Z.abs (x * W words) = Z.abs x * W words) as Ha by (rewrite Z.abs_mul; lia).
  assert (flag (x * W words) = flag x) as Hf.
  { unfold flag. destruct (Z.ltb_spec x 0), (Z.ltb_spec (x * W words) 0); try done; nia. }
  rewrite nl_raw, sub_raw, E, Z.mul_assoc, !zlen_cons, zlen_app.
  destruct (Z.ltb_spec 0 rem).
  - pose proof (shl_bits_phase (x * W words) ls' rest' rem) as Hp. rewrite Hf in Hp.
    destruct (shl_loop rem ls' 0) as [ys c]. cbv zeta in Hp.
    destruct Hp as [Hp1 Hp2]; [done|done|lia|nia|lia|lia|lia|]. split; [done|]. lia.
  - assert (rem = 0) as -> by lia. rewrite Z.mul_1_r, <- Hf.
    split; [constructor; [done..|lia|lia]|rewrite !zlen_cons, zlen_app; lia].
Qed.

(** * Bits *)

Lemma bit_count_bn x op : Bn x op -> get_bit_count op = if x =? 0 then 0 else Z.log2 (Z.abs x) + 1.
Proof.
  intros [ls rest Hw Ht Hs He]. unfold get_bit_count. rewrite limbs_raw, <- He.
  destruct ls as [|w t _] using rev_ind.
  - cbn in He. by rewrite (proj2 (Z.eqb_eq x 0)) by lia.
  - rewrite last_snoc. unfold trimmed in Ht. rewrite last_snoc in Ht.
    apply words_ok_app in Hw as [Hwt Hww]. apply Forall_cons_1 in Hww as [Hww _].
    assert (w <> 0) as Hw0 by congruence. unfold in_width in Hww.
    rewrite eval_app in He |- *. cbn [eval] in He |- *. pose proof (eval_bound t Hwt).
    pose proof (W_pos (zlen t) (zlen_nonneg _)).
    rewrite (proj2 (Z.eqb_neq x 0)) by nia. unfold bit_len. rewrite (proj2 (Z.eqb_neq w 0)) by done.
    rewrite zlen_app. change (zlen [w]) with 1.
    enough (Z.log2 (eval t + W (zlen t) * (w + 2 ^ 32 * 0)) = 32 * zlen t + Z.log2 w) by lia.
    pose proof (Z.log2_spec w ltac:(lia)). pose proof (zlen_nonneg t). pose proof (Z.log2_nonneg w).
    apply Z.log2_unique; [lia|]. rewrite <- Z.add_1_r, <- Z.add_assoc, !Z.pow_add_r by lia.
    rewrite <- Z.add_1_r, Z.pow_add_r in * by lia. fold (W (zlen t)). nia.
Qed.

(** A list of limbs split at limb [i]. *)
Lemma eval_split ls i w : ls !! i = Some w ->
  eval ls = eval (take i ls) + W (Z.of_nat i) * (w + 2 ^ 32 * eval (drop (S i) ls)).
Proof.
  intros H. pose proof (lookup_lt_Some _ _ _ H). rewrite <- (take_drop_middle ls i w H) at 1.
  rewrite eval_app. cbn [eval]. do 2 f_equal. unfold zlen. f_equal. rewrite length_take. lia.
Qed.

Lemma eval_insert ls i w v : ls !! i = Some w -> eval (<[i := v]> ls) = eval ls + W (Z.of_nat i) * (v - w).
Proof.
  intros H. pose proof (lookup_lt_Some _ _ _ H). rewrite (eval_split ls i w H), insert_take_drop by done.
  rewrite eval_app. cbn [eval].
  replace (zlen (take i ls)) with (Z.of_nat i) by (unfold zlen; rewrite length_take; lia). ring.
Qed.

Lemma eval_testbit ls i w b :
  words_ok ls -> ls !! i = Some w -> 0 <= b < 32 ->
  Z.testbit (eval ls) (32 * Z.of_nat i + b) = Z.testbit w b.
Proof.
  intros Hw H Hb. pose proof (lookup_lt_Some _ _ _ H).
  rewrite (eval_split ls i w H).
  assert (words_ok (take i ls)) as Hwt by by apply list.Forall_take.
  pose proof (eval_bound _ Hwt) as Hlo.
  replace (zlen (take i ls)) with (Z.of_nat i) in Hlo by (unfold zlen; rewrite length_take; lia).
  assert (in_width 32 w) as Hww by by (eapply Forall_lookup_1 in Hw).
  unfold in_width in Hww. unfold W in *.
  rewrite (Z.add_comm (32 * Z.of_nat i)), <- Z.div_pow2_bits by lia.
  rewrite (Z.mul_comm (2 ^ (32 * Z.of_nat i))), Z.div_add, Z.div_small, Z.add_0_l by lia.
  rewrite <- (Z.mod_pow2_bits_low _ 32 b) by lia.
  rewrite (Z.mul_comm (2 ^ 32)), Z.mod_add, Z.mod_small by lia. done.
Qed.

Lemma get_bit_bn x op bit : Bn x op -> 0 <= bit -> get_bit op bit = Z.testbit (Z.abs x) bit.
Proof.
  intros [ls rest Hw Ht Hs He] Hb. unfold get_bit. rewrite nl_raw, <- He.
  pose proof (Z.div_pos bit 32 Hb ltac:(lia)). pose proof (Z.div_mod bit 32 ltac:(lia)) as Hd.
  pose proof (Z.mod_pos_bound bit 32 ltac:(lia)).
  destruct (Z.leb_spec (zlen ls) (bit / 32)).
  - symmetry. pose proof (eval_bound ls Hw) as Hl. rewrite <- (Z.mod_small (eval ls) (W (zlen ls))) by done.
    unfold W. apply Z.mod_pow2_bits_high. pose proof (zlen_nonneg ls). lia.
  - destruct (lookup_lt_is_Some_2 ls (Z.to_nat (bit / 32))) as [w Hlk]; [unfold zlen in *; lia|].
    unfold at_. replace (Z.to_nat (2 + bit / 32)) with (S (S (Z.to_nat (bit / 32)))) by lia. cbn [nth].
    rewrite app_nth1 by (unfold zlen in *; lia). rewrite (nth_lookup_Some _ _ _ _ Hlk).
    assert (Z.testbit (eval ls) bit = Z.testbit w (bit mod 32)) as ->.
    { rewrite <- (eval_testbit ls (Z.to_nat (bit / 32)) w) by done. f_equal. lia. }
    change 1 with (Z.ones 1) at 1. rewrite Z.land_ones by lia. change (2 ^ 1) with 2.
    rewrite <- Z.bit0_mod, Z.shiftr_spec, Z.add_0_l by lia. by destruct (Z.testbit w _).
Qed.

(** A buffer whose [k] words are all accounted for: the quotient of [div]. *)
Definition Clean (k q : Z) (op : list u32) : Prop :=
  exists n w, op = 0 :: n :: w /\ zlen w = k /\ words_ok w /\ eval w = q /\
    (q = 0 /\ n = 0 \/ 1 <= n <= k /\ W (n - 1) <= q < W n).

Lemma clean_zeros op k : zlen op = 2 + k -> 0 <= k -> Clean k 0 (init op 0).
Proof.
  intros Hz Hk. exists 0, (zeros k). unfold init, zeros.
  replace (Z.to_nat (zlen op)) with (S (S (Z.to_nat k))) by lia.
  split_and!; [done| |apply words_ok_zeros|apply eval_zeros|by left].
  unfold zlen. rewrite length_replicate. lia.
Qed.

Lemma clean_split k q op : Clean k q op -> k < 2 ^ 32 ->
  exists ls rest, op = 0 :: zlen ls :: ls ++ rest /\ words_ok ls /\ zlen ls < 2 ^ 32 /\ eval ls = Z.abs q /\
    2 + zlen ls + zlen rest = zlen op.
Proof.
  intros (n & w & -> & Hl & Hw & He & Hn) Hk. exists (take (Z.to_nat n) w), (drop (Z.to_nat n) w).
  pose proof (zlen_nonneg w).
  assert (zlen (take (Z.to_nat n) w) = n) as E by (unfold zlen in *; rewrite length_take; lia).
  rewrite E, take_drop. pose proof (eval_bound w Hw).
  assert (words_ok (take (Z.to_nat n) w)) as Hw1 by by apply list.Forall_take.
  assert (words_ok (drop (Z.to_nat n) w)) as Hw2 by by apply Forall_drop.
  split_and!; [done|done|lia| |].
  - rewrite <- (take_drop (Z.to_nat n) w), eval_app, E in He.
    pose proof (eval_bound _ Hw1) as Hb1. rewrite E in Hb1. pose proof (eval_bound _ Hw2).
    pose proof (W_pos n ltac:(lia)). destruct Hn as [[-> ->]|Hn]; [rewrite W_0 in *; lia|].
    assert (eval (drop (Z.to_nat n) w) = 0) by nia. lia.
  - rewrite !zlen_cons. unfold zlen in *. rewrite length_drop. lia.
Qed.

Lemma lor_pow2 w r : 0 <= r -> Z.testbit w r = false -> Z.lor w (Z.shiftl 1 r) = w + 2 ^ r.
Proof.
  intros Hr Ht. rewrite Z.shiftl_1_l.
  assert (Z.land w (2 ^ r) = 0) as H0.
  { apply Z.bits_inj'. intros n Hn. rewrite Z.land_spec, Z.bits_0, Z.pow2_bits_eqb by done.
    destruct (Z.eqb_spec r n) as [-> | ?]; [by rewrite Ht|apply andb_false_r]. }
  by rewrite Z.add_nocarry_lxor, Z.lxor_lor.
Qed.

Lemma lor_pow2_width w r :
  in_width 32 w -> 0 <= r < 32 -> Z.testbit w r = false -> in_width 32 (w + 2 ^ r).
Proof.
  intros Hw Hr Ht. pose proof (Z.pow_pos_nonneg 2 r). unfold in_width in *. split; [lia|].
  rewrite <- (lor_pow2 w r) by (done || lia). rewrite Z.shiftl_1_l.
  destruct (Z.eq_dec (Z.lor w (2 ^ r)) 0) as [-> |]; [lia|].
  apply Z.log2_lt_cancel. rewrite Z.log2_lor, !Z.log2_pow2 by lia. apply Z.max_lub_lt; [|lia].
  destruct (Z.eq_dec w 0) as [-> |]; [done|]. apply Z.log2_lt_pow2; lia.
Qed.

(** Setting a bit below the multiples counted so far adds its weight. *)
Lemma set_bit_clean k m op bit :
  Clean k (m * 2 ^ (bit + 1)) op -> 0 <= m -> 0 <= bit < 2 ^ 32 -> bit / 32 < k ->
  exists op', set_bit op (as_u32 bit) true = Ok op' /\ Clean k (m * 2 ^ (bit + 1) + 2 ^ bit) op' /\
    zlen op' = zlen op.
Proof.
  intros (n & w & -> & Hl & Hw & He & Hn) Hm Hb Hi. unfold set_bit. rewrite as_u32_id by done.
  pose proof (Z.div_pos bit 32 ltac:(lia) ltac:(lia)). pose proof (Z.div_mod bit 32 ltac:(lia)) as Hd.
  pose proof (Z.mod_pos_bound bit 32 ltac:(lia)). set (i := bit / 32) in *. set (r := bit mod 32) in *.
  rewrite (proj2 (Z.leb_gt _ _)) by (rewrite !zlen_cons; lia).
  destruct (lookup_lt_is_Some_2 w (Z.to_nat i)) as [v Hv]; [unfold zlen in *; lia|].
  assert (at_ (0 :: n :: w) (2 + i) = v) as ->.
  { unfold at_. replace (Z.to_nat (2 + i)) with (S (S (Z.to_nat i))) by lia. cbn [nth].
    by apply nth_lookup_Some. }
  set (q := m * 2 ^ (bit + 1)) in *.
  assert (in_width 32 v) as Hvw by by (eapply Forall_lookup_1 in Hw). unfold in_width in Hvw.
  assert (Z.testbit v r = false) as Hvb.
  { rewrite <- (eval_testbit w (Z.to_nat i) v r), He by done. subst q. apply Z.mul_pow2_bits_low. lia. }
  assert (2 ^ bit = W i * 2 ^ r) as Hpb by (unfold W; rewrite <- Z.pow_add_r by lia; f_equal; lia).
  assert (2 ^ r <= 2 ^ 31) as Hr31 by (apply Z.pow_le_mono_r; lia).
  pose proof (W_pos i ltac:(lia)). pose proof (Z.pow_pos_nonneg 2 r).
  pose proof (lor_pow2_width v r ltac:(done) ltac:(lia) Hvb) as Hvr.
  replace (Z.to_nat (2 + i)) with (S (S (Z.to_nat i))) by lia.
  change (<[S (S (Z.to_nat i)) := ?y]> (0 :: n :: w)) with (0 :: n :: <[Z.to_nat i := y]> w).
  change (at_ (0 :: n :: ?t) 1) with n. rewrite lor_pow2 by (done || lia).
  set (w' := <[Z.to_nat i := v + 2 ^ r]> w).
  assert (zlen w' = k) as Hl' by (subst w'; unfold zlen in *; by rewrite length_insert).
  assert (words_ok w') as Hw' by (by apply Forall_insert).
  assert (eval w' = q + 2 ^ bit) as He'.
  { subst w'. rewrite (eval_insert _ _ v) by done. rewrite Z2Nat.id, Hpb, He by lia. lia. }
  assert (0 <= q) by (subst q; pose proof (Z.pow_pos_nonneg 2 (bit + 1)); nia).
  destruct (Z.ltb_spec n (i + 1)).
  - rewrite upd1. eexists. split; [done|]. split; [|rewrite !zlen_cons; lia].
    exists (i + 1), w'. split_and!; try done. right.
    replace (i + 1 - 1) with i by lia. rewrite (Z.add_comm i 1), W_succ by lia.
    assert (q < W i) by (destruct Hn as [[-> _]|[? ?]]; [lia|]; pose proof (W_mono n i); lia). nia.
  - eexists. split; [done|]. split; [|rewrite !zlen_cons; lia].
    exists n, w'. split_and!; try done. right. destruct Hn as [[? ?]|[? Hn]]; [lia|].
    assert (W n = 2 ^ (bit + 1) * 2 ^ (32 * n - (bit + 1))) as HWn.
    { unfold W. rewrite <- Z.pow_add_r by lia. f_equal. lia. }
    pose proof (Z.pow_pos_nonneg 2 (32 * n - (bit + 1))). pose proof (Z.pow_pos_nonneg 2 bit).
    assert (2 ^ (bit + 1) = 2 * 2 ^ bit) as Hp1 by (rewrite Z.pow_add_r by lia; lia).
    subst q. rewrite HWn in Hn. assert (m < 2 ^ (32 * n - (bit + 1))) by nia. nia.
Qed.

(** * Division *)

Section Division.
(** The divisor in a scratch buffer, the dividend's value, and the capacity of
    the two results. *)
Context (dvs : list u32) (D X kq kr : Z).
Hypothesis Hdvs : Bn D dvs.
Hypothesis HD : 0 < D < W 128.
Hypothesis HX : 0 <= X < W 127.
Hypothesis Hq : X / D < W kq.
Hypothesis Hr : X < W kr.
Hypothesis Hkq : 0 <= kq < 2 ^ 32.
Hypothesis Hkr : 0 <= kr < 2 ^ 32.

Lemma shifted_bn i : 0 <= i -> D * 2 ^ i < W 127 -> Bn (D * 2 ^ i) (shl_words (assign buf130 dvs) i).
Proof.
  intros Hi Hlt. pose proof (Z.div_pos i 32 Hi ltac:(lia)). pose proof (Z.div_mod i 32 ltac:(lia)).
  pose proof (Z.mod_pos_bound i 32 ltac:(lia)). pose proof (Z.pow_pos_nonneg 2 i).
  assert (W (i / 32) <= 2 ^ i) as Hw by (apply Z.pow_le_mono_r; lia).
  assert (i / 32 < 127) as Hi127 by (apply W_lt_inv; [lia..|nia]).
  assert (D < W (127 - i / 32)) as HDl.
  { assert (W 127 = W (i / 32) * W (127 - i / 32)) as E by (rewrite <- W_add by lia; f_equal; lia).
    rewrite E in Hlt. pose proof (W_pos (i / 32) ltac:(lia)). nia. }
  apply (shl_words_bn D _ i 128); [|by rewrite zlen_assign|lia..| |lia].
  - apply (assign_bn D _ _ 128); [done|done|lia|lia].
  - replace (128 - i / 32 - 1) with (127 - i / 32) by lia. lia.
Qed.

(** One turn: the remainder drops below the shifted divisor. *)
Lemma div_step_bn i Q R quot rem :
  Clean kq (Q * 2 ^ (i + 1)) quot -> Bn R rem -> zlen rem = 2 + kr ->
  0 <= i -> 0 <= Q -> 0 <= R < D * 2 ^ (i + 1) -> D * 2 ^ i < W 127 ->
  Q * 2 ^ (i + 1) * D + R = X ->
  exists Q' R' quot' rem', div_step dvs i quot rem = Ok (quot', rem') /\
    Clean kq (Q' * 2 ^ i) quot' /\ Bn R' rem' /\ zlen rem' = 2 + kr /\ zlen quot' = zlen quot /\
    0 <= Q' /\ 0 <= R' < D * 2 ^ i /\ Q' * 2 ^ i * D + R' = X.
Proof.
  intros HC HR Hlr Hi HQ HRb HDi HX1. pose proof (shifted_bn i Hi HDi) as Hs.
  pose proof (Z.pow_pos_nonneg 2 i ltac:(lia) Hi).
  assert (2 ^ (i + 1) = 2 * 2 ^ i) as Hp by (rewrite Z.pow_add_r by lia; lia).
  unfold div_step. rewrite (cmp_mag_bn _ _ _ _ HR Hs).
  rewrite !Z.abs_eq by nia. destruct (Z.ltb_spec R (D * 2 ^ i)) as [Hlt|Hge].
  - rewrite (proj2 (Z.sgn_neg_iff _)) by lia. cbn [Z.leb Z.compare].
    exists (2 * Q), R, quot, rem. replace (2 * Q * 2 ^ i) with (Q * 2 ^ (i + 1)) by lia.
    split_and!; try done; lia.
  - rewrite (proj2 (Z.leb_le 0 _)) by (apply Z.sgn_nonneg; lia).
    assert (R < W 128) by (pose proof (W_mono 127 128); nia).
    destruct (sub_mag_bn R (D * 2 ^ i) buf130 rem (shl_words (assign buf130 dvs) i) 128)
      as (t & n & -> & HB & _); [done|done|lia|done|lia|lia|]. cbn [ignore_err rbind].
    rewrite !Z.abs_eq in HB by nia.
    assert (2 ^ i <= X / D) as HiX by (apply Z.div_le_lower_bound; nia).
    pose proof (Z.div_pos i 32 Hi ltac:(lia)). pose proof (Z.div_mod i 32 ltac:(lia)).
    pose proof (Z.mod_pos_bound i 32 ltac:(lia)).
    assert (W (i / 32) <= 2 ^ i) as Hw by (apply Z.pow_le_mono_r; lia).
    assert (i / 32 < kq) as Hiq by (apply W_lt_inv; lia).
    assert (i / 32 < 127) as Hi127 by (apply W_lt_inv; [lia..|nia]).
    destruct (set_bit_clean kq Q quot i) as (quot' & -> & HC' & HL'); [done|lia|lia|lia|].
    cbn [rbind]. exists (2 * Q + 1), (R - D * 2 ^ i), quot', (assign rem (0 :: n :: t)).
    split_and!; try done; try lia.
    + by replace ((2 * Q + 1) * 2 ^ i) with (Q * 2 ^ (i + 1) + 2 ^ i) by lia.
    + apply (assign_bn _ _ _ kr); [done|done|lia|nia].
    + by rewrite zlen_assign.
Qed.

Lemma div_loop_bn b Q R quot rem :
  Clean kq (Q * 2 ^ Z.of_nat b) quot -> Bn R rem -> zlen rem = 2 + kr ->
  0 <= Q -> 0 <= R < D * 2 ^ Z.of_nat b -> (forall i, 0 <= i < Z.of_nat b -> D * 2 ^ i < W 127) ->
  Q * 2 ^ Z.of_nat b * D + R = X ->
  exists quot' rem', div_loop dvs b quot rem = Ok (quot', rem') /\
    Clean kq (X / D) quot' /\ Bn (X mod D) rem' /\ zlen rem' = 2 + kr /\ zlen quot' = zlen quot.
Proof.
  revert Q R quot rem. induction b as [|b IH]; intros Q R quot rem HC HR Hlr HQ HRb Hi HX1.
  - change (2 ^ Z.of_nat 0) with 1 in *. exists quot, rem.
    assert (X / D = Q) as -> by (symmetry; apply (Z.div_unique _ _ _ R); lia).
    assert (X mod D = R) as -> by (symmetry; apply (Z.mod_unique _ _ Q); lia).
    rewrite Z.mul_1_r in HC. split_and!; done.
  - cbn [div_loop]. rewrite Nat2Z.inj_succ, <- Z.add_1_r in *.
    destruct (div_step_bn (Z.of_nat b) Q R quot rem)
      as (Q' & R' & quot' & rem' & -> & HC' & HR' & Hl1 & Hl2 & HQ' & HRb' & HX'); try done; try lia.
    { apply Hi. lia. }
    cbn [rbind]. destruct (IH Q' R' quot' rem') as (q & r & Eq & Hq1 & Hq2 & Hq3 & Hq4); try done.
    { intros i Hib. apply Hi. lia. }
    exists q, r. split_and!; try done. congruence.
Qed.
End Division.

(** Powers and scratch buffers stay symbolic from here on. *)
#[global] Opaque W buf130.
