(* ===== verification/ArithMod.v ===== *)
(** Division, modular arithmetic and the extended Euclidean algorithm of
    [Arith] on the values their buffers hold ([Bn]): each computes the operation
    of the integers, within the buffer sizes it needs.  The scratch buffers have
    128 limbs, of which [add_mag] and [shl_words] keep one spare, so operands
    below [W 127] are always handled. *)
From Stdlib Require Import ZArith Lia.
From stdpp Require Import base list numbers.
From S2P Require Import Prelude Arith ArithBn.

Local Open Scope Z_scope.
Local Open Scope rust_scope.

(** Discharge the side conditions of a buffer lemma. *)
Ltac side := first [assumption | apply zlen_buf130 | rewrite zlen_assign; assumption | lia | nia].

(** * Division and remainder *)

Lemma flag_rem x y : Z.rem x y = 0 \/ flag (Z.rem x y) = flag x.
Proof.
  destruct (Z.eq_dec (Z.rem x y) 0) as [|Hne]; [by left|right].
  destruct (Z.eq_dec y 0) as [-> |Hy]; [by rewrite Z.rem_0_r_ext|].
  assert (x <> 0) by (intros ->; by rewrite Z.rem_0_l in Hne).
  pose proof (Z.rem_sign_mul x y Hy) as Hs. generalize dependent (Z.rem x y). intros r Hne Hs.
  unfold flag. destruct (Z.ltb_spec x 0), (Z.ltb_spec r 0); try done; nia.
Qed.

Lemma flag_quot x y : y <> 0 -> Z.quot x y = 0 \/ Z.land (Z.lxor (flag x) (flag y)) FLAG_NEG = flag (Z.quot x y).
Proof.
  intros Hy. destruct (Z.eq_dec (Z.quot x y) 0) as [|Hne]; [by left|right].
  assert (x <> 0) as Hx by (intros ->; by rewrite Z.quot_0_l in Hne).
  rewrite flag_mul by nia.
  pose proof (Z.rem_bound_abs x y Hy) as Hb. pose proof (Z.quot_rem' x y) as Hqr.
  generalize dependent (Z.rem x y). intros r Hb Hqr. generalize dependent (Z.quot x y). intros q Hne Hqr.
  subst x. unfold flag. destruct (Z.ltb_spec q 0), (Z.ltb_spec ((y * q + r) * y) 0); try done; exfalso.
  - assert (Z.abs r * Z.abs y < y * y) by nia. assert (y * y * q <= - (y * y)) by nia. nia.
  - assert (Z.abs r * Z.abs y < y * y) by nia. assert (y * y <= y * y * q) by nia. nia.
Qed.

(** The room [div] needs: a dividend of 127 limbs (one limb of the scratch
    buffers stays spare), a divisor of 128, and results that fit. *)
Definition DivRoom (kq kr x y : Z) : Prop :=
  0 <= kq < 2 ^ 32 /\ 0 <= kr < 2 ^ 32 /\ y <> 0 /\ Z.abs y < W 128 /\ Z.abs x < W 127 /\
  Z.abs x < W kr /\ Z.abs x / Z.abs y < W kq.

Lemma bn_setsign x op x' : Bn x op -> Z.abs x' = Z.abs x ->
  exists d, upd op 0 (flag x') = @Ok ArithError _ d /\ Bn x' d /\ zlen d = zlen op.
Proof.
  intros [ls rest Hw Ht Hs He] Ha. rewrite upd0. eexists. split; [done|]. split; [|done].
  constructor; try done. by rewrite Ha.
Qed.

Lemma div_zero_bn y quot rem op1 op2 : Bn y op2 -> y = 0 -> div quot rem op1 op2 = Ok (init quot 0, init rem 0).
Proof. intros H ->. unfold div. by rewrite (bn_is_zero _ _ H). Qed.

(** The number of turns of the loop covers the quotient, and no shifted divisor
    outgrows the dividend's limbs. *)
Lemma div_bits X D : 0 < D -> D <= X -> X < W 127 ->
  X < D * 2 ^ (Z.log2 X - Z.log2 D + 1) /\
  forall i, 0 <= i < Z.log2 X - Z.log2 D + 1 -> D * 2 ^ i < W 127.
Proof.
  intros HD HX HW. pose proof (Z.log2_spec X ltac:(lia)) as HX2. pose proof (Z.log2_spec D ltac:(lia)).
  pose proof (Z.log2_nonneg D). pose proof (Z.log2_le_mono D X HX). split.
  - apply Z.lt_le_trans with (2 ^ Z.succ (Z.log2 X)); [lia|].
    replace (Z.succ (Z.log2 X)) with (Z.log2 D + (Z.log2 X - Z.log2 D + 1)) by lia.
    rewrite Z.pow_add_r by lia. apply Z.mul_le_mono_nonneg_r; [|lia]. apply Z.pow_nonneg. lia.
  - intros i Hi. apply Z.lt_le_trans with (2 ^ (Z.log2 X + 1)).
    + replace (Z.log2 X + 1) with (Z.succ (Z.log2 D) + (Z.log2 X - Z.log2 D)) by lia.
      rewrite Z.pow_add_r by lia. apply Z.lt_le_trans with (2 ^ Z.succ (Z.log2 D) * 2 ^ i).
      * apply Z.mul_lt_mono_pos_r; [apply Z.pow_pos_nonneg; lia|lia].
      * apply Z.mul_le_mono_nonneg_l; [apply Z.pow_nonneg; lia|apply Z.pow_le_mono_r; lia].
    + rewrite W_def in *. apply Z.pow_le_mono_r; [lia|]. enough (Z.log2 X < 32 * 127) by lia.
      apply Z.log2_lt_pow2; [lia|done].
Qed.

(** A sign stored over a number, then [trim]. *)
Lemma retrim_bn x op f x' : Bn x op -> Z.abs x' = Z.abs x -> (x' = 0 \/ f = flag x') ->
  exists d, upd op 0 f = @Ok ArithError _ d /\
    exists t, trim d = Ok t /\ Bn x' t /\ zlen t = zlen op.
Proof.
  intros [ls rest Hw Ht Hs He] Ha Hf. rewrite upd0. eexists. split; [done|].
  destruct (trim_raw f ls rest x') as (d & ? & ? & Hl); [done|done|lia|tauto|].
  exists d. split_and!; [done|done|]. rewrite Hl, !zlen_cons, zlen_app. lia.
Qed.

Lemma div_bn x y quot rem op1 op2 kq kr :
  Bn x op1 -> Bn y op2 -> zlen quot = 2 + kq -> zlen rem = 2 + kr -> DivRoom kq kr x y ->
  exists q r, div quot rem op1 op2 = Ok (q, r) /\ Bn (Z.quot x y) q /\ Bn (Z.rem x y) r /\
    zlen q = zlen quot /\ zlen r = zlen rem.
Proof.
  intros H1 H2 Hlq Hlr (Hkq & Hkr & Hy & Hy128 & Hx127 & Hxr & Hxq).
  assert (Z.abs (Z.quot x y) = Z.abs x / Z.abs y) as Eq by (rewrite <- Z.quot_abs, Z.quot_div_nonneg by lia; done).
  assert (Z.abs (Z.rem x y) = Z.abs x mod Z.abs y) as Er by (rewrite <- Z.rem_abs, Z.rem_mod_nonneg by lia; done).
  unfold div. rewrite (bn_is_zero _ _ H2), (proj2 (Z.eqb_neq y 0)) by done.
  rewrite (bn_first _ _ H1), (bn_first _ _ H2), (bn_sign _ _ H1).
  pose proof (assign_bn x rem op1 kr H1 Hlr ltac:(lia) Hxr) as Ha.
  destruct (bn_setsign x _ (Z.abs x) Ha) as (r0 & Er0 & Hr0 & Hlr0); [lia|].
  assert (forall z, flag (Z.abs z) = 0) as Hfa by (intros z; unfold flag; case_match; bsplit; lia).
  rewrite Hfa in Er0. rewrite Er0. cbn [rbind].
  pose proof (assign_bn y buf130 op2 128 H2 zlen_buf130 ltac:(lia) Hy128) as Hd.
  destruct (bn_setsign y _ (Z.abs y) Hd) as (d0 & Ed0 & Hd0 & Hld0); [lia|].
  rewrite Hfa in Ed0. rewrite Ed0. cbn [rbind]. rewrite zlen_assign in Hlr0.
  rewrite (cmp_mag_bn _ _ _ _ Hr0 Hd0), !Z.abs_idemp.
  destruct (Z.ltb_spec (Z.abs x) (Z.abs y)) as [Hlt|Hge].
  - rewrite (proj2 (Z.sgn_neg_iff _)) by lia. cbn [Z.ltb Z.compare].
    destruct (bn_setsign (Z.abs x) r0 x Hr0) as (r1 & -> & Hr1 & Hl1); [lia|]. cbn [rbind].
    eexists _, _. split; [done|]. rewrite Z.div_small in Eq by lia. rewrite Z.mod_small in Er by lia.
    assert (Z.quot x y = 0) as -> by lia.
    assert (Z.rem x y = x) as ->. { pose proof (Z.quot_rem' x y). assert (Z.quot x y = 0) by lia. nia. }
    unfold init. rewrite zlen_zeros by apply zlen_nonneg.
    split_and!; [apply bn_zero; lia|done|done|congruence].
  - rewrite (proj2 (Z.ltb_ge _ 0)) by (apply Z.sgn_nonneg; lia).
    rewrite (bit_count_bn _ _ Hr0), (bit_count_bn _ _ Hd0), !Z.abs_idemp.
    rewrite (proj2 (Z.eqb_neq _ 0)), (proj2 (Z.eqb_neq (Z.abs y) 0)) by lia.
    pose proof (Z.log2_le_mono (Z.abs y) (Z.abs x) Hge). unfold sat_sub.
    set (b := Z.to_nat _). set (X := Z.abs x) in *. set (D := Z.abs y) in *.
    assert (Z.of_nat b = Z.log2 X - Z.log2 D + 1) as Hb by lia.
    destruct (div_bits X D) as [Hb1 Hb2]; [lia|lia|lia|]. rewrite <- Hb in Hb1, Hb2.
    destruct (div_loop_bn d0 D X kq kr) with (b := b) (Q := 0) (R := X) (quot := init quot 0) (rem := r0)
      as (q1 & r1 & -> & HC & Hr1 & Hl1 & Hl2); try done; try lia.
    { rewrite Z.mul_0_l. apply clean_zeros; [done|lia]. }
    cbn [rbind]. destruct (clean_split kq _ _ HC) as (lq & rq & -> & Hwq & Hsq & Heq & Hlq'); [lia|].
    rewrite upd0. cbn [rbind].
    destruct (retrim_bn _ r1 (flag x) (Z.rem x y) Hr1) as (r2 & -> & r3 & Er3 & HB3 & Hl3); [lia| |].
    { destruct (flag_rem x y); [by left|right; congruence]. }
    cbn [rbind].
    destruct (trim_raw (Z.land (Z.lxor (flag x) (flag y)) FLAG_NEG) lq rq (Z.quot x y)) as (q3 & -> & HBq & Hlq3);
      [done|done|rewrite Heq, Eq; lia| |].
    { destruct (flag_quot x y Hy); [by right|by left]. }
    cbn [rbind]. rewrite Er3. cbn [rbind]. exists q3, r3. split_and!; try done; try lia.
    unfold init in Hl2. rewrite zlen_zeros in Hl2 by apply zlen_nonneg. lia.
Qed.

(** * Modular arithmetic *)

Lemma add_room127 x y : Z.abs x < W 127 -> Z.abs y < W 127 -> AddRoom 128 x y.
Proof. intros. pose proof (W_mono 127 128). unfold AddRoom. change (128 - 1) with 127. lia. Qed.

Lemma div_abs_le x n : 0 < n -> Z.abs x / Z.abs n <= Z.abs x.
Proof. intros. apply Z.div_le_upper_bound; nia. Qed.

Lemma mod_neg x n : 0 < n -> x < 0 -> Z.rem x n <> 0 -> x mod n = n - Z.abs (Z.rem x n).
Proof.
  intros Hn Hx Hr. pose proof (Z.quot_rem' x n) as E. pose proof (Z.rem_bound_abs x n ltac:(lia)) as Hb.
  pose proof (Z.rem_sign_mul x n ltac:(lia)) as Hs. generalize dependent (Z.rem x n). intros r Hr E Hb Hs.
  symmetry. apply (Z.mod_unique _ _ (Z.quot x n - 1)); [left|]; nia.
Qed.

Lemma modulo_bn x n dest op m k :
  Bn x op -> Bn n m -> zlen dest = 2 + k -> 0 <= k < 2 ^ 32 ->
  0 < n < W 127 -> Z.abs x < W 127 -> Z.abs x < W k -> n < W k ->
  exists d, modulo dest op m = Ok d /\ Bn (x mod n) d /\ zlen d = zlen dest.
Proof.
  intros Hx Hn Hd Hk Hn0 Hx127 Hxk Hnk. pose proof (W_mono 127 128). pose proof (div_abs_le x n).
  unfold modulo. destruct (div_bn x n buf130 dest op m 128 k) as (q & r & -> & _ & Hr & _ & Hlr); try side.
  { unfold DivRoom. split_and!; lia. }
  cbn [rbind]. destruct (bn_setsign _ r (Z.abs (Z.rem x n)) Hr) as (r1 & E1 & Hr1 & Hl1); [lia|].
  assert (forall z, flag (Z.abs z) = 0) as Hfa by (intros z; unfold flag; case_match; bsplit; lia).
  rewrite Hfa in E1. rewrite E1. cbn [rbind]. rewrite (bn_sign _ _ Hx), (bn_is_zero _ _ Hr1).
  destruct (Z.ltb_spec x 0) as [Hneg|Hpos]; unfold flag;
    [rewrite (proj2 (Z.ltb_lt x 0)) by lia|rewrite (proj2 (Z.ltb_ge x 0)) by lia]; cbn [Z.eqb negb andb].
  - destruct (Z.eqb_spec (Z.abs (Z.rem x n)) 0) as [E0|E0]; cbn [negb].
    + exists r1. split_and!; [done| |lia]. assert (Z.rem x n = 0) as Hr0 by lia.
      rewrite Hr0 in Hr1. pose proof (Z.quot_rem' x n) as Hqr. rewrite Hr0, Z.add_0_r in Hqr.
      rewrite Hqr, Z.mul_comm, Z.mod_mul by lia. done.
    + pose proof (Z.rem_bound_abs x n ltac:(lia)).
      destruct (sub_bn n (Z.abs (Z.rem x n)) buf130 m r1 128) as (t & -> & Ht & _); try side.
      { apply add_room127; lia. }
      rewrite <- mod_neg in Ht by lia. pose proof (Z.mod_pos_bound x n ltac:(lia)).
      cbn [rbind]. pose proof (assign_bn _ r1 t k Ht ltac:(lia) ltac:(lia) ltac:(lia)) as Ha.
      destruct (bn_setsign _ _ (x mod n) Ha) as (d & E & HB & HL); [done|].
      unfold flag in E. rewrite (proj2 (Z.ltb_ge _ 0)) in E by lia. rewrite E.
      exists d. split_and!; [done|done|]. rewrite HL, zlen_assign. lia.
  - exists r1. split_and!; [done| |lia]. rewrite Z.rem_mod_nonneg in Hr1 by lia.
    pose proof (Z.mod_pos_bound x n ltac:(lia)). by rewrite Z.abs_eq in Hr1 by lia.
Qed.

Lemma mul_mod_bn x y n dest a b m k :
  Bn x a -> Bn y b -> Bn n m -> zlen dest = 2 + k -> 0 <= k < 2 ^ 32 ->
  zlen a + zlen b < 2 ^ 32 -> 0 < n < W 127 -> n < W k -> Z.abs (x * y) < W 127 -> Z.abs (x * y) < W k ->
  exists d, mul_mod dest a b m = Ok d /\ Bn ((x * y) mod n) d /\ zlen d = zlen dest.
Proof.
  intros Ha Hb Hn Hd Hk Hl Hn0 Hnk Hxy Hxyk. unfold mul_mod. pose proof (W_mono 127 258).
  destruct (mul_bn x y (zeros 260) a b 258) as (s & -> & Hs & _); [side|side|by rewrite zlen_zeros|side..|].
  cbn [rbind]. by apply (modulo_bn _ n _ _ _ k).
Qed.

(** Square and multiply. *)
Lemma exp_loop_bn e n em m bits i r c result base :
  Bn e em -> Bn n m -> 0 < n -> n * n < W 127 -> Bn r result -> Bn c base ->
  zlen result = 130 -> zlen base = 130 -> 0 <= r < n \/ r = 1 -> 0 <= c < n ->
  0 <= i -> i + Z.of_nat bits < 2 ^ 32 ->
  exists d s, exp_loop em m bits i result base = Ok d /\ Bn s d /\ zlen d = 130 /\ (0 <= s < n \/ s = 1) /\
    s mod n = (r * c ^ (Z.shiftr (Z.abs e) i mod 2 ^ Z.of_nat bits)) mod n.
Proof.
  intros He Hn Hn0 Hnn. revert i r c result base.
  assert (n < W 127) as Hn127 by nia. pose proof (W_mono 127 128).
  induction bits as [|b IH]; intros i r c result base Hr Hc Hl1 Hl2 Hrn Hcn Hi Hib.
  - exists result, r. split_and!; try done. change (2 ^ Z.of_nat 0) with 1. by rewrite Z.mod_1_r, Z.pow_0_r, Z.mul_1_r.
  - cbn [exp_loop]. rewrite as_u32_id by (unfold in_width; lia). rewrite (get_bit_bn e) by done.
    assert (exists result' r', (if Z.testbit (Z.abs e) i
       then let? t := mul_mod buf130 result base m in Ok (assign result t) else Ok result) = Ok result' /\
       Bn r' result' /\ zlen result' = 130 /\ (0 <= r' < n \/ r' = 1) /\
       r' mod n = (r * c ^ Z.b2z (Z.testbit (Z.abs e) i)) mod n) as (result' & r' & -> & Hr' & Hl' & Hrn' & Em).
    { destruct (Z.testbit (Z.abs e) i).
      - destruct (mul_mod_bn r c n buf130 result base m 128) as (t & -> & Ht & _); try side.
        pose proof (Z.mod_pos_bound (r * c) n Hn0). cbn [rbind].
        eexists _, _. split; [done|]. split; [apply (assign_bn _ _ _ 128 Ht); lia|].
        rewrite zlen_assign. split_and!; [done|by left|]. rewrite Z.mod_mod by lia. f_equal.
        change (Z.b2z true) with 1. lia.
      - exists result, r. split_and!; try done. change (Z.b2z false) with 0. f_equal. lia. }
    cbn [rbind]. unfold square_mod.
    destruct (mul_mod_bn c c n buf130 base base m 128) as (t & -> & Ht & _); try side.
    cbn [rbind]. pose proof (Z.mod_pos_bound (c * c) n Hn0).
    destruct (IH (i + 1) r' ((c * c) mod n) result' (assign base t)) as (d & s & E & Hs & Hld & Hsn & Es);
      try side; [apply (assign_bn _ _ _ 128 Ht); side|].
    exists d, s. split_and!; try done. rewrite Es. clear Es E.
    rewrite Z.mul_mod, Em, <- Z.mul_mod by lia.
    set (E := Z.shiftr (Z.abs e) (i + 1) mod 2 ^ Z.of_nat b).
    assert (Z.shiftr (Z.abs e) i mod 2 ^ Z.of_nat (S b) = Z.b2z (Z.testbit (Z.abs e) i) + 2 * E) as ->.
    { subst E. rewrite Nat2Z.inj_succ, Z.pow_succ_r, Z.rem_mul_r by lia.
      rewrite <- Z.bit0_mod, Z.shiftr_spec, Z.add_0_l by lia. do 3 f_equal.
      rewrite <- Z.shiftr_shiftr, (Z.shiftr_div_pow2 _ 1) by lia. done. }
    assert (0 <= E) by (apply Z.mod_pos_bound; lia).
    rewrite Z.pow_add_r, Z.pow_mul_r by (destruct (Z.testbit _ _); simpl; lia).
    rewrite Z.pow_2_r, Z.mul_assoc.
    rewrite (Z.mul_mod _ ((c * c) ^ E)) by lia. rewrite (Z.mul_mod _ (_ ^ E)) by lia.
    by rewrite <- (Z.mod_pow_l (c * c)).
Qed.

Lemma from_s32_bn op v k :
  zlen op = 2 + k -> 1 <= k -> - 2 ^ 31 <= v < 2 ^ 31 ->
  exists d, from_s32 op v = Ok d /\ Bn v d /\ zlen d = zlen op.
Proof.
  intros Hz Hk Hv. unfold from_s32, init.
  destruct (Z.eqb_spec v 0) as [-> | Hv0].
  - eexists. split; [done|]. rewrite zlen_zeros by lia. split; [apply bn_zero; lia|done].
  - assert (zeros (zlen op) = 0 :: 0 :: 0 :: zeros (k - 1)) as ->.
    { rewrite Hz. unfold zeros. by replace (Z.to_nat (2 + k)) with (S (S (S (Z.to_nat (k - 1))))) by lia. }
    assert (forall g w : Z, @upd ArithError (g :: 1 :: 0 :: zeros (k - 1)) 2 w = Ok (g :: 1 :: w :: zeros (k - 1))) as U2.
    { intros. unfold upd. rewrite !zlen_cons, zlen_zeros by lia. by rewrite (proj2 (Z.ltb_lt _ _)) by lia. }
    assert (in_width 32 (Z.abs v)) as Hw by (unfold in_width; lia).
    assert (Bn v (flag v :: 1 :: Z.abs v :: zeros (k - 1))) as HB.
    { apply (bn_intro v [Z.abs v] (zeros (k - 1))); [constructor; [done|constructor]| |done|cbn [eval]; lia].
      unfold trimmed. cbn. intros [= E]. lia. }
    exists (flag v :: 1 :: Z.abs v :: zeros (k - 1)). unfold flag in *.
    split; [|split; [exact HB|rewrite !zlen_cons, zlen_zeros by lia; lia]].
    destruct (Z.ltb_spec v 0).
    + rewrite upd0. cbn [rbind]. rewrite upd1. cbn [rbind]. apply U2.
    + rewrite upd1. cbn [rbind]. rewrite U2, as_u32_id, Z.abs_eq by (unfold in_width; lia). done.
Qed.

Lemma exp_mod_bn x e n dest op em m k :
  Bn x op -> Bn e em -> Bn n m -> zlen dest = 2 + k -> 0 <= k ->
  1 < n -> n * n < W 127 -> n <= W k -> Z.abs x < W 127 -> Z.abs e < W 128 ->
  exists d, exp_mod dest op em m = Ok d /\ Bn (x ^ Z.abs e mod n) d /\ zlen d = zlen dest.
Proof.
  intros Hx He Hn Hd Hk Hn0 Hnn Hnk Hx127 Hem. unfold exp_mod. pose proof (W_mono 127 128).
  assert (n < W 127) by nia.
  destruct (modulo_bn x n buf130 op m 128) as (base & -> & Hb & Hlb); [side|side|side|lia..|].
  cbn [rbind]. destruct (from_s32_bn buf130 1 128) as (one & -> & H1 & Hl1); try side.
  cbn [rbind]. pose proof (Z.mod_pos_bound x n ltac:(lia)).
  rewrite (bit_count_bn _ _ He). set (bits := Z.to_nat _).
  assert (Z.of_nat bits < 2 ^ 32 /\ Z.abs e mod 2 ^ Z.of_nat bits = Z.abs e) as [Hbits Hmod].
  { subst bits. destruct (Z.eqb_spec e 0) as [-> | He0]; [done|].
    pose proof (Z.log2_nonneg (Z.abs e)). pose proof (Z.log2_spec (Z.abs e) ltac:(lia)).
    assert (Z.log2 (Z.abs e) < 32 * 128) by (apply Z.log2_lt_pow2; [lia|by rewrite <- W_def]).
    rewrite Z2Nat.id by lia. split; [lia|]. apply Z.mod_small. rewrite Z.add_1_r. lia. }
  destruct (exp_loop_bn e n em m bits 0 1 (x mod n) one base) as (d & s & -> & Hs & Hld & Hsn & Es);
    try side.
  rewrite Z.shiftr_0_r, Hmod, Z.mul_1_l, Z.mod_pow_l in Es.
  cbn [rbind]. eexists. split; [done|]. rewrite <- Es, zlen_assign. split; [|done].
  assert (0 <= s < n) as Hs' by lia. rewrite Z.mod_small by done.
  apply (assign_bn _ _ _ k); try done. lia.
Qed.

(** * The extended Euclidean algorithm *)

(** The values of the six buffers: Bezout's identity for both remainders, the
    cofactors of opposite signs and bounded by the operands. *)
Record EgcdVals (a b r0 r1 s0 s1 t0 t1 : Z) : Prop := {
  ev_r0 : 0 <= r0 < W 127;
  ev_r1 : 0 <= r1 < W 127;
  ev_s : s0 * a + t0 * b = r0;
  ev_t : s1 * a + t1 * b = r1;
  ev_gcd : Z.gcd r0 r1 = Z.gcd a b;
  ev_ss : s0 * s1 <= 0;
  ev_tt : t0 * t1 <= 0;
  ev_sb : Z.abs s1 * r0 + Z.abs s0 * r1 = b;
  ev_tb : Z.abs t1 * r0 + Z.abs t0 * r1 = a;
  ev_fs : Z.abs s0 <= Z.max 1 b /\ Z.abs s1 <= Z.max 1 b;
  ev_ft : Z.abs t0 <= Z.max 1 a /\ Z.abs t1 <= Z.max 1 a
}.

(** A cofactor column after one turn. *)
Lemma cofactor_step b r0 r1 c0 c1 q :
  0 <= r1 -> 0 <= r0 - q * r1 -> 0 <= q -> c0 * c1 <= 0 -> Z.abs c1 * r0 + Z.abs c0 * r1 = b ->
  c1 * (c0 - q * c1) <= 0 /\ Z.abs (c0 - q * c1) * r1 + Z.abs c1 * (r0 - q * r1) = b /\
  (0 < r1 -> Z.abs (q * c1) <= b /\ Z.abs (c0 - q * c1) <= b).
Proof.
  intros Hr Hr0 Hq Hs Hb. assert (Z.abs (c0 - q * c1) = Z.abs c0 + q * Z.abs c1) as E.
  { destruct (Z_le_gt_dec 0 c1), (Z_le_gt_dec 0 c0); try nia. }
  split; [nia|]. rewrite E, Z.abs_mul, (Z.abs_eq q) by lia. split; [rewrite <- Hb; ring|].
  intros Hr1. pose proof (Z.abs_nonneg c0). pose proof (Z.abs_nonneg c1).
  assert (q * Z.abs c1 * r1 <= Z.abs c1 * r0) by nia. nia.
Qed.

Lemma egcd_vals_step a b r0 r1 s0 s1 t0 t1 :
  EgcdVals a b r0 r1 s0 s1 t0 t1 -> a < W 127 -> b < W 127 -> 0 < r1 ->
  EgcdVals a b r1 (r0 mod r1) s1 (s0 - r0 / r1 * s1) t1 (t0 - r0 / r1 * t1) /\
  Z.abs (r0 / r1 * s1) < W 127 /\ Z.abs (r0 / r1 * t1) < W 127.
Proof.
  intros [H0 H1 Hs Ht Hg Hss Htt Hsb Htb [_ Hf1] [_ Hf2]] Ha Hb Hr.
  pose proof (Z.mod_pos_bound r0 r1 Hr) as Hm. pose proof (Z.div_pos r0 r1 ltac:(lia) Hr) as Hq.
  pose proof (Z.mod_eq r0 r1 ltac:(lia)) as Em. rewrite Z.mul_comm in Em.
  destruct (cofactor_step b r0 r1 s0 s1 (r0 / r1)) as (Hs1 & Hs2 & Hs3); [lia..|done|done|].
  destruct (cofactor_step a r0 r1 t0 t1 (r0 / r1)) as (Ht1 & Ht2 & Ht3); [lia..|done|done|].
  destruct (Hs3 Hr) as [Hs4 Hs5]. destruct (Ht3 Hr) as [Ht4 Ht5].
  split; [|split; eapply Z.le_lt_trans; eassumption].
  split; [exact H1|split; [apply Hm|eapply Z.lt_trans; [apply Hm|apply H1]]|exact Ht| | |exact Hs1|exact Ht1| | | |].
  - rewrite Em, <- Hs, <- Ht. ring.
  - rewrite Z.gcd_comm, Z.gcd_mod, Z.gcd_comm by lia. exact Hg.
  - rewrite Em. exact Hs2.
  - rewrite Em. exact Ht2.
  - split; [exact Hf1|]. etransitivity; [exact Hs5|apply Z.le_max_r].
  - split; [exact Hf2|]. etransitivity; [exact Ht5|apply Z.le_max_r].
Qed.

Definition EgcdInv (a b r0 r1 : Z) (e : Egcd) : Prop :=
  exists s0 s1 t0 t1, EgcdVals a b r0 r1 s0 s1 t0 t1 /\
    Bn r0 (e_r0 e) /\ Bn r1 (e_r1 e) /\ Bn s0 (e_s0 e) /\ Bn s1 (e_s1 e) /\ Bn t0 (e_t0 e) /\ Bn t1 (e_t1 e) /\
    zlen (e_r0 e) = 130 /\ zlen (e_r1 e) = 130 /\ zlen (e_s0 e) = 130 /\ zlen (e_s1 e) = 130 /\
    zlen (e_t0 e) = 130 /\ zlen (e_t1 e) = 130.

Lemma max_fit x b w : x <= Z.max 1 b -> b < w -> 1 < w -> x < w.
Proof. lia. Qed.

Lemma one_lt_W127 : 1 < W 127.
Proof. pose proof (W_mono 1 127). rewrite W_1 in *. lia. Qed.

(** A copy between scratch buffers. *)
Lemma assign130 x dest src : Bn x src -> zlen dest = 130 -> Z.abs x < W 127 -> Bn x (assign dest src).
Proof. intros. pose proof (W_mono 127 128). apply (assign_bn _ _ _ 128); [done|lia..]. Qed.

(** One cofactor of the turn: [mul], [sub] and the two copies. *)
Lemma egcd_column q c0 c1 tmp bq b0 b1 :
  Bn q bq -> Bn c0 b0 -> Bn c1 b1 -> zlen tmp = 130 -> zlen bq = 130 -> zlen b1 = 130 ->
  Z.abs c0 < W 127 -> Z.abs (q * c1) < W 127 ->
  exists t n, mul tmp bq b1 = Ok t /\ sub buf130 b0 t = Ok n /\ zlen t = 130 /\ Bn (c0 - q * c1) n.
Proof.
  intros Hq H0 H1 Hl Hlq Hl1 Hc0 Hc1. pose proof (W_mono 127 128).
  destruct (mul_bn q c1 tmp bq b1 128) as (t & Em & Ht & Hlt); [done|done|lia..|].
  destruct (sub_bn c0 (q * c1) buf130 b0 t 128) as (n & E & Hn & _); [done|done|done| |lia|].
  { apply add_room127; lia. }
  exists t, n. split_and!; [done|exact E|lia|done].
Qed.

Lemma egcd_step_inv a b r0 r1 e :
  EgcdInv a b r0 r1 e -> a < W 127 -> b < W 127 -> 0 < r1 ->
  exists e', egcd_step e = Ok e' /\ EgcdInv a b r1 (r0 mod r1) e'.
Proof.
  intros (s0 & s1 & t0 & t1 & HV & Hr0 & Hr1 & Hs0 & Hs1 & Ht0 & Ht1 & L1 & L2 & L3 & L4 & L5 & L6) Ha Hb Hr.
  destruct (egcd_vals_step _ _ _ _ _ _ _ _ HV Ha Hb Hr) as (HV' & Hq1 & Hq2).
  pose proof (ev_r0 _ _ _ _ _ _ _ _ HV) as B0. pose proof (ev_r1 _ _ _ _ _ _ _ _ HV) as B1.
  pose proof one_lt_W127 as H1.
  assert (zlen buf130 = 130) as Lb by exact zlen_buf130. unfold egcd_step.
  destruct (div_bn r0 r1 buf130 buf130 (e_r0 e) (e_r1 e) 128 128) as (q & r & -> & Hq & Hrr & Lq & Lr);
    [assumption..| |].
  { pose proof (W_mono 127 128). pose proof (div_abs_le r0 r1 Hr). unfold DivRoom. split_and!; lia. }
  rewrite Z.quot_div_nonneg in Hq by lia. rewrite Z.rem_mod_nonneg in Hrr by lia. cbn [rbind].
  pose proof (Z.mod_pos_bound r0 r1 Hr) as Hm. rewrite Lb in Lq.
  generalize dependent (r0 / r1). generalize dependent (r0 mod r1). intros R HR Hrr Q HV' Hq1 Hq2 Hq.
  destruct (ev_fs _ _ _ _ _ _ _ _ HV) as [F1 _]. destruct (ev_ft _ _ _ _ _ _ _ _ HV) as [F2 _].
  destruct (ev_fs _ _ _ _ _ _ _ _ HV') as [F3 F4]. destruct (ev_ft _ _ _ _ _ _ _ _ HV') as [F5 F6].
  destruct (egcd_column Q s0 s1 buf130 q (e_s0 e) (e_s1 e)) as (t & ns & -> & E1 & Lt & Hns);
    [assumption..|by eapply max_fit|assumption|].
  cbn [rbind]. rewrite E1. cbn [rbind].
  destruct (egcd_column Q t0 t1 t q (e_t0 e) (e_t1 e)) as (t' & nt & -> & E2 & _ & Hnt);
    [assumption..|by eapply max_fit|assumption|].
  cbn [rbind]. rewrite E2. cbn [rbind]. eexists. split; [done|].
  exists s1, (s0 - Q * s1), t1, (t0 - Q * t1). split; [done|].
  cbn [e_r0 e_r1 e_s0 e_s1 e_t0 e_t1]. rewrite !zlen_assign.
  split_and!; try assumption; apply assign130; try assumption;
    first [by eapply max_fit | rewrite Z.abs_eq; lia].
Qed.

(** Euclid's bound: from [r1 <= r0] on, two turns halve the remainder. *)
Lemma egcd_loop_inv a b r0 r1 e fuel :
  EgcdInv a b r0 r1 e -> a < W 127 -> b < W 127 -> (r1 <= r0 \/ r1 = 0) ->
  (r1 = 0 \/ Z.log2 r0 + Z.log2 r1 < Z.of_nat fuel) ->
  exists g e', egcd_loop fuel e = Some (Ok e') /\ EgcdInv a b g 0 e'.
Proof.
  revert r0 r1 e. induction fuel as [|fuel IH]; intros r0 r1 e HI Ha Hb Hle Hm;
    pose proof HI as (s0 & s1 & t0 & t1 & HV & _ & HB & _);
    pose proof (ev_r0 _ _ _ _ _ _ _ _ HV); pose proof (ev_r1 _ _ _ _ _ _ _ _ HV);
    cbn [egcd_loop]; rewrite (bn_is_zero _ _ HB); destruct (Z.eqb_spec r1 0) as [-> | Hr1];
    try (exists r0, e; done).
  - pose proof (Z.log2_nonneg r0). pose proof (Z.log2_nonneg r1). lia.
  - destruct (egcd_step_inv _ _ _ _ _ HI Ha Hb ltac:(lia)) as (e' & -> & HI').
    pose proof (Z.mod_pos_bound r0 r1 ltac:(lia)).
    apply (IH r1 (r0 mod r1) e' HI' Ha Hb); [lia|].
    destruct (Z.eq_dec (r0 mod r1) 0) as [|Hne]; [by left|right].
    assert (r1 + r0 mod r1 <= r0).
    { pose proof (Z.div_mod r0 r1 ltac:(lia)). assert (1 <= r0 / r1) by (apply Z.div_le_lower_bound; lia). nia. }
    assert (Z.log2 (r0 mod r1) <= Z.log2 r0 - 1).
    { enough (Z.succ (Z.log2 (r0 mod r1)) <= Z.log2 r0) by lia.
      rewrite <- Z.log2_double by lia. apply Z.log2_le_mono. lia. }
    lia.
Qed.

(** The loop from any two operands: the first turn may only swap them. *)
Lemma egcd_loop_total a b e :
  EgcdInv a b a b e -> 0 <= a < W 127 -> 0 <= b < W 127 ->
  exists g e', egcd_loop EGCD_FUEL e = Some (Ok e') /\ EgcdInv a b g 0 e'.
Proof.
  intros HI Ha Hb.
  assert (forall x, 0 <= x < W 127 -> Z.log2 x <= 4063) as Hlog.
  { intros x Hx. destruct (Z.eq_dec x 0) as [-> |]; [done|].
    enough (Z.log2 x < 4064) by lia. apply Z.log2_lt_pow2; [lia|].
    rewrite W_def in Hx. change (32 * 127) with 4064 in Hx. lia. }
  pose proof (Hlog a Ha). pose proof (Hlog b Hb).
  destruct (Z_le_gt_dec b a) as [Hle|Hgt].
  - apply (egcd_loop_inv a b a b); [done|lia|lia|by left|right]. unfold EGCD_FUEL. rewrite Z2Nat.id; lia.
  - replace EGCD_FUEL with (S (Z.to_nat 8191)) by (unfold EGCD_FUEL; lia). cbn [egcd_loop].
    pose proof HI as (s0 & s1 & t0 & t1 & HV & _ & HB & _). rewrite (bn_is_zero _ _ HB).
    rewrite (proj2 (Z.eqb_neq b 0)) by lia.
    destruct (egcd_step_inv a b a b e HI) as (e' & -> & HI'); [lia..|].
    rewrite Z.mod_small in HI' by lia.
    apply (egcd_loop_inv a b b a); [done|lia|lia|left; lia|right]. rewrite Z2Nat.id; lia.
Qed.

Lemma egcd_bn x y gcd u v op1 op2 kg ku kv :
  Bn x op1 -> Bn y op2 -> Z.abs x < W 127 -> Z.abs y < W 127 ->
  zlen gcd = 2 + kg -> zlen u = 2 + ku -> zlen v = 2 + kv -> 0 <= kg -> 0 <= ku -> 0 <= kv ->
  Z.abs x < W kg -> Z.abs y < W kg -> Z.abs x < W kv -> Z.abs y < W ku -> 1 < W ku -> 1 < W kv ->
  exists g u' v' s t, compute_extended_gcd gcd u v op1 op2 = Some (Ok (g, u', v')) /\
    Bn (Z.gcd x y) g /\ Bn s u' /\ Bn t v' /\ s * Z.abs x + t * Z.abs y = Z.gcd x y /\
    Z.abs s <= Z.max 1 (Z.abs y) /\ Z.abs t <= Z.max 1 (Z.abs x) /\
    zlen g = zlen gcd /\ zlen u' = zlen u /\ zlen v' = zlen v.
Proof.
  intros Hx Hy Hx127 Hy127 Lg Lu Lv Kg Ku Kv Hxg Hyg Hxv Hyu H1u H1v. pose proof (W_mono 127 128).
  unfold compute_extended_gcd.
  assert (forall z, flag (Z.abs z) = 0) as Hfa by (intros z; unfold flag; case_match; bsplit; lia).
  destruct (bn_setsign x (assign buf130 op1) (Z.abs x)) as (r0 & E0 & Hr0 & L0);
    [apply (assign_bn _ _ _ 128); side|lia|]. rewrite Hfa in E0. rewrite E0. cbn [rbind].
  destruct (bn_setsign y (assign buf130 op2) (Z.abs y)) as (r1 & E1 & Hr1 & L1);
    [apply (assign_bn _ _ _ 128); side|lia|]. rewrite Hfa in E1. rewrite E1. cbn [rbind].
  destruct (from_s32_bn buf130 1 128) as (one & -> & H1 & Ls); [side..|]. cbn [rbind].
  rewrite zlen_assign in L0, L1. pose proof zlen_buf130 as Lb.
  assert (Bn 0 buf130) as Hz by (apply (bn_zero (zeros 130)); rewrite zlen_zeros; lia).
  destruct (egcd_loop_total (Z.abs x) (Z.abs y)
    {| e_r0 := r0; e_r1 := r1; e_s0 := one; e_s1 := buf130; e_t0 := buf130; e_t1 := one |})
    as (g & e & -> & s0 & s1 & t0 & t1 & HV & Hg & _ & Hs & _ & Ht & _); [|lia|lia|].
  { exists 1, 0, 0, 1. cbn [e_r0 e_r1 e_s0 e_s1 e_t0 e_t1].
    split; [|split_and!; first [assumption | congruence | lia]]. pose proof (W_mono 1 127). rewrite W_1 in *.
    split; lia || done. }
  cbn [rbind]. destruct HV as [Hg0 _ Hbz _ Hgcd _ _ _ _ [Hsb _] [Htb _]].
  rewrite Z.gcd_0_r, Z.abs_eq, Z.gcd_abs_l, Z.gcd_abs_r in Hgcd by lia.
  rewrite Hgcd in Hg, Hbz, Hg0.
  do 5 eexists. split; [done|]. rewrite !zlen_assign. pose proof (Z.gcd_nonneg x y).
  assert (Z.gcd x y <= Z.max (Z.abs x) (Z.abs y)) as Hgm.
  { destruct (Z.eq_dec x 0) as [-> |]; [rewrite Z.gcd_0_l; lia|].
    etransitivity; [apply (Z.divide_pos_le _ (Z.abs x)); [lia|apply Z.divide_abs_r, Z.gcd_divide_l]|lia]. }
  split_and!; [apply (assign_bn _ _ _ kg); side|apply (assign_bn _ _ _ ku Hs); side
    |apply (assign_bn _ _ _ kv Ht); side|exact Hbz|exact Hsb|exact Htb|done..].
Qed.
