(* ===== verification/ArithProps.v ===== *)
(** What the operations of [Arith] compute, as theorems on the integers their
    buffers hold, and where the fixed buffer sizes make them fail. *)
From Stdlib Require Import ZArith Lia Zdivisibility Zmod.
From stdpp Require Import base list numbers.
From S2P Require Import Prelude Arith ArithBn ArithMod.

Local Open Scope Z_scope.
Local Open Scope rust_scope.

(** * Octet strings *)

Lemma from_le_zeros n : from_le (zeros n) = 0.
Proof. unfold zeros. induction (Z.to_nat n) as [|k IH]; cbn [replicate from_le]; lia. Qed.

Lemma le_words_spec n bs :
  bytes_ok bs -> length bs = (4 * n)%nat ->
  words_ok (le_words n bs) /\ length (le_words n bs) = n /\ eval (le_words n bs) = from_le bs.
Proof.
  revert bs. induction n as [|n IH]; intros bs Hb Hl.
  - destruct bs; [|done]. split_and!; [constructor|done|done].
  - cbn [le_words eval length].
    destruct (IH (drop 4 bs)) as (Hw & Hn & He);
      [by apply Forall_drop|rewrite length_drop; lia|].
    assert (bytes_ok (take 4 bs)) as Ht by by apply list.Forall_take.
    assert (zlen (take 4 bs) = 4) as Hz by (unfold zlen; rewrite length_take; lia).
    pose proof (from_le_bound _ Ht) as Hb4. rewrite Hz in Hb4. change (256 ^ 4) with (2 ^ 32) in Hb4.
    split_and!; [constructor; done|lia|].
    pose proof (from_le_app (take 4 bs) (drop 4 bs)) as E. rewrite take_drop, Hz in E. rewrite E, He. done.
Qed.

Lemma pad4_spec bs : bytes_ok bs ->
  bytes_ok (pad4 bs) /\ from_le (pad4 bs) = from_le bs /\
  exists n, length (pad4 bs) = (4 * n)%nat /\ zlen (pad4 bs) / 4 = Z.of_nat n /\ zlen bs <= 4 * Z.of_nat n < zlen bs + 4.
Proof.
  intros Hb. unfold pad4. pose proof (Z.mod_pos_bound (- zlen bs) 4 ltac:(lia)) as Hm.
  split_and!; [apply bytes_ok_app; split; [done|apply bytes_ok_zeros]|rewrite from_le_app, from_le_zeros; lia|].
  set (p := (- zlen bs) mod 4) in *. pose proof (zlen_nonneg bs).
  pose proof (Z.div_mod (- zlen bs) 4 ltac:(lia)) as Hd. fold p in Hd.
  exists (Z.to_nat (- (- zlen bs / 4))).
  assert (zlen (bs ++ zeros p) = 4 * (- (- zlen bs / 4))) as Hz by (rewrite zlen_app, zlen_zeros by lia; lia).
  rewrite Hz, Z2Nat.id by lia. split_and!; [unfold zlen in *; lia| |lia|lia].
  rewrite Z.mul_comm, Z.div_mul; lia.
Qed.

(** The number a buffer holds after [from_octet_string]. *)
Lemma from_octet_bn op buf sign k :
  bytes_ok buf -> zlen op = 2 + k -> 0 <= k -> zlen buf <= 4 * k -> zlen buf < 2 ^ 32 ->
  exists d, from_octet_string op buf sign = (Ok tt, d) /\
    Bn (if sign <? 0 then - from_be buf else from_be buf) d /\ zlen d = zlen op.
Proof.
  intros Hb Hz Hk Hl H32. unfold from_octet_string, init. unfold from_be.
  pose proof (zlen_nonneg buf).
  destruct (Z.eqb_spec (zlen buf) 0) as [E0|E0].
  { destruct buf; [|rewrite zlen_cons in E0; pose proof (zlen_nonneg buf); lia].
    eexists. split; [done|]. rewrite zlen_zeros by lia. split; [|done].
    destruct (sign <? 0); apply bn_zero; lia. }
  destruct (pad4_spec (rev buf)) as (Hpb & Hpv & n & Hpl & -> & Hpn); [by apply bytes_ok_rev|].
  assert (zlen (rev buf) = zlen buf) as Hr by (unfold zlen; by rewrite length_rev). rewrite Hr in Hpn.
  destruct (le_words_spec n (pad4 (rev buf)) Hpb Hpl) as (Hw & Hwl & He). rewrite Hpv in He.
  unfold cap. rewrite zlen_zeros, (proj2 (Z.ltb_ge _ 2)) by lia. rewrite (proj2 (Z.ltb_ge _ _)) by lia.
  rewrite Nat2Z.id. set (ls := le_words n _) in *.
  assert (zlen ls = Z.of_nat n) as Hln by (unfold zlen; lia).
  destruct (buffer_split (zeros (zlen op)) (zlen ls)) as (f0 & n0 & w1 & w2 & E & Hw1);
    [lia|rewrite zlen_zeros; lia|].
  assert (f0 = 0) as ->. { rewrite Hz in E. unfold zeros in E. replace (Z.to_nat (2 + k)) with (S (S (Z.to_nat k))) in E by lia. by injection E. }
  assert (zlen (zeros (zlen op)) = zlen op) as Hzz by (apply zlen_zeros; lia).
  rewrite E, !zlen_cons, zlen_app in Hzz. rewrite E, splice2, upd1 by lia. cbn [rbind].
  rewrite as_u32_id, <- Hln by (unfold in_width; lia).
  pose proof (eval_bound ls Hw).
  assert (forall x f, Z.abs x = eval ls -> (f = flag x \/ x = 0) -> exists d,
    match trim (f :: zlen ls :: ls ++ w2) with
    | Ok op1 => (Ok tt, op1) | Err e => (Err e, 0 :: n0 :: ls ++ w2) | Panic => (Panic, 0 :: n0 :: ls ++ w2) end = (Ok tt, d) /\
    Bn x d /\ zlen d = zlen op) as Hfin.
  { intros x f Hx Hf. destruct (trim_raw f ls w2 x) as (d & -> & HB & HL); [done|lia|lia|done|].
    exists d. split_and!; [done|done|lia]. }
  destruct (sign <? 0) eqn:Es.
  - rewrite upd0. cbn [rbind]. apply Hfin; [lia|]. unfold flag. case_match; bsplit; [by left|right; lia].
  - cbn [rbind]. apply Hfin; [lia|]. left. unfold flag. case_match; bsplit; [lia|done].
Qed.

Lemma limb_bytes ls : words_ok ls ->
  bytes_ok (concat (map (to_le 4) ls)) /\ from_le (concat (map (to_le 4) ls)) = eval ls.
Proof.
  induction 1 as [|x ls Hx Hls [IHb IHe]]; [split; [constructor|done]|].
  cbn [map concat eval]. split; [apply bytes_ok_app; split; [apply to_le_ok|done]|].
  rewrite from_le_app, zlen_to_le, from_to_le, IHe by exact Hx. done.
Qed.

(** A big-endian string with no leading zero. *)
Definition be_normal (bs : list u8) : Prop := bytes_ok bs /\ exists b t, bs = b :: t /\ b <> 0.

Lemma drop_zeros_spec bs : bytes_ok bs -> from_be (drop_zeros bs) = from_be bs /\
  (from_be bs <> 0 -> be_normal (drop_zeros bs)).
Proof.
  induction 1 as [|b bs Hb Hbs [IHe IHn]]; [done|].
  destruct (Z.eq_dec b 0) as [-> |Hb0].
  - destruct bs as [|c bs]; [done|]. change (drop_zeros (0 :: c :: bs)) with (drop_zeros (c :: bs)).
    rewrite (from_be_cons 0), Z.mul_0_l, Z.add_0_l. done.
  - assert (drop_zeros (b :: bs) = b :: bs) as -> by (destruct b, bs; done).
    split; [done|]. intros _. split; [by constructor|eauto].
Qed.

(** The bytes of a number are determined by it. *)
Lemma be_normal_inj a b : be_normal a -> be_normal b -> from_be a = from_be b -> a = b.
Proof.
  assert (forall x y, be_normal x -> be_normal y -> from_be x = from_be y -> zlen x <= zlen y) as Hle.
  { intros x y [Hx (c & t & -> & Hc)] [Hy _] E. pose proof (from_be_bound y Hy) as Hb.
    apply Forall_cons_1 in Hx as [Hcw Ht]. rewrite <- E, from_be_cons in Hb. pose proof (from_be_bound t Ht).
    unfold byte_ok, in_width in Hcw. pose proof (Z.pow_pos_nonneg 256 (zlen t) ltac:(lia) (zlen_nonneg _)).
    rewrite zlen_cons. enough (zlen t < zlen y) by lia. apply (Z.pow_lt_mono_r_iff 256); [lia|apply zlen_nonneg|nia]. }
  intros Ha Hb E. pose proof (Hle a b Ha Hb E). pose proof (Hle b a Hb Ha (eq_sym E)).
  rewrite <- (rev_involutive a), <- (rev_involutive b). f_equal.
  apply from_le_inj; [rewrite !length_rev; unfold zlen in *; lia|apply bytes_ok_rev, Ha|apply bytes_ok_rev, Hb|exact E].
Qed.

Lemma to_octet_bn x d buf bs :
  Bn x d -> x <> 0 -> be_normal bs -> from_be bs = Z.abs x ->
  to_octet_string d buf = if zlen buf <? zlen bs then Err ShortBuffer else Ok (zlen bs, splice buf 0 bs).
Proof.
  intros [ls rest Hw Ht Hs He] Hx Hn Hv. unfold to_octet_string. rewrite limbs_raw. cbn [rbind].
  destruct (limb_bytes ls Hw) as [Hb Hbe].
  destruct (drop_zeros_spec (rev (concat (map (to_le 4) ls)))) as [Hd1 Hd2]; [by apply bytes_ok_rev|].
  unfold from_be at 2 in Hd1. rewrite rev_involutive, Hbe, He in Hd1.
  assert (drop_zeros (rev (concat (map (to_le 4) ls))) = bs) as ->.
  { apply be_normal_inj; [apply Hd2|done|congruence]. unfold from_be. rewrite rev_involutive, Hbe. lia. }
  destruct ls; [cbn in He; lia|done].
Qed.

(** Reading an octet string into a buffer and writing it back gives the
    string without its leading zeros, whatever the sign; zero writes nothing;
    an output buffer that is too short is an error. *)
Theorem octet_roundtrip op buf sign out k :
  bytes_ok buf -> zlen op = 2 + k -> 0 <= k -> zlen buf <= 4 * k -> zlen buf < 2 ^ 32 ->
  exists d, from_octet_string op buf sign = (Ok tt, d) /\
    to_octet_string d out =
      if from_be buf =? 0 then Ok (0, out)
      else let bs := drop_zeros buf in
           if zlen out <? zlen bs then Err ShortBuffer else Ok (zlen bs, splice out 0 bs).
Proof.
  intros Hb Hz Hk Hl H32. destruct (from_octet_bn op buf sign k) as (d & E & HB & _); [done..|].
  exists d. split; [done|]. set (x := if sign <? 0 then _ else _) in HB.
  pose proof (from_be_bound buf Hb).
  assert (Z.abs x = from_be buf) as Hx by (subst x; destruct (sign <? 0); lia).
  destruct (Z.eqb_spec (from_be buf) 0) as [E0|E0].
  - assert (x = 0) as Hx0 by lia. rewrite Hx0 in HB. inversion HB as [ls rest Hw Ht Hs He]; subst d.
    apply trimmed_zero in He as ->; [|done..]. unfold to_octet_string. by rewrite limbs_raw.
  - destruct (drop_zeros_spec buf Hb) as [Hd1 Hd2]. cbv zeta.
    apply (to_octet_bn x); [done|lia|by apply Hd2|lia].
Qed.

Lemma octet_roundtrip_witness :
  exists d, from_octet_string (zeros 4) [0; 1; 2; 3; 4; 5] (-1) = (Ok tt, d) /\
    to_octet_string d (zeros 6) = Ok (5, [1; 2; 3; 4; 5; 0]).
Proof. apply (octet_roundtrip (zeros 4) [0; 1; 2; 3; 4; 5] (-1) (zeros 6) 2); by_compute || (vm_compute; congruence). Defined.

(** * Shift right *)

Lemma shr_loop_spec rem ls : 0 < rem < 32 -> words_ok ls ->
  exists ys lo, shr_loop rem ls = (ys, lo * 2 ^ (32 - rem)) /\ length ys = length ls /\ words_ok ys /\
    0 <= lo < 2 ^ rem /\ eval ls = eval ys * 2 ^ rem + lo.
Proof.
  intros Hr. induction 1 as [|x ls Hx Hls (ys & lo & E & Hl & Hw & Hlo & He)].
  - exists [], 0. split_and!; [done|done|constructor|lia|lia|cbn [eval]; lia].
  - cbn [shr_loop]. rewrite E. destruct (word_split x (32 - rem) Hx ltac:(lia)) as (lo' & E1 & E2 & H1 & H2 & E3).
    replace (32 - (32 - rem)) with rem in * by lia. rewrite E1.
    set (h := Z.shiftr x rem) in *. rewrite Z.lor_comm, lor_disjoint_add by lia.
    eexists _, lo'. split; [done|]. split_and!; [simpl; lia| |lia..|].
    + constructor; [unfold in_width; nia|done].
    + cbn [eval]. rewrite E2, He, E3. ring.
Qed.

(** The limbs [shift_right] keeps. *)
Lemma shr_limbs ls words rem :
  words_ok ls -> 0 <= words <= zlen ls -> 0 <= rem < 32 ->
  exists ys, (if 0 <? rem then (shr_loop rem (drop (Z.to_nat words) ls)).1 else drop (Z.to_nat words) ls) = ys /\
    words_ok ys /\ zlen ys = zlen ls - words /\ eval ys = eval ls / (W words * 2 ^ rem).
Proof.
  intros Hw Hwo Hre. set (m := Z.to_nat words). pose proof (W_pos words ltac:(lia)). pose proof (Z.pow_pos_nonneg 2 rem).
  assert (words_ok (drop m ls)) as Hwd by by apply Forall_drop.
  assert (zlen (drop m ls) = zlen ls - words) as Hld by (unfold zlen, m in *; rewrite length_drop; lia).
  assert (eval (drop m ls) = eval ls / W words) as Hed.
  { assert (zlen (take m ls) = words) as Hlt by (unfold zlen, m in *; rewrite length_take; lia).
    pose proof (eval_bound (take m ls) ltac:(by apply list.Forall_take)) as Hbt.
    pose proof (eval_app (take m ls) (drop m ls)) as Ea. rewrite take_drop, Hlt in Ea. rewrite Hlt in Hbt.
    rewrite Ea, Z.mul_comm, Z.div_add, Z.div_small by lia. done. }
  destruct (Z.ltb_spec 0 rem).
  - destruct (shr_loop_spec rem (drop m ls)) as (ys & lo & -> & Hs1 & Hs2 & Hs3 & Hs4); [lia|done|].
    exists ys. split_and!; [done|done|unfold zlen in *; lia|].
    rewrite <- Z.div_div, <- Hed by lia. apply (Z.div_unique _ _ _ lo); lia.
  - assert (rem = 0) as -> by lia. exists (drop m ls). rewrite Z.mul_1_r. done.
Qed.

Lemma shift_right_bn x dest src bits k :
  Bn x src -> zlen dest = 2 + k -> 0 <= k < 2 ^ 32 -> Z.abs x < W k -> 0 <= bits ->
  exists d, shift_right dest src bits = Ok d /\ Bn (Z.quot x (2 ^ bits)) d /\ zlen d = zlen dest.
Proof.
  intros Hs Hd Hk Hx Hb. unfold shift_right. pose proof (assign_bn x dest src k Hs Hd ltac:(lia) Hx) as Ha.
  pose proof (zlen_assign dest src) as Hza. set (a := assign dest src) in *. clearbody a.
  destruct (Z.eqb_spec bits 0) as [-> | Hb0].
  { exists a. rewrite Z.quot_1_r. done. }
  pose proof (Z.div_pos bits 32 Hb ltac:(lia)) as Hwo. pose proof (Z.mod_pos_bound bits 32 ltac:(lia)) as Hre.
  pose proof (Z.div_mod bits 32 ltac:(lia)) as Hdm.
  set (words := bits / 32) in *. set (rem := bits mod 32) in *. clearbody words rem.
  assert (2 ^ bits = W words * 2 ^ rem) as Ep
    by (rewrite W_def, <- Z.pow_add_r by lia; f_equal; lia). pose proof (W_pos words Hwo). pose proof (Z.pow_pos_nonneg 2 rem).
  assert (Z.abs (Z.quot x (2 ^ bits)) = Z.abs x / (W words * 2 ^ rem)) as Eq.
  { rewrite <- Z.quot_abs, (Z.abs_eq (2 ^ bits)), Ep, Z.quot_div_nonneg by (try apply Z.pow_nonzero; nia). done. }
  destruct Ha as [ls rest Hw Ht Hl He]. rewrite nl_raw. rewrite !zlen_cons, zlen_app in Hza.
  pose proof (eval_bound ls Hw) as Hev. pose proof (zlen_nonneg ls).
  destruct (Z.leb_spec (zlen ls) words).
  - eexists. split; [done|]. unfold init. rewrite !zlen_zeros by apply zlen_nonneg.
    rewrite Z.div_small in Eq by (pose proof (W_mono (zlen ls) words); nia).
    replace (Z.quot x (2 ^ bits)) with 0 by lia. split; [apply bn_zero; rewrite !zlen_cons, zlen_app; lia|rewrite !zlen_cons, zlen_app; lia].
  - assert (Prelude.sub (flag x :: zlen ls :: ls ++ rest) (2 + words) (zlen ls - words) = drop (Z.to_nat words) ls) as ->.
    { unfold Prelude.sub. replace (Z.to_nat (2 + words)) with (S (S (Z.to_nat words))) by lia. cbn [drop].
      rewrite drop_app_le by (unfold zlen in *; lia). rewrite take_app_le, take_ge; [done|..];
        rewrite length_drop; unfold zlen in *; lia. }
    destruct (shr_limbs ls words rem) as (ys & -> & Hwy & Hly & Hey); [done|lia|done|]. rewrite He in Hey.
    rewrite !zlen_cons, zlen_app, Hza, Hd. replace (2 + k) with (1 + (1 + k)) by lia.
    assert (splice (zeros (1 + (1 + k))) 0 (take 2 (flag x :: zlen ls :: ls ++ rest)) = flag x :: zlen ls :: zeros k) as ->.
    { unfold zeros. replace (Z.to_nat (1 + (1 + k))) with (S (S (Z.to_nat k))) by lia. done. }
    rewrite upd1. cbn [rbind]. rewrite as_u32_id, <- Hly by (unfold in_width; lia).
    assert (zeros k = zeros (zlen ys) ++ zeros (k - zlen ys)) as ->.
    { pose proof (zlen_nonneg ys). pose proof (zlen_nonneg rest).
      unfold zeros. rewrite <- replicate_add. f_equal. lia. }
    pose proof (zlen_nonneg ys). pose proof (zlen_nonneg rest).
    rewrite splice2 by (rewrite zlen_zeros; lia).
    destruct (trim_raw (flag x) ys (zeros (k - zlen ys)) (Z.quot x (2 ^ bits))) as (d & -> & HB & HL);
      [done|lia|lia| |].
    + destruct (Z.eq_dec (Z.quot x (2 ^ bits)) 0); [by right|left].
      destruct (flag_quot x (2 ^ bits)) as [?|Hf]; [apply Z.pow_nonzero; lia|done|]. rewrite <- Hf.
      unfold flag. pose proof (Z.pow_nonneg 2 bits). destruct (Z.ltb_spec x 0), (Z.ltb_spec (2 ^ bits) 0); lia || done.
    + exists d. split_and!; [done|done|]. rewrite HL, zlen_zeros; lia.
Qed.

(** * The operations refine those of the integers *)

Lemma neg_bn x dest a k : Bn x a -> zlen dest = 2 + k -> 0 <= k -> Z.abs x < W k ->
  exists d, neg dest a = Ok d /\ Bn (- x) d.
Proof.
  intros Ha Hd Hk Hx. pose proof (assign_bn x dest a k Ha Hd Hk Hx) as Hn. unfold neg. rewrite (bn_nl_zero _ _ Hn).
  destruct (Z.eqb_spec x 0) as [->|H0].
  - inversion Hn as [ls rest Hw Ht Hs He]. rewrite upd0. eexists. split; [done|]. by constructor.
  - destruct (flip_bn x _ Hn H0) as (d & -> & HB & _). eauto.
Qed.

Lemma abs_bn x dest a k : Bn x a -> zlen dest = 2 + k -> 0 <= k -> Z.abs x < W k ->
  exists d, abs dest a = Ok d /\ Bn (Z.abs x) d.
Proof.
  intros Ha Hd Hk Hx. pose proof (assign_bn x dest a k Ha Hd Hk Hx) as Hn. unfold abs.
  inversion Hn as [ls rest Hw Ht Hs He]. unfold idx. cbn [lookup].
  change (or_panic _) with (@Ok ArithError Z (flag x)). cbn [rbind]. rewrite upd0. eexists. split; [done|].
  assert (Z.land (flag x) (Z.lxor FLAG_NEG (2 ^ 32 - 1)) = flag (Z.abs x)) as ->.
  { unfold flag at 2. rewrite (proj2 (Z.ltb_ge _ _)) by lia. by destruct (flag_01 x) as [-> | ->]. }
  constructor; try done. lia.
Qed.

(** C30. Comparison, negation, absolute value, addition, subtraction and
    multiplication are exact: from buffers that hold [x] and [y] they give a
    buffer that holds [- x], [|x|], [x + y], [x - y], [x * y], and the sign of
    [x - y].  The destination has [k] limbs, at most 128, and needs room: for a
    negation, an absolute value or a product, that the result is below [W k] (it
    fits in [k] limbs); for a sum or a difference one limb more than the operands
    need (with none, see [add_full_dest_keeps_old]). *)
Theorem ring_ops_exact x y dest a b k :
  Bn x a -> Bn y b -> zlen dest = 2 + k -> 1 <= k <= 128 -> zlen a + zlen b < 2 ^ 32 -> Z.abs y < W 128 ->
  cmp a b = Z.sgn (x - y) /\
  (Z.abs x < W k -> exists d, neg dest a = Ok d /\ Bn (- x) d) /\
  (Z.abs x < W k -> exists d, abs dest a = Ok d /\ Bn (Z.abs x) d) /\
  (Z.abs x < W (k - 1) -> Z.abs y < W (k - 1) -> exists d, add dest a b = Ok d /\ Bn (x + y) d) /\
  (Z.abs x < W (k - 1) -> Z.abs y < W (k - 1) -> exists d, sub dest a b = Ok d /\ Bn (x - y) d) /\
  (Z.abs (x * y) < W k -> exists d, mul dest a b = Ok d /\ Bn (x * y) d).
Proof.
  intros Ha Hb Hd Hk Hl Hy128. pose proof (W_mono (k - 1) k). pose proof (W_mono k 128).
  split_and!; [by apply cmp_bn|..].
  - intros Hx. by apply (neg_bn x dest a k); [..|lia|].
  - intros Hx. by apply (abs_bn x dest a k); [..|lia|].
  - intros Hx Hy. destruct (add_bn x y dest a b k) as (d & ? & ? & _); [done..| |eauto]. unfold AddRoom. lia.
  - intros Hx Hy. destruct (sub_bn x y dest a b k) as (d & ? & ? & _); [done..| |lia|eauto]. unfold AddRoom. lia.
  - intros Hxy. destruct (mul_bn x y dest a b k) as (d & ? & ? & _); [done..|lia|done|done|eauto].
Qed.

Definition bn_of (x : Z) (k : nat) : list u32 :=
  match from_s32 (zeros (Z.of_nat k)) x with Ok d => d | _ => [] end.

Lemma bn_of_ok x k : (3 <= k)%nat -> - 2 ^ 31 <= x < 2 ^ 31 -> Bn x (bn_of x k) /\ zlen (bn_of x k) = Z.of_nat k.
Proof.
  intros Hk Hx. unfold bn_of.
  destruct (from_s32_bn (zeros (Z.of_nat k)) x (Z.of_nat k - 2)) as (d & -> & HB & HL);
    [rewrite zlen_zeros; lia|lia|done|]. rewrite zlen_zeros in HL by lia. done.
Qed.

Lemma W_ge k : 1 <= k -> 2 ^ 32 <= W k.
Proof. intros. rewrite <- W_1. apply W_mono. lia. Qed.

Lemma ring_ops_exact_witness :
  exists d, mul (zeros 5) (bn_of (-7) 3) (bn_of 9 3) = Ok d /\ Bn (-7 * 9) d.
Proof.
  destruct (bn_of_ok (-7) 3) as [H1 L1]; [lia..|]. destruct (bn_of_ok 9 3) as [H2 L2]; [lia..|].
  pose proof (W_ge 2 ltac:(lia)). pose proof (W_ge 3 ltac:(lia)).
  pose proof (W_ge 128 ltac:(lia)).
  apply (ring_ops_exact (-7) 9 (zeros 5) (bn_of (-7) 3) (bn_of 9 3) 3); rewrite ?zlen_zeros; try done; lia.
Defined.

(** C31. [div] is truncated division for a dividend below 127 limbs (4064 bits) and
    results as wide as the dividend: quotient and remainder are [Z.quot] and
    [Z.rem] with the remainder's sign that of the dividend; dividing by zero
    clears both results.  (At the full 128 limbs it is not:
    [div_full_width_wrong].) *)
Theorem div_truncates x y quot rem op1 op2 kq kr :
  Bn x op1 -> Bn y op2 -> zlen quot = 2 + kq -> zlen rem = 2 + kr -> 0 <= kq < 2 ^ 32 -> 0 <= kr < 2 ^ 32 ->
  Z.abs x < W 127 -> Z.abs y < W 128 -> Z.abs x < W kr -> Z.abs x < W kq ->
  exists q r, div quot rem op1 op2 = Ok (q, r) /\
    Bn (Z.quot x y) q /\ Bn (if y =? 0 then 0 else Z.rem x y) r.
Proof.
  intros Hx Hy Hq Hr Kq Kr Hx127 Hy128 Hxr Hxq. destruct (Z.eqb_spec y 0) as [-> |Hy0].
  - rewrite (div_zero_bn 0) by done. do 2 eexists. split; [done|]. rewrite Z.quot_0_r_ext by done.
    unfold init. split; apply bn_zero; lia.
  - destruct (div_bn x y quot rem op1 op2 kq kr) as (q & r & ? & ? & ? & _); [done..| |eauto].
    assert (Z.abs x / Z.abs y <= Z.abs x) by (apply Z.div_le_upper_bound; nia).
    unfold DivRoom. split_and!; lia.
Qed.

Lemma div_truncates_witness :
  exists q r, div (zeros 4) (zeros 4) (bn_of (-22) 4) (bn_of 7 4) = Ok (q, r) /\ Bn (-3) q /\ Bn (-1) r.
Proof.
  destruct (bn_of_ok (-22) 4) as [H1 L1]; [lia..|]. destruct (bn_of_ok 7 4) as [H2 L2]; [lia..|].
  pose proof (W_ge 2 ltac:(lia)). pose proof (W_ge 127 ltac:(lia)). pose proof (W_ge 128 ltac:(lia)).
  apply (div_truncates (-22) 7 (zeros 4) (zeros 4) _ _ 2 2); rewrite ?zlen_zeros; try done; lia.
Defined.

(** C32. [exp_mod] by square and multiply is [x ^ |e| mod n] for every modulus
    above 1 whose square is below 127 limbs (a modulus of at most 2032 bits), a
    base below 127 limbs and an exponent below 128, into a destination that need
    only hold the modulus.  Nothing is said of larger moduli, whose products
    [mul_mod] cuts. *)
Theorem exp_mod_correct x e n dest op em m k :
  Bn x op -> Bn e em -> Bn n m -> zlen dest = 2 + k -> 0 <= k ->
  1 < n -> n * n < W 127 -> n <= W k -> Z.abs x < W 127 -> Z.abs e < W 128 ->
  exists d, exp_mod dest op em m = Ok d /\ Bn (x ^ Z.abs e mod n) d /\ zlen d = zlen dest.
Proof. apply exp_mod_bn. Qed.

Lemma exp_mod_correct_witness :
  exists d, exp_mod (zeros 3) (bn_of (-3) 4) (bn_of 5 4) (bn_of 1000 4) = Ok d /\ Bn 757 d /\ zlen d = 3.
Proof.
  destruct (bn_of_ok (-3) 4) as [H1 L1]; [lia..|]. destruct (bn_of_ok 5 4) as [H2 L2]; [lia..|].
  destruct (bn_of_ok 1000 4) as [H3 L3]; [lia..|].
  pose proof (W_ge 1 ltac:(lia)). pose proof (W_ge 127 ltac:(lia)). pose proof (W_ge 128 ltac:(lia)).
  apply (exp_mod_correct (-3) 5 1000 (zeros 3) _ _ _ 1); rewrite ?zlen_zeros; try done; lia.
Defined.

(** C33. The extended Euclidean loop ends, within [EGCD_FUEL] turns, on all
    operands below 127 limbs (4064 bits, zero included), and gives the greatest
    common divisor with cofactors of Bezout's identity on the magnitudes, neither
    larger than the operands, in results as wide as the operands.  Operands of the
    full 128 limbs are not covered. *)
Theorem egcd_terminates x y gcd u v op1 op2 k :
  Bn x op1 -> Bn y op2 -> Z.abs x < W 127 -> Z.abs y < W 127 ->
  zlen gcd = 2 + k -> zlen u = 2 + k -> zlen v = 2 + k -> 1 <= k -> Z.abs x < W k -> Z.abs y < W k ->
  exists g u' v' s t, compute_extended_gcd gcd u v op1 op2 = Some (Ok (g, u', v')) /\
    Bn (Z.gcd x y) g /\ Bn s u' /\ Bn t v' /\ s * Z.abs x + t * Z.abs y = Z.gcd x y /\
    Z.abs s <= Z.max 1 (Z.abs y) /\ Z.abs t <= Z.max 1 (Z.abs x).
Proof.
  intros Hx Hy Hx1 Hy1 Lg Lu Lv Hk Hxk Hyk. pose proof (W_ge k Hk).
  destruct (egcd_bn x y gcd u v op1 op2 k k k) as (g & u' & v' & s & t & ? & ? & ? & ? & ? & ? & ? & _);
    try done; try lia.
  exists g, u', v', s, t. done.
Qed.

Lemma egcd_terminates_witness :
  exists g u' v' s t, compute_extended_gcd (zeros 3) (zeros 3) (zeros 3) (bn_of 12 3) (bn_of (-18) 3) = Some (Ok (g, u', v')) /\
    Bn 6 g /\ Bn s u' /\ Bn t v' /\ s * 12 + t * 18 = 6 /\ Z.abs s <= 18 /\ Z.abs t <= 12.
Proof.
  destruct (bn_of_ok 12 3) as [H1 L1]; [lia..|]. destruct (bn_of_ok (-18) 3) as [H2 L2]; [lia..|].
  pose proof (W_ge 1 ltac:(lia)). pose proof (W_ge 127 ltac:(lia)).
  apply (egcd_terminates 12 (-18) (zeros 3) (zeros 3) (zeros 3) _ _ 1); rewrite ?zlen_zeros; try done; lia.
Defined.

Lemma egcd_is_one_bn x y op1 op2 :
  Bn x op1 -> Bn y op2 -> Z.abs x < W 127 -> Z.abs y < W 127 ->
  exists u s t, egcd_is_one op1 op2 = Some (Ok (Z.gcd x y =? 1, u)) /\ Bn s u /\
    s * Z.abs x + t * Z.abs y = Z.gcd x y /\ Z.abs s <= Z.max 1 (Z.abs y).
Proof.
  intros Hx Hy Hx1 Hy1. unfold egcd_is_one. pose proof zlen_buf130. pose proof (W_mono 127 128).
  pose proof (W_ge 128 ltac:(lia)).
  destruct (egcd_bn x y buf130 buf130 buf130 op1 op2 128 128 128)
    as (g & u & v & s & t & -> & Hg & Hs & _ & E & Hb & _);
    [done|done|done|done|exact zlen_buf130|exact zlen_buf130|exact zlen_buf130|lia..|].
  cbn [rbind]. destruct (from_s32_bn (zeros 4) 1 2) as (one & -> & Hone & _); [by rewrite zlen_zeros|lia..|].
  cbn [rbind]. exists u, s, t. split_and!; [|done..].
  rewrite (cmp_bn _ _ _ _ Hg Hone). do 3 f_equal.
  destruct (Z.eqb_spec (Z.gcd x y) 1) as [-> |]; [done|]. apply Z.eqb_neq. rewrite Z.sgn_null_iff. lia.
Qed.

(** [inv_mod] gives the inverse of [|op|] modulo [n], reduced, exactly when
    there is one, and zero when the two are not coprime. *)
Theorem inv_mod_correct x n dest op m k :
  Bn x op -> Bn n m -> zlen dest = 2 + k -> 1 <= k < 2 ^ 32 -> 1 < n < W 127 -> n < W k -> Z.abs x < W 127 ->
  exists d v, inv_mod dest op m = Some (Ok d) /\ Bn v d /\
    if Z.gcd x n =? 1 then 0 <= v < n /\ (v * Z.abs x) mod n = 1 else v = 0.
Proof.
  intros Hx Hn Hd Hk Hn1 Hnk Hx1. unfold inv_mod.
  destruct (egcd_is_one_bn x n op m) as (u & s & t & -> & Hs & E & Hb); [done|done|lia|lia|]. cbn [rbind].
  destruct (Z.eqb_spec (Z.gcd x n) 1) as [Hg|Hg]; cbn [negb].
  - destruct (modulo_bn s n dest u m k) as (d & -> & HB & _); [done|done|done|lia..|].
    pose proof (Z.mod_pos_bound s n ltac:(lia)) as Hm.
    exists d, (s mod n). split_and!; [done|done|apply Hm|apply Hm|].
    rewrite Z.mul_mod_idemp_l by lia.
    replace (s * Z.abs x) with (1 + (- t) * n) by (rewrite (Z.abs_eq n) in E by lia; lia).
    rewrite Z.mod_add, Z.mod_small by lia. done.
  - exists (init dest 0), 0. split_and!; [done|apply bn_zero; lia|done].
Qed.

Lemma inv_mod_correct_witness :
  exists d v, inv_mod (zeros 3) (bn_of 3 3) (bn_of 10 3) = Some (Ok d) /\ Bn v d /\ 0 <= v < 10 /\ (v * 3) mod 10 = 1.
Proof.
  destruct (bn_of_ok 3 3) as [H1 L1]; [lia..|]. destruct (bn_of_ok 10 3) as [H2 L2]; [lia..|].
  pose proof (W_ge 1 ltac:(lia)). pose proof (W_ge 127 ltac:(lia)).
  apply (inv_mod_correct 3 10 (zeros 3) _ _ 1); rewrite ?zlen_zeros; try done; lia.
Defined.

(** ** Primality *)

(** The reference: every base [2 + r] below [n] passes Fermat's test. *)
Definition fermat (n : Z) (rounds : nat) : bool :=
  forallb (fun a => (n <=? a) || (a ^ (n - 1) mod n =? 1)) (seqZ 2 (Z.of_nat rounds)).

Lemma fermat_big n i rounds : n <= i ->
  forallb (fun a => (n <=? a) || (a ^ (n - 1) mod n =? 1)) (seqZ i rounds) = true.
Proof.
  intros Hi. apply forallb_forall. intros a Ha. apply list_elem_of_In, elem_of_seqZ in Ha.
  by rewrite (proj2 (Z.leb_le _ _)) by lia.
Qed.

Lemma prime_loop_spec n op n1 rounds r :
  Bn n op -> Bn (n - 1) n1 -> 2 < n -> n * n < W 127 -> 0 <= r -> 2 + r + Z.of_nat rounds < 2 ^ 31 ->
  prime_loop op n1 rounds r =
    Ok (if forallb (fun a => (n <=? a) || (a ^ (n - 1) mod n =? 1)) (seqZ (2 + r) (Z.of_nat rounds)) then 1 else 0).
Proof.
  intros Hn Hn1 Hn2 Hnn. revert r. induction rounds as [|k IH]; intros r Hr Hk; [done|].
  cbn [prime_loop]. destruct (from_s32_bn (zeros 4) (2 + r) 2) as (a & -> & Ha & _); [by rewrite zlen_zeros|lia..|].
  cbn [rbind]. rewrite (cmp_mag_bn _ _ _ _ Ha Hn), !Z.abs_eq by lia.
  destruct (Z.leb_spec n (2 + r)) as [Hle|Hlt].
  { rewrite (proj2 (Z.leb_le 0 _)) by (apply Z.sgn_nonneg; lia). by rewrite fermat_big. }
  rewrite (proj2 (Z.sgn_neg_iff _)) by lia. cbn [Z.leb Z.compare].
  assert (n < W 127) by nia. pose proof (W_mono 127 128).
  destruct (exp_mod_bn (2 + r) (n - 1) n buf130 a n1 op 128) as (x & -> & Hx & _); try assumption; try lia;
    [apply zlen_buf130|]. rewrite Z.abs_eq in Hx by lia.
  cbn [rbind]. destruct (from_s32_bn (zeros 4) 1 2) as (one & -> & Hone & _); [by rewrite zlen_zeros|lia..|].
  cbn [rbind]. rewrite (cmp_bn _ _ _ _ Hx Hone).
  rewrite seqZ_cons by lia. cbn [forallb]. rewrite (proj2 (Z.leb_gt n (2 + r)) Hlt). cbn [orb].
  destruct (Z.eqb_spec ((2 + r) ^ (n - 1) mod n) 1) as [-> |Hne]; cbn [andb negb].
  - change (1 - 1) with 0. cbn [Z.sgn Z.eqb negb]. rewrite IH by lia.
    replace (2 + (r + 1)) with (Z.succ (2 + r)) by lia. by replace (Z.pred (Z.of_nat (S k))) with (Z.of_nat k) by lia.
  - rewrite (proj2 (Z.eqb_neq (Z.sgn _) 0)); [done|]. rewrite Z.sgn_null_iff. lia.
Qed.

Lemma fermat_mono n j k : (j <= k)%nat -> fermat n k = true -> fermat n j = true.
Proof.
  unfold fermat. rewrite !forallb_forall. intros Hjk Hk a Ha. apply Hk.
  apply list_elem_of_In, elem_of_seqZ. apply list_elem_of_In, elem_of_seqZ in Ha. lia.
Qed.

Lemma fermat_prime n rounds : Z.prime n -> fermat n rounds = true.
Proof.
  intros Hn. apply forallb_forall. intros a Ha. apply list_elem_of_In, elem_of_seqZ in Ha.
  destruct (Z.leb_spec n a); [done|]. cbn [orb]. apply Z.eqb_eq.
  apply Z.fermat_nz; [done|]. rewrite Z.mod_small; lia.
Qed.

Lemma is_probable_prime_bn n op confidence :
  Bn n op -> 0 <= n -> n * n < W 127 -> 0 <= confidence < 2 ^ 32 ->
  is_probable_prime op confidence =
    Ok (if n <? 2 then 0 else if n =? 2 then 1 else if Z.even n then 0
        else if fermat n (Z.to_nat (Z.max 1 (Z.min confidence 8))) then 1 else 0).
Proof.
  intros Hn Hn0 Hnn Hc. unfold is_probable_prime. rewrite (bn_sign _ _ Hn), (bn_is_zero _ _ Hn).
  unfold flag. rewrite (proj2 (Z.ltb_ge n 0)) by lia. cbn [Z.eqb negb].
  destruct (Z.eqb_spec n 0) as [-> |Hnz]; [done|].
  destruct (from_s32_bn (zeros 4) 2 2) as (two & -> & Htwo & _); [by rewrite zlen_zeros|lia..|]. cbn [rbind].
  rewrite (cmp_bn _ _ _ _ Hn Htwo).
  destruct (Z.ltb_spec n 2); [by rewrite (proj2 (Z.sgn_neg_iff _)) by lia|].
  destruct (Z.eqb_spec n 2) as [-> |Hn2]; [done|].
  rewrite (proj2 (Z.sgn_pos_iff _)) by lia. cbn [Z.ltb Z.eqb Z.compare].
  rewrite (get_bit_bn n), Z.abs_eq, Z.bit0_odd, <- Z.negb_even, negb_involutive by (done || lia).
  destruct (Z.even n); [done|].
  destruct (from_s32_bn (zeros 4) 1 2) as (one & -> & Hone & _); [by rewrite zlen_zeros|lia..|]. cbn [rbind].
  assert (n < W 127) by nia. pose proof (W_mono 127 128). pose proof (W_ge 127 ltac:(lia)).
  destruct (sub_bn n 1 buf130 op one 128) as (n1 & -> & Hn1 & _); [done|done|apply zlen_buf130|apply add_room127; lia|lia|].
  cbn [rbind]. rewrite (prime_loop_spec n) by (done || lia). unfold fermat. by rewrite Z.add_0_r.
Qed.

(** [is_probable_prime] on a non-negative number is the Fermat test to the
    bases 2, 3, ... (one to eight of them), exact below 3 and on even numbers;
    so every prime is accepted, whatever the confidence. *)
Theorem is_probable_prime_is_fermat n op confidence :
  Bn n op -> 0 <= n -> n * n < W 127 -> 0 <= confidence < 2 ^ 32 ->
  is_probable_prime op confidence =
    Ok (if n <? 2 then 0 else if n =? 2 then 1 else if Z.even n then 0
        else if fermat n (Z.to_nat (Z.max 1 (Z.min confidence 8))) then 1 else 0) /\
  (Z.prime n -> is_probable_prime op confidence = Ok 1).
Proof.
  intros Hn Hn0 Hnn Hc. rewrite (is_probable_prime_bn n) by done. split; [done|]. intros Hp.
  pose proof (Z.prime_ge_2 n Hp). rewrite (proj2 (Z.ltb_ge _ _)) by lia.
  destruct (Z.eqb_spec n 2); [done|]. destruct (Z.even n) eqn:E; [|by rewrite fermat_prime].
  apply Z.even_spec in E as [m Hm]. exfalso.
  assert (2 | n) as Hd by (exists m; lia).
  destruct (Z.divide_prime_r 2 n Hp Hd) as [?|[?|[?|?]]]; lia.
Qed.

Lemma is_probable_prime_is_fermat_witness : is_probable_prime (bn_of 91 3) 5 = Ok 0.
Proof.
  destruct (bn_of_ok 91 3) as [H1 L1]; [lia..|]. pose proof (W_ge 127 ltac:(lia)).
  destruct (is_probable_prime_is_fermat 91 (bn_of 91 3) 5 H1) as [-> _]; [lia..|]. vm_compute. reflexivity.
Defined.

(** The bit operations agree with those of the integers: the bit count is
    the bit length of the magnitude, [get_bit] its bits, and shifting right
    divides by the power of two, rounding towards zero. *)
Theorem bits_exact x src dest bit bits k :
  Bn x src -> 0 <= bit -> 0 <= bits -> zlen dest = 2 + k -> 0 <= k < 2 ^ 32 -> Z.abs x < W k ->
  get_bit_count src = (if x =? 0 then 0 else Z.log2 (Z.abs x) + 1) /\
  get_bit src bit = Z.testbit (Z.abs x) bit /\
  exists d, shift_right dest src bits = Ok d /\ Bn (Z.quot x (2 ^ bits)) d.
Proof.
  intros Hx Hb Hbs Hd Hk Hxk. split_and!; [by apply bit_count_bn|by apply get_bit_bn|].
  destruct (shift_right_bn x dest src bits k) as (d & ? & ? & _); eauto.
Qed.

Lemma bits_exact_witness :
  get_bit_count (bn_of (-37) 3) = 6 /\ get_bit (bn_of (-37) 3) 5 = true /\
  exists d, shift_right (zeros 3) (bn_of (-37) 3) 3 = Ok d /\ Bn (-4) d.
Proof.
  destruct (bn_of_ok (-37) 3) as [H1 L1]; [lia..|]. pose proof (W_ge 1 ltac:(lia)).
  apply (bits_exact (-37) (bn_of (-37) 3) (zeros 3) 5 3 1); rewrite ?zlen_zeros; try done; lia.
Defined.

(** * Where the buffers are too small *)

(** The modular product needs a destination for the whole product: with the
    modulus 7 and a destination that holds the reduced result, [2^31 * 4 mod 7]
    is not reduced, and the buffer claims more limbs than it has. *)
Theorem mul_mod_short_dest :
  mul_mod (zeros 3) [0; 1; 2 ^ 31] [0; 1; 4] [0; 1; 7] = Ok [0; 2; 0] /\
  nlimbs [0; 2; 0] = Err BadSize /\
  mul_mod (zeros 4) [0; 1; 2 ^ 31] [0; 1; 4] [0; 1; 7] = Ok [0; 1; 1; 0].
Proof. vm_compute. done. Qed.

(** Full-width operands are not divided: the quotient of [2^4095] by
    [2^4094 + 1] comes out as 2 instead of 1, because the divisor is not shifted
    when its 128 limbs leave no spare one. *)
Theorem div_full_width_wrong :
  let a := 0 :: 128 :: zeros 127 ++ [2 ^ 31] in
  let b := 0 :: 128 :: 1 :: zeros 126 ++ [2 ^ 30] in
  get_bit_count a = MAX_BIGINT_BITS /\
  Z.quot (eval (drop 2 a)) (eval (drop 2 b)) = 1 /\
  exists t r, div buf130 buf130 a b = Ok (0 :: 1 :: 2 :: t, r).
Proof. cbv zeta. split; [vm_compute; reflexivity|]. split; [vm_compute; reflexivity|]. do 2 eexists. vm_compute. reflexivity. Qed.

(** A sum whose operands fill the destination is lost: [add] ignores the
    size error of [add_mag] and leaves the old contents with a new sign. *)
Theorem add_full_dest_keeps_old :
  add [0; 1; 5] [0; 1; 2] [0; 1; 3] = Ok [0; 1; 5] /\ add [0; 1; 5] [1; 1; 2] [1; 1; 4] = Ok [1; 1; 5].
Proof. vm_compute. done. Qed.

(** Eight rounds include the fewer ones. *)
Lemma accepted_below_8 n op c :
  Bn n op -> 0 <= n -> n * n < W 127 -> is_probable_prime op 8 = Ok 1 -> 0 <= c < 2 ^ 32 ->
  is_probable_prime op c = Ok 1.
Proof.
  intros Hn Hn0 Hnn H8 Hc. rewrite (is_probable_prime_bn n) in H8 |- * by (done || lia).
  destruct (n <? 2); [done|]. destruct (n =? 2); [done|]. destruct (Z.even n); [done|].
  destruct (fermat n (Z.to_nat (Z.max 1 (Z.min 8 8)))) eqn:Hf; [|discriminate H8].
  apply (fermat_mono n (Z.to_nat (Z.max 1 (Z.min c 8)))) in Hf; [|lia]. by rewrite Hf.
Qed.

(** The primality test accepts composites: the Carmichael number
    29341 = 13 * 37 * 61 passes at every confidence, being coprime to all bases. *)
Theorem carmichael_accepted c :
  0 <= c < 2 ^ 32 -> is_probable_prime (bn_of 29341 3) c = Ok 1 /\ 29341 = 13 * 37 * 61.
Proof.
  intros Hc. split; [|done]. destruct (bn_of_ok 29341 3) as [H1 L1]; [lia..|].
  pose proof (W_mono 2 127). assert (W 2 = 2 ^ 64) by apply W_def.
  apply (accepted_below_8 29341); [done|lia|lia|vm_compute; reflexivity|done].
Qed.

Lemma carmichael_accepted_witness : is_probable_prime (bn_of 29341 3) 100 = Ok 1.
Proof. apply (carmichael_accepted 100). lia. Defined.
