(* ===== verification/Crypto.v ===== *)
(** The crypto provider (src/crates/rustee-crypto/src/lib.rs and provider.rs).

    The primitives come from third-party crates (aes, aes-gcm, sha1, sha2, hmac,
    hkdf, rsa, p256): the class [CryptoCrates] has one operation per call the
    source makes, [CryptoLaws] what those crates document.  The modes, buffer
    checks, key handling and the size checks around the primitives are the
    provider's own and are modelled in full.  An operation that fills a
    [&mut] buffer takes the buffer and returns its contents. *)
From Stdlib Require Import ZArith Lia.
From stdpp Require Import base list numbers.
From S2P Require Import Prelude Abi Iface HalVirt.

Local Open Scope Z_scope.
Local Open Scope rust_scope.

(** * Interfaces *)

(** [rustee_hal::Entropy]: [fill(&mut buf)] and [origin()]. *)
Class EntropyOps (E : Type) := {
  ent_fill_buf : E -> list u8 -> list u8 * E;
  ent_origin : E -> EntropyOrigin }.

(** What clients rely on: the whole buffer is filled. *)
Class EntropyLaws (E : Type) `{EntropyOps E} := {
  fill_length : forall e buf, length (ent_fill_buf e buf).1 = length buf }.

(** [rustee_hal::Huk] *)
Class HukOps (H : Type) := { huk_material : H -> list u8 }.

(** The calls into the RustCrypto crates; [None] is the crate's error. *)
Class CryptoCrates := {
  (** [Aes128]/[Aes256] by the key's length, on a 16-byte block *)
  aes_encrypt_block : list u8 -> list u8 -> list u8;
  aes_decrypt_block : list u8 -> list u8 -> list u8;
  (** [AesNGcm::encrypt] and [decrypt] of a payload: key, nonce, aad, message *)
  gcm_seal : list u8 -> list u8 -> list u8 -> list u8 -> option (list u8);
  gcm_open : list u8 -> list u8 -> list u8 -> list u8 -> option (list u8);
  sha1_digest : list u8 -> list u8;
  sha256_digest : list u8 -> list u8;
  (** [new_from_slice(key)], [update(data)], [finalize()] *)
  hmac_sha1_mac : list u8 -> list u8 -> option (list u8);
  hmac_sha256_mac : list u8 -> list u8 -> option (list u8);
  (** [Hkdf::new(None, ikm).expand(info, okm)] for [okm.len() = n] *)
  hkdf_expand : list u8 -> list u8 -> usize -> option (list u8);
  (** [RsaPublicKey::from_pkcs1_der] and [from_public_key_der]: modulus and exponent *)
  rsa_from_pkcs1_der : list u8 -> option (list u8 * list u8);
  rsa_from_public_key_der : list u8 -> option (list u8 * list u8);
  RsaPublicKey : Type;
  RsaPrivateKey : Type;
  rsa_public_new : list u8 -> list u8 -> option RsaPublicKey;
  rsa_to_public : RsaPrivateKey -> list u8 * list u8;
  rsa_verify_pkcs1v15 : RsaPublicKey -> list u8 -> list u8 -> bool;
  rsa_verify_pss : RsaPublicKey -> list u8 -> list u8 -> bool;
  rsa_sign_pkcs1v15 : RsaPrivateKey -> list u8 -> option (list u8);
  rsa_decrypt_oaep : RsaPrivateKey -> list u8 -> option (list u8);
  (** with the entropy source behind [ERng] *)
  rsa_private_new : forall {E} `{EntropyOps E}, E -> usize -> option RsaPrivateKey * E;
  rsa_sign_pss : forall {E} `{EntropyOps E}, RsaPrivateKey -> list u8 -> E -> option (list u8) * E;
  rsa_encrypt_oaep : forall {E} `{EntropyOps E}, RsaPublicKey -> list u8 -> E -> option (list u8) * E;
  (** [SigningKey::random]: the encoded public point and the secret scalar *)
  p256_random : forall {E} `{EntropyOps E}, E -> (list u8 * list u8) * E;
  p256_sign_prehash : list u8 -> list u8 -> option (list u8);
  (** [VerifyingKey::from_sec1_bytes], [Signature::from_slice], [verify_prehash] *)
  p256_vk_ok : list u8 -> bool;
  p256_sig_ok : list u8 -> bool;
  p256_verify_prehash : list u8 -> list u8 -> list u8 -> bool }.

(** A key the AES crates accept. *)
Definition aes_key_len (k : list u8) : Prop := length k = 16%nat \/ length k = 32%nat.

Class CryptoLaws `{CryptoCrates} := {
  aes_encrypt_length : forall k b, length b = 16%nat -> length (aes_encrypt_block k b) = 16%nat;
  aes_encrypt_bytes : forall k b, bytes_ok b -> bytes_ok (aes_encrypt_block k b);
  aes_decrypt_encrypt : forall k b, aes_key_len k -> length b = 16%nat -> bytes_ok b ->
    aes_decrypt_block k (aes_encrypt_block k b) = b;
  (** GCM limits a message to 2^36 bytes *)
  gcm_seal_some : forall k n aad m, aes_key_len k -> length n = 12%nat -> zlen m <= 2 ^ 36 ->
    is_Some (gcm_seal k n aad m);
  gcm_seal_length : forall k n aad m c, gcm_seal k n aad m = Some c -> length c = (length m + 16)%nat;
  (** decryption recomputes the tag: what opens is what was sealed *)
  gcm_open_spec : forall k n aad c m, aes_key_len k -> length n = 12%nat ->
    gcm_open k n aad c = Some m <-> gcm_seal k n aad m = Some c;
  hmac_sha256_some : forall k d, exists t, hmac_sha256_mac k d = Some t /\ length t = 32%nat;
  (** HKDF-SHA256 expands to at most 255 * 32 bytes *)
  hkdf_expand_some : forall ikm info n, 0 <= n <= 255 * 32 ->
    exists okm, hkdf_expand ikm info n = Some okm /\ length okm = Z.to_nat n }.

(** * lib.rs *)

Definition AES_ECB_NOPAD : u32 := 0x10000010.
Definition AES_CBC_NOPAD : u32 := 0x10000110.
Definition AES_CTR : u32 := 0x10000210.
Definition AES_GCM : u32 := 0x40000810.
Definition SHA1 : u32 := 0x50000002.
Definition SHA256 : u32 := 0x50000004.
Definition HMAC_SHA1 : u32 := 0x30000002.
Definition HMAC_SHA256 : u32 := 0x30000004.
Definition RSASSA_PKCS1_V1_5_SHA256 : u32 := 0x70004830.
Definition RSASSA_PKCS1_PSS_MGF1_SHA256 : u32 := 0x70414930.
Definition RSAES_PKCS1_OAEP_MGF1_SHA256 : u32 := 0x60410230.
Definition ECDSA_SHA256 : u32 := 0x70003042.
Definition HKDF : u32 := 0x80000047.
Definition ELEMENT_NONE : u32 := 0.
Definition ECC_NIST_P256 : u32 := 3.

Inductive CryptoError :=
| Unsupported | InvalidLength | InvalidNonce | AuthFailure | KeyRejected | EntropyError
| ReeEntropyNotAllowed | ReeHukNotAllowed.

#[export] Instance CryptoError_eq_dec : EqDecision CryptoError.
Proof. solve_decision. Defined.

Inductive AesBits := Aes128 | Aes256.
Inductive AesKeyBytes := K128 (b : list u8) | K256 (b : list u8).
Record AesKey := { ak_bits : AesBits; ak_bytes : AesKeyBytes }.

Definition AesKey_from_bytes (bs : list u8) : res CryptoError AesKey :=
  if zlen bs =? 16 then Ok {| ak_bits := Aes128; ak_bytes := K128 bs |}
  else if zlen bs =? 32 then Ok {| ak_bits := Aes256; ak_bytes := K256 bs |}
  else Err InvalidLength.

Definition AesKey_as_slice (k : AesKey) : list u8 :=
  match ak_bytes k with K128 b => b | K256 b => b end.

(** [Drop for AesKey]: what is left in memory. *)
Definition AesKey_drop (k : AesKey) : AesKey :=
  {| ak_bits := ak_bits k;
     ak_bytes := match ak_bytes k with
                 | K128 b => K128 (zeros (zlen b))
                 | K256 b => K256 (zeros (zlen b)) end |}.

Inductive RsaBits := Rsa2048 | Rsa3072.
Definition RsaBits_bits (b : RsaBits) : usize := match b with Rsa2048 => 2048 | Rsa3072 => 3072 end.

(** [allow_ree] is the cargo feature [allow-ree-entropy]. *)
Definition check_entropy (allow_ree : bool) (origin : EntropyOrigin) : res CryptoError unit :=
  match origin with
  | Isolated => Ok tt
  | ReeHost => if allow_ree then Ok tt else Err ReeEntropyNotAllowed
  end.

Definition SUPPORTED : list u32 :=
  [AES_ECB_NOPAD; AES_CBC_NOPAD; AES_CTR; AES_GCM; SHA1; SHA256; HMAC_SHA1; HMAC_SHA256;
   RSASSA_PKCS1_V1_5_SHA256; RSASSA_PKCS1_PSS_MGF1_SHA256; RSAES_PKCS1_OAEP_MGF1_SHA256; ECDSA_SHA256].

Definition is_supported (alg : u32) : bool := existsb (Z.eqb alg) SUPPORTED.

Definition is_supported_element (alg element : u32) : bool :=
  if alg =? ECDSA_SHA256 then element =? ECC_NIST_P256
  else (element =? ELEMENT_NONE) && is_supported alg.

(** [ERng], the [rand_core] view of an entropy source. *)
Definition ERng_next_u32 {E} `{EntropyOps E} (e : E) : u32 * E :=
  let '(b, e) := ent_fill_buf e (zeros 4) in (from_le b, e).
Definition ERng_next_u64 {E} `{EntropyOps E} (e : E) : u64 * E :=
  let '(b, e) := ent_fill_buf e (zeros 8) in (from_le b, e).
Definition ERng_fill_bytes {E} `{EntropyOps E} (e : E) (dest : list u8) : list u8 * E := ent_fill_buf e dest.

Definition fill_random {E} `{EntropyOps E} (allow_ree : bool) (rng : E) (buf : list u8) : res CryptoError (list u8 * E) :=
  let? _ := check_entropy allow_ree (ent_origin rng) in Ok (ent_fill_buf rng buf).

Section Provider.
Context `{CryptoCrates} (allow_ree : bool).

Definition hkdf_sha256 (ikm info okm : list u8) : res CryptoError (list u8) :=
  ok_or (hkdf_expand ikm info (zlen okm)) InvalidLength.

(** * provider.rs: digests *)

(** [copy_from_slice] panics on a length mismatch. *)
Definition copy_from_slice {E} (out src : list u8) : res E (list u8) :=
  if zlen out =? zlen src then Ok src else Panic.

Definition hash_sha1 (data out : list u8) : res CryptoError (list u8) := copy_from_slice out (sha1_digest data).
Definition hash_sha256 (data out : list u8) : res CryptoError (list u8) := copy_from_slice out (sha256_digest data).

Definition hmac_sha1 (key data out : list u8) : res CryptoError (list u8) :=
  let? m := ok_or (hmac_sha1_mac key data) KeyRejected in copy_from_slice out m.
Definition hmac_sha256 (key data out : list u8) : res CryptoError (list u8) :=
  let? m := ok_or (hmac_sha256_mac key data) KeyRejected in copy_from_slice out m.

(** ** AES modes *)

(** [data.chunks(16)] *)
Fixpoint chunks16 (fuel : nat) (data : list u8) : list (list u8) :=
  match fuel with
  | O => []
  | S f => match data with [] => [] | _ => take 16 data :: chunks16 f (drop 16 data) end
  end.
Definition chunks (data : list u8) : list (list u8) := chunks16 (length data) data.

Definition aes_crypt (key : AesKey) (data out : list u8) (encrypt : bool) : res CryptoError (list u8) :=
  if negb (zlen data mod 16 =? 0) || negb (zlen out =? zlen data) then Err InvalidLength else
  Ok (concat (map (fun chunk =>
    match ak_bytes key, encrypt with
    | K128 k, true => aes_encrypt_block k chunk
    | K128 k, false => aes_decrypt_block k chunk
    | K256 k, true => aes_encrypt_block k chunk
    | K256 k, false => aes_decrypt_block k chunk
    end) (chunks data))).

Definition aes_ecb_encrypt (key : AesKey) (pt ct : list u8) : res CryptoError (list u8) := aes_crypt key pt ct true.
Definition aes_ecb_decrypt (key : AesKey) (ct pt : list u8) : res CryptoError (list u8) := aes_crypt key ct pt false.

Definition xor_bytes (a b : list u8) : list u8 := zip_with Z.lxor a b.

Fixpoint cbc_enc_loop (key : AesKey) (prev : list u8) (blocks : list (list u8)) : res CryptoError (list u8) :=
  match blocks with
  | [] => Ok []
  | chunk :: rest =>
      let? outb := aes_crypt key (xor_bytes chunk prev) (zeros 16) true in
      let? ct := cbc_enc_loop key outb rest in
      Ok (outb ++ ct)
  end.

Definition aes_cbc_encrypt (key : AesKey) (iv pt ct : list u8) : res CryptoError (list u8) :=
  if negb (zlen pt mod 16 =? 0) || negb (zlen ct =? zlen pt) then Err InvalidLength else
  cbc_enc_loop key iv (chunks pt).

Fixpoint cbc_dec_loop (key : AesKey) (prev : list u8) (blocks : list (list u8)) : res CryptoError (list u8) :=
  match blocks with
  | [] => Ok []
  | chunk :: rest =>
      let? dec := aes_crypt key chunk (zeros 16) false in
      let? pt := cbc_dec_loop key chunk rest in
      Ok (xor_bytes dec prev ++ pt)
  end.

Definition aes_cbc_decrypt (key : AesKey) (iv ct pt : list u8) : res CryptoError (list u8) :=
  if negb (zlen ct mod 16 =? 0) || negb (zlen pt =? zlen ct) then Err InvalidLength else
  cbc_dec_loop key iv (chunks ct).

(** [for i in (0..16).rev()]: the counter from its last byte. *)
Fixpoint ctr_incr_rev (c : list u8) : list u8 :=
  match c with
  | [] => []
  | b :: c' => let b := wrapping_add 8 b 1 in if negb (b =? 0) then b :: c' else b :: ctr_incr_rev c'
  end.
Definition ctr_incr (c : list u8) : list u8 := rev (ctr_incr_rev (rev c)).

(** One turn per chunk; the last chunk may be short. *)
Fixpoint ctr_loop (key : AesKey) (ctr : list u8) (blocks : list (list u8)) : res CryptoError (list u8) :=
  match blocks with
  | [] => Ok []
  | chunk :: rest =>
      let? ks := aes_crypt key ctr (zeros 16) true in
      let? out := ctr_loop key (ctr_incr ctr) rest in
      Ok (xor_bytes chunk ks ++ out)
  end.

Definition aes_ctr (key : AesKey) (iv inout : list u8) : res CryptoError (list u8) := ctr_loop key iv (chunks inout).

(** The ciphertext and the tag. *)
Definition aes_gcm_encrypt (key : AesKey) (nonce aad pt ct tag : list u8) : res CryptoError (list u8 * list u8) :=
  if negb (zlen ct =? zlen pt) then Err InvalidLength else
  let? out :=
    match ak_bits key with
    | Aes128 => let? _ := AesKey_from_bytes (AesKey_as_slice key) in
                ok_or (gcm_seal (AesKey_as_slice key) nonce aad pt) AuthFailure
    | Aes256 => ok_or (gcm_seal (AesKey_as_slice key) nonce aad pt) AuthFailure
    end in
  if negb (zlen out =? zlen pt + 16) then Err InvalidLength else
  let? ct := copy_from_slice ct (take (length pt) out) in
  let? tag := copy_from_slice tag (drop (length pt) out) in
  Ok (ct, tag).

(** The result, and the caller's buffer [pt] afterwards: it is written last, with
    the opened message. *)
Definition aes_gcm_decrypt (key : AesKey) (nonce aad ct tag pt : list u8) : res CryptoError unit * list u8 :=
  if negb (zlen pt =? zlen ct) then (Err InvalidLength, pt) else
  match ok_or (gcm_open (AesKey_as_slice key) nonce aad (ct ++ tag)) AuthFailure with
  | Err e => (Err e, pt)
  | Panic => (Panic, pt)
  | Ok out => match copy_from_slice pt out with Ok pt => (Ok tt, pt) | Err e => (Err e, pt) | Panic => (Panic, pt) end
  end.

Definition generate_aes {E} `{EntropyOps E} (bits : AesBits) (rng : E) : res CryptoError (AesKey * E) :=
  let? _ := check_entropy allow_ree (ent_origin rng) in
  let '(b, rng) := ent_fill_buf rng (zeros (match bits with Aes128 => 16 | Aes256 => 32 end)) in
  let? k := AesKey_from_bytes b in Ok (k, rng).

(** ** RSA *)

Record RsaPublic := { rp_n : list u8; rp_e : list u8 }.

Definition parse_rsa_public (bs : list u8) : res CryptoError RsaPublic :=
  let raw :=
    if (zlen bs =? 256) || (zlen bs =? 384) then Ok {| rp_n := bs; rp_e := [1; 0; 1] |}
    else if (zlen bs =? 259) || (zlen bs =? 387)
    then Ok {| rp_n := take (length bs - 3) bs; rp_e := drop (length bs - 3) bs |}
    else Err KeyRejected in
  if bool_decide (head bs = Some 0x30) then
    match rsa_from_pkcs1_der bs with
    | Some (n, e) => Ok {| rp_n := n; rp_e := e |}
    | None =>
        match rsa_from_public_key_der bs with
        | Some (n, e) => Ok {| rp_n := n; rp_e := e |}
        | None => raw
        end
    end
  else raw.

Definition rsa_pub (pk : RsaPublic) : res CryptoError RsaPublicKey :=
  ok_or (rsa_public_new (rp_n pk) (rp_e pk)) KeyRejected.

Definition generate_rsa {E} `{EntropyOps E} (bits : RsaBits) (rng : E) : res CryptoError (RsaPublic * RsaPrivateKey * E) :=
  let? _ := check_entropy allow_ree (ent_origin rng) in
  let '(inner, rng) := rsa_private_new rng (RsaBits_bits bits) in
  let? sk := ok_or inner KeyRejected in
  let '(n, e) := rsa_to_public sk in
  Ok ({| rp_n := n; rp_e := e |}, sk, rng).

(** [if buf.len() < out.len() { InvalidLength }], then the copy: the length
    written and the buffer. *)
Definition put_out (buf out : list u8) : res CryptoError (usize * list u8) :=
  if zlen buf <? zlen out then Err InvalidLength else Ok (zlen out, splice buf 0 out).

Definition rsa_pss_sign {E} `{EntropyOps E} (sk : RsaPrivateKey) (digest sig : list u8) (rng : E)
  : res CryptoError (usize * list u8 * E) :=
  let? _ := check_entropy allow_ree (ent_origin rng) in
  let '(out, rng) := rsa_sign_pss sk digest rng in
  let? out := ok_or out KeyRejected in
  let? r := put_out sig out in Ok (r, rng).

Definition rsa_pkcs1_sign (sk : RsaPrivateKey) (digest sig : list u8) : res CryptoError (usize * list u8) :=
  let? out := ok_or (rsa_sign_pkcs1v15 sk digest) KeyRejected in put_out sig out.

Definition rsa_pkcs1_verify_key (pk : RsaPublic) (digest sig : list u8) : res CryptoError unit :=
  let? key := rsa_pub pk in
  if rsa_verify_pkcs1v15 key digest sig then Ok tt else Err AuthFailure.

Definition rsa_pss_verify (pk : RsaPublic) (digest sig : list u8) : res CryptoError unit :=
  let? key := rsa_pub pk in
  if rsa_verify_pss key digest sig then Ok tt else Err AuthFailure.

Definition rsa_oaep_encrypt {E} `{EntropyOps E} (pk : RsaPublic) (pt ct : list u8) (rng : E)
  : res CryptoError (usize * list u8 * E) :=
  let? _ := check_entropy allow_ree (ent_origin rng) in
  let? key := rsa_pub pk in
  let '(out, rng) := rsa_encrypt_oaep key pt rng in
  let? out := ok_or out KeyRejected in
  let? r := put_out ct out in Ok (r, rng).

Definition rsa_oaep_decrypt (sk : RsaPrivateKey) (ct pt : list u8) : res CryptoError (usize * list u8) :=
  let? out := ok_or (rsa_decrypt_oaep sk ct) AuthFailure in put_out pt out.

(** ** P-256 *)

Definition generate_p256 {E} `{EntropyOps E} (rng : E) : res CryptoError (list u8 * list u8 * E) :=
  let? _ := check_entropy allow_ree (ent_origin rng) in
  let '(point, sec, rng) := p256_random rng in
  if negb (zlen point =? 65) then Err KeyRejected else
  let? sec := copy_from_slice (zeros 32) sec in
  Ok (point, sec, rng).

(** [SigningKey::from_bytes] and [sign_prehash] fail alike. *)
Definition ecdsa_p256_sign (sk digest sig : list u8) : res CryptoError (list u8) :=
  let? s := ok_or (p256_sign_prehash sk digest) KeyRejected in copy_from_slice sig s.

Definition ecdsa_p256_verify (pk digest sig : list u8) : res CryptoError unit :=
  if negb (p256_vk_ok pk) then Err KeyRejected else
  if negb (p256_sig_ok sig) then Err AuthFailure else
  if p256_verify_prehash pk digest sig then Ok tt else Err AuthFailure.

(** ** The provider as the kernel uses it *)

Definition provider_sha256 (data : list u8) : list u8 :=
  match hash_sha256 data (zeros 32) with Ok d => d | _ => zeros 32 end.

Definition provider_rsa_pkcs1_verify (pubkey digest signature : list u8) : bool :=
  match parse_rsa_public pubkey with
  | Ok pk => match rsa_pkcs1_verify_key pk digest signature with Ok _ => true | _ => false end
  | _ => false
  end.

(** [SoftwareProvider] behind the kernel's interface, with its compiled-in key. *)
Definition SoftwareProvider (pubkey : list u8) : CryptoProvider :=
  {| sha256 := provider_sha256; rsa_pkcs1_verify := provider_rsa_pkcs1_verify; V0_DEV_PUBKEY := pubkey |}.
End Provider.

(** * Properties *)

(** A key as [AesKey::from_bytes] makes it. *)
Definition key_ok (k : AesKey) : Prop := exists bs, AesKey_from_bytes bs = Ok k /\ aes_key_len bs.

Lemma key_ok_inv k : key_ok k ->
  AesKey_from_bytes (AesKey_as_slice k) = Ok k /\ aes_key_len (AesKey_as_slice k).
Proof.
  intros (bs & Hk & Hl). unfold AesKey_from_bytes in Hk. repeat case_match; simplify_eq; unfold AesKey_as_slice;
    cbn [ak_bytes]; bsplit; (split; [|unfold aes_key_len, zlen in *; lia]); unfold AesKey_from_bytes.
  - rewrite (proj2 (Z.eqb_eq _ 16)) by lia. done.
  - rewrite (proj2 (Z.eqb_neq _ 16)), (proj2 (Z.eqb_eq _ 32)) by lia. done.
Qed.

Lemma AesKey_from_bytes_ok bs : aes_key_len bs -> exists k, AesKey_from_bytes bs = Ok k /\ key_ok k /\ AesKey_as_slice k = bs.
Proof.
  intros Hl. assert (exists k, AesKey_from_bytes bs = Ok k /\ AesKey_as_slice k = bs) as (k & Hk & Hs).
  { unfold AesKey_from_bytes. destruct Hl as [Hl|Hl]; unfold zlen; rewrite Hl; cbn; eauto. }
  exists k. split_and!; [done|by exists bs|done].
Qed.

(** ** Blocks *)

Definition block (b : list u8) : Prop := length b = 16%nat /\ bytes_ok b.

Lemma chunks16_spec f data : (length data <= f)%nat ->
  concat (chunks16 f data) = data /\ (bytes_ok data -> Forall (fun b => bytes_ok b /\ (length b <= 16)%nat) (chunks16 f data)).
Proof.
  revert data. induction f as [|f IH]; intros data Hf.
  - destruct data; [|simpl in Hf; lia]. split; [done|constructor].
  - destruct data as [|b data]; [split; [done|constructor]|]. cbn [chunks16]. set (d := b :: data) in *.
    destruct (IH (drop 16 d)) as [Hc Hf']; [subst d; rewrite length_drop; simpl in *; lia|].
    cbn [concat]. rewrite Hc, take_drop. split; [done|]. intros Hb. constructor.
    + split; [by apply list.Forall_take|]. rewrite length_take. lia.
    + by apply Hf', Forall_drop.
Qed.

Lemma chunks_concat data : concat (chunks data) = data.
Proof. apply chunks16_spec. lia. Qed.

Lemma chunks16_app f b data : length b = 16%nat -> (length (b ++ data) <= f)%nat ->
  chunks16 f (b ++ data) = b :: chunks16 (f - 1) data.
Proof.
  intros Hb Hf. rewrite length_app in Hf. destruct f as [|f]; [lia|]. cbn [chunks16].
  destruct (b ++ data) eqn:E; [destruct b; done|]. rewrite <- E.
  rewrite take_app_length', drop_app_length' by done. by rewrite Nat.sub_1_r.
Qed.

(** Blocks written one after the other are the chunks of the whole. *)
Lemma chunks_blocks bs : Forall (fun b => length b = 16%nat) bs -> chunks (concat bs) = bs.
Proof.
  unfold chunks. intros Hb. generalize (Nat.le_refl (length (concat bs))).
  generalize (length (concat bs)) at 2 3. intros f. revert f.
  induction Hb as [|b bs Hb Hbs IH]; intros f Hf; [by destruct f|].
  cbn [concat] in *. rewrite chunks16_app by done. f_equal. apply IH.
  rewrite length_app in Hf. lia.
Qed.

Lemma chunks_full data : zlen data mod 16 = 0 -> bytes_ok data -> Forall block (chunks data).
Proof.
  intros Hm Hb. unfold chunks.
  assert (exists n, length data = (16 * n)%nat) as [n Hn].
  { exists (Z.to_nat (zlen data / 16)). pose proof (Z.div_mod (zlen data) 16). unfold zlen in *. lia. }
  generalize (Nat.le_refl (length data)). generalize (length data) at 2 3. intros f. revert data f Hm Hb Hn.
  induction n as [|n IH]; intros data f Hm Hb Hn Hf.
  - destruct data; [|simpl in Hn; lia]. destruct f; constructor.
  - destruct data as [|x data]; [simpl in Hn; lia|]. destruct f as [|f]; [simpl in Hf; lia|]. cbn [chunks16].
    set (d := x :: data) in *. constructor.
    + split; [rewrite length_take; lia|by apply list.Forall_take].
    + apply IH; [|by apply Forall_drop|rewrite length_drop; lia|rewrite length_drop; lia].
      unfold zlen. rewrite length_drop, Hn. replace (16 * S n - 16)%nat with (16 * n)%nat by lia.
      rewrite Nat2Z.inj_mul, Z.mul_comm. apply Z.mod_mul. lia.
Qed.

Lemma length_concat16 (bs : list (list u8)) : Forall (fun b => length b = 16%nat) bs ->
  length (concat bs) = (16 * length bs)%nat.
Proof. induction 1 as [|b bs Hb Hbs IH]; [done|]. cbn [concat length]. rewrite length_app. lia. Qed.

Lemma xor_xor a b : (length a <= length b)%nat -> xor_bytes (xor_bytes a b) b = a.
Proof.
  revert b. induction a as [|x a IH]; intros [|y b] Hl; cbn in *; try (lia || done).
  unfold xor_bytes in *. cbn. rewrite IH by lia. rewrite Z.lxor_assoc, Z.lxor_nilpotent, Z.lxor_0_r. done.
Qed.

Lemma length_xor a b : (length a <= length b)%nat -> length (xor_bytes a b) = length a.
Proof. intros. unfold xor_bytes. rewrite length_zip_with. lia. Qed.

Lemma xor_bytes_ok a b : bytes_ok a -> bytes_ok b -> bytes_ok (xor_bytes a b).
Proof.
  intros Ha. revert b. induction Ha as [|x a Hx Ha IH]; intros b Hb; [constructor|].
  destruct Hb as [|y b Hy Hb]; [constructor|]. cbn. constructor; [|by apply IH].
  unfold byte_ok, in_width in *.
  split; [apply Z.lxor_nonneg; lia|]. destruct (Z.eq_dec (Z.lxor x y) 0) as [-> |]; [lia|].
  apply Z.log2_lt_pow2; [pose proof (Z.lxor_nonneg x y); lia|].
  eapply Z.le_lt_trans; [apply Z.log2_lxor; lia|].
  apply Z.max_lub_lt; [destruct (Z.eq_dec x 0) as [-> |]|destruct (Z.eq_dec y 0) as [-> |]]; try done;
    apply Z.log2_lt_pow2; lia.
Qed.

(** ** The counter of CTR mode *)

Lemma ctr_incr_rev_spec c : bytes_ok c ->
  bytes_ok (ctr_incr_rev c) /\ length (ctr_incr_rev c) = length c /\
  from_le (ctr_incr_rev c) = (from_le c + 1) mod 256 ^ zlen c.
Proof.
  induction 1 as [|b c Hb Hc (IHb & IHl & IHv)].
  { split_and!; [constructor|done|]. cbn [ctr_incr_rev from_le]. by rewrite Z.mod_1_r. }
  cbn [ctr_incr_rev from_le]. rewrite zlen_cons, Z.pow_add_r, Z.pow_1_r by (try apply zlen_nonneg; lia).
  unfold wrapping_add, wrap. change (2 ^ 8) with 256. unfold byte_ok, in_width in Hb.
  pose proof (from_le_bound c Hc). pose proof (Z.pow_pos_nonneg 256 (zlen c) ltac:(lia) (zlen_nonneg _)).
  destruct (Z.eq_dec b 255) as [-> |Hne].
  - change ((255 + 1) mod 256) with 0. cbn [Z.eqb negb]. cbn [from_le length].
    split_and!; [constructor; [done|done]|lia|]. rewrite IHv.
    replace (255 + 256 * from_le c + 1) with (256 * (from_le c + 1)) by lia.
    rewrite Z.mul_mod_distr_l by lia. lia.
  - rewrite (Z.mod_small (b + 1)), (proj2 (Z.eqb_neq _ 0)) by lia. cbn [negb from_le length].
    split_and!; [constructor; [unfold byte_ok, in_width; lia|done]|done|].
    rewrite Z.mod_small by nia. lia.
Qed.

Lemma ctr_incr_spec c : bytes_ok c ->
  bytes_ok (ctr_incr c) /\ length (ctr_incr c) = length c /\ from_be (ctr_incr c) = (from_be c + 1) mod 256 ^ zlen c.
Proof.
  intros Hc. unfold ctr_incr, from_be. rewrite rev_involutive, length_rev.
  destruct (ctr_incr_rev_spec (rev c) (bytes_ok_rev _ Hc)) as (H1 & H2 & H3).
  rewrite length_rev in H2. replace (zlen (rev c)) with (zlen c) in H3 by (unfold zlen; by rewrite length_rev).
  split_and!; [by apply bytes_ok_rev|done|done].
Qed.

(** Chunks depend on the length only. *)
Lemma chunks16_lengths f (c d : list u8) : length c = length d ->
  Forall2 (fun a b => length a = length b) (chunks16 f c) (chunks16 f d).
Proof.
  revert c d. induction f as [|f IH]; intros c d E; [constructor|].
  destruct c as [|x c], d as [|y d]; try done; cbn [chunks16].
  constructor; [rewrite !length_take; lia|]. apply IH. rewrite !length_drop. lia.
Qed.

Lemma concat_lengths (xs ys : list (list u8)) :
  Forall2 (fun a b => length a = length b) xs ys -> length (concat xs) = length (concat ys).
Proof. induction 1 as [|x y xs ys E HF IH]; [done|]. cbn [concat]. rewrite !length_app. lia. Qed.

Lemma concat_inj (xs ys : list (list u8)) :
  concat xs = concat ys -> Forall2 (fun a b => length a = length b) xs ys -> xs = ys.
Proof.
  intros E HF. induction HF as [|x y xs ys El HF IH]; [done|]. cbn [concat] in E.
  apply app_inj_1 in E as [-> E]; [|done]. by rewrite IH.
Qed.

#[local] Instance same_lengths_sym : Symmetric (Forall2 (fun a b : list u8 => length a = length b)).
Proof. intros xs ys. induction 1; constructor; [by symmetry|done]. Qed.

#[local] Instance same_lengths_trans : Transitive (Forall2 (fun a b : list u8 => length a = length b)).
Proof.
  intros xs ys zs H1. revert zs. induction H1 as [|x y xs ys E HF IH]; intros zs H2; [done|].
  apply Forall2_cons_inv_l in H2 as (z & zs' & E' & HF' & ->). constructor; [congruence|by apply IH].
Qed.

Section Modes.
Context `{CL : CryptoLaws}.

Lemma aes_crypt_blocks key bs out (encrypt : bool) :
  Forall block bs -> length out = (16 * length bs)%nat ->
  aes_crypt key (concat bs) out encrypt =
    Ok (concat (map (if encrypt then aes_encrypt_block (AesKey_as_slice key)
                     else aes_decrypt_block (AesKey_as_slice key)) bs)).
Proof.
  intros Hb Ho. assert (Forall (fun b => length b = 16%nat) bs) as Hl by (eapply Forall_impl; [|exact Hb]; by intros ? []).
  unfold aes_crypt. rewrite chunks_blocks by done. unfold zlen. rewrite length_concat16, Ho by done.
  rewrite Nat2Z.inj_mul, Z.mul_comm, Z.mod_mul by lia. rewrite Z.eqb_refl. cbn [negb orb Z.eqb].
  rewrite Z.eqb_refl. cbn [negb]. do 2 f_equal. unfold AesKey_as_slice. by destruct (ak_bytes key), encrypt.
Qed.

Lemma aes_crypt_one key b (encrypt : bool) : block b ->
  aes_crypt key b (zeros 16) encrypt =
    Ok (if encrypt then aes_encrypt_block (AesKey_as_slice key) b else aes_decrypt_block (AesKey_as_slice key) b).
Proof.
  intros Hb. pose proof (aes_crypt_blocks key [b] (zeros 16) encrypt) as H1.
  cbn [concat map] in H1. rewrite app_nil_r in H1. rewrite H1; [|by repeat constructor; apply Hb|done].
  destruct encrypt; by rewrite app_nil_r.
Qed.

Lemma encrypt_block_ok key b : block b -> block (aes_encrypt_block key b).
Proof. intros [Hl Hb]. split; [by apply aes_encrypt_length|by apply aes_encrypt_bytes]. Qed.

Lemma xor_block a b : block a -> block b -> block (xor_bytes a b).
Proof. intros [??] [??]. split; [rewrite length_xor; lia|by apply xor_bytes_ok]. Qed.

(** What each loop writes, and that decryption undoes it. *)
Lemma cbc_loops key bs : key_ok key -> forall prev, block prev -> Forall block bs ->
  exists cs, cbc_enc_loop key prev bs = Ok (concat cs) /\ length cs = length bs /\ Forall block cs /\
    cbc_dec_loop key prev cs = Ok (concat bs).
Proof.
  intros Hk. destruct (key_ok_inv key Hk) as [_ Hlen].
  induction bs as [|b bs IH]; intros prev Hp Hb; [by exists []|].
  apply Forall_cons_1 in Hb as [Hb Hbs]. cbn [cbc_enc_loop].
  pose proof (xor_block b prev Hb Hp) as Hx. rewrite aes_crypt_one by done. cbn [rbind].
  set (c := aes_encrypt_block _ _). assert (block c) as Hc by by apply encrypt_block_ok.
  destruct (IH c Hc Hbs) as (cs & -> & Hl & Hcs & Hd). cbn [rbind].
  exists (c :: cs). split_and!; [done|simpl; lia|by constructor|].
  cbn [cbc_dec_loop]. rewrite aes_crypt_one by done. cbn [rbind]. rewrite Hd. cbn [rbind concat].
  unfold c. rewrite aes_decrypt_encrypt by (done || apply Hx). rewrite xor_xor; [done|].
  destruct Hb, Hp. lia.
Qed.

Lemma ctr_loop_involutive key bs : forall ctr, block ctr -> Forall (fun b => (length b <= 16)%nat) bs ->
  exists cs, ctr_loop key ctr bs = Ok (concat cs) /\ Forall2 (fun c b => length c = length b) cs bs /\
    ctr_loop key ctr cs = Ok (concat bs).
Proof.
  induction bs as [|b bs IH]; intros ctr Hc Hb; [by exists []|].
  apply Forall_cons_1 in Hb as [Hb Hbs]. cbn [ctr_loop]. rewrite aes_crypt_one by done. cbn [rbind].
  set (ks := aes_encrypt_block _ ctr). assert (block ks) as [Hkl _] by by apply encrypt_block_ok.
  destruct (IH (ctr_incr ctr)) as (cs & -> & Hl & Hd); [|done|].
  { destruct Hc as [Hcl Hcb]. destruct (ctr_incr_spec ctr Hcb) as (? & ? & _). split; [lia|done]. }
  cbn [rbind]. exists (xor_bytes b ks :: cs). split_and!; [done|constructor; [apply length_xor; lia|done]|].
  cbn [ctr_loop]. rewrite aes_crypt_one by done. cbn [rbind]. rewrite Hd. cbn [rbind concat].
  fold ks. rewrite xor_xor by lia. done.
Qed.

(** C34. The block modes are inverse to themselves: ECB and CBC decryption undo
    encryption on whole blocks, and applying CTR twice gives the data back for
    any length, the last block included. *)
Theorem modes_roundtrip key iv data buf buf' :
  key_ok key -> block iv -> bytes_ok data -> length buf = length data -> length buf' = length data ->
  (zlen data mod 16 = 0 ->
     (exists ct, aes_ecb_encrypt key data buf = Ok ct /\ length ct = length data /\
        aes_ecb_decrypt key ct buf' = Ok data) /\
     (exists ct, aes_cbc_encrypt key iv data buf = Ok ct /\ length ct = length data /\
        aes_cbc_decrypt key iv ct buf' = Ok data)) /\
  (exists ct, aes_ctr key iv data = Ok ct /\ length ct = length data /\ aes_ctr key iv ct = Ok data).
Proof.
  intros Hk Hiv Hd Hb Hb'. split.
  - intros Hm. pose proof (chunks_full data Hm Hd) as Hf. pose proof (chunks_concat data) as Hc.
    assert (Forall (fun b => length b = 16%nat) (chunks data)) as Hl by (eapply Forall_impl; [|exact Hf]; by intros ? []).
    pose proof (length_concat16 _ Hl) as Hlen. rewrite Hc in Hlen. split.
    + destruct (key_ok_inv key Hk) as [_ Hkl]. unfold aes_ecb_encrypt, aes_ecb_decrypt. rewrite <- Hc.
      rewrite aes_crypt_blocks by (done || lia). set (cs := map _ (chunks data)).
      assert (Forall block cs) as Hcs by (apply Forall_map; eapply Forall_impl; [|exact Hf]; intros; by apply encrypt_block_ok).
      assert (length cs = length (chunks data)) as Hcl by apply length_map.
      eexists. split; [done|]. split.
      * rewrite Hc, Hlen, length_concat16; [lia|]. eapply Forall_impl; [|exact Hcs]. by intros ? [].
      * rewrite aes_crypt_blocks by (done || lia). do 2 f_equal. subst cs. rewrite map_map.
        etransitivity; [|apply map_id]. apply map_ext_Forall. eapply Forall_impl; [|exact Hf]. intros b [??]. by apply aes_decrypt_encrypt.
    + unfold aes_cbc_encrypt, aes_cbc_decrypt.
      destruct (cbc_loops key (chunks data) Hk iv Hiv Hf) as (cs & -> & Hcl & Hcs & Hdec).
      assert (Forall (fun b => length b = 16%nat) cs) as Hcsl by (eapply Forall_impl; [|exact Hcs]; by intros ? []).
      assert (length (concat cs) = length data) as Hll by (rewrite length_concat16; lia || done).
      unfold zlen in *. rewrite Hb, Hm, !Z.eqb_refl. cbn [negb orb].
      eexists. split; [done|]. split; [done|]. rewrite Hll, Hb', Hm, !Z.eqb_refl. cbn [negb orb].
      rewrite chunks_blocks by done. by rewrite Hdec, Hc.
  - unfold aes_ctr. destruct (chunks16_spec (length data) data) as [Hc Hf]; [lia|].
    destruct (ctr_loop_involutive key (chunks data) iv Hiv) as (cs & -> & HF & Hdec).
    { eapply Forall_impl; [|exact (Hf Hd)]. by intros ? []. }
    assert (length (concat cs) = length data) as Hll by (rewrite <- (chunks_concat data); by apply concat_lengths).
    eexists. split; [done|]. split; [done|].
    assert (chunks (concat cs) = cs) as ->; [|by rewrite Hdec, chunks_concat].
    apply concat_inj; [apply chunks_concat|]. etransitivity; [unfold chunks; rewrite Hll; by apply (chunks16_lengths _ _ data)|].
    symmetry. exact HF.
Qed.
End Modes.

Section Gcm.
Context `{CL : CryptoLaws}.

Lemma gcm_key_match {A} key (x : res CryptoError A) : key_ok key ->
  (match ak_bits key with Aes128 => let? _ := AesKey_from_bytes (AesKey_as_slice key) in x | Aes256 => x end) = x.
Proof. intros Hk. destruct (key_ok_inv key Hk) as [-> _]. by destruct (ak_bits key). Qed.

(** The buffers only give the lengths. *)
Lemma gcm_encrypt_seal key nonce aad pt ct tag out :
  key_ok key -> gcm_seal (AesKey_as_slice key) nonce aad pt = Some out ->
  length ct = length pt -> length tag = 16%nat ->
  aes_gcm_encrypt key nonce aad pt ct tag = Ok (take (length pt) out, drop (length pt) out).
Proof.
  intros Hk Eo Hc Ht. pose proof (gcm_seal_length _ _ _ _ _ Eo) as Hlo.
  unfold aes_gcm_encrypt, copy_from_slice, zlen. rewrite Hc, Z.eqb_refl. cbn [negb].
  rewrite gcm_key_match by done. rewrite Eo. cbn [ok_or rbind]. rewrite Hlo, Nat2Z.inj_add, Z.eqb_refl. cbn [negb].
  rewrite length_take, length_drop, Hlo, Nat.min_l, Ht, Z.eqb_refl by lia. cbn [rbind].
  by replace (length pt + 16 - length pt)%nat with 16%nat by lia.
Qed.

Lemma gcm_encrypt_spec key nonce aad pt ct tag :
  key_ok key -> length nonce = 12%nat -> zlen pt <= 2 ^ 36 -> length ct = length pt -> length tag = 16%nat ->
  exists c t, aes_gcm_encrypt key nonce aad pt ct tag = Ok (c, t) /\
    gcm_seal (AesKey_as_slice key) nonce aad pt = Some (c ++ t) /\ length c = length pt /\ length t = 16%nat.
Proof.
  intros Hk Hn Hp Hc Ht. destruct (key_ok_inv key Hk) as [_ Hl].
  destruct (gcm_seal_some (AesKey_as_slice key) nonce aad pt Hl Hn Hp) as (out & Eo).
  pose proof (gcm_seal_length _ _ _ _ _ Eo). rewrite (gcm_encrypt_seal _ _ _ _ _ _ out) by done.
  do 2 eexists. split; [done|]. rewrite take_drop, length_take, length_drop. split_and!; [done|lia|lia].
Qed.

Lemma gcm_decrypt_seal key nonce aad c t pt buf :
  key_ok key -> length nonce = 12%nat -> gcm_seal (AesKey_as_slice key) nonce aad pt = Some (c ++ t) ->
  length c = length pt -> length buf = length c -> aes_gcm_decrypt key nonce aad c t buf = (Ok tt, pt).
Proof.
  intros Hk Hn Hs Hc Hb. destruct (key_ok_inv key Hk) as [_ Hl]. unfold aes_gcm_decrypt, copy_from_slice, zlen.
  rewrite Hb, Z.eqb_refl. cbn [negb]. apply gcm_open_spec in Hs; [|done|done]. rewrite Hs. cbn [ok_or].
  by rewrite Hc, Z.eqb_refl.
Qed.

(** What [aes_gcm_encrypt] returns is the sealed message. *)
Lemma gcm_encrypt_inv key nonce aad m ct tag : key_ok key -> length ct = length m -> length tag = 16%nat ->
  aes_gcm_encrypt key nonce aad m ct tag = Ok (ct, tag) -> gcm_seal (AesKey_as_slice key) nonce aad m = Some (ct ++ tag).
Proof.
  intros Hk Hc Ht E. destruct (gcm_seal (AesKey_as_slice key) nonce aad m) as [out|] eqn:Eo.
  - rewrite (gcm_encrypt_seal _ _ _ _ _ _ _ Hk Eo Hc Ht) in E. injection E as <- <-. by rewrite take_drop.
  - unfold aes_gcm_encrypt, zlen in E. rewrite Hc, Z.eqb_refl in E. cbn [negb] in E. rewrite gcm_key_match, Eo in E by done.
    done.
Qed.

(** C35. GCM as the provider wraps it, on the caller's buffer.  Encryption followed
    by decryption with the same key, nonce and associated data puts the plaintext
    in any buffer of its length.  For any ciphertext, tag and buffer, decryption
    never panics: on success the buffer holds a plaintext whose encryption they
    are; on an error the buffer is as it was, whatever it held, so nothing of the
    message is released: [InvalidLength] if the buffer has another length,
    [AuthFailure] if no plaintext encrypts to that ciphertext and tag.  (What an
    authentic message is, is the law [gcm_open_spec] of the cipher.) *)
Theorem gcm_authenticated key nonce aad pt ct tag buf :
  key_ok key -> length nonce = 12%nat -> zlen pt <= 2 ^ 36 -> length ct = length pt -> length tag = 16%nat ->
  (length buf = length pt -> exists c t, aes_gcm_encrypt key nonce aad pt ct tag = Ok (c, t) /\
     aes_gcm_decrypt key nonce aad c t buf = (Ok tt, pt)) /\
  match aes_gcm_decrypt key nonce aad ct tag buf with
  | (Ok _, out) => length buf = length ct /\ aes_gcm_encrypt key nonce aad out ct tag = Ok (ct, tag)
  | (Err e, out) => out = buf /\
      (e = InvalidLength /\ length buf <> length ct \/
       e = AuthFailure /\ forall m, length m = length ct -> aes_gcm_encrypt key nonce aad m ct tag <> Ok (ct, tag))
  | (Panic, _) => False
  end.
Proof.
  intros Hk Hn Hp Hc Ht. destruct (key_ok_inv key Hk) as [_ Hl]. split.
  - intros Hb. destruct (gcm_encrypt_spec key nonce aad pt ct tag) as (c & t & E & Hs & Hcl & Htl); try done.
    exists c, t. split; [done|]. apply (gcm_decrypt_seal key nonce aad c t pt buf); done || lia.
  - destruct (decide (length buf = length ct)) as [Hb|Hb].
    2:{ unfold aes_gcm_decrypt. rewrite (proj2 (Z.eqb_neq _ _)) by (unfold zlen; lia). cbn. split; [done|]. by left. }
    destruct (gcm_open (AesKey_as_slice key) nonce aad (ct ++ tag)) as [m|] eqn:Eo.
    + apply gcm_open_spec in Eo; [|done|done]. pose proof (gcm_seal_length _ _ _ _ _ Eo) as Hlo. rewrite length_app in Hlo.
      rewrite (gcm_decrypt_seal _ _ _ _ _ _ _ Hk Hn Eo) by lia. split; [done|].
      rewrite (gcm_encrypt_seal _ _ _ _ _ _ _ Hk Eo) by lia. by rewrite take_app_length', drop_app_length' by lia.
    + unfold aes_gcm_decrypt, zlen. rewrite Hb, Z.eqb_refl, Eo. cbn [negb ok_or]. split; [done|]. right. split; [done|].
      intros m Hm E. apply gcm_encrypt_inv in E; [|done|lia|done]. apply gcm_open_spec in E; [|done|done]. congruence.
Qed.
End Gcm.

(** ** The entropy source of the virtual HAL *)

#[export] Instance VirtEntropy_ops : EntropyOps VirtEntropy :=
  {| ent_fill_buf := ent_fill; ent_origin := fun _ => ReeHost |}.

#[export] Instance VirtEntropy_laws : EntropyLaws VirtEntropy.
Proof.
  split. cbn. intros e [|b buf]; [done|]. destruct (ent_fill_raw e (b :: buf)) as (e' & -> & Hl & _); [done|].
  cbn [fst]. destruct (all_zero _); [rewrite length_insert|]; exact Hl.
Qed.

(** A build without [allow-ree-entropy] never generates a key or fills a
    buffer from the virtual HAL's source: every operation that takes entropy
    refuses it before it reads a byte. *)
Theorem ree_entropy_refused `{CryptoCrates} (e : VirtEntropy) bits rbits buf sk digest sig pk :
  fill_random false e buf = Err ReeEntropyNotAllowed /\
  generate_aes false bits e = Err ReeEntropyNotAllowed /\
  generate_rsa false rbits e = Err ReeEntropyNotAllowed /\
  generate_p256 false e = Err ReeEntropyNotAllowed /\
  rsa_pss_sign false sk digest sig e = Err ReeEntropyNotAllowed /\
  rsa_oaep_encrypt false pk digest sig e = Err ReeEntropyNotAllowed.
Proof. done. Qed.

(** ** A toy instance, to show the laws can hold *)

Definition toy_tag (k n aad m : list u8) : list u8 := to_le 16 (foldr Z.add 0 (k ++ n ++ aad ++ m)).

#[local] Instance toy_crates : CryptoCrates := {|
  aes_encrypt_block := fun _ b => rev b;
  aes_decrypt_block := fun _ b => rev b;
  gcm_seal := fun k n aad m => Some (rev m ++ toy_tag k n aad m);
  gcm_open := fun k n aad c =>
    let m := rev (take (length c - 16) c) in
    if decide (16 <= length c)%nat then
      if beqb (drop (length c - 16) c) (toy_tag k n aad m) then Some m else None
    else None;
  sha1_digest := fun _ => zeros 20;
  sha256_digest := fun _ => zeros 32;
  hmac_sha1_mac := fun k d => Some (to_le 20 (foldr Z.add 0 (k ++ d)));
  hmac_sha256_mac := fun k d => Some (to_le 32 (foldr Z.add 0 (k ++ d)));
  hkdf_expand := fun ikm info n => Some (to_le (Z.to_nat n) (foldr Z.add 0 (ikm ++ info)));
  rsa_from_pkcs1_der := fun _ => None;
  rsa_from_public_key_der := fun _ => None;
  RsaPublicKey := unit; RsaPrivateKey := unit;
  rsa_public_new := fun _ _ => Some tt;
  rsa_to_public := fun _ => ([], []);
  rsa_verify_pkcs1v15 := fun _ _ _ => false;
  rsa_verify_pss := fun _ _ _ => false;
  rsa_sign_pkcs1v15 := fun _ _ => None;
  rsa_decrypt_oaep := fun _ _ => None;
  rsa_private_new := fun E _ e _ => (None, e);
  rsa_sign_pss := fun E _ _ _ e => (None, e);
  rsa_encrypt_oaep := fun E _ _ _ e => (None, e);
  p256_random := fun E _ e => (([], []), e);
  p256_sign_prehash := fun _ _ => None;
  p256_vk_ok := fun _ => false; p256_sig_ok := fun _ => false; p256_verify_prehash := fun _ _ _ => false |}.

#[local] Instance toy_laws : CryptoLaws.
Proof.
  assert (forall k n aad m, length (toy_tag k n aad m) = 16%nat) as Ht by (intros; apply length_to_le).
  split; cbn -[toy_tag to_le]; intros.
  - by rewrite length_rev.
  - by apply bytes_ok_rev.
  - apply rev_involutive.
  - eauto.
  - simplify_eq. rewrite length_app, length_rev, Ht. done.
  - split.
    + case_decide; [|done]. case_match eqn:E; [|done]. intros [= <-]. apply beqb_eq in E.
      rewrite <- E, rev_involutive, take_drop. done.
    + intros [= <-]. rewrite length_app, Ht. replace (length (rev m) + 16 - 16)%nat with (length (rev m)) by lia.
      rewrite take_app_length, drop_app_length, rev_involutive, beqb_refl. case_decide; [done|lia].
  - eexists. split; [done|apply length_to_le].
  - eexists. split; [done|apply length_to_le].
Qed.

Definition toy_key : AesKey := {| ak_bits := Aes128; ak_bytes := K128 (zeros 16) |}.
Lemma toy_key_ok : key_ok toy_key.
Proof. exists (zeros 16). split; [done|by left]. Qed.

Lemma modes_roundtrip_witness :
  exists ct, aes_ctr toy_key (zeros 16) [1; 2; 3] = Ok ct /\ length ct = 3%nat /\ aes_ctr toy_key (zeros 16) ct = Ok [1; 2; 3].
Proof.
  apply (modes_roundtrip toy_key (zeros 16) [1; 2; 3] (zeros 3) (zeros 3)); [apply toy_key_ok|split|..]; by_compute || done.
Defined.

Lemma gcm_authenticated_witness :
  exists c t, aes_gcm_encrypt toy_key (zeros 12) [7] [1; 2; 3] (zeros 3) (zeros 16) = Ok (c, t) /\
    aes_gcm_decrypt toy_key (zeros 12) [7] c t [9; 9; 9] = (Ok tt, [1; 2; 3]).
Proof.
  apply (gcm_authenticated toy_key (zeros 12) [7] [1; 2; 3] (zeros 3) (zeros 16) [9; 9; 9]); try done.
  apply toy_key_ok.
Defined.
