(* ===== verification/Storage.v ===== *)
(** Encrypted REE-backed storage (src/crates/rustee-storage/src/lib.rs, rpc.rs).

    [ReeFs] keeps, for each TA, one directory blob ({ta}/dir.v1: encrypted with
    AES-GCM, then an HMAC over ciphertext and tag) and one blob per object
    ({ta}/obj/{file id}: a random file key wrapped under the TA's key, and the
    body under the file key).  The state is the entropy source, the hardware key
    and the file system behind [FsRpc]; operations are functions of a state and
    error monad.  [MemFs] is the in-memory [FsRpc], [RpcFs] the one over the
    supplicant's file descriptors. *)
From Stdlib Require Import ZArith Lia Ascii String.
From stdpp Require Import base list numbers strings gmap.
From S2P Require Import Prelude Abi Iface Crypto.

Local Open Scope Z_scope.
Local Open Scope rust_scope.

Definition MAX_OBJECT : usize := 1024 * 1024.
Definition STORAGE_CLASS_REE_FS : u8 := 0.

Inductive StorageError := Corrupt | NotFound | TooBig | CryptoErr | FsErr.
#[export] Instance StorageError_eq_dec : EqDecision StorageError.
Proof. solve_decision. Defined.

(** [impl From<CryptoError> for StorageError], applied by [?] *)
Definition StorageError_from (_ : CryptoError) : StorageError := CryptoErr.
Definition lift_crypto {A} (r : res CryptoError A) : res StorageError A := map_err StorageError_from r.
(** [.map_err(|_| e)] *)
Definition err_as {E A} (e : StorageError) (r : res E A) : res StorageError A := map_err (fun _ => e) r.

(** * The state and error monad *)

Definition M (S A : Type) : Type := S -> res StorageError A * S.
Definition mret {S A} (a : A) : M S A := fun s => (Ok a, s).
Definition mfail {S A} (e : StorageError) : M S A := fun s => (Err e, s).
Definition mlift {S A} (r : res StorageError A) : M S A := fun s => (r, s).
Definition mbind {S A B} (m : M S A) (k : A -> M S B) : M S B := fun s =>
  match m s with
  | (Ok a, s) => k a s
  | (Err e, s) => (Err e, s)
  | (Panic, s) => (Panic, s)
  end.
(** The result of a call as a value, for [let _ =], [or_else], [unwrap_or_default]. *)
Definition mtry {S A} (m : M S A) : M S (res StorageError A) := fun s =>
  match m s with (Panic, s) => (Panic, s) | (r, s) => (Ok r, s) end.

Declare Scope storage_scope.
Delimit Scope storage_scope with storage.
Notation "'do!' x <- c ; k" := (mbind c (fun x => k))
  (at level 20, x pattern, c at level 100, k at level 200) : storage_scope.
Local Open Scope storage_scope.

(** * [FsRpc] *)

Class FsRpc (F : Type) := {
  fs_create : string -> list u8 -> M F unit;
  fs_read : string -> M F (list u8);
  fs_write : string -> list u8 -> M F unit;
  fs_delete : string -> M F unit;
  fs_mkdir : string -> M F unit }.

Record MemFs := { mf_files : gmap string (list u8) }.

#[export] Instance MemFs_rpc : FsRpc MemFs := {
  fs_create := fun path data fs => (Ok tt, {| mf_files := <[path := data]> (mf_files fs) |});
  fs_read := fun path fs => (ok_or (mf_files fs !! path) NotFound, fs);
  fs_write := fun path data fs => (Ok tt, {| mf_files := <[path := data]> (mf_files fs) |});
  fs_delete := fun path fs => (Ok tt, {| mf_files := delete path (mf_files fs) |});
  fs_mkdir := fun _ fs => (Ok tt, fs) }.

(** * Names *)

Definition hex_digit (n : Z) : ascii :=
  nth (Z.to_nat n) (list_ascii_of_string "0123456789abcdef") "0"%char.

Fixpoint hex32 (b : list u8) : string :=
  match b with
  | [] => EmptyString
  | x :: b => String (hex_digit (Z.shiftr x 4)) (String (hex_digit (Z.land x 0xf)) (hex32 b))
  end.

Definition ta_hex (ta : list u8) : string := hex32 ta.
Definition dir_path (ta : list u8) : string := ta_hex ta +:+ "/dir.v1".
Definition obj_path (ta file_id : list u8) : string := ta_hex ta +:+ "/obj/" +:+ hex32 file_id.

(** * Objects and the directory *)

Record ObjectMeta := { om_object_id : list u8; om_flags : u32; om_data_size : u64 }.
Record ObjectHandle := {
  oh_ta : list u8; oh_file_id : list u8; oh_object_id : list u8; oh_flags : u32;
  oh_data : list u8; oh_version : u64 }.

Definition set_data (h : ObjectHandle) (d : list u8) : ObjectHandle :=
  {| oh_ta := oh_ta h; oh_file_id := oh_file_id h; oh_object_id := oh_object_id h; oh_flags := oh_flags h;
     oh_data := d; oh_version := oh_version h |}.
(** [h.obj_version = h.obj_version.wrapping_add(1)] *)
Definition bump (h : ObjectHandle) : ObjectHandle :=
  {| oh_ta := oh_ta h; oh_file_id := oh_file_id h; oh_object_id := oh_object_id h; oh_flags := oh_flags h;
     oh_data := oh_data h; oh_version := wrapping_add 64 (oh_version h) 1 |}.
Definition set_id (h : ObjectHandle) (oid : list u8) : ObjectHandle :=
  {| oh_ta := oh_ta h; oh_file_id := oh_file_id h; oh_object_id := oid; oh_flags := oh_flags h;
     oh_data := oh_data h; oh_version := oh_version h |}.

Definition meta_of (h : ObjectHandle) : ObjectMeta :=
  {| om_object_id := oh_object_id h; om_flags := oh_flags h; om_data_size := zlen (oh_data h) |}.

(** A file id and version, per entry. *)
Definition FileRef : Type := list u8 * u64.

(** One entry of [store_dir_full]'s plaintext. *)
Definition dir_entry (e : ObjectMeta) (f : FileRef) : list u8 :=
  f.1 ++ [as_u8 (zlen (om_object_id e))] ++ om_object_id e ++ to_le 4 (om_flags e) ++
  to_le 8 (om_data_size e) ++ to_le 8 f.2.

(** [files.get(i).copied().unwrap_or(([0; 16], 1))] *)
Definition file_or_default (o : option FileRef) : FileRef := default (zeros 16, 1) o.

Fixpoint dir_entries (entries : list ObjectMeta) (files : list FileRef) : list u8 :=
  match entries with
  | [] => []
  | e :: entries => dir_entry e (file_or_default (head files)) ++ dir_entries entries (tail files)
  end.

Definition dir_plain (entries : list ObjectMeta) (files : list FileRef) : list u8 :=
  str "RSTD" ++ [1] ++ [0; 0; 0] ++ to_le 8 1 ++ to_le 4 (as_u32 (zlen entries)) ++ dir_entries entries files.

(** The loop of [parse_dir]: [count] entries from [off]. *)
Fixpoint parse_entries (pt : list u8) (count : nat) (off : usize) : res StorageError (list ObjectMeta * list FileRef) :=
  match count with
  | O => Ok ([], [])
  | S count =>
      if zlen pt <? off + 16 + 1 then Err Corrupt else
      let fid := sub pt off 16 in
      let off := off + 16 in
      let oid_len := at_ pt off in
      let off := off + 1 in
      if zlen pt <? off + oid_len + 4 + 8 + 8 then Err Corrupt else
      let oid := sub pt off oid_len in
      let off := off + oid_len in
      let flags := le32 pt off in
      let off := off + 4 in
      let data_size := le64 pt off in
      let off := off + 8 in
      let ver := le64 pt off in
      let off := off + 8 in
      let? (es, fs) := parse_entries pt count off in
      Ok ({| om_object_id := oid; om_flags := flags; om_data_size := data_size |} :: es, (fid, ver) :: fs)
  end.

Definition parse_dir (pt : list u8) : res StorageError (list ObjectMeta * list FileRef) :=
  if (zlen pt <? 20) || negb (beqb (sub pt 0 4) (str "RSTD")) then Err Corrupt else
  parse_entries pt (Z.to_nat (le32 pt 16)) 20.

(** [entries.iter().position(|e| e.object_id == object_id)] *)
Fixpoint position (object_id : list u8) (entries : list ObjectMeta) : option nat :=
  match entries with
  | [] => None
  | e :: entries => if beqb (om_object_id e) object_id then Some O else S <$> position object_id entries
  end.

(** [Vec::resize(n, 0)] *)
Definition vec_resize (l : list u8) (n : usize) : list u8 := resize (Z.to_nat n) 0 l.

(** * [ReeFs] *)

Record ReeFs (E H F : Type) := { rf_entropy : E; rf_huk : H; rf_fs : F }.
Arguments rf_entropy {E H F} _.
Arguments rf_huk {E H F} _.
Arguments rf_fs {E H F} _.

Section ReeFs.
Context {E H F : Type} `{EntropyOps E, HukOps H, FsRpc F, CryptoCrates}.
Abbreviation RF := (ReeFs E H F).

Definition ReeFs_new (entropy : E) (huk : H) (fs : F) : RF :=
  {| rf_entropy := entropy; rf_huk := huk; rf_fs := fs |}.

(** A call on [self.fs] and on [self.entropy]. *)
Definition on_fs {A} (m : M F A) : M RF A := fun s =>
  let '(r, fs) := m (rf_fs s) in
  (r, {| rf_entropy := rf_entropy s; rf_huk := rf_huk s; rf_fs := fs |}).
Definition fill (n : Z) : M RF (list u8) := fun s =>
  let '(b, e) := ent_fill_buf (rf_entropy s) (zeros n) in
  (Ok b, {| rf_entropy := e; rf_huk := rf_huk s; rf_fs := rf_fs s |}).

Definition tsk (huk : H) (ta : list u8) : res StorageError (list u8) :=
  let? ssk := lift_crypto (hkdf_sha256 (huk_material huk) (str "rustee.storage.ssk.v1") (zeros 32)) in
  lift_crypto (hkdf_sha256 ssk (str "rustee.storage.ta.v1" ++ ta) (zeros 32)).
Definition derive (tsk info : list u8) : res StorageError (list u8) :=
  lift_crypto (hkdf_sha256 tsk info (zeros 32)).
Definition get_tsk (ta : list u8) : M RF (list u8) := fun s => (tsk (rf_huk s) ta, s).

(** [self.fs.write(&path, &blob).or_else(|_| self.fs.create(&path, &blob))] *)
Definition put_blob (path : string) (blob : list u8) : M RF unit :=
  do! r <- mtry (on_fs (fs_write path blob));
  match r with Ok _ => mret tt | _ => on_fs (fs_create path blob) end.

(** ** Object blobs *)

Definition object_aad (ta file_id : list u8) (ver : u64) : list u8 :=
  str "RSTO" ++ [1] ++ ta ++ file_id ++ to_le 8 ver.

Definition object_plain (h : ObjectHandle) : list u8 :=
  [as_u8 (zlen (oh_object_id h))] ++ oh_object_id h ++ oh_data h.

Definition object_blob (h : ObjectHandle) (wrap_nonce body_nonce wrapped wrap_tag : list u8) (pt_len : usize)
    (ct body_tag : list u8) : list u8 :=
  str "RSTO" ++ [1] ++ [0] ++ to_le 2 0 ++ oh_file_id h ++ oh_ta h ++ to_le 8 (oh_version h) ++
  wrap_nonce ++ body_nonce ++ wrapped ++ wrap_tag ++ to_le 8 pt_len ++ ct ++ body_tag.

Definition write_object (h : ObjectHandle) : M RF unit :=
  do! tsk <- get_tsk (oh_ta h);
  do! k_wrap <- mlift (derive tsk (str "rustee.storage.wrap.v1"));
  do! fek_bytes <- fill 32;
  do! fek <- mlift (lift_crypto (AesKey_from_bytes fek_bytes));
  do! wrap_nonce <- fill 12;
  do! body_nonce <- fill 12;
  do! wrap_key <- mlift (lift_crypto (AesKey_from_bytes k_wrap));
  let aad := object_aad (oh_ta h) (oh_file_id h) (oh_version h) in
  do! (wrapped, wrap_tag) <- mlift (lift_crypto (aes_gcm_encrypt wrap_key wrap_nonce aad fek_bytes (zeros 32) (zeros 16)));
  let pt := object_plain h in
  let baad := aad ++ to_le 8 (zlen pt) in
  do! (ct, body_tag) <- mlift (lift_crypto (aes_gcm_encrypt fek body_nonce baad pt (zeros (zlen pt)) (zeros 16)));
  put_blob (obj_path (oh_ta h) (oh_file_id h))
    (object_blob h wrap_nonce body_nonce wrapped wrap_tag (zlen pt) ct body_tag).

Definition decrypt_object (huk : H) (ta file_id object_id : list u8) (flags : u32) (obj_version : u64) (blob : list u8)
  : res StorageError ObjectHandle :=
  if (zlen blob <? 128) || negb (beqb (sub blob 0 4) (str "RSTO")) then Err Corrupt else
  let wrap_nonce := sub blob 48 12 in
  let body_nonce := sub blob 60 12 in
  let wrapped := sub blob 72 32 in
  let wrap_tag := sub blob 104 16 in
  let pt_len := le64 blob 120 in
  let? ct_end := uadd 128 pt_len in
  let? tag_end := uadd ct_end 16 in
  if zlen blob <? tag_end then Err Corrupt else
  let ct := sub blob 128 pt_len in
  let body_tag := sub blob ct_end 16 in
  let? tsk := tsk huk ta in
  let? k_wrap := derive tsk (str "rustee.storage.wrap.v1") in
  let? wrap_key := lift_crypto (AesKey_from_bytes k_wrap) in
  let aad := object_aad ta file_id obj_version in
  let '(r, fek_bytes) := aes_gcm_decrypt wrap_key wrap_nonce aad wrapped wrap_tag (zeros 32) in
  let? _ := err_as Corrupt r in
  let? fek := lift_crypto (AesKey_from_bytes fek_bytes) in
  let baad := aad ++ to_le 8 pt_len in
  let '(r, pt) := aes_gcm_decrypt fek body_nonce baad ct body_tag (zeros pt_len) in
  let? _ := err_as Corrupt r in
  if zlen pt =? 0 then Err Corrupt else
  let oid_len := at_ pt 0 in
  if zlen pt <? 1 + oid_len then Err Corrupt else
  let oid := sub pt 1 oid_len in
  if negb (beqb oid object_id) then Err Corrupt else
  Ok {| oh_ta := ta; oh_file_id := file_id; oh_object_id := oid; oh_flags := flags;
        oh_data := drop (Z.to_nat (1 + oid_len)) pt; oh_version := obj_version |}.

(** ** The directory blob *)

Definition dir_aad (ta : list u8) : list u8 := str "RSTE-dir-v1" ++ ta.

(** [load_dir_full] after the blob is read. *)
Definition open_dir (huk : H) (ta blob : list u8) : res StorageError (list ObjectMeta * list FileRef) :=
  if zlen blob <? 12 + 16 + 32 then Err Corrupt else
  let? tsk := tsk huk ta in
  let? k_dir := derive tsk (str "rustee.storage.dir.v1") in
  let? k_mac := derive tsk (str "rustee.storage.mac.v1") in
  let nonce := sub blob 0 12 in
  let rest := drop 12 blob in
  if zlen rest <? 16 + 32 then Err Corrupt else
  let ct_and_tag := take (length rest - 32) rest in
  let mac := drop (length rest - 32) rest in
  let? expect := err_as Corrupt (hmac_sha256 k_mac ct_and_tag (zeros 32)) in
  if negb (beqb expect mac) then Err Corrupt else
  if zlen ct_and_tag <? 16 then Err Corrupt else
  let ct := take (length ct_and_tag - 16) ct_and_tag in
  let tag := drop (length ct_and_tag - 16) ct_and_tag in
  let? key := lift_crypto (AesKey_from_bytes k_dir) in
  let '(r, pt) := aes_gcm_decrypt key nonce (dir_aad ta) ct tag (zeros (zlen ct)) in
  let? _ := err_as Corrupt r in
  parse_dir pt.

Definition load_dir_full (ta : list u8) : M RF (list ObjectMeta * list FileRef) := fun s =>
  match on_fs (fs_read (dir_path ta)) s with
  | (Ok blob, s) => (open_dir (rf_huk s) ta blob, s)
  | (Err _, s) => (Err NotFound, s)
  | (Panic, s) => (Panic, s)
  end.

Definition load_dir (ta : list u8) : M RF (list ObjectMeta) :=
  do! (entries, _) <- load_dir_full ta; mret entries.

Definition store_dir_full (ta : list u8) (entries : list ObjectMeta) (files : list FileRef) : M RF unit :=
  let pt := dir_plain entries files in
  do! tsk <- get_tsk ta;
  do! k_dir <- mlift (derive tsk (str "rustee.storage.dir.v1"));
  do! k_mac <- mlift (derive tsk (str "rustee.storage.mac.v1"));
  do! nonce <- fill 12;
  do! key <- mlift (lift_crypto (AesKey_from_bytes k_dir));
  do! (ct, tag) <- mlift (lift_crypto (aes_gcm_encrypt key nonce (dir_aad ta) pt (zeros (zlen pt)) (zeros 16)));
  let body := ct ++ tag in
  do! mac <- mlift (lift_crypto (hmac_sha256 k_mac body (zeros 32)));
  put_blob (dir_path ta) (nonce ++ body ++ mac).

(** [for (i, e) in extra.iter().enumerate()] from index [i]: replace, else push. *)
Fixpoint merge_files (files extra : list FileRef) (i : nat) : list FileRef :=
  match extra with
  | [] => files
  | e :: extra => merge_files (if decide (i < length files)%nat then <[i := e]> files else files ++ [e]) extra (S i)
  end.

Definition store_dir (ta : list u8) (entries : list ObjectMeta) (extra : list FileRef) : M RF unit :=
  do! r <- mtry (load_dir_full ta);
  let files := match r with Ok (_, existing) => existing | _ => [] end in
  store_dir_full ta entries (merge_files files extra 0).

Definition upsert_dir (h : ObjectHandle) : M RF unit :=
  do! r <- mtry (load_dir_full (oh_ta h));
  let '(entries, files) := match r with Ok p => p | _ => ([], []) end in
  match position (oh_object_id h) entries with
  | Some i =>
      if decide (i < length files)%nat then
        store_dir_full (oh_ta h) (<[i := meta_of h]> entries) (<[i := (oh_file_id h, oh_version h)]> files)
      else mlift Panic
  | None => store_dir_full (oh_ta h) (entries ++ [meta_of h]) (files ++ [(oh_file_id h, oh_version h)])
  end.

(** ** Operations *)

Definition create (ta object_id : list u8) (flags : u32) (data : list u8) : M RF ObjectHandle :=
  if MAX_OBJECT <? zlen data then mfail TooBig else
  do! _ <- mtry (on_fs (fs_mkdir (ta_hex ta)));
  do! _ <- mtry (on_fs (fs_mkdir (ta_hex ta +:+ "/obj")));
  do! r <- mtry (load_dir ta);
  let entries := match r with Ok es => es | _ => [] end in
  if existsb (fun e => beqb (om_object_id e) object_id) entries then mfail FsErr else
  do! file_id <- fill 16;
  let handle := {| oh_ta := ta; oh_file_id := file_id; oh_object_id := object_id; oh_flags := flags;
                   oh_data := data; oh_version := 1 |} in
  do! _ <- write_object handle;
  do! _ <- store_dir ta (entries ++ [meta_of handle]) [(file_id, oh_version handle)];
  mret handle.

Definition list_objects (ta : list u8) : M RF (list ObjectMeta) := load_dir ta.

Definition open (ta object_id : list u8) : M RF ObjectHandle :=
  do! (entries, files) <- load_dir_full ta;
  do! i <- mlift (ok_or (position object_id entries) NotFound);
  do! e <- mlift (or_panic (entries !! i));
  do! f <- mlift (or_panic (files !! i));
  do! r <- mtry (on_fs (fs_read (obj_path ta f.1)));
  match r with
  | Ok blob => fun s => (decrypt_object (rf_huk s) ta f.1 object_id (om_flags e) f.2 blob, s)
  | _ => mfail Corrupt
  end.

(** The count and the buffer. *)
Definition read (h : ObjectHandle) (off : u64) (buf : list u8) : res StorageError (usize * list u8) :=
  if zlen (oh_data h) <? off then Ok (0, buf) else
  let n := Z.min (zlen buf) (zlen (oh_data h) - off) in
  Ok (n, splice buf 0 (sub (oh_data h) off n)).

(** [&mut h] is threaded: the handle is returned with the result. *)
Definition write (h : ObjectHandle) (off : u64) (buf : list u8) : M RF (res StorageError usize * ObjectHandle) :=
  do! end_ <- mlift (uadd off (zlen buf));
  if MAX_OBJECT <? end_ then mret (Err TooBig, h) else
  let data := if zlen (oh_data h) <? end_ then vec_resize (oh_data h) end_ else oh_data h in
  let h := bump (set_data h (splice data off buf)) in
  do! r <- mtry (do! _ <- write_object h; upsert_dir h);
  mret (let? _ := r in Ok (zlen buf), h).

Definition truncate (h : ObjectHandle) (size : u64) : M RF (res StorageError unit * ObjectHandle) :=
  if MAX_OBJECT <? size then mret (Err TooBig, h) else
  let h := bump (set_data h (vec_resize (oh_data h) size)) in
  do! r <- mtry (do! _ <- write_object h; upsert_dir h);
  mret (r, h).

Definition remove (ta object_id : list u8) : M RF unit :=
  do! (entries, files) <- load_dir_full ta;
  do! i <- mlift (ok_or (position object_id entries) NotFound);
  do! f <- mlift (or_panic (files !! i));
  do! _ <- mtry (on_fs (fs_delete (obj_path ta f.1)));
  store_dir_full ta (delete i entries) (delete i files).

Definition rename (ta old new : list u8) : M RF unit :=
  do! h <- open ta old;
  let h := bump (set_id h new) in
  do! _ <- write_object h;
  do! _ <- remove ta old;
  do! r <- mtry (load_dir ta);
  let entries := match r with Ok es => es | _ => [] end in
  store_dir ta (entries ++ [meta_of h]) [(oh_file_id h, oh_version h)].
End ReeFs.

(** * [RpcFs]: whole files over descriptors *)

Definition RPC_FS_OPEN : u32 := 0.
Definition RPC_FS_CREATE : u32 := 1.
Definition RPC_FS_CLOSE : u32 := 2.
Definition RPC_FS_READ : u32 := 3.
Definition RPC_FS_WRITE : u32 := 4.
Definition RPC_FS_TRUNCATE : u32 := 5.
Definition RPC_FS_REMOVE : u32 := 6.
Definition RPC_FS_RENAME : u32 := 7.
Definition RPC_FS_OPENDIR : u32 := 8.
Definition RPC_FS_CLOSEDIR : u32 := 9.
Definition RPC_FS_READDIR : u32 := 10.

(** [FsClient]: op, name, fd, offset, data. *)
Class FsClient (C : Type) := {
  rpc_fs : u32 -> string -> u32 -> u32 -> list u8 -> M C (u32 * list u8) }.

Definition CHUNK : usize := 4096.

Section RpcFs.
Context {C : Type} `{FsClient C}.

(** [while (off as usize) < data.len()]; [None] when the fuel runs out. *)
Fixpoint put_loop (fuel : nat) (fd : u32) (data : list u8) (off : u32) : M C (option unit) :=
  if off <? zlen data then
    match fuel with
    | O => mret None
    | S fuel =>
        let end_ := Z.min (off + CHUNK) (zlen data) in
        do! _ <- rpc_fs RPC_FS_WRITE "" fd off (sub data off (end_ - off));
        put_loop fuel fd data (as_u32 end_)
    end
  else mret (Some tt).

Definition put (fuel : nat) (fd : u32) (data : list u8) : M C (option unit) :=
  do! r <- put_loop fuel fd data 0;
  match r with
  | None => mret None
  | Some _ => do! _ <- rpc_fs RPC_FS_TRUNCATE "" fd (as_u32 (zlen data)) []; mret (Some tt)
  end.

Definition with_fd {T} (path : string) (create : bool) (f : u32 -> M C T) : M C T :=
  do! (fd, _) <- rpc_fs (if create then RPC_FS_CREATE else RPC_FS_OPEN) path 0 0 [];
  do! r <- mtry (f fd);
  do! _ <- mtry (rpc_fs RPC_FS_CLOSE "" fd 0 []);
  mlift r.

(** The [loop] of [read]; [None] when the fuel runs out. *)
Fixpoint read_loop (fuel : nat) (fd : u32) (out : list u8) : M C (option (list u8)) :=
  match fuel with
  | O => mret None
  | S fuel =>
      do! (n, chunk) <- rpc_fs RPC_FS_READ "" fd (as_u32 (zlen out)) (zeros CHUNK);
      if n <? CHUNK then mret (Some (out ++ chunk)) else read_loop fuel fd (out ++ chunk)
  end.

Definition rpc_create (fuel : nat) (path : string) (data : list u8) : M C (option unit) :=
  with_fd path true (fun fd => put fuel fd data).

Definition rpc_read (fuel : nat) (path : string) : M C (option (list u8)) :=
  with_fd path false (fun fd => read_loop fuel fd []).

Definition rpc_write (fuel : nat) (path : string) (data : list u8) : M C (option unit) :=
  do! r <- mtry (with_fd path false (fun fd => put fuel fd data));
  match r with
  | Err NotFound => with_fd path true (fun fd => put fuel fd data)
  | r => mlift r
  end.

Definition rpc_delete (path : string) : M C unit :=
  do! _ <- rpc_fs RPC_FS_REMOVE path 0 0 []; mret tt.

Definition rpc_mkdir (_ : string) : M C unit := mret tt.
End RpcFs.
