(* ===== verification/StorageProps.v ===== *)
(** What [Storage] guarantees: the codecs round trip, an object created in an
    empty store or rewritten through its handle is found again, the other
    objects of the TA are left alone; and where the store loses objects. *)
From Stdlib Require Import ZArith Lia Ascii String.
From stdpp Require Import base list numbers strings gmap.
From S2P Require Import Prelude Abi Iface Crypto Storage.

Local Open Scope Z_scope.
Local Open Scope rust_scope.
Local Open Scope storage_scope.

(** * The directory codec *)

Definition meta_ok (e : ObjectMeta) : Prop :=
  zlen (om_object_id e) <= 255 /\ in_width 32 (om_flags e) /\ in_width 64 (om_data_size e).
Definition file_ok (f : FileRef) : Prop := length f.1 = 16%nat /\ in_width 64 f.2.

(** The file references as stored: one per entry. *)
Fixpoint norm_files (entries : list ObjectMeta) (files : list FileRef) : list FileRef :=
  match entries with
  | [] => []
  | _ :: entries => file_or_default (head files) :: norm_files entries (tail files)
  end.

Lemma norm_files_id entries files : length files = length entries -> norm_files entries files = files.
Proof. revert files. induction entries as [|e es IH]; intros [|f fs] Hl; cbn; try done. f_equal. apply IH. by injection Hl. Qed.

Lemma length_norm_files entries files : length (norm_files entries files) = length entries.
Proof. revert files. induction entries as [|e es IH]; intros fs; cbn; [done|]. by rewrite IH. Qed.

Lemma file_or_default_ok o : (forall f, o = Some f -> file_ok f) -> file_ok (file_or_default o).
Proof. destruct o; cbn; [by auto|]. intros _. split; [done|]. cbn. unfold in_width. lia. Qed.

Lemma norm_files_ok entries files : Forall file_ok files -> Forall file_ok (norm_files entries files).
Proof.
  revert files. induction entries as [|e es IH]; intros fs Hf; cbn [norm_files]; constructor.
  - apply file_or_default_ok. intros f E. destruct fs; [done|]. injection E as ->. by apply Forall_cons_1 in Hf as [? _].
  - apply IH. destruct Hf; [constructor|done].
Qed.

Lemma zlen_dir_entry e f : file_ok f -> zlen (dir_entry e f) = 16 + 1 + zlen (om_object_id e) + 4 + 8 + 8.
Proof. intros [Hl _]. unfold dir_entry. rewrite !zlen_app, !zlen_to_le, zlen_cons.
  assert (zlen f.1 = 16) by (unfold zlen; lia). change (zlen []) with 0. lia. Qed.

(** Fields at an offset inside [pre ++ mid ++ post]. *)
Lemma sub_at {A} (pre mid post : list A) off n :
  off = zlen pre -> n = zlen mid -> sub (pre ++ mid ++ post) off n = mid.
Proof. intros -> ->. rewrite sub_app_r, Z.sub_diag by lia. by apply sub_app_l. Qed.

Lemma at_at (pre : list Z) x post off : off = zlen pre -> at_ (pre ++ x :: post) off = x.
Proof.
  intros ->. unfold at_, zlen. rewrite Nat2Z.id, app_nth2 by lia. by rewrite Nat.sub_diag.
Qed.

Lemma parse_entry pre e f rest :
  meta_ok e -> file_ok f ->
  forall count, parse_entries (pre ++ dir_entry e f ++ rest) (S count) (zlen pre) =
    (let? (es, fs) := parse_entries (pre ++ dir_entry e f ++ rest) count (zlen pre + zlen (dir_entry e f)) in
     Ok (e :: es, f :: fs)).
Proof.
  intros (Hid & Hfl & Hds) Hf count. pose proof (zlen_dir_entry e f Hf) as Hlen. destruct Hf as [Hl Hv].
  pose proof (zlen_nonneg rest). pose proof (zlen_nonneg (om_object_id e)).
  assert (zlen f.1 = 16) as Hf16 by (unfold zlen; lia).
  cbn [parse_entries]. rewrite !zlen_app, Hlen.
  rewrite (proj2 (Z.ltb_ge _ _)) by lia.
  assert (at_ (pre ++ dir_entry e f ++ rest) (zlen pre + 16) = zlen (om_object_id e)) as ->.
  { unfold dir_entry. rewrite <- !app_assoc. rewrite app_assoc. cbn [app].
    rewrite at_at by (rewrite zlen_app; lia). unfold as_u8. apply wrap_id. unfold in_width. lia. }
  rewrite (proj2 (Z.ltb_ge _ _)) by lia.
  set (buf := pre ++ dir_entry e f ++ rest).
  assert (sub buf (zlen pre) 16 = f.1) as ->.
  { unfold buf, dir_entry. rewrite <- !app_assoc. apply sub_at; lia. }
  assert (sub buf (zlen pre + 16 + 1) (zlen (om_object_id e)) = om_object_id e) as ->.
  { unfold buf, dir_entry. rewrite <- !app_assoc. rewrite 2 app_assoc.
    apply sub_at; [rewrite !zlen_app, Hf16; done|done]. }
  assert (le32 buf (zlen pre + 16 + 1 + zlen (om_object_id e)) = om_flags e) as ->.
  { unfold le32, buf, dir_entry. rewrite <- !app_assoc. rewrite 3 app_assoc.
    rewrite sub_at by (rewrite ?zlen_to_le; rewrite ?zlen_app, ?Hf16; done || (cbn; lia)). by apply from_to_le. }
  assert (le64 buf (zlen pre + 16 + 1 + zlen (om_object_id e) + 4) = om_data_size e) as ->.
  { unfold le64, buf, dir_entry. rewrite <- !app_assoc. rewrite 4 app_assoc.
    rewrite sub_at by (rewrite ?zlen_to_le; rewrite ?zlen_app, ?zlen_to_le, ?Hf16; done || (cbn; lia)). by apply from_to_le. }
  assert (le64 buf (zlen pre + 16 + 1 + zlen (om_object_id e) + 4 + 8) = f.2) as ->.
  { unfold le64, buf, dir_entry. rewrite <- !app_assoc. rewrite 5 app_assoc.
    rewrite sub_at by (rewrite ?zlen_to_le; rewrite ?zlen_app, ?zlen_to_le, ?Hf16; done || (cbn; lia)). by apply from_to_le. }
  replace (zlen pre + 16 + 1 + zlen (om_object_id e) + 4 + 8 + 8)
    with (zlen pre + (16 + 1 + zlen (om_object_id e) + 4 + 8 + 8)) by lia.
  destruct e, f. done.
Qed.

Lemma parse_entries_roundtrip entries : forall files pre,
  Forall meta_ok entries -> Forall file_ok files ->
  parse_entries (pre ++ dir_entries entries files) (length entries) (zlen pre) = Ok (entries, norm_files entries files).
Proof.
  induction entries as [|e es IH]; intros files pre He Hf; [done|].
  apply Forall_cons_1 in He as [He Hes]. cbn [dir_entries norm_files length].
  assert (file_ok (file_or_default (head files))) as Hf0.
  { apply file_or_default_ok. intros f E. destruct files; [done|]. injection E as ->. by apply Forall_cons_1 in Hf as [? _]. }
  rewrite parse_entry by done. rewrite app_assoc, <- zlen_app, IH; [done|done|].
  destruct Hf; [constructor|done].
Qed.

Lemma parse_dir_plain entries files :
  Forall meta_ok entries -> Forall file_ok files -> zlen entries < 2 ^ 32 ->
  parse_dir (dir_plain entries files) = Ok (entries, norm_files entries files).
Proof.
  intros He Hf Hn. unfold parse_dir. set (pre := str "RSTD" ++ [1] ++ [0; 0; 0] ++ to_le 8 1).
  assert (dir_plain entries files = (pre ++ to_le 4 (as_u32 (zlen entries))) ++ dir_entries entries files) as ->
    by (unfold dir_plain, pre; by rewrite <- !app_assoc).
  assert (zlen (pre ++ to_le 4 (as_u32 (zlen entries))) = 20) as Hp by (rewrite zlen_app, zlen_to_le; done).
  rewrite zlen_app, Hp. pose proof (zlen_nonneg (dir_entries entries files)). pose proof (zlen_nonneg entries).
  rewrite (proj2 (Z.ltb_ge _ _)) by lia. change (sub _ 0 4) with (str "RSTD"). rewrite beqb_refl. cbn [orb negb].
  assert (le32 ((pre ++ to_le 4 (as_u32 (zlen entries))) ++ dir_entries entries files) 16 = zlen entries) as ->.
  { unfold le32. rewrite <- app_assoc, sub_at by (rewrite ?zlen_to_le; done).
    unfold as_u32. rewrite wrap_id by (unfold in_width; lia). apply from_to_le. unfold in_width. lia. }
  unfold zlen at 2. rewrite Nat2Z.id. pose proof (parse_entries_roundtrip entries files (pre ++ to_le 4 (as_u32 (zlen entries))) He Hf) as Hr.
  by rewrite Hp in Hr.
Qed.

(** * The file system's promise *)

(** [fs_view] is what the file system holds; an operation touches only its path.
    A write may fail on a missing file, a create may not: these are the laws of a
    store that is reachable and has room, as [MemFs] is.  [RpcFs] over a client
    that fails is not such a store; what it keeps then is in [RpcFsProps]. *)
Class FsLaws (F : Type) `{FsRpc F} := {
  fs_view : F -> string -> option (list u8);
  fs_read_spec : forall p fs, exists fs', (forall q, fs_view fs' q = fs_view fs q) /\
    (forall d, fs_view fs p = Some d -> fs_read p fs = (Ok d, fs')) /\
    (fs_view fs p = None -> exists e, fs_read p fs = (Err e, fs'));
  fs_write_spec : forall p d fs, exists fs',
    fs_write p d fs = (Ok tt, fs') /\ (forall q, fs_view fs' q = if decide (q = p) then Some d else fs_view fs q) \/
    (exists e, fs_write p d fs = (Err e, fs')) /\ (forall q, fs_view fs' q = fs_view fs q);
  fs_create_spec : forall p d fs, exists fs',
    fs_create p d fs = (Ok tt, fs') /\ (forall q, fs_view fs' q = if decide (q = p) then Some d else fs_view fs q);
  fs_delete_spec : forall p fs, exists r fs',
    fs_delete p fs = (r, fs') /\ r <> Panic /\ (forall q, fs_view fs' q = if decide (q = p) then None else fs_view fs q);
  fs_mkdir_spec : forall p fs, exists r fs', fs_mkdir p fs = (r, fs') /\ r <> Panic /\ (forall q, fs_view fs' q = fs_view fs q) }.

#[export] Instance MemFs_laws : FsLaws MemFs.
Proof.
  refine {| fs_view := fun fs p => mf_files fs !! p |}.
  - intros p fs. exists fs. split; [done|]. cbn. split; [by intros d -> |intros ->; eauto].
  - intros p d fs. eexists. left. split; [done|]. intros q. cbn [mf_files].
    case_decide; [subst; by rewrite lookup_insert_eq|by rewrite lookup_insert_ne].
  - intros p d fs. eexists. split; [done|]. intros q. cbn [mf_files].
    case_decide; [subst; by rewrite lookup_insert_eq|by rewrite lookup_insert_ne].
  - intros p fs. do 2 eexists. split; [done|]. split; [done|]. intros q. cbn [mf_files].
    case_decide; [subst; by rewrite lookup_delete_eq|by rewrite lookup_delete_ne].
  - intros p fs. do 2 eexists. done.
Defined.

(** Paths of different files differ. *)
Lemma dir_ne_obj ta f : dir_path ta <> obj_path ta f.
Proof. unfold dir_path, obj_path. intros Hp. apply (inj (String.append (ta_hex ta))) in Hp. discriminate Hp. Qed.

Lemma hex_digit_inj a b : 0 <= a < 16 -> 0 <= b < 16 -> hex_digit a = hex_digit b -> a = b.
Proof.
  intros Ha Hb. rewrite <- (Z2Nat.id a), <- (Z2Nat.id b) by lia. unfold hex_digit. rewrite !Nat2Z.id.
  assert (Z.to_nat a < 16)%nat as Ha' by lia. assert (Z.to_nat b < 16)%nat as Hb' by lia. revert Ha' Hb'.
  generalize (Z.to_nat a) (Z.to_nat b). intros i j Hi Hj E. f_equal.
  do 16 (destruct i as [|i]; [do 16 (destruct j as [|j]; [done || discriminate E|]); lia|]). lia.
Qed.

Lemma hex32_inj a b : bytes_ok a -> bytes_ok b -> hex32 a = hex32 b -> a = b.
Proof.
  intros Ha. revert b. induction Ha as [|x a Hx Ha IH]; intros b Hb E; destruct Hb as [|y b Hy Hb]; try done.
  cbn [hex32] in E. injection E as E1 E2 E3. unfold byte_ok, in_width in *.
  change 0xf with (Z.ones 4) in E2. rewrite !Z.land_ones in E2 by lia.
  rewrite !Z.shiftr_div_pow2 in E1 by lia.
  apply hex_digit_inj in E1; [|split; [apply Z.div_pos; lia|apply Z.div_lt_upper_bound; lia]..].
  apply hex_digit_inj in E2; [|apply Z.mod_pos_bound; lia..].
  rewrite (Z.div_mod x (2 ^ 4)), (Z.div_mod y (2 ^ 4)), E1, E2 by lia. f_equal. by apply IH.
Qed.

Lemma obj_path_inj ta f g : bytes_ok f -> bytes_ok g -> obj_path ta f = obj_path ta g -> f = g.
Proof.
  intros Hf Hg E. unfold obj_path in E. apply (inj (String.append (ta_hex ta))) in E.
  apply (inj (String.append "/obj/")) in E. by apply hex32_inj.
Qed.

(** * Blobs in the store *)

Section Store.
Context {E H F : Type} `{EL : EntropyLaws E} `{HukOps H} `{FL : FsLaws F} `{CL : CryptoLaws}.
Abbreviation RF := (ReeFs E H F).

Definition view (s : RF) : string -> option (list u8) := fs_view (rf_fs s).

(** [s'] is [s] with [blob] at [path] (and other entropy). *)
Definition stored (s : RF) (path : string) (blob : list u8) (s' : RF) : Prop :=
  rf_huk s' = rf_huk s /\ forall q, view s' q = if decide (q = path) then Some blob else view s q.
(** [s'] holds the same files. *)
Definition same_files (s s' : RF) : Prop := rf_huk s' = rf_huk s /\ forall q, view s' q = view s q.

#[local] Instance same_files_refl : Reflexive same_files.
Proof. done. Qed.
#[local] Instance same_files_trans : Transitive same_files.
Proof. intros a b c [? V1] [? V2]. split; [congruence|]. intros q. by rewrite V2. Qed.

Lemma stored_same s s1 path blob s' : same_files s s1 -> stored s1 path blob s' -> stored s path blob s'.
Proof. intros [? V1] [? V2]. split; [congruence|]. intros q. rewrite V2. case_decide; [done|apply V1]. Qed.

Lemma fill_spec n (s : RF) : 0 <= n ->
  exists b s', fill n s = (Ok b, s') /\ zlen b = n /\ same_files s s'.
Proof.
  intros Hn. unfold fill. pose proof (fill_length (rf_entropy s) (zeros n)) as Hl.
  destruct (ent_fill_buf (rf_entropy s) (zeros n)) as [b e]. do 2 eexists. split; [done|]. split; [|done].
  cbn [fst] in Hl. unfold zlen. rewrite Hl. apply zlen_zeros in Hn. unfold zlen in Hn. done.
Qed.

Lemma put_blob_spec path blob (s : RF) : exists s', put_blob path blob s = (Ok tt, s') /\ stored s path blob s'.
Proof.
  unfold put_blob, mbind, mtry, on_fs, stored, view.
  destruct (fs_write_spec path blob (rf_fs s)) as (fs' & [[-> V]|[[e ->] V]]).
  - cbn. eexists. split; [done|]. done.
  - cbn [rf_fs]. destruct (fs_create_spec path blob fs') as (fs2 & Ec & V2). cbn. rewrite Ec. eexists. split; [done|].
    cbn. split; [done|]. intros q. rewrite V2. case_decide; [done|]. apply V.
Qed.

(** Reading a path: the blob and the same files, or an error. *)
Lemma on_fs_read path (s : RF) : exists s', same_files s s' /\
  (forall d, view s path = Some d -> on_fs (fs_read path) s = (Ok d, s')) /\
  (view s path = None -> exists e, on_fs (fs_read path) s = (Err e, s')).
Proof.
  destruct (fs_read_spec path (rf_fs s)) as (fs' & V & Hs & Hn). unfold on_fs, view.
  exists {| rf_entropy := rf_entropy s; rf_huk := rf_huk s; rf_fs := fs' |}. split; [done|]. split.
  - intros d Hd. by rewrite (Hs d Hd).
  - intros Hd. destruct (Hn Hd) as [e ->]. eauto.
Qed.

(** ** Keys *)

Lemma hkdf_ok ikm info : exists k, lift_crypto (hkdf_sha256 ikm info (zeros 32)) = Ok k /\ length k = 32%nat.
Proof.
  unfold hkdf_sha256. destruct (hkdf_expand_some ikm info (zlen (zeros 32))) as (k & -> & Hl); [by vm_compute|].
  exists k. split; [done|]. rewrite Hl. done.
Qed.

Lemma tsk_ok (huk : H) ta : exists k, tsk huk ta = Ok k.
Proof.
  unfold tsk. destruct (hkdf_ok (huk_material huk) (str "rustee.storage.ssk.v1")) as (k & -> & _). cbn [rbind].
  destruct (hkdf_ok k (str "rustee.storage.ta.v1" ++ ta)) as (k' & -> & _). eauto.
Qed.

(** A key derived from [tsk] is a 256-bit AES key. *)
Lemma derive_ok t info : exists k ak, derive t info = Ok k /\ AesKey_from_bytes k = Ok ak /\ key_ok ak.
Proof.
  unfold derive. destruct (hkdf_ok t info) as (k & -> & Hl).
  destruct (AesKey_from_bytes_ok k) as (ak & Ha & Hk & _); [by right|]. eauto 6.
Qed.

Lemma hmac_ok k d : exists m, hmac_sha256 k d (zeros 32) = Ok m /\ zlen m = 32.
Proof.
  unfold hmac_sha256. destruct (hmac_sha256_some k d) as (m & -> & Hl). cbn [ok_or rbind].
  unfold copy_from_slice. assert (zlen m = 32) as Hz by (unfold zlen; lia). rewrite Hz. exists m. done.
Qed.

(** ** Object blobs *)

Record handle_ok (h : ObjectHandle) : Prop := {
  ho_ta : zlen (oh_ta h) = 16;
  ho_fid : zlen (oh_file_id h) = 16;
  ho_id : zlen (oh_object_id h) <= 255;
  ho_data : zlen (oh_data h) <= MAX_OBJECT;
  ho_ver : in_width 64 (oh_version h) }.

(** The fields of an object blob. *)
Lemma blob_fields h wn bn w wt n ct bt :
  handle_ok h -> zlen wn = 12 -> zlen bn = 12 -> zlen w = 32 -> zlen wt = 16 -> n = zlen ct -> in_width 64 n -> zlen bt = 16 ->
  let b := object_blob h wn bn w wt n ct bt in
  zlen b = 128 + n + 16 /\ sub b 0 4 = str "RSTO" /\ sub b 48 12 = wn /\ sub b 60 12 = bn /\ sub b 72 32 = w /\
  sub b 104 16 = wt /\ le64 b 120 = n /\ sub b 128 n = ct /\ sub b (128 + n) 16 = bt.
Proof.
  intros [Hta Hfid _ _ Hver] Hwn Hbn Hw Hwt Hn Hn64 Hbt b.
  assert (zlen (str "RSTO") = 4) as Hm by done.
  assert (forall x : Z, zlen [x] = 1) as Hone by done.
  assert (zlen b = 128 + n + 16) as Hlen.
  { subst b. unfold object_blob. rewrite !zlen_app, !zlen_to_le, !Hone, Hm. lia. }
  subst b. unfold object_blob in *.
  split_and!; [done|by apply sub_app_l|..].
  - rewrite 6 app_assoc. apply sub_at; rewrite ?zlen_app, ?zlen_to_le, ?Hone, ?Hm; lia.
  - rewrite 7 app_assoc. apply sub_at; rewrite ?zlen_app, ?zlen_to_le, ?Hone, ?Hm; lia.
  - rewrite 8 app_assoc. apply sub_at; rewrite ?zlen_app, ?zlen_to_le, ?Hone, ?Hm; lia.
  - rewrite 9 app_assoc. apply sub_at; rewrite ?zlen_app, ?zlen_to_le, ?Hone, ?Hm; lia.
  - unfold le64. rewrite 10 app_assoc, sub_at by (rewrite ?zlen_app, ?zlen_to_le, ?Hone, ?Hm; lia). by apply from_to_le.
  - rewrite 11 app_assoc. apply sub_at; rewrite ?zlen_app, ?zlen_to_le, ?Hone, ?Hm; lia.
  - rewrite 12 app_assoc. rewrite <- (app_nil_r bt) at 1. apply sub_at; rewrite ?zlen_app, ?zlen_to_le, ?Hone, ?Hm; lia.
Qed.

(** The plaintext splits into the id and the data. *)
Lemma object_plain_fields h : handle_ok h ->
  let pt := object_plain h in let n := zlen (oh_object_id h) in
  zlen pt = 1 + n + zlen (oh_data h) /\ at_ pt 0 = n /\ sub pt 1 n = oh_object_id h /\
  drop (Z.to_nat (1 + n)) pt = oh_data h.
Proof.
  intros Hh pt n. pose proof (ho_id h Hh). pose proof (zlen_nonneg (oh_object_id h)). subst pt n.
  unfold object_plain. rewrite !zlen_app. change (zlen [_]) with 1.
  split_and!; [lia|unfold at_; cbn [Z.to_nat nth app]; apply wrap_id; unfold in_width; lia|by apply sub_at|].
  replace (Z.to_nat (1 + zlen (oh_object_id h))) with (S (length (oh_object_id h))) by (unfold zlen; lia).
  cbn [app drop]. apply drop_app_length.
Qed.

(** A blob [write_object] can have stored for [h]: it decrypts to [h] under
    [h]'s id and is corrupt under any other. *)
Definition object_of (huk : H) (h : ObjectHandle) (blob : list u8) : Prop :=
  forall oid flags, decrypt_object huk (oh_ta h) (oh_file_id h) oid flags (oh_version h) blob =
    if beqb (oh_object_id h) oid
    then Ok {| oh_ta := oh_ta h; oh_file_id := oh_file_id h; oh_object_id := oh_object_id h; oh_flags := flags;
               oh_data := oh_data h; oh_version := oh_version h |}
    else Err Corrupt.

Lemma decrypt_blob (huk : H) h t kw akw fek ak wn bn w wt ct bt :
  handle_ok h -> tsk huk (oh_ta h) = Ok t -> derive t (str "rustee.storage.wrap.v1") = Ok kw ->
  AesKey_from_bytes kw = Ok akw -> key_ok akw -> AesKey_from_bytes fek = Ok ak -> key_ok ak ->
  zlen fek = 32 -> zlen wn = 12 -> zlen bn = 12 -> zlen w = 32 -> zlen wt = 16 -> zlen bt = 16 ->
  let pt := object_plain h in let aad := object_aad (oh_ta h) (oh_file_id h) (oh_version h) in
  zlen ct = zlen pt -> gcm_seal (AesKey_as_slice akw) wn aad fek = Some (w ++ wt) ->
  gcm_seal (AesKey_as_slice ak) bn (aad ++ to_le 8 (zlen pt)) pt = Some (ct ++ bt) ->
  object_of huk h (object_blob h wn bn w wt (zlen pt) ct bt).
Proof.
  intros Hh Et Ed Ekw Hkw Ek Hk L1 L2 L3 Lw Lwt Lbt pt aad Lb Sw Sb.
  destruct (object_plain_fields h Hh) as (Hpl & Hp0 & Hp1 & Hp2). fold pt in Hpl, Hp0, Hp1, Hp2.
  pose proof (ho_id h Hh). pose proof (ho_data h Hh) as Hd. unfold MAX_OBJECT in Hd.
  pose proof (zlen_nonneg (oh_object_id h)). pose proof (zlen_nonneg (oh_data h)). set (baad := aad ++ _) in *.
  intros oid flags. unfold decrypt_object.
  destruct (blob_fields h wn bn w wt (zlen pt) ct bt) as (B0 & B1 & B2 & B3 & B4 & B5 & B6 & B7 & B8);
    [done|done|done|done|done|done|unfold in_width; lia|done|].
  set (blob := object_blob _ _ _ _ _ _ _ _) in *.
  rewrite B0, B1, B2, B3, B4, B5, B6, beqb_refl. rewrite (proj2 (Z.ltb_ge _ _)) by lia. cbn [orb negb].
  rewrite !uadd_ok by lia. cbn [rbind]. rewrite uadd_ok by lia. cbn [rbind].
  rewrite (proj2 (Z.ltb_ge _ _)) by lia. rewrite B7, B8, Et. cbn [rbind]. rewrite Ed. cbn [rbind].
  rewrite Ekw. cbn [lift_crypto map_err rbind].
  rewrite (gcm_decrypt_seal akw wn aad w wt fek) by (done || (change (length (zeros 32)) with 32%nat; unfold zlen in *; lia)).
  cbn [err_as map_err rbind]. rewrite Ek. cbn [lift_crypto map_err rbind].
  rewrite (gcm_decrypt_seal ak bn baad ct bt pt)
    by (done || (unfold zeros, zlen; rewrite ?length_replicate; unfold zlen in *; lia)).
  cbn [err_as map_err rbind]. rewrite (proj2 (Z.eqb_neq _ 0)) by lia.
  rewrite Hp0. rewrite (proj2 (Z.ltb_ge _ _)) by lia. rewrite Hp1, Hp2. by destruct (beqb _ oid).
Qed.

Lemma write_object_spec h (s : RF) : handle_ok h ->
  exists blob s', write_object h s = (Ok tt, s') /\ object_of (rf_huk s) h blob /\
    stored s (obj_path (oh_ta h) (oh_file_id h)) blob s'.
Proof.
  intros Hh. destruct (object_plain_fields h Hh) as (Hpl & _).
  pose proof (ho_id h Hh). pose proof (ho_data h Hh) as Hd. unfold MAX_OBJECT in Hd.
  pose proof (zlen_nonneg (oh_object_id h)). pose proof (zlen_nonneg (oh_data h)).
  unfold write_object. unfold mbind at 1. unfold get_tsk.
  destruct (tsk_ok (rf_huk s) (oh_ta h)) as (t & Et). rewrite Et.
  destruct (derive_ok t (str "rustee.storage.wrap.v1")) as (kw & akw & Ed & Ekw & Hkw).
  unfold mbind at 1, mlift at 1. rewrite Ed.
  destruct (fill_spec 32 s ltac:(lia)) as (fek & s1 & E1 & L1 & F1). unfold mbind at 1. rewrite E1.
  destruct (AesKey_from_bytes_ok fek) as (ak & Ek & Hk & Hks); [right; unfold zlen in L1; lia|].
  unfold mbind at 1, mlift at 1. rewrite Ek. cbn [lift_crypto map_err].
  destruct (fill_spec 12 s1 ltac:(lia)) as (wn & s2 & E2 & L2 & F2). unfold mbind at 1. rewrite E2.
  destruct (fill_spec 12 s2 ltac:(lia)) as (bn & s3 & E3 & L3 & F3). unfold mbind at 1. rewrite E3.
  unfold mbind at 1, mlift at 1. rewrite Ekw. cbn [lift_crypto map_err].
  set (aad := object_aad _ _ _).
  destruct (gcm_encrypt_spec akw wn aad fek (zeros 32) (zeros 16)) as (w & wt & Ew & Sw & Lw & Lwt);
    [done|unfold zlen in L2; lia|lia|unfold zlen in L1; change (length (zeros 32)) with 32%nat; lia|done|].
  unfold mbind at 1, mlift at 1. rewrite Ew. cbn [lift_crypto map_err].
  set (pt := object_plain h) in *. set (baad := aad ++ _).
  destruct (gcm_encrypt_spec ak bn baad pt (zeros (zlen pt)) (zeros 16)) as (ct & bt & Eb & Sb & Lb & Lbt);
    [done|unfold zlen in L3; lia|lia|unfold zeros, zlen; rewrite length_replicate; lia|done|].
  unfold mbind at 1, mlift at 1. rewrite Eb. cbn [lift_crypto map_err].
  destruct (put_blob_spec (obj_path (oh_ta h) (oh_file_id h)) (object_blob h wn bn w wt (zlen pt) ct bt) s3)
    as (s' & -> & Hst).
  eexists _, s'. split; [done|].
  split; [|by eapply stored_same; [|exact Hst]; do 2 (etransitivity; [eassumption|])].
  apply (decrypt_blob (rf_huk s) h t kw akw fek ak); try assumption;
    [unfold zlen in *; lia..|]. unfold zlen. by rewrite Lb.
Qed.

(** ** The directory *)

Lemma dir_plain_bound entries files :
  Forall meta_ok entries -> Forall file_ok files -> 20 <= zlen (dir_plain entries files) <= 20 + 292 * zlen entries.
Proof.
  intros He Hf. unfold dir_plain. rewrite !zlen_app, !zlen_to_le. change (zlen (str "RSTD")) with 4.
  change (zlen [1]) with 1. change (zlen [0; 0; 0]) with 3.
  enough (0 <= zlen (dir_entries entries files) <= 292 * zlen entries) by lia.
  split; [apply zlen_nonneg|]. revert files Hf.
  induction He as [|e es [He _] Hes IH]; intros files Hf; cbn [dir_entries]; [done|].
  rewrite zlen_app, zlen_cons, zlen_dir_entry.
  - assert (Forall file_ok (tail files)) as Ht by (destruct Hf; [constructor|done]). specialize (IH _ Ht). lia.
  - apply file_or_default_ok. intros f E0. destruct Hf; [done|]. by injection E0 as <-.
Qed.

Definition entries_ok (entries : list ObjectMeta) (files : list FileRef) : Prop :=
  Forall meta_ok entries /\ Forall file_ok files /\ zlen entries < 2 ^ 24.

Lemma store_dir_full_spec ta entries files (s : RF) :
  entries_ok entries files ->
  exists blob s', store_dir_full ta entries files s = (Ok tt, s') /\
    open_dir (rf_huk s) ta blob = Ok (entries, norm_files entries files) /\ stored s (dir_path ta) blob s'.
Proof.
  intros (He & Hf & Hn). pose proof (dir_plain_bound entries files He Hf) as Hb. unfold store_dir_full.
  destruct (tsk_ok (rf_huk s) ta) as (t & Et). unfold mbind at 1, get_tsk. rewrite Et.
  destruct (derive_ok t (str "rustee.storage.dir.v1")) as (kd & akd & Ed & Ekd & Hkd).
  unfold mbind at 1, mlift at 1. rewrite Ed.
  destruct (derive_ok t (str "rustee.storage.mac.v1")) as (km & _ & Em & _).
  unfold mbind at 1, mlift at 1. rewrite Em.
  destruct (fill_spec 12 s ltac:(lia)) as (nonce & s1 & E1 & L1 & F1). unfold mbind at 1. rewrite E1.
  unfold mbind at 1, mlift at 1. rewrite Ekd. cbn [lift_crypto map_err].
  set (pt := dir_plain entries files) in *.
  destruct (gcm_encrypt_spec akd nonce (dir_aad ta) pt (zeros (zlen pt)) (zeros 16)) as (ct & tag & Ee & Se & Lc & Lt);
    [done|unfold zlen in L1; lia|lia|unfold zeros, zlen; rewrite length_replicate; lia|done|].
  unfold mbind at 1, mlift at 1. rewrite Ee. cbn [lift_crypto map_err].
  destruct (hmac_ok km (ct ++ tag)) as (mac & Eh & Lm). unfold mbind at 1, mlift at 1. rewrite Eh. cbn [lift_crypto map_err].
  destruct (put_blob_spec (dir_path ta) (nonce ++ (ct ++ tag) ++ mac) s1) as (s' & -> & Hst).
  eexists _, s'. split; [done|]. split; [|by eapply stored_same].
  unfold open_dir. assert (zlen ct = zlen pt) as Hct by (unfold zlen; lia).
  assert (zlen tag = 16) as Htag by (unfold zlen; lia).
  rewrite (proj2 (Z.ltb_ge _ _)) by (rewrite !zlen_app; lia). rewrite Et. cbn [rbind]. rewrite Ed. cbn [rbind].
  rewrite Em. cbn [rbind]. rewrite sub_app_l by done.
  assert (drop 12 (nonce ++ (ct ++ tag) ++ mac) = (ct ++ tag) ++ mac) as ->
    by (apply drop_app_length'; unfold zlen in L1; lia).
  rewrite (proj2 (Z.ltb_ge _ _)) by (rewrite !zlen_app; lia).
  assert (length ((ct ++ tag) ++ mac) - 32 = length (ct ++ tag))%nat as -> by (rewrite !length_app; unfold zlen in *; lia).
  rewrite take_app_length, drop_app_length, Eh. cbn [err_as map_err rbind]. rewrite beqb_refl. cbn [negb].
  rewrite (proj2 (Z.ltb_ge _ _)) by (rewrite zlen_app; lia).
  assert (length (ct ++ tag) - 16 = length ct)%nat as -> by (rewrite length_app; lia).
  rewrite take_app_length, drop_app_length, Ekd. cbn [lift_crypto map_err rbind].
  rewrite (gcm_decrypt_seal akd nonce (dir_aad ta) ct tag pt)
    by (done || (unfold zeros, zlen; rewrite ?length_replicate; unfold zlen in *; lia)).
  cbn [err_as map_err rbind]. apply parse_dir_plain; [done|done|lia].
Qed.

(** The directory the store holds for [ta]. *)
Definition has_dir (s : RF) (ta : list u8) (entries : list ObjectMeta) (files : list FileRef) : Prop :=
  exists blob, view s (dir_path ta) = Some blob /\ open_dir (rf_huk s) ta blob = Ok (entries, files).

Lemma load_dir_full_spec (s : RF) ta entries files : has_dir s ta entries files ->
  exists s', load_dir_full ta s = (Ok (entries, files), s') /\ same_files s s'.
Proof.
  intros (blob & Hv & Ho). destruct (on_fs_read (dir_path ta) s) as (s' & Hs & Hr & _).
  unfold load_dir_full. rewrite (Hr blob Hv). exists s'. split; [|done]. destruct Hs as [-> _]. by rewrite Ho.
Qed.

Lemma load_dir_full_none (s : RF) ta : view s (dir_path ta) = None ->
  exists s', load_dir_full ta s = (Err NotFound, s') /\ same_files s s'.
Proof.
  intros Hv. destruct (on_fs_read (dir_path ta) s) as (s' & Hs & _ & Hn). unfold load_dir_full.
  destruct (Hn Hv) as [e ->]. eauto.
Qed.

Lemma has_dir_same s s' ta es fs : same_files s s' -> has_dir s ta es fs -> has_dir s' ta es fs.
Proof. intros [Hh Hv] (b & ? & ?). exists b. rewrite Hv, Hh. done. Qed.

(** The object stored for [h]. *)
Definition has_object (s : RF) (h : ObjectHandle) : Prop :=
  exists blob, view s (obj_path (oh_ta h) (oh_file_id h)) = Some blob /\ object_of (rf_huk s) h blob.

Lemma has_object_same s s' h : same_files s s' -> has_object s h -> has_object s' h.
Proof. intros [Hh Hv] (b & ? & ?). exists b. rewrite Hv, Hh. done. Qed.

Lemma has_object_other s s' path blob h :
  stored s path blob s' -> path <> obj_path (oh_ta h) (oh_file_id h) -> has_object s h -> has_object s' h.
Proof.
  intros [Hh Hv] Hne (b & Hb & Ho). exists b. rewrite Hv, Hh. split; [|done]. case_decide; [congruence|done].
Qed.

Lemma has_dir_other s s' path blob ta es fs :
  stored s path blob s' -> path <> dir_path ta -> has_dir s ta es fs -> has_dir s' ta es fs.
Proof.
  intros [Hh Hv] Hne (b & Hb & Ho). exists b. rewrite Hv, Hh. split; [|done]. case_decide; [congruence|done].
Qed.

(** ** Opening *)

Lemma open_spec (s : RF) ta oid es fs i e f h :
  has_dir s ta es fs -> position oid es = Some i -> es !! i = Some e -> fs !! i = Some f ->
  has_object s h -> oh_ta h = ta -> f = (oh_file_id h, oh_version h) ->
  exists s', same_files s s' /\ open ta oid s =
    (if beqb (oh_object_id h) oid
     then Ok {| oh_ta := ta; oh_file_id := oh_file_id h; oh_object_id := oh_object_id h; oh_flags := om_flags e;
                oh_data := oh_data h; oh_version := oh_version h |} else Err Corrupt, s').
Proof.
  intros Hd Hp He Hf (blob & Hb & Ho) <- ->. destruct (load_dir_full_spec _ _ _ _ Hd) as (s1 & E1 & S1).
  destruct (on_fs_read (obj_path (oh_ta h) (oh_file_id h)) s1) as (s2 & S2 & Hr & _).
  pose proof S1 as [Hu1 V1]. pose proof S2 as [Hu2 _]. rewrite <- V1 in Hb. specialize (Hr _ Hb).
  exists s2. split; [by etransitivity|].
  unfold open, mbind, mlift, mtry. rewrite E1, Hp. cbn [ok_or]. rewrite He. cbn [or_panic]. rewrite Hf.
  cbn [or_panic fst snd]. rewrite Hr.
  rewrite Hu2, Hu1. by rewrite Ho.
Qed.

(** An entry whose file is missing is corrupt, whoever wrote the others. *)
Lemma open_missing (s : RF) ta oid es fs i e f :
  has_dir s ta es fs -> position oid es = Some i -> es !! i = Some e -> fs !! i = Some f ->
  view s (obj_path ta f.1) = None -> exists s', open ta oid s = (Err Corrupt, s').
Proof.
  intros Hd Hp He Hf Hv. destruct (load_dir_full_spec _ _ _ _ Hd) as (s1 & E1 & S1).
  destruct (on_fs_read (obj_path ta f.1) s1) as (s2 & S2 & _ & Hn). destruct S1 as [_ V1]. rewrite <- V1 in Hv.
  destruct (Hn Hv) as [x Hx]. exists s2. unfold open, mbind, mlift, mtry. rewrite E1, Hp.
  cbn [ok_or]. rewrite He. cbn [or_panic]. rewrite Hf. cbn [or_panic]. rewrite Hx. done.
Qed.

(** ** Saving a handle *)

Lemma position_some oid es i : position oid es = Some i -> exists e, es !! i = Some e /\ om_object_id e = oid.
Proof.
  revert i. induction es as [|e es IH]; intros i Hp; cbn [position] in Hp; [done|].
  destruct (beqb (om_object_id e) oid) eqn:Eb.
  - injection Hp as <-. exists e. split; [done|by apply beqb_eq].
  - destruct (position oid es) as [j|] eqn:Ej; [|done]. injection Hp as <-. by apply IH.
Qed.

Lemma position_insert oid es i e : position oid es = Some i -> om_object_id e = oid -> position oid (<[i := e]> es) = Some i.
Proof.
  revert i. induction es as [|x es IH]; intros i Hp He; cbn [position] in Hp; [done|].
  destruct (beqb (om_object_id x) oid) eqn:Eb.
  - injection Hp as <-. cbn. by rewrite He, beqb_refl.
  - destruct (position oid es) as [j|] eqn:Ej; [|done]. injection Hp as <-.
    change (<[S j := e]> (x :: es)) with (x :: <[j := e]> es). cbn [position]. rewrite Eb, IH by done. done.
Qed.

Lemma meta_of_ok h : handle_ok h -> in_width 32 (oh_flags h) -> meta_ok (meta_of h).
Proof.
  intros [Hta Hfid Hid Hd _] Hfl. unfold MAX_OBJECT in Hd. split_and!; [done|done|].
  cbn. unfold in_width. pose proof (zlen_nonneg (oh_data h)). lia.
Qed.

Lemma file_of_ok h : handle_ok h -> file_ok (oh_file_id h, oh_version h).
Proof. intros [Hta Hfid Hid Hd Hv]. split; [unfold zlen in Hfid; cbn; lia|done]. Qed.

(** [write_object] then [upsert_dir], for an object the directory lists. *)
Lemma save_spec (s : RF) h es fs i :
  handle_ok h -> in_width 32 (oh_flags h) -> entries_ok es fs -> length fs = length es ->
  has_dir s (oh_ta h) es fs -> position (oh_object_id h) es = Some i ->
  exists s', (do! _ <- write_object h; upsert_dir h) s = (Ok tt, s') /\
    has_dir s' (oh_ta h) (<[i := meta_of h]> es) (<[i := (oh_file_id h, oh_version h)]> fs) /\ has_object s' h /\
    (forall q, q <> dir_path (oh_ta h) -> q <> obj_path (oh_ta h) (oh_file_id h) -> view s' q = view s q) /\
    rf_huk s' = rf_huk s.
Proof.
  intros Hh Hfl (He & Hf & Hn) Hl Hd Hp. pose proof (position_some _ _ _ Hp) as (e & Hei & Heid).
  assert (i < length fs)%nat as Hil by (rewrite Hl; by apply lookup_lt_Some in Hei).
  destruct (write_object_spec h s Hh) as (blob & s1 & E1 & Ho & Hst1).
  assert (has_dir s1 (oh_ta h) es fs) as Hd1.
  { eapply has_dir_other; [exact Hst1| |exact Hd]. intros Hq. by apply (dir_ne_obj (oh_ta h) (oh_file_id h)). }
  destruct (load_dir_full_spec _ _ _ _ Hd1) as (s2 & E2 & S2).
  destruct (store_dir_full_spec (oh_ta h) (<[i := meta_of h]> es) (<[i := (oh_file_id h, oh_version h)]> fs) s2)
    as (db & s3 & E3 & Hod & Hst3).
  { split_and!; [by apply Forall_insert; [|apply meta_of_ok]|by apply Forall_insert; [|apply file_of_ok]|].
    unfold zlen. by rewrite length_insert. }
  rewrite norm_files_id in Hod by (rewrite !length_insert; done).
  exists s3. destruct Hst1 as [Hu1 V1], S2 as [Hu2 V2], Hst3 as [Hu3 V3]. split_and!.
  - unfold mbind at 1. rewrite E1. unfold upsert_dir, mbind, mtry. rewrite E2, Hp. cbn iota beta.
    rewrite decide_True by done. exact E3.
  - exists db. rewrite V3, decide_True, Hu3 by done. done.
  - exists blob. rewrite V3, decide_False, V2, V1, decide_True by (done || (intros Hq; by apply (dir_ne_obj (oh_ta h) (oh_file_id h)))).
    split; [done|]. rewrite Hu3, Hu2, Hu1. exact Ho.
  - intros q Hq1 Hq2. rewrite V3, decide_False, V2, V1, decide_False by done. done.
  - congruence.
Qed.

(** Opening what was just saved. *)
Lemma open_saved (s : RF) h es fs i :
  has_dir s (oh_ta h) (<[i := meta_of h]> es) (<[i := (oh_file_id h, oh_version h)]> fs) -> has_object s h ->
  position (oh_object_id h) es = Some i -> length fs = length es ->
  exists s', open (oh_ta h) (oh_object_id h) s = (Ok h, s').
Proof.
  intros Hd Ho Hp Hl. pose proof (position_some _ _ _ Hp) as (e & Hei & _). apply lookup_lt_Some in Hei.
  destruct (open_spec s (oh_ta h) (oh_object_id h) (<[i := meta_of h]> es) (<[i := (oh_file_id h, oh_version h)]> fs)
    i (meta_of h) (oh_file_id h, oh_version h) h) as (s' & _ & E1); try done.
  - by apply position_insert.
  - by apply list_lookup_insert_eq.
  - apply list_lookup_insert_eq. rewrite <- Hl in Hei. exact Hei.
  - exists s'. rewrite E1, beqb_refl. by destruct h.
Qed.

(** ** Creating *)

(** What [load_dir] gives when there is no directory, or one. *)
Definition dir_is (s : RF) (ta : list u8) (es : list ObjectMeta) (fs : list FileRef) : Prop :=
  (view s (dir_path ta) = None /\ es = [] /\ fs = []) \/ has_dir s ta es fs.

Lemma mkdir_same path (s : RF) : exists r s', mtry (on_fs (fs_mkdir path)) s = (Ok r, s') /\ same_files s s'.
Proof.
  unfold mtry, on_fs. destruct (fs_mkdir_spec path (rf_fs s)) as (r & fs' & -> & Hr & V).
  destruct r; [| |done]; (do 2 eexists; split; [done|]; split; [done|exact V]).
Qed.

Lemma try_load (s : RF) ta es fs : dir_is s ta es fs ->
  exists r s', mtry (load_dir_full ta) s = (Ok r, s') /\ same_files s s' /\
    match r with Ok p => p = (es, fs) | _ => es = [] /\ fs = [] end.
Proof.
  unfold mtry. intros [(Hv & -> & ->)|Hd].
  - destruct (load_dir_full_none s ta Hv) as (s' & -> & Hs). do 2 eexists. split_and!; done.
  - destruct (load_dir_full_spec s ta es fs Hd) as (s' & -> & Hs). do 2 eexists. split_and!; done.
Qed.

Lemma try_load_entries (s : RF) ta es fs : dir_is s ta es fs ->
  exists r s', mtry (load_dir ta) s = (Ok r, s') /\ same_files s s' /\ (match r with Ok p => p | _ => [] end) = es.
Proof.
  unfold mtry, load_dir, mbind. intros [(Hv & -> & ->)|Hd].
  - destruct (load_dir_full_none s ta Hv) as (s' & -> & Hs). do 2 eexists. split_and!; done.
  - destruct (load_dir_full_spec s ta es fs Hd) as (s' & -> & Hs). do 2 eexists. split_and!; done.
Qed.

Lemma dir_is_stored s s' path blob ta es fs :
  stored s path blob s' -> path <> dir_path ta -> dir_is s ta es fs -> dir_is s' ta es fs.
Proof.
  intros Hst Hne [(Hv & ? & ?)|Hd]; [left|right; by eapply has_dir_other].
  destruct Hst as [_ V]. rewrite V, decide_False by done. done.
Qed.

Lemma dir_is_same s s' ta es fs : same_files s s' -> dir_is s ta es fs -> dir_is s' ta es fs.
Proof.
  intros Hs [(Hv & ? & ?)|Hd]; [left|right; by eapply has_dir_same]. destruct Hs as [_ V]. by rewrite V.
Qed.

(** The files of the directory after [store_dir] with one new reference: it
    replaces the first one. *)
Definition put_first (fs : list FileRef) (f : FileRef) : list FileRef := f :: tail fs.

Lemma merge_one fs f : merge_files fs [f] 0 = put_first fs f.
Proof. destruct fs; done. Qed.

Definition new_handle (ta fid oid : list u8) (flags : u32) (data : list u8) : ObjectHandle :=
  {| oh_ta := ta; oh_file_id := fid; oh_object_id := oid; oh_flags := flags; oh_data := data; oh_version := 1 |}.

Lemma create_spec (s : RF) ta oid flags data es fs :
  dir_is s ta es fs -> entries_ok es fs -> zlen es + 1 < 2 ^ 24 ->
  existsb (fun e => beqb (om_object_id e) oid) es = false ->
  zlen ta = 16 -> zlen oid <= 255 -> in_width 32 flags -> zlen data <= MAX_OBJECT ->
  exists fid s', let h := new_handle ta fid oid flags data in
    create ta oid flags data s = (Ok h, s') /\ handle_ok h /\
    has_dir s' ta (es ++ [meta_of h]) (norm_files (es ++ [meta_of h]) (put_first fs (fid, 1))) /\ has_object s' h /\
    (forall q, q <> dir_path ta -> q <> obj_path ta fid -> view s' q = view s q).
Proof.
  intros Hd (Hes & Hfs & Hn) Hn1 Hnew Hta Hoid Hfl Hdata. unfold create.
  rewrite (proj2 (Z.ltb_ge _ _)) by done.
  destruct (mkdir_same (ta_hex ta) s) as (r1 & s1 & E1 & S1).
  destruct (mkdir_same (ta_hex ta +:+ "/obj") s1) as (r2 & s2 & E2 & S2).
  unfold mbind at 1. rewrite E1. unfold mbind at 1. rewrite E2.
  assert (same_files s s2) as S02 by (by etransitivity).
  destruct (try_load_entries s2 ta es fs) as (r3 & s3 & E3 & S3 & Hr3); [by eapply dir_is_same|].
  unfold mbind at 1. rewrite E3. cbv zeta. rewrite Hr3, Hnew.
  destruct (fill_spec 16 s3 ltac:(lia)) as (fid & s4 & E4 & L4 & S4). unfold mbind at 1. rewrite E4.
  set (h := {| oh_ta := ta; oh_file_id := fid; oh_object_id := oid; oh_flags := flags; oh_data := data; oh_version := 1 |}).
  assert (handle_ok h) as Hh by (split; [done|done|done|done|cbn; unfold in_width; lia]).
  assert (same_files s s4) as S04 by (do 2 (etransitivity; [eassumption|]); done).
  destruct (write_object_spec h s4 Hh) as (blob & s5 & E5 & Ho & St5). unfold mbind at 1. rewrite E5.
  unfold store_dir. unfold mbind at 1. unfold mbind at 1.
  destruct (try_load s5 ta es fs) as (r6 & s6 & E6 & S6 & Hr6).
  { eapply dir_is_stored; [exact St5| |by eapply dir_is_same]. intros Hq. by apply (dir_ne_obj ta fid). }
  rewrite E6. assert ((match r6 with Ok (_, existing) => existing | _ => [] end) = fs) as ->.
  { destruct r6 as [[? ?]| |]; [by injection Hr6|by destruct Hr6..]. }
  rewrite merge_one. destruct (store_dir_full_spec ta (es ++ [meta_of h]) (put_first fs (fid, oh_version h)) s6)
    as (db & s7 & E7 & Hod & St7).
  { split_and!.
    - apply Forall_app. split; [done|]. constructor; [by apply meta_of_ok|constructor].
    - constructor; [by apply (file_of_ok h)|]. destruct Hfs; [constructor|done].
    - rewrite zlen_app. change (zlen [meta_of h]) with 1. lia. }
  rewrite E7. exists fid, s7. destruct S04 as [Hu4 V4], St5 as [Hu5 V5], S6 as [Hu6 V6], St7 as [Hu7 V7].
  cbv zeta. split_and!; [done|done| | |].
  - exists db. rewrite V7, decide_True, Hu7 by done. done.
  - exists blob. rewrite V7, decide_False, V6, V5, decide_True by (done || (intros Hq; by apply (dir_ne_obj ta fid))).
    split; [done|]. rewrite Hu7, Hu6, Hu5. exact Ho.
  - intros q Hq1 Hq2. rewrite V7, decide_False, V6, V5, decide_False by done. apply V4.
Qed.

(** The first object of a TA: in a store with no directory for the TA,
    [create] succeeds, [list] then shows exactly the new object and [open]
    gives the same handle back, data, flags and version included. *)
Theorem first_create_opens (s : RF) ta oid flags data :
  view s (dir_path ta) = None -> zlen ta = 16 -> zlen oid <= 255 -> in_width 32 flags -> zlen data <= MAX_OBJECT ->
  exists h s1 s2 s3, create ta oid flags data s = (Ok h, s1) /\ oh_data h = data /\
    list_objects ta s1 = (Ok [meta_of h], s2) /\ open ta oid s1 = (Ok h, s3).
Proof.
  intros Hv Hta Hoid Hfl Hdata.
  destruct (create_spec s ta oid flags data [] []) as (fid & s1 & E1 & Hh & Hd & Ho & _);
    [by left|repeat split; constructor|done..|].
  cbv zeta in *. set (h := new_handle ta fid oid flags data) in *.
  destruct (load_dir_full_spec _ _ _ _ Hd) as (s2 & E2 & _).
  destruct (open_spec s1 ta oid [meta_of h] [(fid, 1)] 0 (meta_of h) (fid, 1) h) as (s3 & _ & E3); try done.
  { cbn. by rewrite beqb_refl. }
  exists h, s1, s2, s3. split_and!; [done|done| |].
  - unfold list_objects, load_dir, mbind. by rewrite E2.
  - rewrite E3. cbn [oh_object_id h new_handle]. by rewrite beqb_refl.
Qed.

(** ** Writing through a handle *)

(** The contents after writing [buf] at [off]: grown with zeros when needed. *)
Definition written (data : list u8) (off : u64) (buf : list u8) : list u8 :=
  splice (if zlen data <? off + zlen buf then vec_resize data (off + zlen buf) else data) off buf.

Lemma zlen_resize l n : 0 <= n -> zlen (vec_resize l n) = n.
Proof. intros. unfold vec_resize, zlen. rewrite length_resize. lia. Qed.

Lemma written_length data off buf : 0 <= off -> zlen (written data off buf) = Z.max (zlen data) (off + zlen buf).
Proof.
  intros Ho. unfold written. pose proof (zlen_nonneg buf). pose proof (zlen_nonneg data).
  destruct (Z.ltb_spec (zlen data) (off + zlen buf)).
  - rewrite zlen_splice; rewrite ?zlen_resize; lia.
  - rewrite zlen_splice; lia.
Qed.

Lemma handle_ok_bump h d : handle_ok h -> zlen d <= MAX_OBJECT -> handle_ok (bump (set_data h d)).
Proof. intros [? ? ? _ ?] Hd. split; try done. cbn. apply wrap_width. lia. Qed.

(** C36. A write through the handle of a listed object is durable and local: it
    returns the number of bytes, [open] then gives the new contents (the old
    ones overlaid at the offset, zero-filled up to it) with the version
    counted up, reading the range back gives the bytes written, and every
    other path of the store is untouched. *)
Theorem write_is_durable (s : RF) h es fs i off buf :
  handle_ok h -> in_width 32 (oh_flags h) -> entries_ok es fs -> length fs = length es ->
  has_dir s (oh_ta h) es fs -> position (oh_object_id h) es = Some i ->
  0 <= off -> off + zlen buf <= MAX_OBJECT ->
  exists h' s1 s2, write h off buf s = (Ok (Ok (zlen buf), h'), s1) /\
    oh_data h' = written (oh_data h) off buf /\ oh_version h' = wrapping_add 64 (oh_version h) 1 /\
    open (oh_ta h) (oh_object_id h) s1 = (Ok h', s2) /\
    read h' off (zeros (zlen buf)) = Ok (zlen buf, buf) /\
    (forall q, q <> dir_path (oh_ta h) -> q <> obj_path (oh_ta h) (oh_file_id h) -> view s1 q = view s q).
Proof.
  intros Hh Hfl He Hl Hd Hp Ho Hmax. pose proof (zlen_nonneg buf). pose proof (ho_data h Hh) as Hdat.
  unfold MAX_OBJECT in *. unfold write, mbind at 1, mlift.
  rewrite uadd_ok by lia. unfold MAX_OBJECT. rewrite (proj2 (Z.ltb_ge _ _)) by lia. cbv zeta.
  match goal with |- context [set_data h ?d] => change d with (written (oh_data h) off buf) end.
  set (h' := bump (set_data h (written (oh_data h) off buf))).
  assert (handle_ok h') as Hh' by (apply handle_ok_bump; [done|rewrite written_length by done; unfold MAX_OBJECT; lia]).
  destruct (save_spec s h' es fs i) as (s1 & E1 & Hd1 & Ho1 & V1 & _); try done.
  destruct (open_saved s1 h' es fs i) as (s2 & E2); try done.
  exists h', s1, s2. split_and!; try done.
  - unfold mbind at 1, mtry. rewrite E1. done.
  - unfold read. cbn [oh_data h' bump set_data]. rewrite written_length by done.
    rewrite (proj2 (Z.ltb_ge _ _)) by lia. rewrite zlen_zeros by lia. rewrite Z.min_l by lia. do 2 f_equal.
    unfold written. rewrite sub_splice_same; [|done|done|].
    + unfold splice. change (Z.to_nat 0) with 0%nat. rewrite take_0. cbn [app Nat.add].
      rewrite drop_ge, app_nil_r; [done|]. unfold zeros, zlen. rewrite length_replicate. lia.
    + case_match eqn:Eb; bsplit; [rewrite zlen_resize; lia|lia].
Qed.

(** Truncating an object keeps a prefix, or extends it with zeros; [open]
    then gives exactly that. *)
Theorem truncate_is_durable (s : RF) h es fs i size :
  handle_ok h -> in_width 32 (oh_flags h) -> entries_ok es fs -> length fs = length es ->
  has_dir s (oh_ta h) es fs -> position (oh_object_id h) es = Some i -> 0 <= size <= MAX_OBJECT ->
  exists h' s1 s2, truncate h size s = (Ok (Ok tt, h'), s1) /\
    oh_data h' = resize (Z.to_nat size) 0 (oh_data h) /\ open (oh_ta h) (oh_object_id h) s1 = (Ok h', s2).
Proof.
  intros Hh Hfl He Hl Hd Hp Hsz. unfold truncate. rewrite (proj2 (Z.ltb_ge _ _)) by lia. cbv zeta.
  set (h' := bump (set_data h (vec_resize (oh_data h) size))).
  assert (handle_ok h') as Hh' by (apply handle_ok_bump; [done|rewrite zlen_resize; lia]).
  destruct (save_spec s h' es fs i) as (s1 & E1 & Hd1 & Ho1 & _); try done.
  destruct (open_saved s1 h' es fs i) as (s2 & E2); try done.
  exists h', s1, s2. split_and!; try done. unfold mbind at 1, mtry. by rewrite E1.
Qed.

(** ** What goes wrong *)

(** The second object of a TA destroys both: [store_dir] puts the new file
    reference in the first slot, so after two successful creates the first id
    names the second file, which does not decrypt under it, and the second id
    names a file that does not exist.  Every [open] fails. *)
Theorem second_create_loses_both (s : RF) ta oid1 oid2 flags data1 data2 :
  view s (dir_path ta) = None -> view s (obj_path ta (zeros 16)) = None ->
  zlen ta = 16 -> zlen oid1 <= 255 -> zlen oid2 <= 255 -> oid1 <> oid2 -> in_width 32 flags ->
  zlen data1 <= MAX_OBJECT -> zlen data2 <= MAX_OBJECT ->
  exists h1 s1 h2 s2, create ta oid1 flags data1 s = (Ok h1, s1) /\ create ta oid2 flags data2 s1 = (Ok h2, s2) /\
    (obj_path ta (oh_file_id h1) <> obj_path ta (zeros 16) -> obj_path ta (oh_file_id h2) <> obj_path ta (zeros 16) ->
     (exists s3, open ta oid1 s2 = (Err Corrupt, s3)) /\ (exists s3, open ta oid2 s2 = (Err Corrupt, s3))).
Proof.
  intros Hv Hz Hta Ho1 Ho2 Hne Hfl Hd1 Hd2.
  destruct (create_spec s ta oid1 flags data1 [] []) as (f1 & s1 & E1 & Hh1 & Hdir1 & _ & V1);
    [by left|repeat split; constructor|done..|]. cbv zeta in *.
  set (h1 := new_handle ta f1 oid1 flags data1) in *.
  destruct (create_spec s1 ta oid2 flags data2 [meta_of h1] [(f1, 1)]) as (f2 & s2 & E2 & Hh2 & Hdir2 & Hobj2 & V2);
    [by right| |done| |done..|].
  { split_and!; [|by constructor; [apply (file_of_ok h1)|]|done]. constructor; [by apply meta_of_ok|constructor]. }
  { cbn. by rewrite beqb_neq. }
  cbv zeta in *. set (h2 := new_handle ta f2 oid2 flags data2) in *. cbn [norm_files head tail put_first app] in Hdir2.
  exists h1, s1, h2, s2. split_and!; [done|done|]. intros Hf1 Hf2. split.
  - destruct (open_spec s2 ta oid1 [meta_of h1; meta_of h2] [(f2, 1); (zeros 16, 1)] 0 (meta_of h1) (f2, 1) h2)
      as (s3 & _ & E3); try done. { cbn. by rewrite beqb_refl. }
    exists s3. rewrite E3. cbn [oh_object_id h2 new_handle]. by rewrite beqb_neq.
  - apply (open_missing s2 ta oid2 [meta_of h1; meta_of h2] [(f2, 1); (zeros 16, 1)] 1 (meta_of h2) (zeros 16, 1)); try done.
    + cbn. rewrite beqb_neq, beqb_refl by done. done.
    + cbn [fst]. rewrite V2, V1; [done|by intros Hq; apply (dir_ne_obj ta (zeros 16))|done
        |by intros Hq; apply (dir_ne_obj ta (zeros 16))|done].
Qed.
End Store.

(** An object blob is read before it is authenticated, and its length field
    is trusted in an addition: a 128-byte blob from the REE whose length field
    is near [2^64] makes [open] panic. *)
Theorem hostile_blob_panics `{HukOps H, CryptoCrates} (huk : H) ta fid oid flags ver blob :
  zlen blob = 128 -> sub blob 0 4 = str "RSTO" -> 2 ^ 64 - 144 <= le64 blob 120 < 2 ^ 64 ->
  decrypt_object huk ta fid oid flags ver blob = Panic.
Proof.
  intros Hl Hm Hn. unfold decrypt_object. rewrite Hl, Hm, beqb_refl. cbn [Z.ltb Z.compare Pos.compare Pos.compare_cont orb negb].
  unfold uadd, checked_add. destruct (Z.ltb_spec (128 + le64 blob 120) (2 ^ 64)); [|done]. cbn [or_panic rbind].
  by rewrite (proj2 (Z.ltb_ge _ _)) by lia.
Qed.

(** * Witnesses *)

#[local] Existing Instances toy_crates toy_laws.
#[local] Instance test_huk : HukOps unit := {| huk_material := fun _ => str "0123456789abcdef" |}.

Definition store0 : ReeFs HalVirt.VirtEntropy unit MemFs := ReeFs_new HalVirt.VirtEntropy_new tt {| mf_files := ∅ |}.
Definition ta0 : list u8 := replicate 16 9.

Lemma first_create_opens_witness :
  exists h s1 s2 s3, create ta0 [1; 2] 0 [7; 8; 9] store0 = (Ok h, s1) /\ oh_data h = [7; 8; 9] /\
    list_objects ta0 s1 = (Ok [meta_of h], s2) /\ open ta0 [1; 2] s1 = (Ok h, s3).
Proof. apply (first_create_opens store0 ta0 [1; 2] 0 [7; 8; 9]); by_compute || (vm_compute; done). Defined.

Lemma second_create_loses_both_witness :
  exists h1 s1 h2 s2, create ta0 [1] 0 [7] store0 = (Ok h1, s1) /\ create ta0 [2] 0 [8] s1 = (Ok h2, s2) /\
    (obj_path ta0 (oh_file_id h1) <> obj_path ta0 (zeros 16) -> obj_path ta0 (oh_file_id h2) <> obj_path ta0 (zeros 16) ->
     (exists s3, open ta0 [1] s2 = (Err Corrupt, s3)) /\ (exists s3, open ta0 [2] s2 = (Err Corrupt, s3))).
Proof. apply (second_create_loses_both store0 ta0 [1] [2] 0 [7] [8]); by_compute || (vm_compute; done). Defined.

(** A store after one create, for the theorems on handles. *)
Lemma one_object :
  exists h s1, create ta0 [1; 2] 0 [7; 8; 9] store0 = (Ok h, s1) /\ handle_ok h /\ oh_flags h = 0 /\ oh_ta h = ta0 /\
    oh_object_id h = [1; 2] /\ oh_data h = [7; 8; 9] /\ entries_ok [meta_of h] [(oh_file_id h, oh_version h)] /\
    has_dir s1 (oh_ta h) [meta_of h] [(oh_file_id h, oh_version h)] /\ position (oh_object_id h) [meta_of h] = Some 0%nat.
Proof.
  destruct (create_spec store0 ta0 [1; 2] 0 [7; 8; 9] [] []) as (fid & s1 & E1 & Hh & Hd & _);
    [by left|repeat split; constructor|done|done|done|by_compute|by_compute|by_compute|].
  cbv zeta in *. set (h := new_handle ta0 fid [1; 2] 0 [7; 8; 9]) in *. exists h, s1.
  split; [exact E1|]. split; [exact Hh|]. do 4 (split; [reflexivity|]). split_and!.
  - split_and!; [|by constructor; [apply file_of_ok|]|done]. constructor; [apply meta_of_ok; [done|by_compute]|constructor].
  - exact Hd.
  - done.
Qed.

Lemma write_is_durable_witness :
  exists h s1 h' s2 s3, create ta0 [1; 2] 0 [7; 8; 9] store0 = (Ok h, s1) /\ write h 2 [5; 6] s1 = (Ok (Ok 2, h'), s2) /\
    oh_data h' = [7; 8; 5; 6] /\ open ta0 [1; 2] s2 = (Ok h', s3).
Proof.
  destruct one_object as (h & s1 & E1 & Hh & Hf & Ht & Hid & Hdat & He & Hd & Hp).
  destruct (write_is_durable s1 h [meta_of h] [(oh_file_id h, oh_version h)] 0 2 [5; 6])
    as (h' & s2 & s3 & E2 & Ed & _ & E3 & _);
    [exact Hh|rewrite Hf; by_compute|exact He|reflexivity|exact Hd|exact Hp|by_compute|by_compute|].
  exists h, s1, h', s2, s3. rewrite Hdat in Ed. split; [exact E1|]. split; [exact E2|]. split; [exact Ed|].
  rewrite <- Hid, <- Ht. exact E3.
Defined.

Lemma truncate_is_durable_witness :
  exists h s1 h' s2, create ta0 [1; 2] 0 [7; 8; 9] store0 = (Ok h, s1) /\ truncate h 1 s1 = (Ok (Ok tt, h'), s2) /\ oh_data h' = [7].
Proof.
  destruct one_object as (h & s1 & E1 & Hh & Hf & Ht & Hid & Hdat & He & Hd & Hp).
  destruct (truncate_is_durable s1 h [meta_of h] [(oh_file_id h, oh_version h)] 0 1)
    as (h' & s2 & s3 & E2 & Ed & _);
    [exact Hh|rewrite Hf; by_compute|exact He|reflexivity|exact Hd|exact Hp|by_compute|].
  exists h, s1, h', s2. rewrite Hdat in Ed. split; [exact E1|]. split; [exact E2|exact Ed].
Defined.

Lemma hostile_blob_panics_witness :
  decrypt_object tt ta0 ta0 [] 0 0 (str "RSTO" ++ zeros 116 ++ replicate 8 255) = Panic.
Proof. apply hostile_blob_panics; [done|done|vm_compute; intuition congruence]. Defined.
