(* ===== verification/HostFs.v ===== *)
(** The host's file system as [std::fs] shows it to the supplicant: directories,
    files and symbolic links, the resolution of a path through them, and the calls
    the supplicant makes ([OpenOptions::open], [fs::read], [fs::remove_file],
    [fs::create_dir_all], [PathBuf::join], [Path::parent]).

    A place is the list of its names from the root of the file system.  A path is
    resolved name by name from there or from the working directory; a symbolic
    link is replaced by its target, at most 40 times.  A file lives in an inode,
    which a removed file keeps while it is open.  Calls fail for what a path
    leads to (missing, not a directory, a directory), not for space or rights. *)
From Stdlib Require Import ZArith Lia Ascii String.
From stdpp Require Import base list numbers strings gmap.
From S2P Require Import Prelude.

Local Open Scope Z_scope.

(** * Paths *)

(** The names of a path, as [/] separates them. *)
Fixpoint split_slash (s : string) : list string :=
  match s with
  | EmptyString => [EmptyString]
  | String c t =>
      if Ascii.eqb c "/" then EmptyString :: split_slash t
      else match split_slash t with h :: r => String c h :: r | [] => [String c EmptyString] end
  end.

Definition starts_with_slash (name : string) : bool :=
  match name with String c _ => Ascii.eqb c "/" | EmptyString => false end.
Fixpoint ends_with_slash (s : string) : bool :=
  match s with
  | EmptyString => false
  | String c EmptyString => Ascii.eqb c "/"
  | String _ t => ends_with_slash t
  end.

(** [root.join(name)]: an absolute name replaces the root; otherwise a separator
    is put between them unless the root is empty or ends with one. *)
Definition join (root name : string) : string :=
  if starts_with_slash name then name
  else if String.eqb root "" || ends_with_slash root then (root +:+ name)%string
  else (root +:+ "/" +:+ name)%string.

(** A name that stays where it is. *)
Definition stay (c : string) : bool := String.eqb c "" || String.eqb c ".".

(** [p.parent()], as names: the last name that is not such a one is dropped. *)
Fixpoint drop_stays (l : list string) : list string :=
  match l with [] => [] | c :: l' => if stay c then drop_stays l' else l end.
Definition parent (p : string) : list string := rev (tail (drop_stays (rev (split_slash p)))).

(** * Files *)

Abbreviation place := (list string).
Inductive Node := NDir | NFile (i : nat) | NLink (target : string).

Record Disk := { d_cwd : place; d_nodes : gmap place Node; d_inodes : gmap nat (list u8); d_next : nat }.

Definition node_at (d : Disk) (q : place) : option Node := match q with [] => Some NDir | _ => d_nodes d !! q end.
Definition inode_data (d : Disk) (i : nat) : list u8 := default [] (d_inodes d !! i).
Definition set_inode (d : Disk) (i : nat) (c : list u8) : Disk :=
  {| d_cwd := d_cwd d; d_nodes := d_nodes d; d_inodes := <[i := c]> (d_inodes d); d_next := d_next d |}.
Definition set_node (d : Disk) (q : place) (n : Node) : Disk :=
  {| d_cwd := d_cwd d; d_nodes := <[q := n]> (d_nodes d); d_inodes := d_inodes d; d_next := d_next d |}.

(** Where a path leads from [cur].  The last name may be missing; it is not
    followed when it is a link and [follow] is false. *)
Fixpoint walk (links : nat) (d : Disk) (follow : bool) : place -> list string -> option place :=
  fix go (cur : place) (comps : list string) {struct comps} : option place :=
    match comps with
    | [] => Some cur
    | c :: cs =>
        if stay c then go cur cs
        else if String.eqb c ".." then go (removelast cur) cs
        else
          match node_at d (cur ++ [c]) with
          | Some NDir => go (cur ++ [c]) cs
          | Some (NLink t) =>
              if follow || negb (bool_decide (cs = [])) then
                match links with
                | O => None
                | S links => walk links d follow (if starts_with_slash t then [] else cur) (split_slash t ++ cs)
                end
              else Some (cur ++ [c])
          | _ => match cs with [] => Some (cur ++ [c]) | _ => None end
          end
    end.

Definition MAXSYMLINKS : nat := 40.
Definition start (d : Disk) (p : string) : place := if starts_with_slash p then [] else d_cwd d.
Definition resolve (d : Disk) (follow : bool) (p : string) : option place :=
  walk MAXSYMLINKS d follow (start d p) (split_slash p).

(** [OpenOptions::new().read(true).write(true).create(create).open(p)] *)
Definition disk_open (d : Disk) (p : string) (create : bool) : option (nat * Disk) :=
  match resolve d true p with
  | None => None
  | Some q =>
      match node_at d q with
      | Some (NFile i) => Some (i, d)
      | Some _ => None
      | None =>
          if create then
            Some (d_next d, {| d_cwd := d_cwd d; d_nodes := <[q := NFile (d_next d)]> (d_nodes d);
                               d_inodes := <[d_next d := []]> (d_inodes d); d_next := S (d_next d) |})
          else None
      end
  end.

(** What a place holds, if it is a file; [fs::read(p)]. *)
Definition file_at (d : Disk) (q : place) : option (list u8) :=
  match node_at d q with Some (NFile i) => Some (inode_data d i) | _ => None end.
Definition disk_read (d : Disk) (p : string) : option (list u8) :=
  match resolve d true p with Some q => file_at d q | None => None end.

(** [fs::remove_file(p)], its result ignored: a link is removed, not followed. *)
Definition disk_remove (d : Disk) (p : string) : Disk :=
  match resolve d false p with
  | None => d
  | Some q =>
      match node_at d q with
      | Some (NFile _) | Some (NLink _) =>
          {| d_cwd := d_cwd d; d_nodes := delete q (d_nodes d); d_inodes := d_inodes d; d_next := d_next d |}
      | _ => d
      end
  end.

(** [fs::create_dir_all]: directories that are missing are made on the way; a
    link must lead to a directory. *)
Fixpoint mkdirs (d : Disk) (cur : place) (comps : list string) : bool * Disk :=
  match comps with
  | [] => (true, d)
  | c :: cs =>
      if stay c then mkdirs d cur cs
      else if String.eqb c ".." then mkdirs d (removelast cur) cs
      else
        match node_at d (cur ++ [c]) with
        | Some NDir => mkdirs d (cur ++ [c]) cs
        | None => mkdirs (set_node d (cur ++ [c]) NDir) (cur ++ [c]) cs
        | Some (NFile _) => (false, d)
        | Some (NLink _) =>
            match walk MAXSYMLINKS d true cur [c] with
            | Some q => match node_at d q with Some NDir => mkdirs d q cs | _ => (false, d) end
            | None => (false, d)
            end
        end
  end.
Definition create_dir_all (d : Disk) (p : string) (comps : list string) : bool * Disk := mkdirs d (start d p) comps.

(** [seek(Start(off))] then [read] of at most [n] bytes, [write_all(data)], and
    [set_len(n)]: a gap is filled with zeros, an empty write extends nothing. *)
Definition file_read (c : list u8) (off n : Z) : list u8 := sub c off n.
Definition file_write (c : list u8) (off : Z) (data : list u8) : list u8 :=
  match data with
  | [] => c
  | _ => splice (if zlen c <? off + zlen data then resize (Z.to_nat (off + zlen data)) 0 c else c) off data
  end.
Definition file_set_len (c : list u8) (n : Z) : list u8 := resize (Z.to_nat n) 0 c.

(** * Names and strings *)

Lemma split_slash_nonempty s : split_slash s <> [].
Proof. destruct s as [|c t]; cbn; [done|]. destruct (Ascii.eqb c "/"); [done|]. by destruct (split_slash t). Qed.

Lemma split_slash_join a b : split_slash (a +:+ String "/" b) = split_slash a ++ split_slash b.
Proof.
  induction a as [|c a IH]; [done|].
  change (String c a +:+ String "/" b) with (String c (a +:+ String "/" b)). cbn [split_slash]. rewrite IH.
  destruct (Ascii.eqb c "/"); [done|].
  destruct (split_slash a) eqn:E; [by apply split_slash_nonempty in E|done].
Qed.

Lemma ends_with_slash_inv s : ends_with_slash s = true -> exists r, s = (r +:+ "/")%string.
Proof.
  induction s as [|c s IH]; [done|]. destruct s as [|c' s].
  - cbn. intros H%Ascii.eqb_eq. subst. by exists ""%string.
  - intros H. destruct (IH H) as [r ->]. by exists (String c r).
Qed.

Lemma start_app d r s : r <> ""%string -> start d (r +:+ s)%string = start d r.
Proof. by destruct r. Qed.

(** The names of [root.join(name)] are those that lead to the root and those of a
    name that is not absolute. *)
Lemma join_names root name : starts_with_slash name = false ->
  exists a b, split_slash (join root name) = a ++ split_slash name /\ split_slash root = a ++ b /\
    Forall (fun c => c = ""%string) b /\ (forall d, start d (join root name) = start d root).
Proof.
  intros Hn. unfold join. rewrite Hn. destruct (String.eqb_spec root "") as [->|Hne]; cbn [orb].
  { exists [], [""%string]. split_and!; try done; [by repeat constructor|]. intros d. change (start d name = start d ""%string). unfold start. by rewrite Hn. }
  destruct (ends_with_slash root) eqn:Es.
  - apply ends_with_slash_inv in Es as [r ->]. exists (split_slash r), [""%string].
    split_and!; [|exact (split_slash_join r "")|by repeat constructor|intros d; by apply start_app].
    rewrite <- (split_slash_join r name). f_equal. clear. induction r as [|c r IH]; [done|].
    change (String c ((r +:+ "/") +:+ name) = String c (r +:+ String "/" name))%string. by rewrite IH.
  - exists (split_slash root), []. rewrite app_nil_r. split_and!; [apply (split_slash_join root name)|done|done|].
    intros d. by apply start_app.
Qed.

(** A front part of [a ++ b] is one of [a], or all of [a] and one of [b]. *)
Lemma prefix_app_cases {A} (p s a b : list A) : p ++ s = a ++ b ->
  (exists a', a = p ++ a') \/ (exists p', p = a ++ p' /\ b = p' ++ s).
Proof.
  revert a. induction p as [|x p IH]; intros a E; [left; by exists a|].
  destruct a as [|y a]; [right; by exists (x :: p)|]. injection E as -> E.
  destruct (IH a E) as [[a' ->]|(p' & -> & ->)]; [left; by exists a'|right; by exists p'].
Qed.

Lemma parent_prefix p : exists rest, split_slash p = parent p ++ rest.
Proof.
  unfold parent. assert (forall l : list string, exists s, rev l = rev (drop_stays l) ++ s) as Hd.
  { induction l as [|c l [s Hs]]; [by exists []|]. cbn [drop_stays]. destruct (stay c).
    - exists (s ++ [c]). cbn [rev]. by rewrite Hs, app_assoc.
    - exists []. by rewrite app_nil_r. }
  destruct (Hd (rev (split_slash p))) as [s Hs]. rewrite rev_involutive in Hs.
  destruct (drop_stays (rev (split_slash p))) as [|c l]; [by exists s|]. exists (c :: s).
  rewrite Hs. cbn [rev tail]. by rewrite <- app_assoc.
Qed.

(** * Resolution *)

(** The working directory and the parents of directories are directories. *)
Record tree_ok (d : Disk) : Prop := {
  to_cwd : node_at d (d_cwd d) = Some NDir;
  to_parent : forall q, node_at d q = Some NDir -> node_at d (removelast q) = Some NDir }.

Lemma start_dir d p : tree_ok d -> node_at d (start d p) = Some NDir.
Proof. intros H. unfold start. destruct (starts_with_slash p); [done|]. apply H. Qed.

(** One name of a resolution that ends in a directory. *)
Ltac walk_cases c :=
  destruct (stay c) eqn:?Es; [|destruct (String.eqb c "..") eqn:?Ed];
  [| |match goal with |- context [node_at ?d ?q] => destruct (node_at d q) as [[|?i|?t]|] eqn:?En end].

Lemma walk_cons l d f cur c cs : walk l d f cur (c :: cs) =
  if stay c then walk l d f cur cs
  else if String.eqb c ".." then walk l d f (removelast cur) cs
  else
    match node_at d (cur ++ [c]) with
    | Some NDir => walk l d f (cur ++ [c]) cs
    | Some (NLink t) =>
        if f || negb (bool_decide (cs = [])) then
          match l with
          | O => None
          | S l => walk l d f (if starts_with_slash t then [] else cur) (split_slash t ++ cs)
          end
        else Some (cur ++ [c])
    | _ => match cs with [] => Some (cur ++ [c]) | _ => None end
    end.
Proof. by destruct l. Qed.

Lemma walk_nil l d f cur : walk l d f cur [] = Some cur.
Proof. by destruct l. Qed.

(** A path whose front part [a] leads to a directory goes on from there. *)
Lemma walk_app d f b R : node_at d R = Some NDir -> b <> [] -> forall l a cur,
  walk l d true cur a = Some R -> exists l', (l' <= l)%nat /\ walk l d f cur (a ++ b) = walk l' d f R b.
Proof.
  intros HR Hb. induction l as [|l IHl]; (induction a as [|c a IHa]; intros cur;
    [rewrite walk_nil; intros [= ->]; eexists; split; [|reflexivity]; lia|]);
    change ((c :: a) ++ b) with (c :: (a ++ b)); rewrite !walk_cons; walk_cases c; auto.
  all: try (destruct a; [|done]; intros [= <-]; congruence).
  cbn [orb]. rewrite bool_decide_false by (by destruct a). rewrite orb_true_r. intros Hw.
  destruct (IHl _ _ Hw) as (l' & Hl & E). exists l'. split; [lia|]. by rewrite <- E, <- app_assoc.
Qed.

(** The front part of a path that leads to a directory does so too. *)
Lemma walk_split d b q : tree_ok d -> node_at d q = Some NDir -> forall l a cur,
  node_at d cur = Some NDir -> walk l d true cur (a ++ b) = Some q ->
  exists q1 l1, walk l d true cur a = Some q1 /\ node_at d q1 = Some NDir /\ (l1 <= l)%nat /\ walk l1 d true q1 b = Some q.
Proof.
  intros Ht Hq. induction l as [|l IHl]; (induction a as [|c a IHa]; intros cur Hc;
    [intros Hw; exists cur; eexists; rewrite walk_nil; split_and!; [done|done| |exact Hw]; lia|]);
    change ((c :: a) ++ b) with (c :: (a ++ b)); rewrite !walk_cons; walk_cases c; auto.
  all: try (apply IHa; by apply Ht).
  all: try (intros Hw; destruct (a ++ b) eqn:E; [|done]; injection Hw as <-; congruence).
  - done.
  - cbn [orb]. intros Hw. rewrite app_assoc in Hw.
    assert (node_at d (if starts_with_slash t then [] else cur) = Some NDir) as Hc' by (by destruct (starts_with_slash t)).
    destruct (IHl (split_slash t ++ a) _ Hc' Hw) as (q1 & l1 & H1 & H2 & H3 & H4).
    exists q1, l1. split_and!; try done. lia.
Qed.

(** More links may be followed. *)
Lemma walk_more d f l : forall l' cs cur q, walk l d f cur cs = Some q -> (l <= l')%nat -> walk l' d f cur cs = Some q.
Proof.
  induction l as [|l IHl]; intros l' cs; induction cs as [|c cs IHc]; intros cur q; rewrite ?walk_nil, ?walk_cons; auto;
    walk_cases c; auto; (destruct (f || _); [|done]); [done|].
  intros Hw Hl. destruct l' as [|l']; [lia|]. apply IHl; [done|lia].
Qed.

(** Resolution to a directory depends on directories and links only. *)
Definition kept (d d' : Disk) : Prop :=
  forall q n, d_nodes d !! q = Some n -> (forall i, n <> NFile i) -> d_nodes d' !! q = Some n.

Lemma kept_node d d' q n : kept d d' -> node_at d q = Some n -> (forall i, n <> NFile i) -> node_at d' q = Some n.
Proof. intros Hk. destruct q; [done|]. apply Hk. Qed.

Lemma walk_kept d d' R : kept d d' -> node_at d R = Some NDir -> forall l cs cur,
  walk l d true cur cs = Some R -> walk l d' true cur cs = Some R.
Proof.
  intros Hk HR. induction l as [|l IHl]; (induction cs as [|c cs IHc]; intros cur; [by rewrite !walk_nil|]);
    rewrite !walk_cons; walk_cases c; auto;
    try (destruct cs; [|done]; intros [= <-]; congruence);
    match goal with H : node_at d _ = Some ?n |- _ => rewrite (kept_node d d' _ n Hk H) by done end; cbn [orb]; auto.
Qed.

(** Below a directory without links, a path without [..] stays below it. *)
Definition no_links (R : place) (d : Disk) : Prop :=
  forall q t, R `prefix_of` q -> node_at d q <> Some (NLink t).

Lemma walk_below d f R : no_links R d -> forall l cs cur q,
  R `prefix_of` cur -> ".."%string ∉ cs -> walk l d f cur cs = Some q -> R `prefix_of` q.
Proof.
  intros Hn l. induction cs as [|c cs IH]; intros cur q Hp Hd; [rewrite walk_nil; by intros [= <-]|].
  rewrite not_elem_of_cons in Hd. destruct Hd as [Hc Hd].
  assert (R `prefix_of` cur ++ [c]) as Hp' by (by apply prefix_app_r).
  rewrite walk_cons. walk_cases c; auto.
  - by apply IH.
  - apply String.eqb_eq in Ed. congruence.
  - apply IH; done.
  - destruct cs; [|done]. by intros [= <-].
  - by apply Hn in En.
  - destruct cs; [|done]. by intros [= <-].
Qed.

(** * What a call may change *)

(** Files are in inodes already made; no file has a name both below [R] and
    elsewhere. *)
Record disk_ok (R : place) (d : Disk) : Prop := {
  do_tree : tree_ok d;
  do_links : no_links R d;
  do_names : forall p q i, node_at d p = Some (NFile i) -> node_at d q = Some (NFile i) -> R `prefix_of` p -> R `prefix_of` q;
  do_next : forall q i, node_at d q = Some (NFile i) -> (i < d_next d)%nat }.

(** The change from [d] to [d'] is below [R], and makes or unmakes files and makes
    directories. *)
Record below (R : place) (d d' : Disk) : Prop := {
  bl_ok : disk_ok R d';
  bl_cwd : d_cwd d' = d_cwd d;
  bl_kept : kept d d';
  bl_next : (d_next d <= d_next d')%nat;
  bl_outside : forall q, ~ R `prefix_of` q -> node_at d' q = node_at d q /\ file_at d' q = file_at d q;
  bl_old : forall q i, node_at d' q = Some (NFile i) -> (i < d_next d)%nat -> node_at d q = Some (NFile i) }.

Lemma below_refl R d : disk_ok R d -> below R d d.
Proof. intros H. split; [done|done|by intros q n|lia|done|done]. Qed.

Lemma below_trans R d1 d2 d3 : below R d1 d2 -> below R d2 d3 -> below R d1 d3.
Proof.
  intros [A1 A2 A3 A4 A5 A6] [B1 B2 B3 B4 B5 B6]. split; [done|congruence| |lia|..].
  - intros q n Hq Hn. apply B3; [|done]. by apply A3.
  - intros q Hq. destruct (B5 q Hq) as [E1 E2], (A5 q Hq) as [E3 E4]. split; congruence.
  - intros q i Hq Hi. apply A6; [|done]. apply B6; [done|lia].
Qed.

(** Data is written to a file that has no name outside. *)
Lemma below_data R d i c : disk_ok R d -> (forall q, node_at d q = Some (NFile i) -> R `prefix_of` q) ->
  below R d (set_inode d i c).
Proof.
  intros [H1 H2 H3 H4] Hi.
  assert (forall q, node_at (set_inode d i c) q = node_at d q) as Hn by done.
  split; [by split; [split; apply H1|..]|done|by intros q n|cbn; lia| |done].
  intros q Hq. split; [done|]. unfold file_at. rewrite Hn. destruct (node_at d q) as [[|j|]|] eqn:E; try done.
  unfold inode_data. cbn. rewrite lookup_insert_ne; [done|]. intros <-. apply Hq. by apply Hi.
Qed.

Lemma node_set d q n p : q <> [] -> node_at (set_node d q n) p = if decide (p = q) then Some n else node_at d p.
Proof.
  intros Hq. unfold node_at. destruct p as [|x p]; [by rewrite decide_False by congruence|]. cbn.
  destruct (decide (x :: p = q)) as [<-|Hne]; [apply lookup_insert_eq|by rewrite lookup_insert_ne].
Qed.

Lemma snoc_not_nil {A} (l : list A) x : l ++ [x] <> [].
Proof. by destruct l. Qed.

(** A directory is made in a directory below [R]. *)
Lemma below_mkdir R d cur c : disk_ok R d -> R `prefix_of` cur -> node_at d cur = Some NDir ->
  node_at d (cur ++ [c]) = None -> below R d (set_node d (cur ++ [c]) NDir).
Proof.
  intros [[T1 T2] H2 H3 H4] Hp Hc Hn. set (q := cur ++ [c]) in *. assert (q <> []) as Hq by apply snoc_not_nil.
  assert (R `prefix_of` q) as Hpq by (by apply prefix_app_r).
  assert (forall p n, node_at (set_node d q NDir) p = Some n -> n <> NDir -> node_at d p = Some n) as Hback.
  { intros p n. rewrite node_set by done. destruct (decide (p = q)); [by intros [= <-]|done]. }
  assert (forall p n, node_at d p = Some n -> node_at (set_node d q NDir) p = Some n) as Hfwd.
  { intros p n Hp'. rewrite node_set by done. rewrite decide_False; [done|]. intros ->. congruence. }
  split; [split; [split|..]|..]; try done.
  - apply Hfwd, T1.
  - intros p. rewrite node_set by done. destruct (decide (p = q)) as [->|].
    + intros _. apply Hfwd. unfold q. by rewrite removelast_last.
    + intros Hp'. by apply Hfwd, T2.
  - intros p t Hp' Ht. apply Hback in Ht; [|done]. by apply H2 in Ht.
  - intros p p' i Ha Hb. apply (H3 p p' i); by apply Hback.
  - intros p i Ha. apply (H4 p i). by apply Hback.
  - intros p n Hp' _. destruct (decide (p = [])) as [->|Hp0].
    + cbn. by rewrite lookup_insert_ne.
    + cbn. destruct (decide (p = q)) as [->|]; [|by rewrite lookup_insert_ne]. exfalso.
      unfold node_at in Hn. destruct q; [done|]. congruence.
  - intros p Hp'. assert (p <> q) as Hne by (by intros ->). unfold file_at.
    rewrite node_set, decide_False by done. done.
  - intros p i Ha _. by apply Hback.
Qed.

(** Making directories below [R]. *)
Lemma mkdirs_below R cs : forall d cur, disk_ok R d -> R `prefix_of` cur -> node_at d cur = Some NDir ->
  ".."%string ∉ cs -> below R d (mkdirs d cur cs).2.
Proof.
  induction cs as [|c cs IH]; intros d cur Hok Hp Hc Hd; [by apply below_refl|].
  rewrite not_elem_of_cons in Hd. destruct Hd as [Hcc Hd]. cbn [mkdirs].
  assert (R `prefix_of` cur ++ [c]) as Hp' by (by apply prefix_app_r).
  destruct (stay c); [by apply IH|]. destruct (String.eqb_spec c ".."); [congruence|].
  destruct (node_at d (cur ++ [c])) as [[|i|t]|] eqn:E.
  - by apply IH.
  - by apply below_refl.
  - by apply (do_links _ _ Hok) in E.
  - pose proof (below_mkdir R d cur c Hok Hp Hc E) as Hb. eapply below_trans; [exact Hb|].
    apply IH; [apply Hb|done| |done]. rewrite node_set by apply snoc_not_nil. by rewrite decide_True.
Qed.

(** Making what is there already changes nothing. *)
Lemma mkdirs_there d b q : tree_ok d -> node_at d q = Some NDir -> forall l a cur, (l <= MAXSYMLINKS)%nat ->
  node_at d cur = Some NDir -> walk l d true cur a = Some q -> mkdirs d cur (a ++ b) = mkdirs d q b.
Proof.
  intros Ht Hq l a. revert l. induction a as [|c a IH]; intros l cur Hl Hc Hw; [rewrite walk_nil in Hw; by injection Hw as ->|].
  destruct (walk_split d a q Ht Hq l [c] cur Hc Hw) as (q1 & l1 & H1 & H2 & H3 & H4).
  cbn [app mkdirs]. pose proof (walk_more d true l MAXSYMLINKS [c] cur q1 H1 Hl) as H40.
  rewrite walk_cons, !walk_nil in H1. destruct (stay c).
  { injection H1 as <-. apply (IH l1); [lia|done|done]. }
  destruct (String.eqb c ".."); [injection H1 as <-; apply (IH l1); [lia|done|done]|].
  destruct (node_at d (cur ++ [c])) as [[|i|t]|] eqn:E.
  - injection H1 as <-. apply (IH l1); [lia|done|done].
  - injection H1 as <-. congruence.
  - rewrite H40, H2. apply (IH l1); [lia|done|done].
  - injection H1 as <-. congruence.
Qed.

(** A file is opened, or made, at a place below [R]. *)
Lemma below_open R d p create i d' : disk_ok R d -> (forall q, resolve d true p = Some q -> R `prefix_of` q) ->
  disk_open d p create = Some (i, d') ->
  below R d d' /\ (i < d_next d')%nat /\ (forall q, node_at d' q = Some (NFile i) -> R `prefix_of` q).
Proof.
  intros Hok Hb. unfold disk_open. destruct (resolve d true p) as [q|]; [|done]. specialize (Hb q eq_refl).
  pose proof Hok as [[T1 T2] H2 H3 H4].
  destruct (node_at d q) as [[|j|t]|] eqn:E; try done.
  { intros [= <- <-]. split; [by apply below_refl|]. split; [by eapply H4|]. intros q' Hq'. by eapply (H3 q q' j). }
  destruct create; [|done]. intros [= <- <-]. set (d' := {| d_nodes := _ |}).
  assert (q <> []) as Hq by (intros ->; done).
  assert (forall p, node_at d' p = if decide (p = q) then Some (NFile (d_next d)) else node_at d p) as Hn
    by (intros p'; exact (node_set d q (NFile (d_next d)) p' Hq)).
  assert (forall p n, node_at d p = Some n -> node_at d' p = Some n) as Hfwd.
  { intros p' n Hp'. rewrite Hn, decide_False; [done|]. intros ->. congruence. }
  assert (forall p i, node_at d' p = Some (NFile i) -> p = q /\ i = d_next d \/ node_at d p = Some (NFile i)) as Hback.
  { intros p' i. rewrite Hn. destruct (decide (p' = q)); [|auto]. intros [= <-]. auto. }
  split; [|split; [cbn; lia|]].
  - split; [split; [split|..]|..]; try done.
    + apply Hfwd, T1.
    + intros p'. rewrite Hn. destruct (decide (p' = q)); [done|]. intros Hp'. by apply Hfwd, T2.
    + intros p' t Hp'. rewrite Hn. destruct (decide (p' = q)); [done|]. by apply H2.
    + intros a b i [[-> ->]|Ha]%Hback [[-> E2]|Hb']%Hback; try done; [by apply H4 in Hb'; lia|by eapply H3].
    + intros a i [[-> ->]|Ha]%Hback; cbn; [lia|]. apply H4 in Ha. lia.
    + intros p' n Hp' _. cbn. rewrite lookup_insert_ne; [done|]. intros <-. unfold node_at in E. destruct q; [done|]. congruence.
    + cbn. lia.
    + intros p' Hp'. assert (p' <> q) as Hne by (by intros ->). unfold file_at. rewrite Hn, decide_False by done. split; [done|].
      destruct (node_at d p') as [[|j|]|] eqn:Ej; try done. unfold inode_data. cbn. apply H4 in Ej.
      by rewrite lookup_insert_ne by lia.
    + intros a i [[-> ->]|Ha]%Hback Hi; [lia|done].
  - intros a [[-> _]|Ha]%Hback; [done|]. apply H4 in Ha. lia.
Qed.

Lemma below_remove R d p : disk_ok R d -> (forall q, resolve d false p = Some q -> R `prefix_of` q) ->
  below R d (disk_remove d p).
Proof.
  intros Hok Hb. unfold disk_remove. destruct (resolve d false p) as [q|]; [|by apply below_refl].
  specialize (Hb q eq_refl). destruct (node_at d q) as [[|i|t]|] eqn:E; try (by apply below_refl).
  2:{ by apply (do_links _ _ Hok) in E. }
  pose proof Hok as [[T1 T2] H2 H3 H4]. set (d' := {| d_nodes := _ |}). assert (q <> []) as Hq by (intros ->; done).
  assert (forall p n, node_at d' p = Some n -> p <> q /\ node_at d p = Some n) as Hback.
  { intros p' n. unfold node_at, d'. destruct p' as [|x p']; [done|]. cbn. by intros [Hne Hp']%lookup_delete_Some. }
  assert (forall p, p <> q -> node_at d' p = node_at d p) as Hfwd.
  { intros p' Hne. unfold node_at, d'. destruct p'; [done|]. cbn. by rewrite lookup_delete_ne. }
  assert (forall p, node_at d p = Some NDir -> node_at d' p = Some NDir) as Hdir.
  { intros p' Hp'. rewrite Hfwd; [done|]. intros ->. congruence. }
  split; [split; [split|..]|..]; try done.
  - apply Hdir, T1.
  - intros p' [_ Hp']%Hback. by apply Hdir, T2.
  - intros p' t Hp' [_ Ht]%Hback. by apply H2 in Ht.
  - intros a b j [_ Ha]%Hback [_ Hb']%Hback. by eapply H3.
  - intros a j [_ Ha]%Hback. by eapply H4.
  - intros p' n Hp' Hnf. cbn. rewrite lookup_delete_ne; [done|]. intros <-. unfold node_at in E. destruct q; [done|].
    rewrite Hp' in E. injection E as ->. by eapply Hnf.
  - intros p' Hp'. assert (p' <> q) as Hne by (by intros ->). unfold file_at. by rewrite Hfwd.
  - intros a j Ha _. by apply Hback in Ha as [_ Ha].
Qed.

(** * Names below a directory *)

(** The path [root] leads to the directory [R]. *)
Definition leads (d : Disk) (root : string) (R : place) : Prop :=
  resolve d true root = Some R /\ node_at d R = Some NDir.

Lemma leads_below R d d' root : below R d d' -> leads d root R -> leads d' root R.
Proof.
  intros Hb [Hr Hd]. pose proof (kept_node d d' R NDir (bl_kept _ _ _ Hb) Hd ltac:(done)) as Hd'. split; [|done].
  unfold resolve, start in *. rewrite (bl_cwd _ _ _ Hb). by eapply walk_kept; [apply Hb|exact Hd|].
Qed.

(** A relative name joined to the root is resolved from [R]. *)
Lemma join_leads d root R name : tree_ok d -> leads d root R -> starts_with_slash name = false ->
  exists a l, split_slash (join root name) = a ++ split_slash name /\ (l <= MAXSYMLINKS)%nat /\
    walk l d true (start d (join root name)) a = Some R.
Proof.
  intros Ht [Hr Hd] Hn. destruct (join_names root name Hn) as (a & b & Hs & Hroot & Hb & Hst). unfold resolve in Hr.
  rewrite Hroot in Hr. destruct (walk_split d b R Ht Hd _ a _ (start_dir d root Ht) Hr) as (q1 & l1 & H1 & H2 & H3 & H4).
  exists a, MAXSYMLINKS. rewrite Hst. split_and!; [done|lia|]. rewrite H1. f_equal. clear -H4 Hb. revert q1 H4.
  induction Hb as [|c b -> _ IH]; intros q1; [rewrite walk_nil; by intros [= <-]|]. rewrite walk_cons. cbn. apply IH.
Qed.

(** Where such a path and its parents lie. *)
Lemma join_below R d root name f q : disk_ok R d -> leads d root R -> starts_with_slash name = false ->
  ".."%string ∉ split_slash name -> resolve d f (join root name) = Some q -> R `prefix_of` q.
Proof.
  intros Hok Hl Hn Hd Hr. destruct (join_leads d root R name (do_tree _ _ Hok) Hl Hn) as (a & l & Hs & Hll & Hw).
  unfold resolve in Hr. rewrite Hs in Hr. apply (walk_more _ _ _ MAXSYMLINKS) in Hw; [|done].
  destruct (walk_app d f (split_slash name) R (proj2 Hl) (split_slash_nonempty name) _ _ _ Hw) as (l' & _ & E).
  rewrite E in Hr. eapply walk_below; [apply Hok|done|exact Hd|exact Hr].
Qed.

Lemma join_mkdirs_below R d root name : disk_ok R d -> leads d root R -> starts_with_slash name = false ->
  ".."%string ∉ split_slash name -> below R d (create_dir_all d (join root name) (parent (join root name))).2.
Proof.
  intros Hok Hl Hn Hd. pose proof (do_tree _ _ Hok) as Ht. set (p := join root name).
  destruct (join_leads d root R name Ht Hl Hn) as (a & l & Hs & Hll & Hw). fold p in Hs, Hw.
  destruct (parent_prefix p) as [rest Hp]. rewrite Hs in Hp. unfold create_dir_all.
  pose proof (start_dir d p Ht) as Hst. pose proof (proj2 Hl) as HR.
  destruct (prefix_app_cases (parent p) rest a (split_slash name) (eq_sym Hp)) as [[a' Ha]|(p' & -> & Hname)].
  - rewrite Ha in Hw. destruct (walk_split d a' R Ht HR l (parent p) _ Hst Hw) as (q1 & l1 & H1 & H2 & _).
    pose proof (mkdirs_there d [] q1 Ht H2 l (parent p) _ Hll Hst H1) as E. rewrite app_nil_r in E. rewrite E. by apply below_refl.
  - rewrite (mkdirs_there d p' R Ht HR l a _ Hll Hst Hw). apply mkdirs_below; try done.
    rewrite Hname in Hd. intros Hin. apply Hd. rewrite elem_of_app. by left.
Qed.
