(* ===== verification/RpcFsProps.v ===== *)
(** Whole files over descriptors: [RpcFs] (src/crates/rustee-storage/src/rpc.rs)
    on any client of the FS RPC that behaves like a file system with descriptors
    (the class [FsClientLaws]), and the client of the crate's own tests,
    [FdMem] (lib.rs), which is one. *)
From Stdlib Require Import ZArith Lia Ascii String.
From stdpp Require Import base list numbers strings gmap.
From S2P Require Import Prelude Proto Crypto Storage HostFs.

Local Open Scope Z_scope.
Local Open Scope rust_scope.
Local Open Scope storage_scope.

Lemma as_u32_id' x : 0 <= x < 2 ^ 32 -> as_u32 x = x.
Proof. intros H. apply wrap_id. exact H. Qed.

(** * File contents *)

Lemma file_write_spec c off chunk :
  0 <= off <= zlen c -> off + zlen chunk <= zlen (file_write c off chunk) /\
  take (Z.to_nat (off + zlen chunk)) (file_write c off chunk) = take (Z.to_nat off) c ++ chunk.
Proof.
  intros Ho. unfold file_write. destruct chunk as [|b chunk].
  { change (zlen []) with 0. rewrite Z.add_0_r, app_nil_r. split; [lia|done]. }
  set (ch := b :: chunk). pose proof (zlen_nonneg ch).
  set (c' := if zlen c <? off + zlen ch then _ else _).
  assert (zlen c <= zlen c' /\ off + zlen ch <= zlen c' /\ take (Z.to_nat off) c' = take (Z.to_nat off) c) as (Hl0 & Hl & Ht).
  { subst c'. destruct (Z.ltb_spec (zlen c) (off + zlen ch)); [|done].
    assert (zlen (resize (Z.to_nat (off + zlen ch)) 0 c) = off + zlen ch) as Hr by (unfold zlen at 1; rewrite length_resize; lia).
    rewrite Hr. split_and!; [lia|lia|]. rewrite take_resize_le by lia.
    rewrite resize_le by (unfold zlen in *; lia). done. }
  split; [rewrite zlen_splice; lia|]. unfold splice. rewrite app_assoc, take_app_le.
  - rewrite take_ge; [by rewrite Ht|]. rewrite length_app, length_take. unfold zlen in *. lia.
  - rewrite length_app, length_take. unfold zlen in *. lia.
Qed.

Lemma file_set_len_prefix c data : zlen data <= zlen c -> take (length data) c = data -> file_set_len c (zlen data) = data.
Proof.
  intros Hl Ht. unfold file_set_len, zlen in *. rewrite Nat2Z.id, resize_le by lia. done.
Qed.

(** * What [RpcFs] relies on *)

(** The files of a client by name, its open descriptors, and the states it can be
    in.  Every call may fail; a failed one keeps the descriptors and every other
    file.  Nothing is said after a panic. *)
Class FsClientLaws {C} (F : FsClient C) := {
  fc_ok : C -> Prop;
  fc_files : C -> gmap string (list u8);
  fc_fds : C -> gmap Z string;
  fc_open (create : bool) name c r c' : fc_ok c ->
    rpc_fs (if create then RPC_FS_CREATE else RPC_FS_OPEN) name 0 0 [] c = (r, c') ->
    match r with
    | Ok (fd, _) => fc_ok c' /\ fc_fds c !! fd = None /\ fc_fds c' = <[fd := name]> (fc_fds c) /\
        match fc_files c !! name with
        | Some _ => fc_files c' = fc_files c
        | None => create = true /\ fc_files c' = <[name := []]> (fc_files c)
        end
    | Err _ => fc_ok c' /\ fc_fds c' = fc_fds c /\ forall q, q <> name -> fc_files c' !! q = fc_files c !! q
    | Panic => True
    end;
  fc_write fd off data name f c r c' : fc_ok c -> fc_fds c !! fd = Some name -> fc_files c !! name = Some f ->
    data <> [] -> 0 <= off -> off + zlen data < 2 ^ 32 -> rpc_fs RPC_FS_WRITE "" fd off data c = (r, c') ->
    match r with
    | Ok _ => fc_ok c' /\ fc_fds c' = fc_fds c /\ fc_files c' = <[name := file_write f off data]> (fc_files c)
    | Err _ => fc_ok c' /\ fc_fds c' = fc_fds c /\ forall q, q <> name -> fc_files c' !! q = fc_files c !! q
    | Panic => True
    end;
  fc_truncate fd n name f c r c' : fc_ok c -> fc_fds c !! fd = Some name -> fc_files c !! name = Some f ->
    0 <= n < 2 ^ 32 -> rpc_fs RPC_FS_TRUNCATE "" fd n [] c = (r, c') ->
    match r with
    | Ok _ => fc_ok c' /\ fc_fds c' = fc_fds c /\ fc_files c' = <[name := file_set_len f n]> (fc_files c)
    | Err _ => fc_ok c' /\ fc_fds c' = fc_fds c /\ forall q, q <> name -> fc_files c' !! q = fc_files c !! q
    | Panic => True
    end;
  fc_read fd off hint name f c r c' : fc_ok c -> fc_fds c !! fd = Some name -> fc_files c !! name = Some f ->
    0 <= off < 2 ^ 32 -> 1 <= zlen hint < 2 ^ 32 -> rpc_fs RPC_FS_READ "" fd off hint c = (r, c') ->
    match r with
    | Ok (n, buf) => buf = file_read f off (zlen hint) /\ n = zlen buf /\
        fc_ok c' /\ fc_fds c' = fc_fds c /\ fc_files c' = fc_files c
    | Err _ => fc_ok c' /\ fc_fds c' = fc_fds c /\ fc_files c' = fc_files c
    | Panic => True
    end;
  fc_close fd c r c' : fc_ok c -> rpc_fs RPC_FS_CLOSE "" fd 0 [] c = (r, c') ->
    r = Panic \/ fc_ok c' /\ fc_fds c' = delete fd (fc_fds c) /\ fc_files c' = fc_files c }.

Section RpcFs.
Context {C : Type} {F : FsClient C} `{!FsClientLaws F}.
Implicit Types c : C.

(** [c'] is [c] with the file [name] holding [f]; with it changed somehow. *)
Definition stored (name : string) (f : list u8) c c' : Prop :=
  fc_ok c' /\ fc_fds c' = fc_fds c /\ fc_files c' = <[name := f]> (fc_files c).
Definition touched (name : string) c c' : Prop :=
  fc_ok c' /\ fc_fds c' = fc_fds c /\ forall q, q <> name -> fc_files c' !! q = fc_files c !! q.

Lemma stored_touched name f c1 c2 c3 : stored name f c1 c2 -> touched name c2 c3 -> touched name c1 c3.
Proof.
  intros (_ & F1 & E1) (H2 & F2 & E2). split; [done|]. split; [congruence|]. intros q Hq.
  by rewrite E2, E1, lookup_insert_ne by done.
Qed.

Lemma stored_twice name f g c1 c2 c3 : stored name f c1 c2 -> stored name g c2 c3 -> stored name g c1 c3.
Proof. intros (_ & F1 & E1) (H2 & F2 & E2). split_and!; [done|congruence|]. by rewrite E2, E1, insert_insert_eq. Qed.

(** The chunks written so far are a front part of the data. *)
Lemma put_loop_spec fd name data : zlen data < 2 ^ 32 -> forall fuel c off f,
  fc_ok c -> fc_fds c !! fd = Some name -> fc_files c !! name = Some f -> 0 <= off <= zlen data ->
  zlen data - off <= CHUNK * Z.of_nat fuel -> off <= zlen f -> take (Z.to_nat off) f = take (Z.to_nat off) data ->
  match put_loop fuel fd data off c with
  | (Ok (Some _), c') => exists f', stored name f' c c' /\ zlen data <= zlen f' /\ take (length data) f' = data
  | (Ok None, _) => False
  | (Err _, c') => touched name c c'
  | (Panic, _) => True
  end.
Proof.
  intros H32 fuel. unfold CHUNK. induction fuel as [|fuel IH]; intros c off f Hok Hfd Hf Ho Hfu Hc Ht; cbn [put_loop];
    (destruct (Z.ltb_spec off (zlen data)) as [Hlt|Hge];
     [|assert (off = zlen data) as -> by lia; exists f; split; [by split_and!; rewrite ?insert_id|]; split; [done|];
       unfold zlen in Ht; rewrite Nat2Z.id, (take_ge data) in Ht by lia; exact Ht]); [lia|].
  unfold CHUNK. set (e := Z.min (off + 4096) (zlen data)). set (chunk := sub data off (e - off)).
  assert (zlen chunk = e - off) as Hch by (apply zlen_sub; lia).
  destruct (file_write_spec f off chunk) as [Hw1 Hw2]; [lia|].
  rewrite Hch in Hw1, Hw2. replace (off + (e - off)) with e in * by lia. unfold mbind at 1.
  destruct (rpc_fs RPC_FS_WRITE "" fd off chunk c) as [r c1] eqn:Er.
  apply (fc_write fd off chunk name f) in Er; [|done..|by (intros En; rewrite En in Hch; change (zlen []) with 0 in Hch; lia)|lia|lia].
  destruct r as [r|e'|]; [|exact Er|done]. pose proof Er as (Hok1 & Hfd1 & Hf1). rewrite as_u32_id' by lia.
  specialize (IH c1 e (file_write f off chunk) Hok1). rewrite Hfd1, Hf1, lookup_insert_eq in IH.
  specialize (IH Hfd eq_refl ltac:(lia) ltac:(lia) Hw1).
  assert (take (Z.to_nat e) (file_write f off chunk) = take (Z.to_nat e) data) as Hpre.
  { rewrite Hw2, Ht. unfold chunk, sub. replace (Z.to_nat (e - off)) with (Z.to_nat e - Z.to_nat off)%nat by lia.
    rewrite <- (take_drop (Z.to_nat off) (take (Z.to_nat e) data)), take_take, skipn_firstn_comm.
    by rewrite Nat.min_l by lia. }
  specialize (IH Hpre). destruct (put_loop fuel fd data e c1) as [[[u|]|e2|] c2]; [|done| |done].
  - destruct IH as (f' & Hs & Hl). exists f'. split; [|done]. by eapply stored_twice.
  - by eapply stored_touched.
Qed.

Lemma put_spec fuel fd name data c f : zlen data < 2 ^ 32 -> zlen data <= CHUNK * Z.of_nat fuel ->
  fc_ok c -> fc_fds c !! fd = Some name -> fc_files c !! name = Some f ->
  match put fuel fd data c with
  | (Ok (Some _), c') => stored name data c c'
  | (Ok None, _) => False
  | (Err _, c') => touched name c c'
  | (Panic, _) => True
  end.
Proof.
  intros H32 Hfu Hok Hfd Hf. pose proof (zlen_nonneg data). unfold put, mbind at 1.
  pose proof (put_loop_spec fd name data H32 fuel c 0 f Hok Hfd Hf ltac:(lia) ltac:(lia) (zlen_nonneg f) eq_refl) as Hl.
  destruct (put_loop fuel fd data 0 c) as [[[u|]|e|] c1]; [|done..]. destruct Hl as (f' & Hs & Hlen & Hpre).
  pose proof Hs as (Hok1 & Hfd1 & Hf1). unfold mbind at 1. rewrite as_u32_id' by lia.
  destruct (rpc_fs RPC_FS_TRUNCATE "" fd (zlen data) [] c1) as [r c2] eqn:Er.
  apply (fc_truncate fd (zlen data) name f') in Er; [|done|by rewrite Hfd1|by rewrite Hf1, lookup_insert_eq|lia].
  destruct r as [r|e|]; [|by eapply stored_touched|done]. rewrite file_set_len_prefix in Er by done.
  cbn. by eapply stored_twice.
Qed.

(** A file opened or created, and closed again. *)
Lemma closed fd name g c c1 c2 c3 r : fc_fds c !! fd = None -> fc_fds c1 = <[fd := name]> (fc_fds c) ->
  (forall q, q <> name -> fc_files c1 !! q = fc_files c !! q) -> fc_fds c2 = fc_fds c1 -> fc_ok c2 ->
  rpc_fs RPC_FS_CLOSE "" fd 0 [] c2 = (r, c3) -> r <> Panic ->
  (stored name g c1 c2 -> stored name g c c3) /\ (touched name c1 c2 -> touched name c c3).
Proof.
  intros Hn Ho Hq Hc Hok E Hr. destruct (fc_close fd c2 r c3 Hok E) as [->|(H1 & H2 & H3)]; [done|].
  assert (fc_fds c3 = fc_fds c) as Hfd by (rewrite H2, Hc, Ho; by apply delete_insert_id). split.
  - intros (_ & _ & Hs). split_and!; [done|done|]. rewrite H3, Hs. apply map_eq. intros q.
    destruct (decide (q = name)) as [->|Hne]; [by rewrite !lookup_insert_eq|]. rewrite !lookup_insert_ne by done. by apply Hq.
  - intros (_ & _ & Ht). split_and!; [done|done|]. intros q Hne. rewrite H3, Ht, Hq; done.
Qed.

(** What [with_fd] finds open. *)
Lemma opened (create : bool) name c fd x c1 : fc_ok c ->
  rpc_fs (if create then RPC_FS_CREATE else RPC_FS_OPEN) name 0 0 [] c = (Ok (fd, x), c1) ->
  fc_ok c1 /\ fc_fds c !! fd = None /\ fc_fds c1 = <[fd := name]> (fc_fds c) /\
  (forall q, q <> name -> fc_files c1 !! q = fc_files c !! q) /\
  (exists f, fc_files c1 !! name = Some f) /\
  (is_Some (fc_files c !! name) -> fc_files c1 = fc_files c).
Proof.
  intros Hok E. apply (fc_open create name c _ c1 Hok) in E as (H1 & H2 & H3 & H4). split_and!; try done;
    destruct (fc_files c !! name) as [f|] eqn:Ef; [by rewrite H4|destruct H4 as [_ ->]| | |done|by intros [? ?]].
  - intros q Hne. by rewrite lookup_insert_ne.
  - exists f. by rewrite H4.
  - destruct H4 as [_ ->]. exists []. apply lookup_insert_eq.
Qed.

Lemma with_put_spec (create : bool) fuel path data c : fc_ok c -> zlen data < 2 ^ 32 -> zlen data <= CHUNK * Z.of_nat fuel ->
  match with_fd path create (fun fd => put fuel fd data) c with
  | (Ok (Some _), c') => stored path data c c'
  | (Ok None, _) => False
  | (Err _, c') => touched path c c'
  | (Panic, _) => True
  end.
Proof.
  intros Hok H32 Hfu. unfold with_fd, mbind at 1.
  destruct (rpc_fs (if create then RPC_FS_CREATE else RPC_FS_OPEN) path 0 0 [] c) as [[[fd x]|e|] c1] eqn:Eo;
    [|by apply (fc_open create path c) in Eo|done].
  destruct (opened create path c fd x c1 Hok Eo) as (Hok1 & Hn & Hfd & Hq & [f Hf] & _).
  pose proof (put_spec fuel fd path data c1 f H32 Hfu Hok1 ltac:(by rewrite Hfd, lookup_insert_eq) Hf) as Hp.
  unfold mbind at 1, mtry at 1. destruct (put fuel fd data c1) as [[[u|]|e|] c2]; [|done| |done].
  - unfold mbind at 1, mtry. destruct (rpc_fs RPC_FS_CLOSE "" fd 0 [] c2) as [r c3] eqn:Ec.
    pose proof Hp as (Hok2 & Hfd2 & _).
    pose proof (closed fd path data c c1 c2 c3 r Hn Hfd Hq Hfd2 Hok2 Ec) as Hcl.
    destruct r as [r|e|]; [| |done]; by apply Hcl.
  - unfold mbind at 1, mtry. destruct (rpc_fs RPC_FS_CLOSE "" fd 0 [] c2) as [r c3] eqn:Ec.
    pose proof Hp as (Hok2 & Hfd2 & _).
    pose proof (closed fd path data c c1 c2 c3 r Hn Hfd Hq Hfd2 Hok2 Ec) as Hcl.
    destruct r as [r|e2|]; [| |done]; by apply Hcl.
Qed.

Lemma write_spec fuel path data c : fc_ok c -> zlen data < 2 ^ 32 -> zlen data <= CHUNK * Z.of_nat fuel ->
  match rpc_write fuel path data c with
  | (Ok (Some _), c') => stored path data c c'
  | (Ok None, _) => False
  | (Err _, c') => touched path c c'
  | (Panic, _) => True
  end.
Proof.
  intros Hok H32 Hfu. unfold rpc_write, mbind at 1, mtry.
  pose proof (with_put_spec false fuel path data c Hok H32 Hfu) as H1.
  destruct (with_fd path false _ c) as [[[u|]|e|] c1]; [done..| |done].
  pose proof (with_put_spec true fuel path data c1 ltac:(apply H1) H32 Hfu) as H2.
  destruct e; try done. destruct H1 as (Hok1 & Hfd1 & Hq1).
  destruct (with_fd path true _ c1) as [[[u|]|e|] c2]; [|done| |done]; destruct H2 as (Hok2 & Hfd2 & Hf2).
  - split_and!; [done|congruence|]. rewrite Hf2. apply map_eq. intros q. destruct (decide (q = path)) as [->|Hne];
      [by rewrite !lookup_insert_eq|]. rewrite !lookup_insert_ne by done. by apply Hq1.
  - split_and!; [done|congruence|]. intros q Hne. rewrite Hf2, Hq1; done.
Qed.

(** Reading ends at the first short chunk. *)
Lemma read_loop_spec fd name data : zlen data + CHUNK < 2 ^ 32 -> forall fuel c off,
  fc_ok c -> fc_fds c !! fd = Some name -> fc_files c !! name = Some data -> 0 <= off <= zlen data ->
  zlen data - off < CHUNK * Z.of_nat fuel ->
  match read_loop fuel fd (take (Z.to_nat off) data) c with
  | (Ok (Some d), c') => d = data /\ fc_ok c' /\ fc_fds c' = fc_fds c /\ fc_files c' = fc_files c
  | (Ok None, _) => False
  | (Err _, c') => fc_ok c' /\ fc_fds c' = fc_fds c /\ fc_files c' = fc_files c
  | (Panic, _) => True
  end.
Proof.
  intros H32 fuel. unfold CHUNK in *. induction fuel as [|fuel IH]; intros c off Hok Hfd Hf Ho Hfu; [lia|].
  cbn [read_loop]. unfold CHUNK.
  assert (zlen (take (Z.to_nat off) data) = off) as Hz by (unfold zlen in *; rewrite length_take; lia).
  rewrite Hz, as_u32_id' by lia. unfold mbind at 1.
  destruct (rpc_fs RPC_FS_READ "" fd off (zeros 4096) c) as [r c1] eqn:Er.
  apply (fc_read fd off (zeros 4096) name data) in Er; [|done|done|done|lia|done].
  destruct r as [[n chunk]|e|]; [|exact Er|done]. destruct Er as (Eb & -> & Hok1 & Hfd1 & Hf1).
  change (zlen (zeros 4096)) with 4096 in Eb. unfold file_read in Eb.
  assert (zlen chunk = Z.min 4096 (zlen data - off)) as Hc.
  { rewrite Eb. unfold sub, zlen in *. rewrite length_take, length_drop. lia. }
  assert (take (Z.to_nat off) data ++ chunk = take (Z.to_nat (off + Z.min 4096 (zlen data - off))) data) as Happ.
  { rewrite Eb. unfold sub. set (n := Z.min _ _).
    rewrite <- (take_drop (Z.to_nat off) (take (Z.to_nat (off + n)) data)).
    rewrite take_take, skipn_firstn_comm, Nat.min_l by lia. f_equal.
    replace (Z.to_nat (off + n) - Z.to_nat off)%nat with (Z.to_nat n) by lia.
    destruct (Z.min_spec 4096 (zlen data - off)) as [[_ En]|[Hle En]]; unfold n; rewrite En; [done|].
    rewrite !take_ge; [done|rewrite length_drop; unfold zlen in *; lia..]. }
  rewrite <- Hc in Happ. destruct (Z.ltb_spec (zlen chunk) 4096).
  - cbn. rewrite Happ, take_ge; [by split_and!|]. unfold zlen in *. lia.
  - rewrite Happ. rewrite <- Hfd1, <- Hf1 in *. apply IH; try done; lia.
Qed.

Lemma read_spec fuel path data c : fc_ok c -> fc_files c !! path = Some data -> zlen data + CHUNK < 2 ^ 32 ->
  zlen data < CHUNK * Z.of_nat fuel ->
  match rpc_read fuel path c with
  | (Ok (Some d), c') => d = data /\ fc_fds c' = fc_fds c /\ fc_files c' = fc_files c
  | (Ok None, _) => False
  | (Err _, c') => fc_fds c' = fc_fds c /\ forall q, q <> path -> fc_files c' !! q = fc_files c !! q
  | (Panic, _) => True
  end.
Proof.
  intros Hok Hf H32 Hfu. pose proof (zlen_nonneg data). unfold rpc_read, with_fd, mbind at 1.
  destruct (rpc_fs RPC_FS_OPEN path 0 0 [] c) as [[[fd x]|e|] c1] eqn:Eo;
    [|by destruct (fc_open false path c _ c1 Hok Eo) as (_ & ? & ?)|done].
  destruct (opened false path c fd x c1 Hok Eo) as (Hok1 & Hn & Hfd & Hq & _ & Hsame). rewrite Hf in Hsame.
  specialize (Hsame ltac:(done)).
  pose proof (read_loop_spec fd path data H32 fuel c1 0 Hok1 ltac:(by rewrite Hfd, lookup_insert_eq) ltac:(by rewrite Hsame)
    ltac:(lia) ltac:(lia)) as Hr. change (Z.to_nat 0) with 0%nat in Hr. rewrite take_0 in Hr.
  unfold mbind at 1, mtry at 1. destruct (read_loop fuel fd [] c1) as [[[d|]|e|] c2]; [|done| |done];
    unfold mbind at 1, mtry; destruct (rpc_fs RPC_FS_CLOSE "" fd 0 [] c2) as [r c3] eqn:Ec.
  - destruct Hr as (-> & Hok2 & Hfd2 & Hf2). destruct (fc_close fd c2 r c3 Hok2 Ec) as [->|(_ & H2 & H3)]; [done|].
    assert (fc_fds c3 = fc_fds c) as E1 by (rewrite H2, Hfd2, Hfd; by apply delete_insert_id).
    destruct r; [..|done]; cbn; split_and!; congruence.
  - destruct Hr as (Hok2 & Hfd2 & Hf2). destruct (fc_close fd c2 r c3 Hok2 Ec) as [->|(_ & H2 & H3)]; [done|].
    assert (fc_fds c3 = fc_fds c) as E1 by (rewrite H2, Hfd2, Hfd; by apply delete_insert_id).
    destruct r; [..|done]; cbn; (split; [done|]); intros; congruence.
Qed.

(** [RpcFs] has no panic of its own. *)
Definition calm {A} (m : M C A) : Prop := forall c, (m c).1 <> Panic.
Definition client_calm : Prop := forall op name fd off data, calm (rpc_fs op name fd off data).

Lemma calm_bind {A B} (m : M C A) (k : A -> M C B) : calm m -> (forall a, calm (k a)) -> calm (mbind m k).
Proof. intros Hm Hk c. unfold mbind. specialize (Hm c). destruct (m c) as [[a|e|] c']; cbn in *; [apply Hk|done|done]. Qed.

Lemma calm_with_fd {A} path create (f : u32 -> M C (option A)) :
  client_calm -> (forall fd, calm (f fd)) -> calm (with_fd path create f).
Proof.
  intros Hc Hf. unfold with_fd. apply calm_bind; [apply Hc|]. intros [fd x] c. unfold mbind at 1, mtry at 1.
  pose proof (Hf fd c) as H1. destruct (f fd c) as [[a|e|] c1]; [| |done]; unfold mbind, mtry;
    pose proof (Hc RPC_FS_CLOSE ""%string fd 0 [] c1) as H2; destruct (rpc_fs RPC_FS_CLOSE "" fd 0 [] c1) as [[]  c2]; done.
Qed.

Lemma calm_put fuel fd data : client_calm -> calm (put fuel fd data).
Proof.
  intros Hc. unfold put. apply calm_bind.
  - generalize 0. induction fuel as [|fuel IH]; intros off; cbn [put_loop]; destruct (off <? zlen data); try done.
    apply calm_bind; [apply Hc|done].
  - intros [u|]; [|done]. apply calm_bind; [apply Hc|done].
Qed.

Lemma calm_store (create : bool) fuel path data : client_calm ->
  calm (if create then rpc_create fuel path data else rpc_write fuel path data).
Proof.
  intros Hc. assert (forall b, calm (with_fd path b (fun fd => put fuel fd data))) as Hw
    by (intros b; apply calm_with_fd; [done|]; intros fd; by apply calm_put).
  destruct create; [apply Hw|]. unfold rpc_write. intros c. unfold mbind, mtry. pose proof (Hw false c) as H1.
  destruct (with_fd path false _ c) as [[o|e|] c1]; [done| |done]. destruct e; try done. apply Hw.
Qed.

Lemma calm_read fuel path : client_calm -> calm (rpc_read fuel path).
Proof.
  intros Hc. apply calm_with_fd; [done|]. intros fd. generalize (@nil u8).
  induction fuel as [|fuel IH]; intros out; cbn [read_loop]; [done|]. apply calm_bind; [apply Hc|].
  intros [n chunk]. by destruct (n <? CHUNK).
Qed.

(** C25. A file stored through descriptors is stored whole.  On any client that
    keeps the laws of [FsClientLaws], whose calls may fail at any point,
    [RpcFs::create] or [RpcFs::write] of data below 4 GiB less one chunk ends,
    with fuel for its chunks, in success, in an error, or in a panic of the
    client's own: it does not panic when the client does not.  After success the
    file holds exactly the data, whatever it held before, every other file is as
    it was, and [RpcFs::read] returns exactly the data, or an error (or the
    client's panic); after an error only that file may differ.  After success and
    after an error the descriptor is closed. *)
Theorem rpcfs_stores_whole_files (create : bool) fuel path data c :
  fc_ok c -> zlen data + CHUNK < 2 ^ 32 -> zlen data < CHUNK * Z.of_nat fuel ->
  match (if create then rpc_create fuel path data else rpc_write fuel path data) c with
  | (Ok (Some _), c1) =>
      fc_fds c1 = fc_fds c /\ fc_files c1 = <[path := data]> (fc_files c) /\
      match rpc_read fuel path c1 with
      | (Ok (Some d), c2) => d = data /\ fc_fds c2 = fc_fds c /\ fc_files c2 = fc_files c1
      | (Ok None, _) => False
      | (Err _, c2) => fc_fds c2 = fc_fds c /\ forall q, q <> path -> fc_files c2 !! q = fc_files c !! q
      | (Panic, _) => True
      end
  | (Ok None, _) => False
  | (Err _, c1) => fc_fds c1 = fc_fds c /\ forall q, q <> path -> fc_files c1 !! q = fc_files c !! q
  | (Panic, _) => True
  end /\
  (client_calm -> ((if create then rpc_create fuel path data else rpc_write fuel path data) c).1 <> Panic /\
     forall c1, (rpc_read fuel path c1).1 <> Panic).
Proof.
  intros Hok H32 Hfu. split; [|intros Hc; split; [by apply calm_store|by apply calm_read]]. set (o := (if create then rpc_create fuel path data else rpc_write fuel path data) c).
  assert (match o with
    | (Ok (Some _), c') => stored path data c c' | (Ok None, _) => False
    | (Err _, c') => touched path c c' | (Panic, _) => True end) as Ho.
  { unfold o, CHUNK in *. destruct create; [apply with_put_spec|apply write_spec]; try done; unfold CHUNK; lia. }
  destruct o as [[[u|]|e|] c1]; [|done| |done]; [|by destruct Ho as (_ & ? & ?)].
  destruct Ho as (Hok1 & Hfd1 & Hf1). split; [done|]. split; [done|].
  pose proof (read_spec fuel path data c1 Hok1 ltac:(rewrite Hf1; apply lookup_insert_eq) H32 Hfu) as Hr.
  destruct (rpc_read fuel path c1) as [[[d|]|e|] c2]; try done; [by rewrite <- Hfd1|].
  destruct Hr as [H1 H2]. split; [congruence|]. intros q Hne. by rewrite H2, Hf1, lookup_insert_ne.
Qed.
End RpcFs.

(** * The client of the tests *)

Record FdMem := { fm_files : gmap string (list u8); fm_fds : gmap Z string; fm_next : u32 }.
Definition FdMem_new : FdMem := {| fm_files := ∅; fm_fds := ∅; fm_next := 1 |}.
Definition fm_set_files (s : FdMem) (f : gmap string (list u8)) : FdMem :=
  {| fm_files := f; fm_fds := fm_fds s; fm_next := fm_next s |}.

(** [let id = self.next; self.next += 1; self.fds.insert(id, name)] *)
Definition fm_fd (name : string) (s : FdMem) : res StorageError (u32 * list u8) * FdMem :=
  if fm_next s + 1 <? 2 ^ 32 then
    (Ok (fm_next s, []),
     {| fm_files := fm_files s; fm_fds := <[fm_next s := name]> (fm_fds s); fm_next := fm_next s + 1 |})
  else (Panic, s).

Definition FdMem_rpc_fs (op : u32) (name : string) (fd off : u32) (data : list u8) : M FdMem (u32 * list u8) := fun s =>
  if op =? RPC_FS_CREATE then
    fm_fd name (match fm_files s !! name with Some _ => s | None => fm_set_files s (<[name := []]> (fm_files s)) end)
  else if op =? RPC_FS_OPEN then
    match fm_files s !! name with None => (Err NotFound, s) | Some _ => fm_fd name s end
  else if op =? RPC_FS_CLOSE then
    (Ok (0, []), {| fm_files := fm_files s; fm_fds := delete fd (fm_fds s); fm_next := fm_next s |})
  else if op =? RPC_FS_READ then
    match fm_fds s !! fd with
    | None => (Err NotFound, s)
    | Some path =>
        match fm_files s !! path with
        | None => (Err NotFound, s)
        | Some file =>
            if zlen file <=? off then (Ok (0, []), s) else
            let n := Z.min (Z.max (zlen data) 1) (zlen file - off) in
            (Ok (as_u32 n, sub file off n), s)
        end
    end
  else if op =? RPC_FS_WRITE then
    match fm_fds s !! fd with
    | None => (Err NotFound, s)
    | Some path =>
        let file := default [] (fm_files s !! path) in
        let file := if zlen file <? off + zlen data then resize (Z.to_nat (off + zlen data)) 0 file else file in
        (Ok (as_u32 (zlen data), []), fm_set_files s (<[path := splice file off data]> (fm_files s)))
    end
  else if op =? RPC_FS_TRUNCATE then
    match fm_fds s !! fd with
    | None => (Err NotFound, s)
    | Some path =>
        (Ok (0, []), fm_set_files s (<[path := resize (Z.to_nat off) 0 (default [] (fm_files s !! path))]> (fm_files s)))
    end
  else if op =? RPC_FS_REMOVE then (Ok (0, []), fm_set_files s (delete name (fm_files s)))
  else (Err FsErr, s).

#[export] Instance FdMem_client : FsClient FdMem := {| rpc_fs := FdMem_rpc_fs |}.

(** Descriptors not handed out yet are free. *)
Definition fm_ok (s : FdMem) : Prop := forall fd, fm_next s <= fd -> fm_fds s !! fd = None.

Lemma fm_fd_spec name s r s' : fm_ok s -> fm_fd name s = (r, s') -> r = Panic \/
  fm_ok s' /\ r = Ok (fm_next s, []) /\ fm_fds s !! fm_next s = None /\ fm_fds s' = <[fm_next s := name]> (fm_fds s) /\
  fm_files s' = fm_files s.
Proof.
  intros Hok. unfold fm_fd. destruct (_ <? _); intros [= <- <-]; [right|by left]. split_and!; try done; [|by apply Hok].
  intros fd Hfd. cbn in *. rewrite lookup_insert_ne by lia. apply Hok. lia.
Qed.

#[export] Program Instance FdMem_laws : FsClientLaws FdMem_client :=
  {| fc_ok := fm_ok; fc_files := fm_files; fc_fds := fm_fds |}.
Next Obligation.
  intros create name c r c' Hok E. destruct create; cbn in E.
  - destruct (fm_files c !! name) as [f|] eqn:Ef; apply fm_fd_spec in E as [->|(H1 & -> & H3 & H4 & H5)]; try done.
  - destruct (fm_files c !! name) as [f|] eqn:Ef; [|injection E as <- <-; by split_and!].
    apply fm_fd_spec in E as [->|(H1 & -> & H3 & H4 & H5)]; try done.
Qed.
Next Obligation.
  intros fd off data name f c r c' Hok Hfd Hf Hd Ho Hl E. cbn in E. rewrite Hfd, Hf in E. injection E as <- <-.
  split_and!; try done. cbn. f_equal. unfold file_write. by destruct data.
Qed.
Next Obligation.
  intros fd n name f c r c' Hok Hfd Hf Hn E. cbn in E. rewrite Hfd, Hf in E. injection E as <- <-. by split_and!.
Qed.
Next Obligation.
  intros fd off hint name f c r c' Hok Hfd Hf Ho Hh E. cbn in E. rewrite Hfd, Hf in E. unfold file_read.
  destruct (Z.leb_spec (zlen f) off); injection E as <- <-.
  - unfold sub. rewrite drop_ge, take_nil by (unfold zlen in *; lia). by split_and!.
  - set (n := Z.min _ _). assert (sub f off n = sub f off (zlen hint)) as Hs.
    { unfold n, sub. rewrite Z.max_l by lia. destruct (Z.min_spec (zlen hint) (zlen f - off)) as [[_ ->]|[? ->]]; [done|].
      rewrite !take_ge; [done|rewrite length_drop; unfold zlen in *; lia..]. }
    assert (zlen (sub f off n) = n) as Hz by (apply zlen_sub; lia). rewrite <- Hs, Hz. split_and!; try done.
    apply as_u32_id'. lia.
Qed.
Next Obligation.
  intros fd c r c' Hok E. cbn in E. injection E as <- <-. right. split_and!; try done. intros f Hf. cbn.
  rewrite lookup_delete_None. right. by apply Hok.
Qed.

(** A file of two bytes, created and read back. *)
Lemma rpcfs_stores_whole_files_witness :
  exists c1 c2, rpc_create 1 "a" [1; 2] FdMem_new = (Ok (Some tt), c1) /\ rpc_read 1 "a" c1 = (Ok (Some [1; 2]), c2) /\
    fm_files c2 = {["a" := [1; 2]]} /\ fm_fds c2 = ∅.
Proof.
  pose proof (fun H1 H2 H3 => proj1 (rpcfs_stores_whole_files true 1 "a" [1; 2] FdMem_new H1 H2 H3)) as H. cbn iota in H.
  destruct (rpc_create 1 "a" [1; 2] FdMem_new) as [r c1] eqn:E1. assert (r = Ok (Some tt)) as ->.
  { change r with (r, c1).1. rewrite <- E1. vm_compute. reflexivity. }
  destruct H as (H1 & H2 & H3); [intros fd _; apply lookup_empty|reflexivity|reflexivity|].
  destruct (rpc_read 1 "a" c1) as [r2 c2] eqn:E2. assert (r2 = Ok (Some [1; 2])) as ->.
  { change r2 with (r2, c2).1. rewrite <- E2. change c1 with (Ok (Some tt) : res StorageError (option unit), c1).2.
    rewrite <- E1. vm_compute. reflexivity. }
  destruct H3 as (_ & H4 & H5). exists c1, c2. cbn [fc_files fc_fds FdMem_laws] in *.
  split_and!; [done|exact E2|by rewrite H5, H2|by rewrite H4].
Defined.
