(* ===== verification/Supplicant.v ===== *)
(** The supplicant (src/host/rustee-supplicant/src/lib.rs): the host process that
    serves the guest's RPCs (time, files, TA images) from a directory.

    The host's files are those of [HostFs].  The clock, the order of directory
    entries and the UTF-8 decoding of a name are parameters. *)
From Stdlib Require Import ZArith Lia Ascii String.
From stdpp Require Import base list numbers strings gmap.
From S2P Require Import Prelude Proto Crypto Storage HostFs.

Local Open Scope Z_scope.
Local Open Scope rust_scope.
Local Open Scope storage_scope.

Inductive SuppError := SBadCmd | SIo | SNotFound.
#[export] Instance SuppError_eq_dec : EqDecision SuppError.
Proof. solve_decision. Defined.

(** * [Supplicant] *)

Record Supplicant := {
  sp_root : string; sp_disk : Disk;
  sp_files : gmap Z nat;               (* open descriptors and their files *)
  sp_dirs : gmap Z (list (list u8));   (* open directories and the names left to read *)
  sp_next_fd : u32 }.

Definition set_disk (s : Supplicant) (d : Disk) : Supplicant :=
  {| sp_root := sp_root s; sp_disk := d; sp_files := sp_files s; sp_dirs := sp_dirs s; sp_next_fd := sp_next_fd s |}.
Definition set_files (s : Supplicant) (f : gmap Z nat) : Supplicant :=
  {| sp_root := sp_root s; sp_disk := sp_disk s; sp_files := f; sp_dirs := sp_dirs s; sp_next_fd := sp_next_fd s |}.
Definition set_dirs (s : Supplicant) (f : gmap Z (list (list u8))) : Supplicant :=
  {| sp_root := sp_root s; sp_disk := sp_disk s; sp_files := sp_files s; sp_dirs := f; sp_next_fd := sp_next_fd s |}.

(** [Supplicant::new]: the root directory is made; [None] is the I/O error. *)
Definition Supplicant_new (root : string) (d : Disk) : option Supplicant :=
  let '(ok, d) := create_dir_all d root (split_slash root) in
  if ok then Some {| sp_root := root; sp_disk := d; sp_files := ∅; sp_dirs := ∅; sp_next_fd := 1 |} else None.

Definition SM (A : Type) : Type := Supplicant -> res SuppError A * Supplicant.

(** [self.next_fd += 1] overflows after [2^32 - 1] opens. *)
Definition next_fd : SM u32 := fun s =>
  if sp_next_fd s + 1 <? 2 ^ 32 then
    (Ok (sp_next_fd s),
     {| sp_root := sp_root s; sp_disk := sp_disk s; sp_files := sp_files s; sp_dirs := sp_dirs s;
        sp_next_fd := sp_next_fd s + 1 |})
  else (Panic, s).

(** [name.contains(dotdot)] *)
Fixpoint contains_dotdot (name : string) : bool :=
  match name with
  | String "." ((String "." _) as t) => true
  | String _ t => contains_dotdot t
  | EmptyString => false
  end.
Definition safe (root name : string) : res SuppError string :=
  if contains_dotdot name || starts_with_slash name then Err SBadCmd else Ok (join root name).

Section Ops.
(** [fs::read_dir(p)]: the names, in the host's order. *)
Context (read_dir : Disk -> string -> option (list (list u8))).

Definition sfs (op : u32) (name : string) (fd off : u32) (data : list u8) : SM (u32 * list u8) := fun s =>
  if (op =? RPC_FS_OPEN) || (op =? RPC_FS_CREATE) then
    match safe (sp_root s) name with
    | Ok p =>
        let '(made, d) := if op =? RPC_FS_CREATE then create_dir_all (sp_disk s) p (parent p) else (true, sp_disk s) in
        let s := set_disk s d in
        if negb made then (Err SIo, s) else
        match disk_open (sp_disk s) p (op =? RPC_FS_CREATE) with
        | None => (Err SIo, s)
        | Some (i, d) =>
            let s := set_disk s d in
            match next_fd s with
            | (Ok id, s) => (Ok (id, []), set_files s (<[id := i]> (sp_files s)))
            | (Err e, s) => (Err e, s)
            | (Panic, s) => (Panic, s)
            end
        end
    | Err e => (Err e, s)
    | Panic => (Panic, s)
    end
  else if op =? RPC_FS_CLOSE then (Ok (0, []), set_files s (delete fd (sp_files s)))
  else if op =? RPC_FS_READ then
    match sp_files s !! fd with
    | None => (Err SNotFound, s)
    | Some i =>
        let buf := file_read (inode_data (sp_disk s) i) off (Z.max (zlen data) 1) in
        (Ok (as_u32 (zlen buf), buf), s)
    end
  else if op =? RPC_FS_WRITE then
    match sp_files s !! fd with
    | None => (Err SNotFound, s)
    | Some i =>
        (Ok (as_u32 (zlen data), []),
         set_disk s (set_inode (sp_disk s) i (file_write (inode_data (sp_disk s) i) off data)))
    end
  else if op =? RPC_FS_TRUNCATE then
    match sp_files s !! fd with
    | None => (Err SNotFound, s)
    | Some i =>
        (Ok (0, []), set_disk s (set_inode (sp_disk s) i (file_set_len (inode_data (sp_disk s) i) off)))
    end
  else if op =? RPC_FS_REMOVE then
    match safe (sp_root s) name with
    | Ok p => (Ok (0, []), set_disk s (disk_remove (sp_disk s) p))
    | Err e => (Err e, s)
    | Panic => (Panic, s)
    end
  else if op =? RPC_FS_RENAME then (Err SBadCmd, s)
  else if op =? RPC_FS_OPENDIR then
    match safe (sp_root s) name with
    | Ok p =>
        match read_dir (sp_disk s) p with
        | None => (Err SIo, s)
        | Some names =>
            match next_fd s with
            | (Ok id, s) => (Ok (id, []), set_dirs s (<[id := names]> (sp_dirs s)))
            | (Err e, s) => (Err e, s)
            | (Panic, s) => (Panic, s)
            end
        end
    | Err e => (Err e, s)
    | Panic => (Panic, s)
    end
  else if op =? RPC_FS_CLOSEDIR then (Ok (0, []), set_dirs s (delete fd (sp_dirs s)))
  else if op =? RPC_FS_READDIR then
    match sp_dirs s !! fd with
    | None => (Err SNotFound, s)
    | Some [] => (Ok (0, []), s)
    | Some (n :: ns) => (Ok (0, n), set_dirs s (<[fd := ns]> (sp_dirs s)))
    end
  else (Err SBadCmd, s).

(** ** Messages *)

(** [SystemTime::now()] as seconds and nanoseconds; [String::from_utf8_lossy]. *)
Context (now : u32 * u32) (utf8_lossy : list u8 -> string).

Definition get_time : u32 * u32 := now.

Definition load_ta (s : Supplicant) (uuid_hex : string) : res SuppError (list u8) :=
  ok_or (disk_read (sp_disk s) (join (join (sp_root s) "ta") (uuid_hex +:+ ".ta"))) SNotFound.

Definition is_tmem (attr : u64) : bool :=
  let a := Z.land attr ATTR_TYPE_MASK in
  (a =? ATTR_TYPE_TMEM_INPUT) || (a =? ATTR_TYPE_TMEM_OUTPUT) || (a =? ATTR_TYPE_TMEM_INOUT).

(** [bytes.iter().position(|&b| b == 0).unwrap_or(bytes.len())] *)
Fixpoint c_strlen (bs : list u8) : nat :=
  match bs with [] => O | b :: bs => if b =? 0 then O else S (c_strlen bs) end.

Definition name_from_tmem (bounce : list u8) (params : list MsgParam) (n : usize) : string :=
  if n <? 2 then "" else
  let p := nth 1 params MsgParam_default in
  if negb (is_tmem (p_attr p)) then "" else
  match checked_add 64 (p_a p) (p_b p) with
  | None => ""
  | Some e =>
      if zlen bounce <? e then "" else
      let bs := sub bounce (p_a p) (p_b p) in
      utf8_lossy (take (c_strlen bs) bs)
  end.

(** [format!("{:016x}", v)]: the bytes in hex, most significant first. *)
Definition hex16 (v : u64) : string := hex32 (to_be 8 v).

Definition put_param (params : list MsgParam) (i : nat) (p : MsgParam) : list MsgParam := <[i := p]> params.

(** The window length or an error, and the bounce buffer. *)
Definition handle_msg (bounce : list u8) (cookie : u64) : Supplicant -> res SuppError u32 * list u8 * Supplicant := fun s =>
  match decode_msg bounce cookie with
  | Panic => (Panic, bounce, s)
  | Err _ => (Err SBadCmd, bounce, s)
  | Ok (hdr, params, msg_sz) =>
      let n := m_num_params hdr in
      let window := as_u32 msg_sz in
      let p0 := nth 0 params MsgParam_default in
      let p1 := nth 1 params MsgParam_default in
      let reply (params : list MsgParam) (s : Supplicant) :=
        match (let? ps := first_n params n in write_msg bounce cookie hdr ps) with
        | Ok (bounce, _) => (Ok window, bounce, s)
        | Err _ => (Err SIo, bounce, s)
        | Panic => (Panic, bounce, s)
        end in
      if m_cmd hdr =? RPC_CMD_GET_TIME then
        if n <? 1 then (Err SBadCmd, bounce, s) else
        reply (put_param params 0 {| p_attr := p_attr p0; p_a := fst get_time; p_b := snd get_time; p_c := p_c p0 |}) s
      else if m_cmd hdr =? RPC_CMD_LOAD_TA then
        if n <? 1 then (Err SBadCmd, bounce, s) else
        match load_ta s (hex16 (p_a p0) +:+ hex16 (p_b p0)) with
        | Err e => (Err e, bounce, s)
        | Panic => (Panic, bounce, s)
        | Ok bs =>
            let after := Z.land (cookie + msg_sz + 7) (Z.lxor 7 (2 ^ 64 - 1)) in
            let tmem := (2 <=? n) && is_tmem (p_attr p1) && (after <=? p_a p1) in
            if tmem && (p_b p1 <? zlen bs) then (Err SIo, bounce, s) else
            let dest := if tmem then p_a p1 else after in
            match checked_add 64 dest (zlen bs) with
            | None => (Err SIo, bounce, s)
            | Some end_ =>
                if zlen bounce <? end_ then (Err SIo, bounce, s) else
                let bounce := splice bounce dest bs in
                let out_n := Z.max n 2 in
                let params := put_param params 1 (MsgParam_tmem ATTR_TYPE_TMEM_OUTPUT dest (zlen bs) dest) in
                let hdr := {| m_cmd := m_cmd hdr; m_func := m_func hdr; m_session := m_session hdr;
                              m_cancel_id := m_cancel_id hdr; m_pad := m_pad hdr; m_ret := 0;
                              m_ret_origin := m_ret_origin hdr; m_num_params := out_n |} in
                match (let? ps := first_n params out_n in write_msg bounce cookie hdr ps) with
                | Ok (bounce, _) => (Ok (as_u32 (end_ - cookie)), bounce, s)
                | Err _ => (Err SIo, bounce, s)
                | Panic => (Panic, bounce, s)
                end
            end
        end
      else if m_cmd hdr =? RPC_CMD_FS then
        if n <? 1 then (Err SBadCmd, bounce, s) else
        let op := as_u32 (p_a p0) in
        let name := name_from_tmem bounce params n in
        match sfs op name (as_u32 (p_b p0)) (as_u32 (p_c p0)) [] s with
        | (Ok (out_fd, _), s) =>
            reply (if (op =? RPC_FS_CREATE) || (op =? RPC_FS_OPEN)
                   then put_param params 0 {| p_attr := p_attr p0; p_a := p_a p0; p_b := out_fd; p_c := p_c p0 |}
                   else params) s
        | (Err e, s) => (Err e, bounce, s)
        | (Panic, s) => (Panic, bounce, s)
        end
      else (Err SBadCmd, bounce, s)
  end.

Definition rpc_cmd (cmd : u32) : res SuppError unit :=
  if (cmd =? RPC_CMD_LOAD_TA) || (cmd =? RPC_CMD_GET_TIME) || (cmd =? RPC_CMD_FS) then Ok tt else Err SBadCmd.

(** The process-wide supplicant and its hook: [None] until [install]. *)
Definition install (s : Supplicant) : option Supplicant := Some s.

Definition TEE_ERROR_COMMUNICATION_CODE : u32 := 0xFFFF000E.

Definition rpc_hook (bounce : list u8) (cookie : u64) (g : option Supplicant)
  : res u32 u32 * list u8 * option Supplicant :=
  match g with
  | None => (Err TEE_ERROR_COMMUNICATION_CODE, bounce, None)
  | Some s =>
      let '(r, bounce, s) := handle_msg bounce cookie s in
      (map_err (fun _ => TEE_ERROR_COMMUNICATION_CODE) r, bounce, Some s)
  end.

End Ops.
