(* ===== verification/SupplicantProps.v ===== *)
(** Properties of [Supplicant]: no message reaches a file outside the root, what an
    FS message transports, and where a TA image lands in the bounce pool. *)
From Stdlib Require Import ZArith Lia Ascii String.
From stdpp Require Import base list numbers strings gmap.
From S2P Require Import Prelude Proto Crypto Storage HostFs Supplicant.

Local Open Scope Z_scope.
Local Open Scope rust_scope.
Local Open Scope storage_scope.

(** * Where names lead *)

(** A component of a name is a piece of it. *)
Lemma dotdot_component s : ".." ∈ split_slash s -> contains_dotdot s = true.
Proof.
  assert (forall s h r, split_slash s = h :: r -> (h = ".." \/ ".." ∈ r -> contains_dotdot s = true) /\
    (forall t, h = String "." t -> exists s', s = String "." s')) as Hs.
  { clear s. induction s as [|c s IH]; intros h r E; cbn [split_slash] in E.
    - injection E as <- <-. split; [|done]. intros [[=]|Hr]; by apply elem_of_nil in Hr.
    - destruct (Ascii.eqb_spec c "/") as [->|Hc].
      + injection E as <- <-. split; [|done]. intros [[=]|Hr].
        destruct (split_slash s) as [|h r] eqn:E; [by apply elem_of_nil in Hr|].
        destruct (IH h r eq_refl) as [H1 _]. cbn [contains_dotdot].
        assert (contains_dotdot s = true) as Hd by (apply H1; apply elem_of_cons in Hr; naive_solver).
        by rewrite Hd.
      + destruct (split_slash s) as [|h' r'] eqn:E'; [by apply split_slash_nonempty in E'|].
        injection E as <- <-. destruct (IH h' r' eq_refl) as [H1 H2]. split.
        * intros [[= -> ->]|Hr].
          -- destruct (H2 _ eq_refl) as [s' ->]. done.
          -- assert (contains_dotdot s = true) as Hd by (apply H1; auto).
             destruct s as [|d s']; [done|]. cbn [contains_dotdot] in *.
             repeat (match goal with |- context [match ?x with _ => _ end] => destruct x end; try done).
        * intros t [= -> _]. eauto. }
  intros Hin. destruct (split_slash s) as [|h r] eqn:E; [by apply elem_of_nil in Hin|].
  apply (Hs s h r E). apply elem_of_cons in Hin. naive_solver.
Qed.

Lemma safe_inv root name p : safe root name = Ok p ->
  p = join root name /\ starts_with_slash name = false /\ ".." ∉ split_slash name.
Proof.
  unfold safe. destruct (contains_dotdot name) eqn:Ed; [done|]. destruct (starts_with_slash name); [done|].
  intros [= <-]. split_and!; try done. intros Hin%dotdot_component. congruence.
Qed.

(** The state of a supplicant that cannot reach outside the directory [R] its root
    leads to: below [R] there is no symbolic link and no file that has a name
    elsewhere too, and open descriptors are for files without a name elsewhere. *)
Record confined (R : place) (s : Supplicant) : Prop := {
  cf_disk : disk_ok R (sp_disk s);
  cf_root : leads (sp_disk s) (sp_root s) R;
  cf_live : forall fd i, sp_files s !! fd = Some i -> (i < d_next (sp_disk s))%nat;
  cf_fds : forall fd i q, sp_files s !! fd = Some i -> node_at (sp_disk s) q = Some (NFile i) -> R `prefix_of` q }.

(** What the rest of the host sees of a step: places outside [R] hold what they
    held. *)
Definition outside_kept (R : place) (s s' : Supplicant) : Prop :=
  forall q, ~ R `prefix_of` q ->
    node_at (sp_disk s') q = node_at (sp_disk s) q /\ file_at (sp_disk s') q = file_at (sp_disk s) q.

Definition stays (R : place) (s s' : Supplicant) : Prop := confined R s' /\ outside_kept R s s'.

(** A change below [R], with descriptors for files below [R]. *)
Lemma confined_to R s d files dirs n : confined R s -> below R (sp_disk s) d ->
  (forall fd i, files !! fd = Some i -> sp_files s !! fd = Some i \/
     (i < d_next d)%nat /\ forall q, node_at d q = Some (NFile i) -> R `prefix_of` q) ->
  stays R s {| sp_root := sp_root s; sp_disk := d; sp_files := files; sp_dirs := dirs; sp_next_fd := n |}.
Proof.
  intros [H1 H2 H3 H4] Hb Hf. split; [|intros q Hq; by apply Hb]. split; cbn [sp_disk sp_root sp_files].
  - apply Hb.
  - by eapply leads_below.
  - intros fd i [Hi|[Hi _]]%Hf; [|done]. apply H3 in Hi. pose proof (bl_next _ _ _ Hb). lia.
  - intros fd i q [Hi|[_ Hi]]%Hf Hq; [|by apply Hi]. eapply H4; [exact Hi|]. eapply bl_old; [exact Hb|exact Hq|by eapply H3].
Qed.

Lemma stays_refl R s : confined R s -> stays R s s.
Proof. by split. Qed.

(** The same with the descriptors as they are. *)
Lemma confined_disk R s d : confined R s -> below R (sp_disk s) d -> stays R s (set_disk s d).
Proof. intros Hc Hb. apply confined_to; auto. Qed.

Lemma confined_dirs R s n dirs : confined R s ->
  stays R s {| sp_root := sp_root s; sp_disk := sp_disk s; sp_files := sp_files s; sp_dirs := dirs; sp_next_fd := n |}.
Proof. intros Hc. apply confined_to; [done|apply below_refl, Hc|auto]. Qed.

Lemma confined_close R s fd : confined R s -> stays R s (set_files s (delete fd (sp_files s))).
Proof. intros Hc. apply confined_to; [done|apply below_refl, Hc|]. intros f i [_ Hf]%lookup_delete_Some. auto. Qed.

Lemma confined_write R s fd i c : confined R s -> sp_files s !! fd = Some i ->
  stays R s (set_disk s (set_inode (sp_disk s) i c)).
Proof. intros Hc Hf. apply confined_disk; [done|]. apply below_data; [apply Hc|]. intros q. by eapply cf_fds. Qed.

Lemma confined_remove R s name p : confined R s -> safe (sp_root s) name = Ok p ->
  stays R s (set_disk s (disk_remove (sp_disk s) p)).
Proof.
  intros Hc (-> & Hs & Hd)%safe_inv. apply confined_disk; [done|]. apply below_remove; [apply Hc|].
  intros q. apply join_below; try done; apply Hc.
Qed.

(** The directories made on the way, and the file opened or made. *)
Lemma confined_create R s name p : confined R s -> safe (sp_root s) name = Ok p ->
  below R (sp_disk s) (create_dir_all (sp_disk s) p (parent p)).2.
Proof. intros Hc (-> & Hs & Hd)%safe_inv. apply join_mkdirs_below; try done; apply Hc. Qed.

Lemma confined_open R s d name p create i d' : confined R s -> safe (sp_root s) name = Ok p -> below R (sp_disk s) d ->
  disk_open d p create = Some (i, d') ->
  below R (sp_disk s) d' /\ (i < d_next d')%nat /\ (forall q, node_at d' q = Some (NFile i) -> R `prefix_of` q).
Proof.
  intros Hc (-> & Hs & Hd)%safe_inv Hb Ho. destruct (below_open R d (join (sp_root s) name) create i d') as (H1 & H2 & H3).
  - apply Hb.
  - intros q. apply join_below; try done; [apply Hb|]. eapply leads_below; [exact Hb|apply Hc].
  - done.
  - split; [by eapply below_trans|done].
Qed.

Create HintDb supp.
#[local] Hint Resolve confined_write confined_remove confined_close confined_dirs stays_refl : supp.

Section Confinement.
Context (read_dir : Disk -> string -> option (list (list u8))) (R : place).

Lemma open_stays (create : bool) name p s : confined R s -> safe (sp_root s) name = Ok p ->
  let '(made, d) := if create then create_dir_all (sp_disk s) p (parent p) else (true, sp_disk s) in
  stays R s (if negb made then (Err SIo, set_disk s d)
    else match disk_open d p create with
    | None => (Err SIo, set_disk s d)
    | Some (i, d) =>
        match next_fd (set_disk s d) with
        | (Ok id, s) => (Ok (id, []), set_files s (<[id := i]> (sp_files s)))
        | (Err e, s) => (Err e, s)
        | (Panic, s) => (Panic, s)
        end
    end : res SuppError (u32 * list u8) * Supplicant).2.
Proof.
  intros Hc Hs. set (o := if create then _ else _).
  assert (below R (sp_disk s) o.2) as Hb.
  { unfold o. destruct create; [by eapply confined_create|apply below_refl, Hc]. }
  destruct o as [made d]. cbn [snd] in Hb. destruct made; cbn [negb]; [|by apply confined_disk].
  destruct (disk_open d p create) as [[i d']|] eqn:Eo; [|by apply confined_disk].
  destruct (confined_open R s d name p create i d' Hc Hs Hb Eo) as (Hb' & Hi & Hq).
  unfold next_fd. cbn [sp_next_fd set_disk]. destruct (_ <? _); [|by apply confined_disk].
  refine (confined_to R s d' _ _ _ Hc Hb' _). cbn. intros fd j [[_ <-]|[_ Hj]]%lookup_insert_Some; auto.
Qed.

Lemma sfs_stays op name fd off data s : confined R s -> stays R s (sfs read_dir op name fd off data s).2.
Proof.
  intros Hc. unfold sfs.
  destruct (_ || _).
  { destruct (safe (sp_root s) name) as [p|e|] eqn:Es; cbn [snd]; auto with supp.
    pose proof (open_stays (op =? RPC_FS_CREATE) name p s Hc Es) as Ho.
    destruct (if op =? RPC_FS_CREATE then _ else _) as [made d]. exact Ho. }
  destruct (_ =? RPC_FS_CLOSE); [cbn [snd]; auto with supp|].
  destruct (_ =? RPC_FS_READ); [by destruct (sp_files s !! fd); cbn [snd]; auto with supp|].
  destruct (_ =? RPC_FS_WRITE); [destruct (sp_files s !! fd) eqn:E; cbn [snd]; eauto with supp|].
  destruct (_ =? RPC_FS_TRUNCATE); [destruct (sp_files s !! fd) eqn:E; cbn [snd]; eauto with supp|].
  destruct (_ =? RPC_FS_REMOVE); [destruct (safe _ _) eqn:Es; cbn [snd]; eauto with supp|].
  destruct (_ =? RPC_FS_RENAME); [cbn [snd]; auto with supp|].
  destruct (_ =? RPC_FS_OPENDIR).
  { destruct (safe _ _); cbn [snd]; auto with supp. destruct (read_dir _ _); cbn [snd]; auto with supp.
    unfold next_fd. destruct (_ <? _); cbn [snd]; auto with supp. by apply (confined_dirs R s (sp_next_fd s + 1)). }
  destruct (_ =? RPC_FS_CLOSEDIR); [cbn [snd]; by apply (confined_dirs R s (sp_next_fd s))|].
  destruct (_ =? RPC_FS_READDIR); [|cbn [snd]; auto with supp].
  destruct (sp_dirs s !! fd) as [[|n ns]|]; cbn [snd]; auto with supp. by apply (confined_dirs R s (sp_next_fd s)).
Qed.

Context (now : u32 * u32) (utf8_lossy : list u8 -> string).

Lemma handle_msg_stays bounce ck s : confined R s -> stays R s (handle_msg read_dir now utf8_lossy bounce ck s).2.
Proof.
  intros Hc. unfold handle_msg. destruct (decode_msg bounce ck) as [[[hdr params] sz]|e|]; cbn [snd]; auto with supp.
  pose proof (fun op name fd off => sfs_stays op name fd off [] s Hc) as Hsfs.
  repeat first
    [ progress cbn [snd] | solve [auto with supp]
    | match goal with |- context [sfs read_dir ?o ?n ?f ?a [] s] =>
        specialize (Hsfs o n f a); destruct (sfs read_dir o n f a [] s) as [[[? ?]|?|] ?]; cbn [snd] in Hsfs end
    | match goal with |- context [match ?x with _ => _ end] =>
        lazymatch x with context [match _ with _ => _ end] => fail | _ => destruct x end end ].
Qed.

(** C24. Confinement of the supplicant.  The host's file system has directories
    and symbolic links; the supplicant's root leads to the directory [R], below
    which there is no symbolic link and no file that has another name outside.
    Whatever the guest sends (any bytes in the pool, any cookie, any number of
    messages), every place outside [R] holds what it held (no file, directory or
    link is made, removed or changed there), open descriptors never refer to a
    file with a name outside, and there is still no link below [R]. *)
Theorem supplicant_confined (msgs : list (list u8 * u64)) s :
  confined R s ->
  exists s', fold_left (fun g m => (rpc_hook read_dir now utf8_lossy m.1 m.2 g).2) msgs (Some s) = Some s' /\
    confined R s' /\ outside_kept R s s'.
Proof.
  revert s. induction msgs as [|[b ck] msgs IH]; intros s Hc; [by exists s|]. cbn [fold_left fst snd].
  unfold rpc_hook at 2. pose proof (handle_msg_stays b ck s Hc) as [Hc1 Hk].
  destruct (handle_msg read_dir now utf8_lossy b ck s) as [[r b'] s1]. cbn [snd] in *.
  destruct (IH s1 Hc1) as (s' & E & Hc' & Hk'). exists s'. split; [exact E|]. split; [exact Hc'|].
  intros q Hq. destruct (Hk' q Hq) as [E1 E2], (Hk q Hq) as [E3 E4]. split; congruence.
Qed.
End Confinement.

Module SuppSample.
Definition rd : Disk -> string -> option (list (list u8)) := fun _ _ => None.
Definition utf8 : list u8 -> string := fun _ => EmptyString.
(** A host with a file inside the root and one outside, reached by a link in the
    working directory too; the first is open. *)
Definition disk : Disk :=
  {| d_cwd := ["w"];
     d_nodes := {[["w"] := NDir; ["w"; "r"] := NDir; ["w"; "r"; "a"] := NFile 0; ["etc"] := NDir; ["etc"; "b"] := NFile 1;
                  ["w"; "l"] := NLink "/etc"]};
     d_inodes := {[0%nat := [1; 2; 3]; 1%nat := [9]]}; d_next := 2 |}.
Definition opened : Supplicant :=
  {| sp_root := "r"; sp_disk := disk; sp_files := {[1 := 0%nat]}; sp_dirs := ∅; sp_next_fd := 2 |}.
Definition hdr (cmd n : u32) : MsgArgHdr :=
  {| m_cmd := cmd; m_func := 0; m_session := 0; m_cancel_id := 0; m_pad := 0; m_ret := 0; m_ret_origin := 0; m_num_params := n |}.
Definition pool (h : MsgArgHdr) (ps : list MsgParam) : list u8 := splice (zeros 256) 8 (hdr_bytes h ++ params_bytes ps).
(** WRITE to descriptor 1 at offset 0; the data is in the second parameter. *)
Definition write_msg_pool : list u8 :=
  pool (hdr RPC_CMD_FS 2) [MsgParam_value ATTR_TYPE_VALUE_INPUT RPC_FS_WRITE 1 0; MsgParam_tmem ATTR_TYPE_TMEM_INPUT 128 4 0].
Definition load_pool : list u8 := pool (hdr RPC_CMD_LOAD_TA 1) [MsgParam_value ATTR_TYPE_VALUE_INPUT 0 5 0].
Definition ta_disk : Disk :=
  {| d_cwd := []; d_nodes := {[["r"] := NDir; ["r"; "ta"] := NDir;
                               ["r"; "ta"; "00000000000000000000000000000005.ta"] := NFile 0]};
     d_inodes := {[0%nat := List.repeat 0xAA 40]}; d_next := 1 |}.
Definition ta_supp : Supplicant :=
  {| sp_root := "r"; sp_disk := ta_disk; sp_files := ∅; sp_dirs := ∅; sp_next_fd := 1 |}.
(** The same host with the link inside the root. *)
Definition linked : Supplicant :=
  {| sp_root := "r"; sp_disk := set_node disk ["w"; "r"; "l"] (NLink "/etc"); sp_files := ∅; sp_dirs := ∅; sp_next_fd := 1 |}.
End SuppSample.

Lemma sample_nodes q n : node_at SuppSample.disk q = Some n ->
  (q, n) ∈ [([], NDir); (["w"], NDir); (["w"; "r"], NDir); (["w"; "r"; "a"], NFile 0); (["etc"], NDir);
            (["etc"; "b"], NFile 1); (["w"; "l"], NLink "/etc")].
Proof.
  unfold node_at. destruct q as [|c q]; [intros [= <-]; by left|].
  change (d_nodes SuppSample.disk !! (c :: q) = Some n -> (c :: q, n) ∈ [([], NDir); (["w"], NDir); (["w"; "r"], NDir);
    (["w"; "r"; "a"], NFile 0); (["etc"], NDir); (["etc"; "b"], NFile 1); (["w"; "l"], NLink "/etc")]).
  unfold SuppSample.disk. cbn [d_nodes]. intros H.
  repeat (apply lookup_insert_Some in H as [[<- <-]|[_ H]]; [set_solver|]).
  apply lookup_singleton_Some in H as [<- <-]. set_solver.
Qed.

Lemma sample_confined : confined ["w"; "r"] SuppSample.opened.
Proof.
  split; [split; [split|..]|..]; cbn [sp_disk sp_root sp_files SuppSample.opened].
  - reflexivity.
  - intros q Hq%sample_nodes. set_unfold in Hq. naive_solver.
  - intros q t Hp Hq%sample_nodes. set_unfold in Hq. destruct Hp as [k ->]. naive_solver.
  - intros p q i Hp%sample_nodes Hq%sample_nodes. set_unfold in Hp. set_unfold in Hq. naive_solver.
  - intros q i Hq%sample_nodes. set_unfold in Hq. cbn. naive_solver lia.
  - split; vm_compute; reflexivity.
  - intros fd i [_ <-]%lookup_singleton_Some. cbn. lia.
  - intros fd i q [_ <-]%lookup_singleton_Some Hq%sample_nodes. set_unfold in Hq.
    assert (q = ["w"; "r"; "a"]) as -> by naive_solver. by exists ["a"].
Qed.

Lemma supplicant_confined_witness :
  exists s', fold_left (fun g m => (rpc_hook SuppSample.rd (0, 0) SuppSample.utf8 m.1 m.2 g).2)
      [(SuppSample.write_msg_pool, 8); (zeros 16, 0)] (Some SuppSample.opened) = Some s' /\
    file_at (sp_disk s') ["etc"; "b"] = Some [9].
Proof.
  destruct (supplicant_confined SuppSample.rd ["w"; "r"] (0, 0) SuppSample.utf8
    [(SuppSample.write_msg_pool, 8); (zeros 16, 0)] SuppSample.opened sample_confined) as (s' & H1 & _ & Hk).
  exists s'. split; [exact H1|]. destruct (Hk ["etc"; "b"]) as [_ ->]; [by intros [k [=]]|]. vm_compute. reflexivity.
Defined.

(** The names alone do not confine: with a symbolic link below the root, a name
    that [safe] accepts opens a file outside it, and a write changes that file. *)
Theorem link_below_root_escapes :
  exists fd s1 s2, sfs SuppSample.rd RPC_FS_OPEN "l/b" 0 0 [] SuppSample.linked = (Ok (fd, []), s1) /\
    sfs SuppSample.rd RPC_FS_WRITE "" fd 0 [7] s1 = (Ok (1, []), s2) /\ file_at (sp_disk s2) ["etc"; "b"] = Some [7].
Proof.
  destruct (sfs SuppSample.rd RPC_FS_OPEN "l/b" 0 0 [] SuppSample.linked) as [r s1] eqn:E1.
  assert (r = Ok (1, [])) as -> by (change r with (r, s1).1; rewrite <- E1; vm_compute; reflexivity).
  destruct (sfs SuppSample.rd RPC_FS_WRITE "" 1 0 [7] s1) as [r s2] eqn:E2.
  assert (s1 = (sfs SuppSample.rd RPC_FS_OPEN "l/b" 0 0 [] SuppSample.linked).2) as -> by (by rewrite E1).
  assert (r = Ok (1, [])) as -> by (change r with (r, s2).1; rewrite <- E2; vm_compute; reflexivity).
  eexists 1, _, s2. split; [reflexivity|]. split; [exact E2|]. change s2 with (Ok (1, []) : res SuppError (u32 * list u8), s2).2.
  rewrite <- E2. vm_compute. reflexivity.
Qed.

(** An FS message moves no data: [handle_msg] calls [fs] with an empty
    buffer and drops the bytes it returns, so a WRITE to an open file succeeds
    and changes no file, and the answer to a READ is the request. *)
Theorem fs_message_moves_no_data read_dir now utf8_lossy bounce ck hdr params sz s i :
  bytes_ok bounce -> zlen bounce < 2 ^ 63 -> 0 <= ck < 2 ^ 64 - 32 -> decode_msg bounce ck = Ok (hdr, params, sz) ->
  m_cmd hdr = RPC_CMD_FS -> 1 <= m_num_params hdr ->
  let p0 := nth 0 params MsgParam_default in
  as_u32 (p_a p0) = RPC_FS_WRITE \/ as_u32 (p_a p0) = RPC_FS_READ -> sp_files s !! as_u32 (p_b p0) = Some i ->
  exists bounce' s', handle_msg read_dir now utf8_lossy bounce ck s = (Ok (as_u32 sz), bounce', s') /\
    decode_msg bounce' ck = Ok (hdr, pad6 (take (Z.to_nat (m_num_params hdr)) params), sz) /\
    (forall off k, 0 <= off -> 0 <= k -> off + k <= ck \/ ck + sz <= off -> sub bounce' off k = sub bounce off k) /\
    forall q, node_at (sp_disk s') q = node_at (sp_disk s) q /\ file_at (sp_disk s') q = file_at (sp_disk s) q.
Proof.
  intros Hb Hl Hc Hd Hcmd Hn p0 Hop Hf.
  destruct (decode_msg_wf _ _ _ _ _ Hb Hl Hc Hd) as (Hwf & Hps & Hlen & H6 & Ha & -> & Hfit).
  set (ps := take (Z.to_nat (m_num_params hdr)) params).
  assert (zlen ps = m_num_params hdr) as Hz by (unfold ps, zlen; rewrite length_take; lia).
  assert (Forall MsgParam_wf ps) as Hps' by (by apply list.Forall_take).
  assert (write_msg bounce ck hdr ps = Ok (splice bounce ck (hdr_bytes hdr ++ params_bytes ps), byte_size hdr)) as Hw
    by (apply write_msg_image; lia).
  assert (zlen (hdr_bytes hdr ++ params_bytes ps) = byte_size hdr) as Hi
    by (rewrite zlen_app, zlen_hdr_bytes, zlen_params_bytes, Hz; done).
  assert (exists r s', sfs read_dir (as_u32 (p_a p0)) (name_from_tmem utf8_lossy bounce params (m_num_params hdr))
      (as_u32 (p_b p0)) (as_u32 (p_c p0)) [] s = (Ok r, s') /\
      forall q, node_at (sp_disk s') q = node_at (sp_disk s) q /\ file_at (sp_disk s') q = file_at (sp_disk s) q)
    as ([n bs] & s' & Es & Hk).
  { destruct Hop as [-> | ->]; cbn; rewrite Hf; [|by eexists _, s].
    eexists _, _. split; [done|]. intros q. split; [done|]. unfold file_at.
    change (node_at (sp_disk _) q) with (node_at (sp_disk s) q).
    destruct (node_at (sp_disk s) q) as [[|j|]|]; try done. f_equal. unfold inode_data. cbn.
    destruct (decide (i = j)) as [<-|Hne]; [by rewrite lookup_insert_eq|by rewrite lookup_insert_ne]. }
  exists (splice bounce ck (hdr_bytes hdr ++ params_bytes ps)), s'. split_and!; [|by apply decode_msg_image; try lia| |done].
  - unfold handle_msg. rewrite Hd. cbn iota beta. rewrite Hcmd. change (RPC_CMD_FS =? RPC_CMD_GET_TIME) with false.
    change (RPC_CMD_FS =? RPC_CMD_LOAD_TA) with false. change (RPC_CMD_FS =? RPC_CMD_FS) with true. cbn iota.
    rewrite (proj2 (Z.ltb_ge _ _)) by lia. fold p0. rewrite Es.
    destruct Hop as [-> | ->]; cbn [orb Z.eqb Pos.eqb RPC_FS_WRITE RPC_FS_READ RPC_FS_CREATE RPC_FS_OPEN];
      rewrite first_n_ok by (unfold zlen; lia); cbn [rbind]; fold ps; by rewrite Hw.
  - intros off k ???. pose proof (zlen_nonneg (hdr_bytes hdr ++ params_bytes ps)). apply sub_splice_other; lia.
Qed.

Lemma fs_message_moves_no_data_witness :
  exists bounce' s', handle_msg SuppSample.rd (0, 0) SuppSample.utf8 SuppSample.write_msg_pool 8 SuppSample.opened =
      (Ok 96, bounce', s') /\ file_at (sp_disk s') ["w"; "r"; "a"] = Some [1; 2; 3].
Proof.
  destruct (fs_message_moves_no_data SuppSample.rd (0, 0) SuppSample.utf8 SuppSample.write_msg_pool 8
    (SuppSample.hdr RPC_CMD_FS 2)
    (pad6 [MsgParam_value ATTR_TYPE_VALUE_INPUT RPC_FS_WRITE 1 0; MsgParam_tmem ATTR_TYPE_TMEM_INPUT 128 4 0]) 96
    SuppSample.opened 0) as (b & s' & H1 & _ & _ & Hk).
  - by_compute.
  - vm_compute. reflexivity.
  - lia.
  - vm_compute. reflexivity.
  - reflexivity.
  - vm_compute. discriminate.
  - left. reflexivity.
  - reflexivity.
  - exists b, s'. split; [exact H1|]. destruct (Hk ["w"; "r"; "a"]) as [_ ->]. vm_compute. reflexivity.
Defined.

(** A LOAD_TA request with one parameter: the image goes right after the
    message of one parameter, and the answer, which has two, is written over its
    first 32 bytes.  The guest is told the place of a file that starts with the
    answer's own second parameter. *)
Theorem load_ta_one_param_corrupts :
  exists bounce', (handle_msg SuppSample.rd (0, 0) SuppSample.utf8 SuppSample.load_pool 8
      SuppSample.ta_supp).1 = (Ok 104, bounce') /\
    decode_msg bounce' 8 = Ok (SuppSample.hdr RPC_CMD_LOAD_TA 2,
      pad6 [MsgParam_value ATTR_TYPE_VALUE_INPUT 0 5 0; MsgParam_tmem ATTR_TYPE_TMEM_OUTPUT 72 40 72], 96) /\
    sub bounce' 72 40 = param_bytes (MsgParam_tmem ATTR_TYPE_TMEM_OUTPUT 72 40 72) ++ List.repeat 0xAA 8.
Proof.
  exists (handle_msg SuppSample.rd (0, 0) SuppSample.utf8 SuppSample.load_pool 8
            SuppSample.ta_supp).1.2.
  split; [vm_compute; reflexivity|]. split; vm_compute; reflexivity.
Qed.
