(* ===== verification/LoadTa.v ===== *)
(** A TA image across the whole stack: the guest asks for it (ProtoCmd), the
    client's transport hands the request to its hook (Client), the hook is the
    supplicant (Supplicant), and the guest reads the answer back. *)
From Stdlib Require Import ZArith Lia Ascii String.
From stdpp Require Import base list numbers strings gmap.
From S2P Require Import Prelude Proto Abi Storage HostFs Supplicant ProtoCmd Client.

Local Open Scope Z_scope.
Local Open Scope rust_scope.

(** * The name of the image *)

Lemma uuid_words_bytes u : uuid_ok u -> to_be 8 (uuid_to_words u).1 ++ to_be 8 (uuid_to_words u).2 = u.
Proof.
  intros [Hl Hb]. cbn [fst snd uuid_to_words].
  fold (pack_fields (from_be (Prelude.sub u 0 4)) (from_be (Prelude.sub u 4 2)) (from_be (Prelude.sub u 6 2))).
  assert (forall o n, 0 <= o -> 0 <= n -> o + n <= 16 -> 0 <= from_be (Prelude.sub u o n) < 256 ^ n) as B.
  { intros o n ???. pose proof (from_be_bound (Prelude.sub u o n) (bytes_ok_sub _ _ _ Hb)) as Hbd.
    by rewrite zlen_sub in Hbd by (unfold zlen; lia). }
  rewrite pack_fields_sum by (unfold in_width; apply B; lia).
  assert (from_be (Prelude.sub u 0 4) * 2 ^ 32 + from_be (Prelude.sub u 4 2) * 2 ^ 16 + from_be (Prelude.sub u 6 2) =
          from_be (Prelude.sub u 0 8)) as ->.
  { assert (Prelude.sub u 0 8 = (Prelude.sub u 0 4 ++ Prelude.sub u 4 2) ++ Prelude.sub u 6 2) as ->
      by (do 16 (destruct u as [|? u]; [discriminate|]); reflexivity).
    rewrite !from_be_app, !zlen_sub by (unfold zlen; lia). lia. }
  rewrite !to_from_be by (auto using bytes_ok_sub; symmetry; apply length_sub; unfold zlen; lia).
  do 16 (destruct u as [|? u]; [discriminate|]). destruct u; [reflexivity|discriminate].
Qed.

Lemma hex32_app a b : hex32 (a ++ b) = hex32 a +:+ hex32 b.
Proof. induction a as [|x a IH]; [done|]. cbn [hex32 app]. by rewrite IH. Qed.

Lemma uuid_hex u : uuid_ok u -> hex16 (uuid_to_words u).1 +:+ hex16 (uuid_to_words u).2 = hex32 u.
Proof. intros Hu. unfold hex16. rewrite <- hex32_app. by rewrite uuid_words_bytes. Qed.

(** * The exchange *)

(** The image of a message of two parameters. *)
Definition msg2 (hdr : MsgArgHdr) (ps : list MsgParam) : list u8 := hdr_bytes hdr ++ params_bytes ps.

Definition with_ret (hdr : MsgArgHdr) (ret : u32) : MsgArgHdr :=
  {| m_cmd := m_cmd hdr; m_func := m_func hdr; m_session := m_session hdr; m_cancel_id := m_cancel_id hdr;
     m_pad := m_pad hdr; m_ret := ret; m_ret_origin := m_ret_origin hdr; m_num_params := m_num_params hdr |}.

Definition reply_params (uuid : Uuid) (size : u64) : list MsgParam :=
  [MsgParam_value ATTR_TYPE_VALUE_INPUT (uuid_to_words uuid).1 (uuid_to_words uuid).2 0;
   MsgParam_tmem ATTR_TYPE_TMEM_OUTPUT load_ta_dest size load_ta_dest].

Lemma reply_params_wf uuid size : uuid_ok uuid -> in_width 64 size -> Forall MsgParam_wf (reply_params uuid size).
Proof.
  intros Hu Hs. destruct (uuid_from_to_words uuid Hu) as (H1 & H2 & _).
  unfold reply_params, MsgParam_wf. cbn [p_attr p_a p_b p_c MsgParam_value MsgParam_tmem].
  assert (in_width 64 0 /\ in_width 64 1 /\ in_width 64 0xa /\ in_width 64 load_ta_dest) as (? & ? & ? & ?) by by_compute.
  rewrite !Forall_cons_iff. by split_and!.
Qed.

(** A message of two parameters at the guest's RPC window reads back. *)
Lemma rpc_window pool hdr ps : zlen pool = BOUNCE_POOL_SIZE -> MsgArgHdr_wf hdr -> Forall MsgParam_wf ps ->
  m_num_params hdr = 2 -> zlen ps = 2 ->
  write_msg pool RPC_COOKIE hdr ps = Ok (splice pool RPC_COOKIE (msg2 hdr ps), 96) /\
  decode_msg (splice pool RPC_COOKIE (msg2 hdr ps)) RPC_COOKIE = Ok (hdr, pad6 ps, 96) /\
  zlen (splice pool RPC_COOKIE (msg2 hdr ps)) = BOUNCE_POOL_SIZE /\ zlen (msg2 hdr ps) = 96.
Proof.
  intros Hp Hwf Hps Hn Hl. assert (byte_size hdr = 96) as Hbs by (unfold byte_size; by rewrite Hn).
  assert (zlen (msg2 hdr ps) = 96) as Hz by (unfold msg2; rewrite zlen_app, zlen_hdr_bytes, zlen_params_bytes; lia).
  unfold BOUNCE_POOL_SIZE, RPC_COOKIE in *. unfold msg2 in *. rewrite <- Hbs at 1 2.
  split_and!; [apply write_msg_image|apply decode_msg_image|rewrite zlen_splice; lia|done]; try done; lia.
Qed.

Lemma with_ret_wf ret : in_width 32 ret -> MsgArgHdr_wf (with_ret load_ta_hdr ret).
Proof.
  intros Hr. unfold MsgArgHdr_wf. cbn -[in_width]. rewrite !Forall_cons_iff.
  assert (in_width 32 0 /\ in_width 32 2 /\ in_width 32 RPC_CMD_LOAD_TA) as (? & ? & ?) by by_compute. by split_and!.
Qed.

(** What the guest takes from a reply in its window. *)
Lemma take_reply pool uuid image ret :
  zlen pool = BOUNCE_POOL_SIZE -> uuid_ok uuid -> zlen image <= LOAD_TA_CAP -> in_width 32 ret ->
  take_load_ta (splice (splice pool load_ta_dest image) RPC_COOKIE
                  (msg2 (with_ret load_ta_hdr ret) (reply_params uuid (zlen image)))) =
    if ret =? 0 then Ok image else Err ret.
Proof.
  intros Hp Hu Hi Hr. pose proof (zlen_nonneg image). unfold LOAD_TA_CAP in Hi.
  assert (zlen (splice pool load_ta_dest image) = BOUNCE_POOL_SIZE) as Hz.
  { rewrite <- Hp. apply zlen_splice; unfold BOUNCE_POOL_SIZE, load_ta_dest, RPC_COOKIE in *; lia. }
  destruct (rpc_window (splice pool load_ta_dest image) (with_ret load_ta_hdr ret) (reply_params uuid (zlen image)))
    as (_ & Hd & Hz2 & Hm);
    [exact Hz|by apply with_ret_wf|apply reply_params_wf; [done|unfold in_width; lia]|reflexivity|reflexivity|].
  unfold take_load_ta. rewrite Hd. cbn [map_err rbind m_ret with_ret].
  destruct (Z.eqb_spec ret 0) as [->|]; cbn [negb]; [|done].
  change (m_num_params (with_ret load_ta_hdr 0) <? 2) with false. cbn iota.
  change (pad6 _ !! 1%nat) with (Some (MsgParam_tmem ATTR_TYPE_TMEM_OUTPUT load_ta_dest (zlen image) load_ta_dest)).
  cbn [or_panic rbind p_a p_b MsgParam_tmem]. rewrite Hz2.
  rewrite checked_add_ok by (unfold load_ta_dest, RPC_COOKIE; lia). cbn [ok_or rbind].
  unfold load_ta_dest, RPC_COOKIE, BOUNCE_POOL_SIZE in *. decide_guards. cbn [orb].
  unfold index_range. rewrite get_range_some by lia. cbn [or_panic].
  f_equal. replace (_ - _) with (zlen image) by lia. rewrite sub_splice_other by lia. apply sub_splice_same; lia.
Qed.

Lemma take_failed pool ps ret :
  zlen pool = BOUNCE_POOL_SIZE -> Forall MsgParam_wf ps -> zlen ps = 2 -> in_width 32 ret -> ret <> 0 ->
  take_load_ta (splice pool RPC_COOKIE (msg2 (with_ret load_ta_hdr ret) ps)) = Err ret.
Proof.
  intros Hp Hps Hl Hr Hne.
  destruct (rpc_window pool (with_ret load_ta_hdr ret) ps Hp (with_ret_wf _ Hr) Hps eq_refl Hl) as (_ & Hd & _).
  unfold take_load_ta. rewrite Hd. cbn [map_err rbind m_ret with_ret].
  by rewrite (proj2 (Z.eqb_neq _ _) Hne).
Qed.

Section Stack.
Context (read_dir : Disk -> string -> option (list (list u8))) (now : u32 * u32) (utf8_lossy : list u8 -> string).

(** [on_rpc = Some(rustee_supplicant::rpc_hook)] with [s] installed. *)
Definition hook (s : Supplicant) (bounce : list u8) (ck : u64) : res u32 u32 * list u8 :=
  (rpc_hook read_dir now utf8_lossy bounce ck (Some s)).1.

(** The file a UUID names. *)
Definition ta_file (s : Supplicant) (uuid : Uuid) : option (list u8) :=
  disk_read (sp_disk s) (join (join (sp_root s) "ta") (hex32 uuid +:+ ".ta")).

Lemma handle_load_ta pool uuid s : zlen pool = BOUNCE_POOL_SIZE -> uuid_ok uuid ->
  let req := splice pool RPC_COOKIE (msg2 load_ta_hdr (load_ta_params uuid LOAD_TA_CAP)) in
  handle_msg read_dir now utf8_lossy req RPC_COOKIE s =
    match ta_file s uuid with
    | None => (Err SNotFound, req, s)
    | Some image =>
        if LOAD_TA_CAP <? zlen image then (Err SIo, req, s)
        else (Ok (96 + zlen image),
              splice pool RPC_COOKIE (msg2 load_ta_hdr (reply_params uuid (zlen image)) ++ image), s)
    end.
Proof.
  intros Hp Hu req. assert (MsgArgHdr_wf load_ta_hdr) as Hwf by by_compute.
  assert (in_width 64 LOAD_TA_CAP) as Hcap by by_compute.
  pose proof (load_ta_params_wf uuid LOAD_TA_CAP Hu Hcap) as Hps.
  destruct (rpc_window pool load_ta_hdr (load_ta_params uuid LOAD_TA_CAP) Hp Hwf Hps eq_refl eq_refl)
    as (_ & Hd & Hz & Hm).
  unfold handle_msg. fold req in Hd, Hz. rewrite Hd. cbn iota beta.
  change (m_cmd load_ta_hdr =? RPC_CMD_GET_TIME) with false. change (m_cmd load_ta_hdr =? RPC_CMD_LOAD_TA) with true.
  change (m_num_params load_ta_hdr <? 1) with false. change (2 <=? m_num_params load_ta_hdr) with true. cbn iota.
  change (nth 0 (pad6 (load_ta_params uuid LOAD_TA_CAP)) MsgParam_default) with
    (MsgParam_value ATTR_TYPE_VALUE_INPUT (uuid_to_words uuid).1 (uuid_to_words uuid).2 0).
  change (nth 1 (pad6 (load_ta_params uuid LOAD_TA_CAP)) MsgParam_default) with
    (MsgParam_tmem ATTR_TYPE_TMEM_OUTPUT load_ta_dest LOAD_TA_CAP 0).
  cbn [p_a p_b p_attr MsgParam_value MsgParam_tmem]. rewrite uuid_hex by done.
  unfold load_ta. fold (ta_file s uuid). destruct (ta_file s uuid) as [image|]; [|done]. cbn [ok_or].
  change (Z.land (RPC_COOKIE + 96 + 7) (Z.lxor 7 (2 ^ 64 - 1))) with load_ta_dest.
  change (is_tmem ATTR_TYPE_TMEM_OUTPUT) with true. change (load_ta_dest <=? load_ta_dest) with true. cbn [andb].
  destruct (Z.ltb_spec LOAD_TA_CAP (zlen image)) as [Hbig|Hfit]; [done|]. pose proof (zlen_nonneg image).
  assert (load_ta_dest + zlen image <= BOUNCE_POOL_SIZE) as He
    by (unfold load_ta_dest, RPC_COOKIE, LOAD_TA_CAP, BOUNCE_POOL_SIZE in *; lia).
  rewrite checked_add_ok by (unfold BOUNCE_POOL_SIZE in *; unfold load_ta_dest, RPC_COOKIE in *; lia).
  rewrite Hz. rewrite (proj2 (Z.ltb_ge _ _)) by lia.
  change (Z.max (m_num_params load_ta_hdr) 2) with 2.
  rewrite first_n_ok by by_compute. cbn [rbind].
  change (take (Z.to_nat 2) _) with (reply_params uuid (zlen image)). fold (with_ret load_ta_hdr 0).
  assert (zlen (splice req load_ta_dest image) = BOUNCE_POOL_SIZE) as Hz2
    by (rewrite zlen_splice; unfold load_ta_dest, RPC_COOKIE in *; lia).
  destruct (rpc_window (splice req load_ta_dest image) load_ta_hdr (reply_params uuid (zlen image)))
    as (Hw & _ & _ & Hm2);
    [exact Hz2|exact Hwf|apply reply_params_wf; [done|unfold in_width, LOAD_TA_CAP in *; lia]|reflexivity|reflexivity|].
  change {| m_cmd := _; m_func := _; m_session := _; m_cancel_id := _; m_pad := _; m_ret := 0;
            m_ret_origin := _; m_num_params := 2 |} with load_ta_hdr.
  rewrite Hw. unfold as_u32. rewrite wrap_id by (unfold in_width, load_ta_dest, RPC_COOKIE, LOAD_TA_CAP in *; lia).
  replace (load_ta_dest + zlen image - RPC_COOKIE) with (96 + zlen image) by (unfold load_ta_dest; lia).
  set (m := msg2 load_ta_hdr (reply_params uuid (zlen image))) in *.
  set (m0 := msg2 load_ta_hdr (load_ta_params uuid LOAD_TA_CAP)) in *.
  assert (splice (splice req load_ta_dest image) RPC_COOKIE m = splice pool RPC_COOKIE (m ++ image)) as Heq.
  { rewrite splice_before; [|by_compute|by rewrite Hm2|by rewrite Hz].
    rewrite <- (splice_adjacent req RPC_COOKIE load_ta_dest m image); [|by_compute|by rewrite Hm2|by rewrite Hz].
    rewrite <- (splice_adjacent pool RPC_COOKIE load_ta_dest m image); [|by_compute|by rewrite Hm2|by rewrite Hp].
    unfold req. rewrite splice_same; [done|by rewrite Hm, Hm2|by_compute|rewrite Hm, Hp; by_compute]. }
  by rewrite Heq.
Qed.

(** What the wire does to the two pools: the guest's request in the client's,
    and the client's answer back in the guest's. *)
Section Exchange.
Context {T : Type} (t : StreamTransport T) (hdr : PduHeader) (frame : CallFrame).
Context (gpool cpool : list u8) (uuid : Uuid) (s : Supplicant).
Hypotheses (Hg : zlen gpool = BOUNCE_POOL_SIZE) (Hc : zlen cpool = BOUNCE_POOL_SIZE) (Hu : uuid_ok uuid)
  (Hck : cookie frame = RPC_COOKIE) (Hbl : pdu_bounce_len hdr = 96) (Hon : on_rpc t = Some (hook s)).

Let params := load_ta_params uuid LOAD_TA_CAP.
Let req := msg2 load_ta_hdr params.

(** The answer [n] bytes of [cpool1] give, and the part of the pool kept. *)
Definition answered (n : u32) (cpool1 : list u8) (r : res u32 (list u8)) : Prop :=
  take_load_ta (splice (splice gpool RPC_COOKIE req) RPC_COOKIE (Prelude.sub cpool1 RPC_COOKIE n)) = r /\
  (forall off k, 0 <= off -> 0 <= k -> off + k <= RPC_COOKIE ->
     Prelude.sub cpool1 off k = Prelude.sub cpool off k).

Lemma params_facts : Forall MsgParam_wf params /\ MsgArgHdr_wf load_ta_hdr /\ zlen req = 96.
Proof.
  split; [apply load_ta_params_wf; [done|by_compute]|]. split; [by_compute|].
  unfold req, msg2. by rewrite zlen_app, zlen_hdr_bytes, zlen_params_bytes.
Qed.

Lemma splice_window (pool x : list u8) : zlen pool = BOUNCE_POOL_SIZE -> 96 <= zlen x <= 96 + LOAD_TA_CAP ->
  zlen (splice pool RPC_COOKIE x) = BOUNCE_POOL_SIZE /\
  (forall off k, 0 <= off -> 0 <= k -> off + k <= RPC_COOKIE ->
     Prelude.sub (splice pool RPC_COOKIE x) off k = Prelude.sub pool off k) /\
  Prelude.sub (splice pool RPC_COOKIE x) RPC_COOKIE (zlen x) = x.
Proof.
  intros Hp Hx. unfold RPC_COOKIE, BOUNCE_POOL_SIZE, LOAD_TA_CAP in *. split_and!.
  - rewrite zlen_splice; lia.
  - intros. apply sub_splice_other; lia.
  - apply sub_splice_same; lia.
Qed.

Lemma serve_fail r : handle_msg read_dir now utf8_lossy (splice cpool RPC_COOKIE req) RPC_COOKIE s =
    (Err r, splice cpool RPC_COOKIE req, s) ->
  exists n cpool1, serve_rpc t hdr frame (splice cpool RPC_COOKIE req) = (Ok n, cpool1) /\
    answered n cpool1 (Err TEEC_ERROR_COMMUNICATION).
Proof.
  intros E. destruct params_facts as (Hps & Hwf & Hm).
  destruct (rpc_window cpool load_ta_hdr params Hc Hwf Hps eq_refl eq_refl) as (_ & Hdc & Hzc & _).
  fold req in Hdc, Hzc. set (h' := with_ret load_ta_hdr TEEC_ERROR_COMMUNICATION).
  assert (MsgArgHdr_wf h') as Hwf' by by_compute.
  destruct (rpc_window (splice cpool RPC_COOKIE req) h' params Hzc Hwf' Hps eq_refl eq_refl) as (Hw & _ & _ & Hm').
  destruct (splice_window cpool req Hc ltac:(rewrite Hm; by_compute)) as (_ & Hk & _).
  destruct (splice_window _ (msg2 h' params) Hzc ltac:(rewrite Hm'; by_compute)) as (_ & Hk' & Hs).
  destruct (splice_window gpool req Hg ltac:(rewrite Hm; by_compute)) as (Hzg & _ & _).
  exists 96, (splice (splice cpool RPC_COOKIE req) RPC_COOKIE (msg2 h' params)). split; [|split].
  - unfold serve_rpc. rewrite Hon, Hck. unfold hook, rpc_hook. rewrite E. cbn [map_err fst].
    unfold stamp_rpc_ret. rewrite Hdc. change (TEE_ERROR_COMMUNICATION_CODE =? 0) with false. cbn iota.
    rewrite first_n_ok by by_compute. cbn [rbind].
    change (take (Z.to_nat (m_num_params _)) _) with params.
    change {| m_cmd := _; m_func := _; m_session := _; m_cancel_id := _; m_pad := _; m_ret := _;
              m_ret_origin := _; m_num_params := _ |} with h'.
    by rewrite Hw, Hbl.
  - rewrite Hm' in Hs. rewrite Hs.
    apply take_failed; [exact Hzg|exact Hps|reflexivity|by_compute|discriminate].
  - intros. by rewrite Hk', Hk.
Qed.

Lemma serve_image image : zlen image <= LOAD_TA_CAP ->
  let m := msg2 load_ta_hdr (reply_params uuid (zlen image)) ++ image in
  handle_msg read_dir now utf8_lossy (splice cpool RPC_COOKIE req) RPC_COOKIE s =
    (Ok (96 + zlen image), splice cpool RPC_COOKIE m, s) ->
  exists n cpool1, serve_rpc t hdr frame (splice cpool RPC_COOKIE req) = (Ok n, cpool1) /\
    answered n cpool1 (Ok image).
Proof.
  intros Hfit m E. pose proof (zlen_nonneg image). destruct params_facts as (Hps & Hwf & Hm).
  set (m0 := msg2 load_ta_hdr (reply_params uuid (zlen image))) in *.
  assert (zlen m0 = 96) as Hm0 by (unfold m0, msg2; by rewrite zlen_app, zlen_hdr_bytes, zlen_params_bytes).
  assert (zlen m = 96 + zlen image) as Hz by (unfold m; rewrite zlen_app; lia).
  destruct (splice_window gpool req Hg ltac:(rewrite Hm; by_compute)) as (Hzg & _ & _).
  destruct (splice_window cpool m Hc ltac:(lia)) as (_ & Hk & Hs).
  exists (96 + zlen image), (splice cpool RPC_COOKIE m). split; [|split; [|exact Hk]].
  - unfold serve_rpc. rewrite Hon, Hck. unfold hook, rpc_hook. rewrite E. cbn [map_err fst].
    by rewrite (proj2 (Z.ltb_lt _ _)) by lia.
  - rewrite <- Hz, Hs. unfold m.
    rewrite <- (splice_before _ RPC_COOKIE load_ta_dest m0 image); [|by_compute|by rewrite Hm0|].
    + exact (take_reply (splice gpool RPC_COOKIE req) uuid image 0 Hzg Hu Hfit ltac:(by_compute)).
    + rewrite Hzg. unfold load_ta_dest, RPC_COOKIE, BOUNCE_POOL_SIZE, LOAD_TA_CAP in *. lia.
Qed.
End Exchange.

(** C21. Loading a TA across the stack.  The guest writes its request into its
    pool and sends the 96 bytes; the client receives them into its own pool,
    and its transport serves the RPC with the supplicant's hook; the reply
    window goes back into the guest's pool.  Whatever both pools held, the
    guest then reads exactly the file [ta/<uuid in hex>.ta] of the
    supplicant's directory, and an error code when there is no such file or it
    exceeds the 2 MiB the guest announced: never a stale or truncated image.
    Nothing below the window changes in the client's pool. *)
Theorem load_ta_end_to_end {T : Type} (t : StreamTransport T) (hdr : PduHeader) (frame : CallFrame)
  (gpool cpool : list u8) uuid s :
  zlen gpool = BOUNCE_POOL_SIZE -> zlen cpool = BOUNCE_POOL_SIZE -> uuid_ok uuid ->
  cookie frame = RPC_COOKIE -> pdu_bounce_len hdr = 96 -> on_rpc t = Some (hook s) ->
  exists gpool1 cpool1 n, pack_load_ta gpool uuid = Ok (RPC_COOKIE, 96, gpool1) /\
    serve_rpc t hdr frame (splice cpool RPC_COOKIE (Prelude.sub gpool1 RPC_COOKIE 96)) = (Ok n, cpool1) /\
    take_load_ta (splice gpool1 RPC_COOKIE (Prelude.sub cpool1 RPC_COOKIE n)) =
      match ta_file s uuid with
      | Some image => if LOAD_TA_CAP <? zlen image then Err TEEC_ERROR_COMMUNICATION else Ok image
      | None => Err TEEC_ERROR_COMMUNICATION
      end /\
    (forall off k, 0 <= off -> 0 <= k -> off + k <= RPC_COOKIE -> Prelude.sub cpool1 off k = Prelude.sub cpool off k).
Proof.
  intros Hg Hc Hu Hck Hbl Hon. pose proof (handle_load_ta cpool uuid s Hc Hu) as Hh. cbv zeta in Hh.
  destruct (params_facts uuid Hu) as (_ & _ & Hm).
  set (req := msg2 load_ta_hdr (load_ta_params uuid LOAD_TA_CAP)) in *.
  destruct (splice_window gpool req Hg ltac:(rewrite Hm; by_compute)) as (_ & _ & Hs). rewrite Hm in Hs.
  exists (splice gpool RPC_COOKIE req). rewrite Hs.
  assert (exists n cpool1, serve_rpc t hdr frame (splice cpool RPC_COOKIE req) = (Ok n, cpool1) /\
    answered gpool cpool uuid n cpool1 match ta_file s uuid with
      | Some image => if LOAD_TA_CAP <? zlen image then Err TEEC_ERROR_COMMUNICATION else Ok image
      | None => Err TEEC_ERROR_COMMUNICATION
      end) as (n & cpool1 & Hserve & Ht & Hk).
  { destruct (ta_file s uuid) as [image|]; [|by eapply serve_fail].
    destruct (Z.ltb_spec LOAD_TA_CAP (zlen image)); [by eapply serve_fail|by eapply serve_image]. }
  exists cpool1, n. split; [exact (pack_load_ta_image gpool uuid Hg)|]. split; [exact Hserve|]. split; [exact Ht|exact Hk].
Qed.
End Stack.

(** * A concrete exchange *)

Module Ta.
Definition uuid : Uuid := [0x8d;0x82;0x5f;0x6a;0x1c;0x4b;0x4c;0x9f;0x9e;0x3a;0x2b;0x7c;0x6d;0x5e;0x4f;0x30].
Definition disk : Disk :=
  {| d_cwd := ["srv"]; d_nodes := {[["srv"] := NDir; ["srv"; "r"] := NDir; ["srv"; "r"; "ta"] := NDir;
       ["srv"; "r"; "ta"; "8d825f6a1c4b4c9f9e3a2b7c6d5e4f30.ta"] := NFile 0]};
     d_inodes := {[0%nat := [0x7f; 0x45]]}; d_next := 1 |}.
Definition supp : Supplicant := {| sp_root := "r"; sp_disk := disk; sp_files := ∅; sp_dirs := ∅; sp_next_fd := 1 |}.
Definition rd : Disk -> string -> option (list (list u8)) := fun _ _ => None.
Definition utf8 : list u8 -> string := fun _ => EmptyString.
Definition transport : StreamTransport unit :=
  {| sock := tt; st_seq := 0; yielding := true; on_rpc := Some (hook rd (0, 0) utf8 supp) |}.
Definition frame : CallFrame := set_cookie CallFrame_default RPC_COOKIE.
Definition hdr : PduHeader := PduHeader_yielding KIND_RPC 1 96.
End Ta.

Lemma load_ta_end_to_end_witness :
  exists gpool1 cpool1 n, pack_load_ta (zeros BOUNCE_POOL_SIZE) Ta.uuid = Ok (RPC_COOKIE, 96, gpool1) /\
    serve_rpc Ta.transport Ta.hdr Ta.frame (splice (zeros BOUNCE_POOL_SIZE) RPC_COOKIE (Prelude.sub gpool1 RPC_COOKIE 96)) =
      (Ok n, cpool1) /\
    take_load_ta (splice gpool1 RPC_COOKIE (Prelude.sub cpool1 RPC_COOKIE n)) = Ok [0x7f; 0x45].
Proof.
  destruct (load_ta_end_to_end Ta.rd (0, 0) Ta.utf8 Ta.transport Ta.hdr Ta.frame (zeros BOUNCE_POOL_SIZE)
              (zeros BOUNCE_POOL_SIZE) Ta.uuid Ta.supp) as (g & c & n & H1 & H2 & H3 & _).
  - apply zlen_zeros. discriminate.
  - apply zlen_zeros. discriminate.
  - by_compute.
  - reflexivity.
  - reflexivity.
  - reflexivity.
  - exists g, c, n. split; [exact H1|]. split; [exact H2|]. rewrite H3. vm_compute. reflexivity.
Defined.
