(* ===== verification/UteeProp.v ===== *)
(** The property sets of a TA (src/crates/rustee-utee/src/property.rs): the table
    of names and kinds, the getters of each kind, and that the two agree. *)
From Stdlib Require Import ZArith Lia String.
From stdpp Require Import base list numbers strings.
From S2P Require Import Prelude Abi Header.

Local Open Scope Z_scope.
Local Open Scope rust_scope.

(** * The table *)

Definition PROPSET_TEE : usize := 0xFFFFFFFD.
Definition PROPSET_CLIENT : usize := 0xFFFFFFFE.
Definition PROPSET_TA : usize := 0xFFFFFFFF.

Definition INTERNAL_CORE_VERSION : u32 := 0x01030100.
Definition PROP_MAX_BIGINT_BITS : u32 := 4096.
Definition PROT_LEVEL_NONE : u32 := 0.

Inductive Kind := KStr | KBool | KU32 | KU64 | KUuid | KIdentity.
#[export] Instance Kind_eq_dec : EqDecision Kind.
Proof. solve_decision. Defined.

Record Prop_ := { pr_set : usize; pr_name : string; pr_kind : Kind }.

Definition PROPS : list Prop_ := [
  {| pr_set := PROPSET_TA; pr_name := "gpd.ta.appID"; pr_kind := KUuid |};
  {| pr_set := PROPSET_TA; pr_name := "gpd.ta.singleInstance"; pr_kind := KBool |};
  {| pr_set := PROPSET_TA; pr_name := "gpd.ta.multiSession"; pr_kind := KBool |};
  {| pr_set := PROPSET_TA; pr_name := "gpd.ta.instanceKeepAlive"; pr_kind := KBool |};
  {| pr_set := PROPSET_TA; pr_name := "gpd.ta.dataSize"; pr_kind := KU32 |};
  {| pr_set := PROPSET_TA; pr_name := "gpd.ta.stackSize"; pr_kind := KU32 |};
  {| pr_set := PROPSET_TA; pr_name := "gpd.ta.version"; pr_kind := KStr |};
  {| pr_set := PROPSET_TA; pr_name := "gpd.ta.description"; pr_kind := KStr |};
  {| pr_set := PROPSET_TA; pr_name := "gpd.ta.endian"; pr_kind := KU32 |};
  {| pr_set := PROPSET_TA; pr_name := "gpd.ta.doesNotCloseHandleOnCorruptObject"; pr_kind := KBool |};
  {| pr_set := PROPSET_CLIENT; pr_name := "gpd.client.identity"; pr_kind := KIdentity |};
  {| pr_set := PROPSET_CLIENT; pr_name := "gpd.client.endian"; pr_kind := KU32 |};
  {| pr_set := PROPSET_TEE; pr_name := "gpd.tee.apiversion"; pr_kind := KStr |};
  {| pr_set := PROPSET_TEE; pr_name := "gpd.tee.internalCore.version"; pr_kind := KU32 |};
  {| pr_set := PROPSET_TEE; pr_name := "gpd.tee.description"; pr_kind := KStr |};
  {| pr_set := PROPSET_TEE; pr_name := "gpd.tee.deviceID"; pr_kind := KUuid |};
  {| pr_set := PROPSET_TEE; pr_name := "gpd.tee.systemTime.protectionLevel"; pr_kind := KU32 |};
  {| pr_set := PROPSET_TEE; pr_name := "gpd.tee.TAPersistentTime.protectionLevel"; pr_kind := KU32 |};
  {| pr_set := PROPSET_TEE; pr_name := "gpd.tee.arith.maxBigIntSize"; pr_kind := KU32 |};
  {| pr_set := PROPSET_TEE; pr_name := "gpd.tee.trustedStorage.antiRollback.protectionLevel"; pr_kind := KU32 |};
  {| pr_set := PROPSET_TEE; pr_name := "gpd.tee.cryptography.ecc"; pr_kind := KBool |};
  {| pr_set := PROPSET_TEE; pr_name := "gpd.tee.cryptography.nist"; pr_kind := KBool |};
  {| pr_set := PROPSET_TEE; pr_name := "gpd.tee.cryptography.bsi-r"; pr_kind := KBool |};
  {| pr_set := PROPSET_TEE; pr_name := "gpd.tee.cryptography.bsi-t"; pr_kind := KBool |};
  {| pr_set := PROPSET_TEE; pr_name := "gpd.tee.cryptography.ietf"; pr_kind := KBool |};
  {| pr_set := PROPSET_TEE; pr_name := "gpd.tee.cryptography.rsa"; pr_kind := KBool |};
  {| pr_set := PROPSET_TEE; pr_name := "gpd.tee.trustedos.implementation.version"; pr_kind := KStr |};
  {| pr_set := PROPSET_TEE; pr_name := "gpd.tee.trustedos.implementation.description"; pr_kind := KStr |};
  {| pr_set := PROPSET_TEE; pr_name := "gpd.tee.firmware.implementation.version"; pr_kind := KStr |};
  {| pr_set := PROPSET_TEE; pr_name := "gpd.tee.firmware.implementation.description"; pr_kind := KStr |} ].

(** [Identity] of param.rs *)
Record Identity := { id_login : u32; id_uuid : Uuid }.

Record PropCtx := { pc_ta : TaProperties; pc_ta_version : string; pc_ta_description : string; pc_client : Identity }.

Definition PropCtx_new : PropCtx := {|
  pc_ta := {| tp_uuid := zeros 16; stack_size := 4096; data_size := 4096; single_instance := true;
              multi_session := false; instance_keep_alive := false; endian := 0; ta_version := 1 |};
  pc_ta_version := "0.1.0"; pc_ta_description := "RUSTEE TA";
  pc_client := {| id_login := 0; id_uuid := zeros 16 |} |}.

(** * Getters *)

Definition find_prop (set : usize) (name : string) : option Prop_ :=
  List.find (fun p => (pr_set p =? set) && String.eqb (pr_name p) name) PROPS.

Definition is_propset (handle : usize) : bool :=
  (handle =? PROPSET_TA) || (handle =? PROPSET_CLIENT) || (handle =? PROPSET_TEE).

(** One arm of a match on names: the name, and the guard on the set. *)
Definition arm (name want : string) (set want_set : usize) : bool := String.eqb name want && (set =? want_set).

Definition get_bool (ctx : PropCtx) (set : usize) (name : string) : res u32 bool :=
  if arm name "gpd.ta.singleInstance" set PROPSET_TA then Ok (single_instance (pc_ta ctx))
  else if arm name "gpd.ta.multiSession" set PROPSET_TA then Ok (multi_session (pc_ta ctx))
  else if arm name "gpd.ta.instanceKeepAlive" set PROPSET_TA then Ok (instance_keep_alive (pc_ta ctx))
  else if arm name "gpd.ta.doesNotCloseHandleOnCorruptObject" set PROPSET_TA then Ok false
  else if (String.eqb name "gpd.tee.cryptography.ecc" || String.eqb name "gpd.tee.cryptography.nist"
           || String.eqb name "gpd.tee.cryptography.bsi-r" || String.eqb name "gpd.tee.cryptography.bsi-t"
           || String.eqb name "gpd.tee.cryptography.ietf" || String.eqb name "gpd.tee.cryptography.rsa")
          && (set =? PROPSET_TEE) then Ok false
  else Err TEE_ERROR_ITEM_NOT_FOUND.

Definition bool_u32 (b : bool) : u32 := if b then 1 else 0.

Definition get_u32 (ctx : PropCtx) (set : usize) (name : string) : res u32 u32 :=
  let? p := ok_or (find_prop set name) TEE_ERROR_ITEM_NOT_FOUND in
  match pr_kind p with
  | KU32 =>
      if String.eqb name "gpd.ta.dataSize" then Ok (data_size (pc_ta ctx))
      else if String.eqb name "gpd.ta.stackSize" then Ok (stack_size (pc_ta ctx))
      else if String.eqb name "gpd.ta.endian" then Ok (endian (pc_ta ctx))
      else if String.eqb name "gpd.client.endian" then Ok 0
      else if String.eqb name "gpd.tee.internalCore.version" then Ok INTERNAL_CORE_VERSION
      else if String.eqb name "gpd.tee.systemTime.protectionLevel" then Ok PROT_LEVEL_NONE
      else if String.eqb name "gpd.tee.TAPersistentTime.protectionLevel" then Ok PROT_LEVEL_NONE
      else if String.eqb name "gpd.tee.arith.maxBigIntSize" then Ok PROP_MAX_BIGINT_BITS
      else if String.eqb name "gpd.tee.trustedStorage.antiRollback.protectionLevel" then Ok PROT_LEVEL_NONE
      else Err TEE_ERROR_ITEM_NOT_FOUND
  | KBool => let? b := get_bool ctx set name in Ok (bool_u32 b)
  | _ => Err TEE_ERROR_ITEM_NOT_FOUND
  end.

Definition get_str (ctx : PropCtx) (set : usize) (name : string) : res u32 string :=
  if arm name "gpd.ta.version" set PROPSET_TA then Ok (pc_ta_version ctx)
  else if arm name "gpd.ta.description" set PROPSET_TA then Ok (pc_ta_description ctx)
  else if arm name "gpd.tee.apiversion" set PROPSET_TEE then Ok "1.3.1"
  else if arm name "gpd.tee.description" set PROPSET_TEE
  then Ok "RUSTEE: GPD_SPE_010 v1.3.1 identifiers; Internal Core not complete"
  else if arm name "gpd.tee.trustedos.implementation.version" set PROPSET_TEE then Ok "0.1.0"
  else if arm name "gpd.tee.trustedos.implementation.description" set PROPSET_TEE then Ok "RUSTEE"
  else if arm name "gpd.tee.firmware.implementation.version" set PROPSET_TEE then Ok "0.1.0"
  else if arm name "gpd.tee.firmware.implementation.description" set PROPSET_TEE then Ok "RUSTEE"
  else Err TEE_ERROR_ITEM_NOT_FOUND.

Definition get_u64 (ctx : PropCtx) (set : usize) (name : string) : res u32 u64 :=
  match get_u32 ctx set name with
  | Ok v => Ok v
  | Err _ => Err TEE_ERROR_ITEM_NOT_FOUND
  | Panic => Panic
  end.

Definition get_uuid (ctx : PropCtx) (set : usize) (name : string) : res u32 Uuid :=
  if arm name "gpd.ta.appID" set PROPSET_TA then Ok (tp_uuid (pc_ta ctx))
  else if arm name "gpd.tee.deviceID" set PROPSET_TEE then Ok (zeros 16)
  else Err TEE_ERROR_ITEM_NOT_FOUND.

Definition get_identity (ctx : PropCtx) (set : usize) (name : string) : res u32 Identity :=
  if arm name "gpd.client.identity" set PROPSET_CLIENT then Ok (pc_client ctx)
  else Err TEE_ERROR_ITEM_NOT_FOUND.

Definition copy_str (s : string) (out : list u8) : res u32 (usize * list u8) :=
  let need := zlen (str s) + 1 in
  if zlen out <? need then Err TEE_ERROR_SHORT_BUFFER
  else Ok (need, splice out 0 (str s ++ [0])).

Definition names_for (set : usize) : list string :=
  map pr_name (List.filter (fun p => pr_set p =? set) PROPS).
Definition name_at (set idx : usize) : option string := names_for set !! Z.to_nat idx.
Definition name_count (set : usize) : usize := zlen (names_for set).

Definition res_is_ok {E A} (r : res E A) : bool := match r with Ok _ => true | _ => false end.

Definition binary_of (ctx : PropCtx) (set : usize) (name : string) (out : list u8) : res u32 (usize * list u8) :=
  match get_uuid ctx set name with
  | Ok u => if zlen out <? 16 then Err TEE_ERROR_SHORT_BUFFER else Ok (16, splice out 0 u)
  | _ =>
  match get_identity ctx set name with
  | Ok id => if zlen out <? 20 then Err TEE_ERROR_SHORT_BUFFER
             else Ok (20, splice out 0 (to_le 4 (id_login id) ++ id_uuid id))
  | _ =>
  match get_u32 ctx set name with
  | Ok v =>
      if bool_decide (pr_kind <$> find_prop set name = Some KBool) then
        if zlen out =? 0 then Err TEE_ERROR_SHORT_BUFFER else Ok (1, splice out 0 [as_u8 v])
      else if zlen out <? 4 then Err TEE_ERROR_SHORT_BUFFER else Ok (4, splice out 0 (to_le 4 v))
  | _ =>
  match get_str ctx set name with
  | Ok s => if zlen out <? zlen (str s) then Err TEE_ERROR_SHORT_BUFFER else Ok (zlen (str s), splice out 0 (str s))
  | _ => Err TEE_ERROR_ITEM_NOT_FOUND
  end end end end.

(** * The table and the getters agree *)

(** What the getter of a kind answers, the value left out: served, the error it
    returns, or a panic. *)
Definition forget {A} (r : res u32 A) : res u32 unit :=
  match r with Ok _ => Ok tt | Err e => Err e | Panic => Panic end.

Definition answer (k : Kind) (ctx : PropCtx) (set : usize) (name : string) : res u32 unit :=
  match k with
  | KStr => forget (get_str ctx set name)
  | KBool => forget (get_bool ctx set name)
  | KU32 => forget (get_u32 ctx set name)
  | KU64 => forget (get_u64 ctx set name)
  | KUuid => forget (get_uuid ctx set name)
  | KIdentity => forget (get_identity ctx set name)
  end.

(** The kinds a property of kind [k] can be read as. *)
Definition readable (k : Kind) : list Kind :=
  match k with
  | KBool => [KBool; KU32; KU64]
  | KU32 => [KU32; KU64]
  | k => [k]
  end.

Lemma arm_true name want set want_set : arm name want set want_set = true -> name = want /\ set = want_set.
Proof. unfold arm. rewrite andb_true_iff, String.eqb_eq, Z.eqb_eq. done. Qed.

(** Walk the arms of a getter; a matching arm names its entry of the table. *)
Ltac arms :=
  repeat match goal with |- context [arm ?n ?w ?s ?ws] => destruct (arm n w s ws) eqn:?H end;
  try (match goal with H : arm _ _ _ _ = true |- _ => apply arm_true in H as [-> ->]; reflexivity end).

(** A getter that serves nothing has answered ITEM_NOT_FOUND. *)
Ltac not_found get H :=
  let E := fresh "E" in
  destruct get eqn:E; [by discriminate H| |]; revert E;
  unfold get_str, get_bool, get_uuid, get_identity;
  repeat (destruct (arm _ _ _ _); [done|]); try destruct (_ && _); congruence.

(** A name that is not in the table is in no getter's match. *)
Lemma get_bool_found ctx set name : res_is_ok (get_bool ctx set name) = true -> pr_kind <$> find_prop set name = Some KBool.
Proof.
  unfold get_bool.
  arms.
  destruct (_ && _) eqn:E; [|done]. rewrite !andb_true_iff, !orb_true_iff, !String.eqb_eq, Z.eqb_eq in E.
  destruct E as [[[[[[->| ->]| ->]| ->]| ->]| ->] ->]; reflexivity.
Qed.

Lemma get_str_found ctx set name : res_is_ok (get_str ctx set name) = true -> pr_kind <$> find_prop set name = Some KStr.
Proof.
  unfold get_str.
  by arms.
Qed.

Lemma get_uuid_found ctx set name : res_is_ok (get_uuid ctx set name) = true -> pr_kind <$> find_prop set name = Some KUuid.
Proof.
  unfold get_uuid.
  by arms.
Qed.

Lemma get_identity_found ctx set name :
  res_is_ok (get_identity ctx set name) = true -> pr_kind <$> find_prop set name = Some KIdentity.
Proof.
  unfold get_identity. destruct (arm _ _ _ _) eqn:E; [|done]. apply arm_true in E as [-> ->]. reflexivity.
Qed.

Lemma find_prop_in set name p : find_prop set name = Some p -> In p PROPS /\ pr_set p = set /\ pr_name p = name.
Proof.
  intros H. apply find_some in H as [Hin Hb]. rewrite andb_true_iff, Z.eqb_eq, String.eqb_eq in Hb. done.
Qed.

(** What the table promises for a name read as a kind. *)
Definition typed_answer (k : Kind) (p : option Prop_) : res u32 unit :=
  match p with
  | Some p => if bool_decide (k ∈ readable (pr_kind p)) then Ok tt else Err TEE_ERROR_ITEM_NOT_FOUND
  | None => Err TEE_ERROR_ITEM_NOT_FOUND
  end.

(** Every entry of the table is served as the kinds it can be read as, and
    refused as any other. *)
Lemma table_served ctx set name p : find_prop set name = Some p ->
  forall k, answer k ctx set name = typed_answer k (Some p).
Proof.
  intros H. apply find_prop_in in H as (Hin & <- & <-). revert Hin. unfold PROPS. cbn [In].
  intros Hin k. repeat (destruct Hin as [<-|Hin]; [destruct k; reflexivity|]). done.
Qed.

(** A name the table does not list is refused by every getter. *)
Lemma unlisted_refused ctx set name : find_prop set name = None ->
  forall k, answer k ctx set name = Err TEE_ERROR_ITEM_NOT_FOUND.
Proof.
  intros Hn. pose proof (get_str_found ctx set name) as H1. pose proof (get_bool_found ctx set name) as H2.
  pose proof (get_uuid_found ctx set name) as H3. pose proof (get_identity_found ctx set name) as H4.
  rewrite Hn in *. intros []; cbn [answer]; unfold get_u64, get_u32; rewrite ?Hn; cbn [ok_or rbind forget]; try done.
  - enough (get_str ctx set name = Err TEE_ERROR_ITEM_NOT_FOUND) as -> by done. not_found (get_str ctx set name) H1.
  - enough (get_bool ctx set name = Err TEE_ERROR_ITEM_NOT_FOUND) as -> by done. not_found (get_bool ctx set name) H2.
  - enough (get_uuid ctx set name = Err TEE_ERROR_ITEM_NOT_FOUND) as -> by done. not_found (get_uuid ctx set name) H3.
  - enough (get_identity ctx set name = Err TEE_ERROR_ITEM_NOT_FOUND) as -> by done.
    not_found (get_identity ctx set name) H4.
Qed.

(** C39. The table of properties types the getters.  Read as any kind, a name is
    served when the table lists it in that set with a kind it can be read as (a
    boolean also as a number), and otherwise, whether the table does not list it
    or lists it with another kind, the getter returns exactly ITEM_NOT_FOUND: no
    getter has another error and none panics.  No name is listed twice. *)
Theorem properties_typed ctx set name k :
  answer k ctx set name = typed_answer k (find_prop set name) /\
  NoDup (map (fun p => (pr_set p, pr_name p)) PROPS).
Proof.
  split; [|by_compute].
  destruct (find_prop set name) as [p|] eqn:E; [by apply table_served|by apply unlisted_refused].
Qed.
