(* ===== verification/UteeMem.v ===== *)
(** The memory of a TA (src/crates/rustee-utee/src/mem.rs): the heap behind
    TEE_Malloc, and the memory operations.

    A TA's memory is a list of bytes and an address is a position in it; an
    access outside is a fault.  The heap's buffer lies in that memory at
    [h_base], so what the TA writes through its pointers and what the heap keeps
    in front of its blocks share one memory.  [None] is the end of the TA: a
    fault or [TEE_Panic]. *)
From Stdlib Require Import ZArith Lia Sorted.
From stdpp Require Import base list numbers relations.
From S2P Require Import Prelude Abi.

Local Open Scope Z_scope.
Local Open Scope rust_scope.

(** * Memory *)

Definition mread (m : list u8) (a n : Z) : option (list u8) := get_range m a (a + n).
Definition mwrite (m : list u8) (a : Z) (bs : list u8) : option (list u8) :=
  if (0 <=? a) && (a + zlen bs <=? zlen m) then Some (splice m a bs) else None.

(** * The heap *)

Definition MALLOC_FILL_ZERO : u32 := 0.
Definition MALLOC_NO_FILL : u32 := 1.
Definition MALLOC_NO_SHARE : u32 := 2.
Definition ACCESS_READ : u32 := 1.
Definition ACCESS_WRITE : u32 := 2.
Definition ACCESS_ANY_OWNER : u32 := 4.

Definition HEAP_CAP : usize := 64 * 1024.
Definition HDR : usize := 8.
Definition MAGIC : usize := 0x55544545.

Record Heap := { h_base : usize; h_used : usize; h_instance_data : usize }.

Definition Heap_new (base : usize) : Heap := {| h_base := base; h_used := 0; h_instance_data := 0 |}.
Definition set_used (h : Heap) (n : usize) : Heap :=
  {| h_base := h_base h; h_used := n; h_instance_data := h_instance_data h |}.

Definition sentinel (h : Heap) : usize := h_base h + HEAP_CAP.
Definition is_sentinel (h : Heap) (p : usize) : bool := p =? sentinel h.

(** [(n + 7) & !7] *)
Definition align8 (n : usize) : usize := Z.land (n + 7) (Z.lxor 7 U64_MAX).

Definition malloc (h : Heap) (m : list u8) (size : usize) (hint : u32) : option (usize * list u8 * Heap) :=
  if negb (Z.land hint MALLOC_NO_FILL =? 0) && (Z.land hint MALLOC_NO_SHARE =? 0) then None else
  if size =? 0 then Some (sentinel h, m, h) else
  let need := sat_add 64 (Z.min (HDR * 2) U64_MAX) size in
  let start := align8 (h_used h) in
  if HEAP_CAP <? sat_add 64 start need then Some (0, m, h) else
  let base := h_base h + start in
  m ← mwrite m base (to_le 8 MAGIC);
  m ← mwrite m (base + HDR) (to_le 8 size);
  let p := base + HDR * 2 in
  m ← (if Z.land hint MALLOC_NO_FILL =? 0 then mwrite m p (zeros size) else Some m);
  Some (p, m, set_used h (start + need)).

(** The size in the header of a block, if there is a header. *)
Definition size_of (h : Heap) (m : list u8) (p : usize) : option (option usize) :=
  if (p =? 0) || is_sentinel h p then Some None else
  let base := p - HDR * 2 in
  mag ← mread m base 8;
  if negb (from_le mag =? MAGIC) then Some None else
  sz ← mread m (base + HDR) 8;
  Some (Some (from_le sz)).

Definition free (h : Heap) (p : usize) : Heap := h.

Definition realloc (h : Heap) (m : list u8) (p new_size : usize) : option (usize * list u8 * Heap) :=
  if p =? 0 then malloc h m new_size MALLOC_FILL_ZERO else
  if is_sentinel h p then
    if new_size =? 0 then Some (p, m, h) else malloc h m new_size MALLOC_FILL_ZERO
  else if new_size =? 0 then Some (sentinel h, m, free h p)
  else
    o ← size_of h m p;
    let old := default 0 o in
    '(n, m, h) ← malloc h m new_size MALLOC_FILL_ZERO;
    if n =? 0 then Some (0, m, h) else
    let ncopy := Z.min old new_size in
    m ← (if 0 <? ncopy then bs ← mread m p ncopy; mwrite m n bs else Some m);
    Some (n, m, free h p).

Definition set_instance_data (h : Heap) (p : usize) : Heap :=
  {| h_base := h_base h; h_used := h_used h; h_instance_data := p |}.
Definition instance_data (h : Heap) : usize := h_instance_data h.

(** * Memory operations *)

Definition mem_move (m : list u8) (dest src n : usize) : option (list u8) :=
  if (n =? 0) || (dest =? 0) || (src =? 0) then Some m else
  bs ← mread m src n; mwrite m dest bs.

Definition mem_fill (m : list u8) (buf : usize) (x : u32) (n : usize) : option (list u8) :=
  if (n =? 0) || (buf =? 0) then Some m else mwrite m buf (replicate (Z.to_nat n) (as_u8 x)).

(** One turn of the loop: [diff |= d & mask]. *)
Definition compare_step (diff : Z) (v : u8 * u8) : Z :=
  let d := fst v - snd v in
  let mask := if diff =? 0 then -1 else 0 in
  Z.lor diff (Z.land d mask).

Definition mem_compare (m : list u8) (a b n : usize) : option Z :=
  if n =? 0 then Some 0 else
  x ← mread m a n; y ← mread m b n;
  Some (Z.sgn (fold_left compare_step (zip x y) 0)).

Definition check_access (flags : u32) (buf size : usize) : u32 :=
  if (buf =? 0) && negb (size =? 0) then 0xFFFF0001 else TEE_SUCCESS.

(** * Properties of memory *)

Lemma mwrite_ok m a bs : 0 <= a -> a + zlen bs <= zlen m -> mwrite m a bs = Some (splice m a bs).
Proof. intros. unfold mwrite. by rewrite !(proj2 (Z.leb_le _ _)) by lia. Qed.

Lemma mwrite_inv m a bs m' : mwrite m a bs = Some m' -> 0 <= a /\ a + zlen bs <= zlen m /\ m' = splice m a bs.
Proof. unfold mwrite. destruct (_ && _) eqn:E; [|done]. rewrite andb_true_iff, !Z.leb_le in E. intros [= <-]. lia || (split_and!; [lia|lia|done]). Qed.

Lemma mread_ok m a n : 0 <= a -> 0 <= n -> a + n <= zlen m -> mread m a n = Some (sub m a n).
Proof. intros. unfold mread. rewrite get_range_some by lia. do 2 f_equal. lia. Qed.

(** [memcmp] as the first difference decides. *)
Fixpoint lex_compare (x y : list u8) : Z :=
  match x, y with
  | a :: x, b :: y => if a <? b then -1 else if b <? a then 1 else lex_compare x y
  | _, _ => 0
  end.

Lemma compare_fixed l d : d <> 0 -> fold_left compare_step l d = d.
Proof.
  intros Hd. induction l as [|v l IH]; [done|]. cbn [fold_left]. unfold compare_step at 2.
  rewrite (proj2 (Z.eqb_neq _ _) Hd). cbv zeta. by rewrite Z.land_0_r, Z.lor_0_r.
Qed.

Lemma compare_loop x y : Z.sgn (fold_left compare_step (zip x y) 0) = lex_compare x y.
Proof.
  revert y. induction x as [|a x IH]; intros [|b y]; try done. cbn [zip fold_left lex_compare].
  change (zip_with pair x y) with (zip x y).
  unfold compare_step at 2. cbn [fst snd]. cbv zeta. rewrite Z.eqb_refl, Z.land_m1_r, Z.lor_0_l.
  destruct (Z.ltb_spec a b); [rewrite compare_fixed by lia; by apply Z.sgn_neg_iff; lia|].
  destruct (Z.ltb_spec b a); [rewrite compare_fixed by lia; by apply Z.sgn_pos_iff; lia|].
  assert (a - b = 0) as -> by lia. apply IH.
Qed.

(** The constant-time comparison is [memcmp]: the loop that runs over all
    bytes with a mask returns the sign of the first difference. *)
Theorem mem_compare_is_memcmp m a b n :
  0 <= a -> 0 <= b -> 0 <= n -> a + n <= zlen m -> b + n <= zlen m ->
  mem_compare m a b n = Some (lex_compare (sub m a n) (sub m b n)).
Proof.
  intros. unfold mem_compare. destruct (Z.eqb_spec n 0) as [->|]; [unfold sub; by rewrite !take_0|].
  rewrite !mread_ok by lia. cbn. by rewrite compare_loop.
Qed.

Lemma mem_compare_is_memcmp_witness : mem_compare [7; 1; 2; 9; 1; 3; 4] 1 4 2 = Some (-1).
Proof. rewrite mem_compare_is_memcmp; by_compute. Defined.

(** * The heap never hands out memory twice *)

Lemma align8_spec n : 0 <= n < 2 ^ 63 -> align8 n = (n + 7) / 8 * 8 /\ n <= align8 n < n + 8 /\ align8 n mod 8 = 0.
Proof.
  intros Hn. assert (align8 n = (n + 7) / 8 * 8) as ->.
  { unfold align8. change (Z.lxor 7 U64_MAX) with (Z.shiftl (Z.ones 61) 3). set (x := n + 7).
    replace (x / 8 * 8) with (Z.shiftl (Z.shiftr x 3) 3) by (rewrite Z.shiftl_mul_pow2, Z.shiftr_div_pow2 by lia; done).
    apply Z.bits_inj'. intros i Hi. rewrite Z.land_spec.
    destruct (Z.lt_ge_cases i 3); [by rewrite !Z.shiftl_spec_low, andb_false_r by lia|].
    rewrite !Z.shiftl_spec, Z.shiftr_spec by lia. replace (i - 3 + 3) with i by lia.
    destruct (Z.lt_ge_cases i 64); [by rewrite Z.ones_spec_low, andb_true_r by lia|].
    rewrite Z.ones_spec_high, andb_false_r by lia. symmetry. apply Z.bits_above_log2; [lia|].
    apply Z.log2_lt_pow2; [lia|]. apply Z.lt_le_trans with (2 ^ 64); [lia|]. apply Z.pow_le_mono_r; lia. }
  pose proof (Z.div_mod (n + 7) 8 ltac:(lia)). pose proof (Z.mod_pos_bound (n + 7) 8 ltac:(lia)).
  split; [done|]. split; [lia|]. by rewrite Z.mod_mul.
Qed.

Definition header (n : usize) : list u8 := to_le 8 MAGIC ++ to_le 8 n.

Lemma zlen_header n : zlen (header n) = 16.
Proof. unfold header. by rewrite zlen_app, !zlen_to_le. Qed.

(** A block [(p, n)]: its header and its bytes lie in the used part of the heap. *)
Definition block_ok (h : Heap) (m : list u8) (b : usize * usize) : Prop :=
  h_base h + 16 <= b.1 /\ 0 < b.2 /\ b.1 + b.2 <= h_base h + h_used h /\ b.1 mod 8 = 0 /\
  sub m (b.1 - 16) 16 = header b.2.

(** The block [a] with its header lies above the block [b]. *)
Definition above (a b : usize * usize) : Prop := b.1 + b.2 <= a.1 - 16.

(** Blocks are listed newest first. *)
Record heap_ok (h : Heap) (m : list u8) (bs : list (usize * usize)) : Prop := {
  ho_base : 0 < h_base h /\ h_base h mod 8 = 0 /\ h_base h + HEAP_CAP <= zlen m /\ zlen m < 2 ^ 63;
  ho_used : 0 <= h_used h <= HEAP_CAP;
  ho_blocks : Forall (block_ok h m) bs;
  ho_apart : StronglySorted above bs }.

(** Where the next block of [size] bytes goes, if it fits. *)
Definition next_block (h : Heap) : usize := h_base h + align8 (h_used h) + 16.
Definition fits (h : Heap) (size : usize) : Prop := align8 (h_used h) + 16 + size <= HEAP_CAP.
#[export] Instance fits_dec h size : Decision (fits h size).
Proof. unfold fits. apply _. Defined.

(** The hints [malloc] accepts: no fill only together with no sharing. *)
Definition hint_ok (hint : u32) : Prop := Z.land hint MALLOC_NO_FILL = 0 \/ Z.land hint MALLOC_NO_SHARE <> 0.

Lemma hint_guard hint : hint_ok hint ->
  negb (Z.land hint MALLOC_NO_FILL =? 0) && (Z.land hint MALLOC_NO_SHARE =? 0) = false.
Proof. intros [->|H]; [done|]. by rewrite (proj2 (Z.eqb_neq _ _) H), andb_false_r. Qed.

(** What the new block holds: zeros, or with no fill what the memory held. *)
Definition fill_of (m : list u8) (p size : usize) (hint : u32) : list u8 :=
  if Z.land hint MALLOC_NO_FILL =? 0 then zeros size else sub m p size.

Lemma malloc_full h m bs size hint : heap_ok h m bs -> 0 < size < 2 ^ 64 -> hint_ok hint ->
  ~ fits h size -> malloc h m size hint = Some (0, m, h).
Proof.
  intros [Hb Hu _ _] Hs Hh Hf. unfold malloc, fits in *. rewrite hint_guard by done.
  rewrite (proj2 (Z.eqb_neq size 0)) by lia. pose proof (align8_spec (h_used h)) as Ha. unfold HEAP_CAP, HDR in *.
  destruct (Ha ltac:(lia)) as (_ & Ha2 & _).
  rewrite (proj2 (Z.ltb_lt _ _)); [done|]. unfold sat_add, U64_MAX. lia.
Qed.

Lemma malloc_fits h m bs size hint : heap_ok h m bs -> 0 < size < 2 ^ 64 -> hint_ok hint -> fits h size ->
  let p := next_block h in
  malloc h m size hint =
    Some (p, splice m (p - 16) (header size ++ fill_of m p size hint), set_used h (p + size - h_base h)).
Proof.
  intros [Hb Hu _ _] Hs Hh Hf p. unfold malloc, fits in *. rewrite hint_guard by done.
  rewrite (proj2 (Z.eqb_neq size 0)) by lia. pose proof (align8_spec (h_used h)) as Ha. unfold HEAP_CAP, HDR in *.
  destruct (Ha ltac:(lia)) as (_ & Ha2 & _).
  assert (sat_add 64 (Z.min (8 * 2) U64_MAX) size = 16 + size) as Hneed by (unfold sat_add, U64_MAX; lia).
  rewrite Hneed. rewrite (proj2 (Z.ltb_ge _ _)) by (unfold sat_add; lia).
  set (base := h_base h + align8 (h_used h)). assert (p = base + 16) as -> by (unfold p, next_block, base; lia).
  rewrite mwrite_ok by (rewrite ?zlen_to_le; unfold base; lia). cbn [mbind option_bind].
  rewrite mwrite_ok by (rewrite ?zlen_splice, ?zlen_to_le by (rewrite ?zlen_to_le; unfold base; lia); unfold base; lia).
  cbn [mbind option_bind].
  rewrite (splice_adjacent m base (base + 8) (to_le 8 MAGIC) (to_le 8 size))
    by (rewrite ?zlen_to_le; unfold base; lia). fold (header size).
  assert (zlen (splice m base (header size)) = zlen m) as Hz by (apply zlen_splice; rewrite ?zlen_header; unfold base; lia).
  change (8 * 2) with 16. replace (base + 16 - 16) with base by lia.
  assert (set_used h (base + 16 + size - h_base h) = set_used h (align8 (h_used h) + (16 + size))) as ->
    by (f_equal; unfold base; lia).
  unfold fill_of. destruct (Z.land hint MALLOC_NO_FILL =? 0).
  - rewrite mwrite_ok by (rewrite ?Hz, ?zlen_zeros by lia; unfold base; lia). cbn [mbind option_bind].
    by rewrite (splice_adjacent m base (base + 16)) by (rewrite ?zlen_header, ?zlen_zeros by lia; unfold base; lia).
  - cbn [mbind option_bind]. assert (zlen (sub m (base + 16) size) = size) as Hsub by (apply zlen_sub; unfold base; lia).
    rewrite <- (splice_adjacent m base (base + 16)) by (rewrite ?zlen_header, ?Hsub; unfold base; lia).
    assert (sub (splice m base (header size)) (base + 16) size = sub m (base + 16) size) as Hold
      by (apply sub_splice_other; rewrite ?zlen_header; unfold base; lia).
    rewrite <- Hold, splice_sub_same by (rewrite ?Hz; unfold base; lia). done.
Qed.

(** Growing the heap keeps the older blocks, as long as their bytes are kept. *)
Lemma block_ok_mono h m h' m' b : block_ok h m b -> 0 < h_base h -> h_base h' = h_base h -> h_used h <= h_used h' ->
  (forall off n, h_base h <= off -> 0 <= n -> off + n <= h_base h + h_used h -> sub m' off n = sub m off n) ->
  block_ok h' m' b.
Proof.
  intros (H1 & H2 & H3 & H4 & H5) Hpos Hb Hu Hm. unfold block_ok. rewrite Hb. split_and!; try done; [lia|].
  rewrite Hm by lia. done.
Qed.

Lemma heap_ok_push h m bs size fill : heap_ok h m bs -> 0 < size < 2 ^ 64 -> fits h size -> zlen fill = size ->
  let p := next_block h in
  let m' := splice m (p - 16) (header size ++ fill) in
  let h' := set_used h (p + size - h_base h) in
  heap_ok h' m' ((p, size) :: bs) /\ sub m' p size = fill /\ p mod 8 = 0 /\
  (forall off n, 0 <= off -> 0 <= n -> off + n <= h_base h + h_used h -> sub m' off n = sub m off n).
Proof.
  intros [Hb Hu Hbs Hap] Hs Hf Hfl p m' h'. pose proof (align8_spec (h_used h)) as Ha. unfold fits, HEAP_CAP in *.
  destruct (Ha ltac:(lia)) as (_ & Ha2 & Ha3). assert (p = h_base h + align8 (h_used h) + 16) as Hp by done.
  assert (zlen (header size ++ fill) = 16 + size) as Hz by (rewrite zlen_app, zlen_header, Hfl; lia).
  assert (zlen m' = zlen m) as Hzm by (apply zlen_splice; rewrite ?Hz; lia).
  assert (sub m' (p - 16) (16 + size) = header size ++ fill) as Hnew by (apply sub_splice_same; lia).
  assert (sub m' (p - 16) 16 = header size /\ sub m' p size = fill) as [Hhd Hzero].
  { rewrite (sub_split m' (p - 16) 16 size) in Hnew by lia. replace (p - 16 + 16) with p in Hnew by lia.
    apply app_inj_1 in Hnew; [done|]. rewrite length_sub by lia. unfold header. rewrite length_app, !length_to_le. done. }
  assert (forall off n, 0 <= off -> 0 <= n -> off + n <= h_base h + h_used h -> sub m' off n = sub m off n) as Hkeep
    by (intros; apply sub_splice_other; lia).
  assert (p mod 8 = 0) as Hal.
  { rewrite Hp, <- Z.add_mod_idemp_l, <- (Z.add_mod_idemp_l (h_base h)) by lia.
    destruct Hb as (_ & -> & _). rewrite Z.add_0_l. rewrite Ha3. done. }
  split_and!; try done. split.
  - cbn [h_base set_used h']. rewrite Hzm. unfold HEAP_CAP. lia.
  - cbn [h_used set_used h']. unfold HEAP_CAP. lia.
  - constructor.
    + unfold block_ok. cbn [fst snd h_base h_used set_used h']. split_and!; try done; lia.
    + eapply list.Forall_impl; [exact Hbs|]. intros b Hbo. apply (block_ok_mono h m); try done; cbn [h_used set_used h']; [lia..|].
      intros. apply Hkeep; lia.
  - constructor; [done|]. eapply list.Forall_impl; [exact Hbs|]. intros b (_ & _ & H3 & _). unfold above. cbn [fst]. lia.
Qed.

(** Writing inside a block changes neither headers nor other blocks. *)
Lemma heap_ok_write h m bs p n a data : heap_ok h m bs -> (p, n) ∈ bs -> p <= a -> a + zlen data <= p + n ->
  heap_ok h (splice m a data) bs /\
  (forall q k, (q, k) ∈ bs -> (q, k) <> (p, n) -> sub (splice m a data) q k = sub m q k).
Proof.
  intros [Hb Hu Hbs Hap] Hin Ha Hd. pose proof (zlen_nonneg data). unfold HEAP_CAP in *.
  pose proof (proj1 (list.Forall_forall _ _) Hbs _ Hin) as (P1 & P2 & P3 & _). cbn [fst snd] in *.
  assert (zlen (splice m a data) = zlen m) as Hz by (apply zlen_splice; lia).
  assert (forall b, b ∈ bs -> b <> (p, n) -> b.1 + b.2 <= p - 16 \/ p + n <= b.1 - 16) as Hdis.
  { clear -Hap Hin. induction Hap as [|c bs Hs IH Hc]; [by apply elem_of_nil in Hin|].
    rewrite list.Forall_forall in Hc. intros b Hb Hne. apply elem_of_cons in Hin as [<-|Hin], Hb as [->|Hb]; try done.
    - left. exact (Hc b Hb).
    - right. exact (Hc (p, n) Hin).
    - by apply IH. }
  split.
  - split; try done; [by rewrite Hz|]. apply list.Forall_forall. intros b Hb'.
    pose proof (proj1 (list.Forall_forall _ _) Hbs _ Hb') as (B1 & B2 & B3 & B4 & B5). unfold block_ok.
    split_and!; try done. destruct (decide (b = (p, n))) as [->|Hne]; cbn [fst snd] in *.
    + rewrite sub_splice_other by lia. done.
    + destruct (Hdis b Hb' Hne); rewrite sub_splice_other by lia; done.
  - intros q k Hq Hne. pose proof (proj1 (list.Forall_forall _ _) Hbs _ Hq) as (B1 & B2 & B3 & _). cbn [fst snd] in *.
    destruct (Hdis _ Hq Hne); cbn [fst snd] in *; apply sub_splice_other; lia.
Qed.

(** Writing outside the heap's buffer changes nothing of it. *)
Lemma heap_ok_outside h m bs a data : heap_ok h m bs -> 0 <= a -> a + zlen data <= zlen m ->
  a + zlen data <= h_base h \/ h_base h + HEAP_CAP <= a -> heap_ok h (splice m a data) bs.
Proof.
  intros [Hb Hu Hbs Hap] H0 Hl Ho. split; try done; [by rewrite zlen_splice|]. pose proof (zlen_nonneg data).
  eapply list.Forall_impl; [exact Hbs|]. intros b Hbo. apply (block_ok_mono h m); try done; [lia..|].
  intros off n H1 H2 H3. apply sub_splice_other; unfold HEAP_CAP in *; lia.
Qed.

(** The header gives the size of a block. *)
Lemma size_of_block h m bs p n : heap_ok h m bs -> (p, n) ∈ bs -> n < 2 ^ 64 -> size_of h m p = Some (Some n).
Proof.
  intros [Hb Hu Hbs _] Hin Hn. pose proof (proj1 (list.Forall_forall _ _) Hbs _ Hin) as (P1 & P2 & P3 & _ & P5).
  cbn [fst snd] in *. unfold HEAP_CAP in *. unfold size_of, is_sentinel, sentinel, HEAP_CAP, HDR.
  rewrite !(proj2 (Z.eqb_neq _ _)) by lia. cbn [orb]. change (8 * 2) with 16.
  rewrite (sub_split m (p - 16) 8 8) in P5 by lia. unfold header in P5.
  apply app_inj_1 in P5 as [E1 E2]; [|rewrite length_sub by lia; by rewrite length_to_le].
  rewrite (mread_ok m (p - 16) 8) by lia. cbn [mbind option_bind]. rewrite E1, (from_to_le 8 MAGIC) by by_compute.
  rewrite Z.eqb_refl. cbn [negb]. rewrite mread_ok by lia. cbn [mbind option_bind]. rewrite E2, from_to_le by lia. done.
Qed.

Lemma heap_ok_new base m : 0 < base -> base mod 8 = 0 -> base + HEAP_CAP <= zlen m -> zlen m < 2 ^ 63 ->
  heap_ok (Heap_new base) m [].
Proof. intros. split; try constructor; cbn; try done; unfold HEAP_CAP in *; lia. Qed.

(** ** Reallocation *)

Lemma realloc_block h m bs p old new : heap_ok h m bs -> (p, old) ∈ bs -> old < 2 ^ 64 -> 0 < new < 2 ^ 64 ->
  exists q m' h', realloc h m p new = Some (q, m', h') /\
    (~ fits h new /\ q = 0 /\ m' = m /\ h' = h \/
     fits h new /\ q <> 0 /\ h_base h' = h_base h /\ heap_ok h' m' ((q, new) :: bs) /\
     sub m' q new = resize (Z.to_nat new) 0 (sub m p old) /\
     (forall r k, (r, k) ∈ bs -> sub m' r k = sub m r k)).
Proof.
  intros Hok Hin Ho Hn. pose proof (size_of_block _ _ _ _ _ Hok Hin Ho) as Hsz.
  pose proof (ho_base _ _ _ Hok) as Hb. pose proof (ho_used _ _ _ Hok) as Hu.
  pose proof (proj1 (list.Forall_forall _ _) (ho_blocks _ _ _ Hok) _ Hin) as (P1 & P2 & P3 & _). cbn [fst snd] in *.
  unfold realloc. unfold is_sentinel, sentinel. rewrite !(proj2 (Z.eqb_neq _ _)) by (unfold HEAP_CAP in *; lia).
  rewrite Hsz. cbn [mbind option_bind]. change (default 0 (Some old)) with old. cbv zeta.
  destruct (decide (fits h new)) as [Hf|Hf].
  2:{ rewrite (malloc_full h m bs) by (done || by left). cbn. eexists _, _, _. split; [done|]. by left. }
  rewrite (malloc_fits h m bs) by (done || by left). cbn [mbind option_bind].
  change (fill_of m (next_block h) new MALLOC_FILL_ZERO) with (zeros new).
  destruct (heap_ok_push h m bs new (zeros new) Hok Hn Hf ltac:(apply zlen_zeros; lia)) as (Hok' & Hz & _ & Hkeep).
  set (q := next_block h) in *. set (m1 := splice m (q - 16) (header new ++ zeros new)) in *.
  set (h1 := set_used h (q + new - h_base h)) in *.
  assert (q <> 0) as Hq. { unfold q, next_block. pose proof (align8_spec (h_used h)) as Ha. unfold HEAP_CAP in *. lia. }
  rewrite (proj2 (Z.eqb_neq _ _) Hq), (proj2 (Z.ltb_lt _ _)) by lia.
  assert (sub m1 p old = sub m p old) as Hpo by (apply Hkeep; lia).
  pose proof (ho_base _ _ _ Hok') as Hb'. pose proof (ho_blocks _ _ _ Hok') as Hbl.
  apply list.Forall_cons_1 in Hbl as [(Q1 & Q2 & Q3 & _) Hbl]. cbn [fst snd] in *.
  pose proof (ho_used _ _ _ Hok') as Hu'. assert (h_base h1 = h_base h) as Hbb by done. rewrite Hbb in *.
  rewrite (mread_ok m1) by (unfold HEAP_CAP in *; lia). cbn [mbind option_bind].
  assert (zlen (sub m1 p (Z.min old new)) = Z.min old new) as Hzl by (apply zlen_sub; unfold HEAP_CAP in *; lia).
  rewrite mwrite_ok by (unfold HEAP_CAP in *; lia). cbn [mbind option_bind].
  set (data := sub m1 p (Z.min old new)) in *.
  destruct (heap_ok_write h1 m1 ((q, new) :: bs) q new q data Hok') as [Hok2 Hoth];
    [by apply elem_of_cons; left|lia|lia|].
  eexists _, _, _. split; [done|]. right. split_and!; [done|done|done|exact Hok2| |].
  - rewrite (sub_split (splice m1 q data) q (Z.min old new) (new - Z.min old new)) by lia.
    rewrite sub_splice_same by (unfold HEAP_CAP in *; lia).
    rewrite sub_splice_other by (unfold HEAP_CAP in *; lia).
    assert (sub m1 (q + Z.min old new) (new - Z.min old new) = zeros (new - Z.min old new)) as ->.
    { rewrite (sub_split m1 q (Z.min old new) (new - Z.min old new)) in Hz by lia.
      replace (zeros new) with (zeros (Z.min old new) ++ zeros (new - Z.min old new)) in Hz
        by (unfold zeros; rewrite <- replicate_add; f_equal; lia).
      apply app_inj_1 in Hz as [_ ->]; [done|]. unfold zeros. rewrite length_sub, length_replicate by (unfold HEAP_CAP in *; lia). done. }
    assert (data = take (Z.to_nat new) (sub m p old)) as ->.
    { rewrite <- Hpo. unfold data, sub. rewrite take_take. f_equal. lia. }
    unfold zeros. rewrite resize_spec. f_equal. f_equal.
    pose proof (length_sub m p old ltac:(lia) ltac:(lia) ltac:(unfold HEAP_CAP in *; lia)). lia.
  - intros r k Hr. pose proof (proj1 (list.Forall_forall _ _) (ho_blocks _ _ _ Hok) _ Hr) as (R1 & R2 & R3 & _). cbn [fst snd] in *.
    rewrite Hoth; [apply Hkeep; lia|by apply elem_of_cons; right|]. intros [= -> ->].
    unfold q, next_block in *. pose proof (align8_spec (h_used h)) as Ha. unfold HEAP_CAP in *. lia.
Qed.

(** TEE_Realloc keeps the data: a block that grows or shrinks keeps its
    first bytes, the rest is zero, and every other block keeps its contents; when
    the heap is exhausted the result is null and nothing changes. *)
Theorem realloc_keeps_data h m bs p old new :
  heap_ok h m bs -> (p, old) ∈ bs -> old < 2 ^ 64 -> 0 < new < 2 ^ 64 ->
  exists q m' h', realloc h m p new = Some (q, m', h') /\
    (~ fits h new /\ q = 0 /\ m' = m /\ h' = h \/
     fits h new /\ q <> 0 /\ h_base h' = h_base h /\ heap_ok h' m' ((q, new) :: bs) /\
     sub m' q new = resize (Z.to_nat new) 0 (sub m p old) /\
     (forall r k, (r, k) ∈ bs -> sub m' r k = sub m r k)).
Proof. apply realloc_block. Qed.

(** A heap of 64 KiB at address 16 with one block of three bytes. *)
Module HeapSample.
Definition mem0 : list u8 := zeros (16 + HEAP_CAP).
Definition mem1 : list u8 := splice (splice mem0 16 (header 3 ++ zeros 3)) 32 [7; 8; 9].
Definition heap1 : Heap := set_used (Heap_new 16) 19.
End HeapSample.

Lemma zlen_sample : zlen HeapSample.mem0 = 16 + HEAP_CAP.
Proof. apply zlen_zeros. by_compute. Qed.

Lemma sample_heap_ok : heap_ok HeapSample.heap1 HeapSample.mem1 [(32, 3)].
Proof.
  pose proof zlen_sample as Hz. unfold HEAP_CAP in Hz.
  assert (heap_ok (Heap_new 16) HeapSample.mem0 []) as H0 by (apply heap_ok_new; [lia|done|unfold HEAP_CAP; lia|lia]).
  destruct (heap_ok_push _ _ _ 3 (zeros 3) H0 ltac:(lia) ltac:(by_compute) eq_refl) as (H1 & _).
  change (next_block (Heap_new 16)) with 32 in H1.
  destruct (heap_ok_write _ _ _ 32 3 32 [7; 8; 9] H1) as [H2 _]; [by apply elem_of_cons; left|lia|by_compute|]. exact H2.
Qed.

Lemma realloc_keeps_data_witness :
  exists q m' h', realloc HeapSample.heap1 HeapSample.mem1 32 5 = Some (q, m', h') /\ sub m' q 5 = [7; 8; 9; 0; 0].
Proof.
  destruct (realloc_keeps_data HeapSample.heap1 HeapSample.mem1 [(32, 3)] 32 3 5 sample_heap_ok) as (q & m' & h' & H1 & H2).
  - by apply elem_of_cons; left.
  - lia.
  - lia.
  - exists q, m', h'. split; [exact H1|]. destruct H2 as [[Hf _]|(_ & _ & _ & _ & H2 & _)]; [exfalso; apply Hf; by_compute|].
    rewrite H2. assert (sub HeapSample.mem1 32 3 = [7; 8; 9]) as ->; [|reflexivity].
    pose proof zlen_sample as Hz. unfold HEAP_CAP in Hz. unfold HeapSample.mem1. apply sub_splice_same; [reflexivity|lia|].
    rewrite zlen_splice; [lia|lia|]. change (zlen (header 3 ++ zeros 3)) with 19. lia.
Defined.

(** ** Histories *)

(** The blocks handed out once a call returned [p] for [n] bytes: null and the
    sentinel, which stands for a block of no bytes, are none. *)
Definition handed (h : Heap) (p n : usize) (bs : list (usize * usize)) : list (usize * usize) :=
  if (p =? 0) || is_sentinel h p then bs else (p, n) :: bs.

(** What a TA does with its heap: any size, any hint the heap accepts (for the
    others [malloc] ends the TA), reallocation of null, of the sentinel and of any
    block it was given, and writes to its own blocks or to memory that is not the
    heap's.  A block stays in the list when it is freed or reallocated: the list is
    everything ever handed out. *)
Inductive heap_step : Heap * list u8 * list (usize * usize) -> Heap * list u8 * list (usize * usize) -> Prop :=
| step_malloc h m bs size hint p m' h' :
    0 <= size < 2 ^ 64 -> malloc h m size hint = Some (p, m', h') ->
    heap_step (h, m, bs) (h', m', handed h p size bs)
| step_realloc h m bs p new q m' h' :
    p = 0 \/ p = sentinel h \/ (exists old, (p, old) ∈ bs) -> 0 <= new < 2 ^ 64 ->
    realloc h m p new = Some (q, m', h') ->
    heap_step (h, m, bs) (h', m', handed h q new bs)
| step_free h m bs p : heap_step (h, m, bs) (free h p, m, bs)
| step_write h m bs p n a data :
    (p, n) ∈ bs -> p <= a -> a + zlen data <= p + n -> heap_step (h, m, bs) (h, splice m a data, bs)
| step_outside h m bs a data :
    0 <= a -> a + zlen data <= zlen m -> a + zlen data <= h_base h \/ h_base h + HEAP_CAP <= a ->
    heap_step (h, m, bs) (h, splice m a data, bs).

Definition sizes (bs : list (usize * usize)) : Z := foldr (fun b acc => b.2 + acc) 0 bs.

Definition state_ok (s : Heap * list u8 * list (usize * usize)) : Prop :=
  let '(h, m, bs) := s in heap_ok h m bs /\ Forall (fun b => b.2 < 2 ^ 64) bs.

(** Null and the sentinel add no block. *)
Lemma handed_none h p n bs : p = 0 \/ p = sentinel h -> handed h p n bs = bs.
Proof. intros [->| ->]; unfold handed, is_sentinel; by rewrite Z.eqb_refl, ?orb_true_r. Qed.

(** A new block joins the list. *)
Lemma state_push h m h' m' q n bs : heap_ok h m bs -> 0 < n < 2 ^ 64 -> h_base h' = h_base h ->
  Forall (fun b => b.2 < 2 ^ 64) bs -> heap_ok h' m' ((q, n) :: bs) -> state_ok (h', m', handed h q n bs).
Proof.
  intros Hok Hn Hbase Hlt Hok'. pose proof (ho_blocks _ _ _ Hok') as Hbl.
  apply list.Forall_cons_1 in Hbl as [(Q1 & Q2 & Q3 & _) _]. cbn [fst snd] in *. rewrite Hbase in *.
  pose proof (ho_base _ _ _ Hok) as Hb. pose proof (ho_used _ _ _ Hok') as Hu.
  assert (handed h q n bs = (q, n) :: bs) as ->.
  { unfold handed, is_sentinel, sentinel. by rewrite !(proj2 (Z.eqb_neq _ _)) by lia. }
  split; [done|]. constructor; [cbn; lia|done].
Qed.

Lemma malloc_step_ok h m bs size hint p m' h' : state_ok (h, m, bs) -> 0 <= size < 2 ^ 64 ->
  malloc h m size hint = Some (p, m', h') -> state_ok (h', m', handed h p size bs).
Proof.
  intros [Hok Hlt] Hs E. assert (hint_ok hint) as Hh.
  { unfold hint_ok. unfold malloc in E. destruct (Z.eqb_spec (Z.land hint MALLOC_NO_FILL) 0); [by left|].
    destruct (Z.eqb_spec (Z.land hint MALLOC_NO_SHARE) 0); [done|by right]. }
  destruct (Z.eqb_spec size 0) as [->|Hne].
  { unfold malloc in E. rewrite hint_guard in E by done. injection E as <- <- <-. by rewrite handed_none by auto. }
  destruct (decide (fits h size)) as [Hf|Hf].
  - rewrite (malloc_fits h m bs) in E by (done || lia). injection E as <- <- <-.
    apply (state_push h m); try done; [lia|]. apply heap_ok_push; try done; [lia|]. unfold fill_of.
    destruct (_ =? 0); [apply zlen_zeros; lia|]. destruct Hok as [Hb Hu _ _].
    pose proof (align8_spec (h_used h)) as Ha. unfold fits, next_block, HEAP_CAP in *. apply zlen_sub; lia.
  - rewrite (malloc_full h m bs) in E by (done || lia). injection E as <- <- <-. by rewrite handed_none by auto.
Qed.

Lemma realloc_step_ok h m bs p new q m' h' : state_ok (h, m, bs) ->
  p = 0 \/ p = sentinel h \/ (exists old, (p, old) ∈ bs) -> 0 <= new < 2 ^ 64 ->
  realloc h m p new = Some (q, m', h') -> state_ok (h', m', handed h q new bs).
Proof.
  intros Hst Hp Hn E. pose proof Hst as [Hok Hlt].
  assert (p <> 0 -> p <> sentinel h -> exists old, (p, old) ∈ bs) as Hblk by tauto. clear Hp. unfold realloc in E.
  destruct (Z.eqb_spec p 0) as [->|Hp0]; [by eapply malloc_step_ok|].
  unfold is_sentinel in E. destruct (Z.eqb_spec p (sentinel h)) as [->|Hps].
  { destruct (Z.eqb_spec new 0) as [->|]; [|by eapply malloc_step_ok]. injection E as <- <- <-.
    by rewrite handed_none by auto. }
  destruct (Z.eqb_spec new 0) as [->|Hnew]; [injection E as <- <- <-; by rewrite handed_none by auto|].
  destruct (Hblk Hp0 Hps) as [old Hin]. pose proof (proj1 (list.Forall_forall _ _) Hlt _ Hin) as Ho. cbn in Ho.
  destruct (realloc_block h m bs p old new Hok Hin Ho ltac:(lia)) as (q' & m1 & h1 & E' & Hr).
  unfold realloc, is_sentinel in E'. rewrite !(proj2 (Z.eqb_neq _ _)) in E' by done. rewrite E' in E.
  injection E as <- <- <-. destruct Hr as [(_ & -> & -> & ->)|(_ & Hq & Hb' & Hok' & _)]; [by rewrite handed_none by auto|].
  apply (state_push h m); try done. lia.
Qed.

Lemma heap_step_ok s s' : heap_step s s' -> state_ok s -> state_ok s'.
Proof.
  destruct 1 as [h m bs size hint p m' h' Hs E|h m bs p new q m' h' Hp Hn E|h m bs p|h m bs p n a data Hin Ha Hd
                |h m bs a data H0 Hl Ho]; intros Hst.
  - by eapply malloc_step_ok.
  - by eapply realloc_step_ok.
  - done.
  - destruct Hst as [Hok Hlt]. split; [|done]. by eapply heap_ok_write.
  - destruct Hst as [Hok Hlt]. split; [|done]. by apply heap_ok_outside.
Qed.

Lemma sizes_bound h m bs : heap_ok h m bs -> sizes bs + 16 * zlen bs <= h_used h.
Proof.
  intros [_ Hu Hbs Hap]. assert (forall top, Forall (fun b => b.1 + b.2 <= top) bs -> h_base h <= top ->
    sizes bs + 16 * zlen bs <= top - h_base h) as Hgen.
  { clear Hu. induction Hap as [|[p n] bs Hs IH Ha]; intros top Ht Hle; [change (zlen (@nil (Z * Z))) with 0; cbn; lia|].
    rewrite zlen_cons. cbn [sizes foldr]. apply list.Forall_cons_1 in Hbs as [(B1 & B2 & _) Hbs]. apply list.Forall_cons_1 in Ht as [Ht1 _].
    cbn [fst snd] in *. specialize (IH Hbs (p - 16) Ha ltac:(lia)). unfold sizes in IH. lia. }
  specialize (Hgen (h_base h + h_used h)). apply Z.le_trans with (h_base h + h_used h - h_base h); [|lia].
  apply Hgen; [|lia]. eapply list.Forall_impl; [exact Hbs|]. intros b (_ & _ & H3 & _). done.
Qed.

(** C23. The heap hands out no memory twice: after any sequence of allocations
    (of any size, filled or not), reallocations (of null, of the zero-size
    sentinel, of any block), frees, and writes inside the TA's own blocks or
    outside the heap, all blocks ever handed out lie apart in the 64 KiB, each
    with its size intact in front of it; and a free gives nothing back, so
    together they never exceed the 64 KiB. *)
Theorem heap_hands_out_once base m h' m' bs :
  0 < base -> base mod 8 = 0 -> base + HEAP_CAP <= zlen m -> zlen m < 2 ^ 63 ->
  rtc heap_step (Heap_new base, m, []) (h', m', bs) ->
  heap_ok h' m' bs /\ sizes bs + 16 * zlen bs <= HEAP_CAP.
Proof.
  intros Hb Ha Hf Hz Hr. assert (state_ok (h', m', bs)) as [Hok _].
  { assert (state_ok (Heap_new base, m, [])) as H0 by (split; [by apply heap_ok_new|constructor]).
    revert H0. generalize dependent (Heap_new base, m, @nil (Z * Z)). generalize (h', m', bs). intros s' s Hr.
    induction Hr as [|s1 s2 s3 Hs Hr IH]; [done|]. intros H0. apply IH. by eapply heap_step_ok. }
  split; [done|]. pose proof (sizes_bound _ _ _ Hok). destruct Hok as [_ Hu _ _]. lia.
Qed.

Lemma heap_hands_out_once_witness :
  exists m', heap_ok (set_used (Heap_new 16) 19) m' [(32, 3)] /\ sizes [(32, 3)] + 16 * zlen [(32, 3)] <= HEAP_CAP.
Proof.
  pose proof zlen_sample as Hz. unfold HEAP_CAP in Hz.
  exists (splice HeapSample.mem0 16 (header 3 ++ zeros 3)).
  apply (heap_hands_out_once 16 HeapSample.mem0); [lia|reflexivity|unfold HEAP_CAP; lia|lia|].
  apply rtc_once. change [(32, 3)] with (handed (Heap_new 16) 32 3 []). apply (step_malloc _ _ _ 3 0 32); [lia|].
  assert (heap_ok (Heap_new 16) HeapSample.mem0 []) as H0 by (apply heap_ok_new; [lia|done|unfold HEAP_CAP; lia|lia]).
  exact (malloc_fits _ _ _ 3 0 H0 ltac:(lia) (or_introl eq_refl) ltac:(by_compute)).
Defined.
