(* ===== verification/Utee.v ===== *)
(** The runtime a TA links (src/crates/rustee-utee/src): the state of the instance
    (runtime.rs), parameters (param.rs), the Internal Client API (client.rs), the
    time API (time_api.rs), random numbers and algorithms (crypto_api.rs), and the
    entry points of a Rust TA (ta.rs).

    [Core] is the record of the instance; a function that takes [&mut Core]
    returns the new one.  What the kernel plugs in (system calls, time, entropy,
    storage) is the class [UteeEnv] on a state [W]; a hook is [None] until it is
    installed.  A C pointer to a result is modelled by its being null or not and
    by the value written through it; a pointer to four parameters is [None] or
    the four unions.  [TEE_Panic] and the end of the TA are [None] results. *)
From Stdlib Require Import ZArith Lia String.
From stdpp Require Import base list numbers strings.
From S2P Require Import Prelude Crypto Storage Abi Header UteeMem UteeProp.

Local Open Scope Z_scope.
Local Open Scope rust_scope.

Definition TEE_ERROR_CORRUPT_OBJECT : u32 := 0xF0100001.
Definition TEE_ERROR_STORAGE_NOT_AVAILABLE : u32 := 0xF0100003.
Definition TEE_ERROR_NOT_IMPLEMENTED : u32 := 0xFFFF0009.
Definition TEE_ERROR_OVERFLOW : u32 := 0xFFFF300F.
Definition TEE_ERROR_STORAGE_NO_SPACE : u32 := 0xFFFF3041.
Definition TEE_ERROR_TIME_NOT_SET : u32 := 0xFFFF5000.
Definition TEE_ORIGIN_API : u32 := 1.
Definition TEE_NUM_PARAMS : usize := 4.
Definition TEE_STORAGE_PRIVATE : u32 := 0x00000001.
Definition TEE_STORAGE_PERSO : u32 := 0x00000002.
Definition TEE_STORAGE_PROTECTED : u32 := 0x00000003.
Definition TEE_TYPE_DATA : u32 := 0xA00000BF.

(** * Data *)

Record TeeUuid := { tu_time_low : u32; tu_time_mid : u16; tu_time_hi : u16; tu_clock_seq_and_node : list u8 }.

Definition TeeUuid_from_uuid (u : Uuid) : TeeUuid := {|
  tu_time_low := from_be (sub u 0 4); tu_time_mid := from_be (sub u 4 2); tu_time_hi := from_be (sub u 6 2);
  tu_clock_seq_and_node := sub u 8 8 |}.
Definition TeeUuid_to_uuid (t : TeeUuid) : Uuid :=
  to_be 4 (tu_time_low t) ++ to_be 2 (tu_time_mid t) ++ to_be 2 (tu_time_hi t) ++ tu_clock_seq_and_node t.

Record TeeTime := { seconds : u32; millis : u32 }.
Definition time_zero : TeeTime := {| seconds := 0; millis := 0 |}.

Record TeeObjectInfo := {
  oi_object_type : u32; oi_object_size : u32; oi_max_object_size : u32; oi_object_usage : u32;
  oi_data_size : usize; oi_data_position : usize; oi_handle_flags : u32 }.

(** The twin of the kernel's commands and results. *)
Inductive UCmd :=
| UOpenSession (uuid : Uuid) (login : Login) (params : Params) (cancel_id timeout_ms : u32)
| UInvoke (session : SessionId) (cmd_id : u32) (params : Params) (cancel_id timeout_ms : u32)
| UCloseSession (session : SessionId)
| UCancel (cancel_id : u32).
Record UOut := { uo_result : TeeResult; uo_session : option SessionId; uo_params : Params }.

(** * What the kernel plugs in *)

Class UteeEnv (W Sys Tm En St : Type) := {
  sys_handle : Sys -> UCmd -> W -> UOut * W;               (* trait TeeSyscall *)
  tm_system : Tm -> W -> TeeTime;                          (* trait TimeSource *)
  tm_ree : Tm -> W -> TeeTime;
  tm_wait : Tm -> u32 -> W -> u32 * W;
  en_fill : En -> usize -> W -> list u8 * W;               (* trait Entropy *)
  st_list : St -> Uuid -> W -> res StorageError (list ObjectMeta) * W (* trait PersistentStore *) }.

(** * The instance *)

Definition ENUM_SLOTS : usize := 4.
Definition OBJ_ENUM_SLOTS : usize := 4.
Definition SESSION_SLOTS : usize := 16.

Record EnumSlot := { es_used : bool; es_set : usize; es_idx : usize; es_started : bool }.
Definition EnumSlot_empty : EnumSlot := {| es_used := false; es_set := 0; es_idx := 0; es_started := false |}.

Record ObjEnumSlot := { oe_used : bool; oe_started : bool; oe_idx : usize; oe_items : list ObjectMeta }.
Definition ObjEnumSlot_empty : ObjEnumSlot := {| oe_used := false; oe_started := false; oe_idx := 0; oe_items := [] |}.

Record PersistTime := { pt_set : bool; pt_sys_base : TeeTime; pt_value : TeeTime }.

Record Core (Sys Tm En St : Type) := {
  heap : Heap; prop : PropCtx; cancel_masked : bool; cancel_flag : bool; next_cancel_id : u32; persist : PersistTime;
  sessions : list u32; enums : list EnumSlot; obj_enums : list ObjEnumSlot;
  syscall_hook : option Sys; time_hook : option Tm; entropy_hook : option En; store_hook : option St }.
Arguments heap {_ _ _ _} _.
Arguments prop {_ _ _ _} _.
Arguments cancel_masked {_ _ _ _} _.
Arguments cancel_flag {_ _ _ _} _.
Arguments next_cancel_id {_ _ _ _} _.
Arguments persist {_ _ _ _} _.
Arguments sessions {_ _ _ _} _.
Arguments enums {_ _ _ _} _.
Arguments obj_enums {_ _ _ _} _.
Arguments syscall_hook {_ _ _ _} _.
Arguments time_hook {_ _ _ _} _.
Arguments entropy_hook {_ _ _ _} _.
Arguments store_hook {_ _ _ _} _.

Section Runtime.
Context {W Sys Tm En St : Type} `{!UteeEnv W Sys Tm En St}.
Abbreviation C := (Core Sys Tm En St).

Definition Core_new (heap_base : usize) : C := {|
  heap := Heap_new heap_base; prop := PropCtx_new; cancel_masked := false; cancel_flag := false; next_cancel_id := 1;
  persist := {| pt_set := false; pt_sys_base := time_zero; pt_value := time_zero |};
  sessions := replicate (Z.to_nat SESSION_SLOTS) 0; enums := replicate (Z.to_nat ENUM_SLOTS) EnumSlot_empty;
  obj_enums := replicate (Z.to_nat OBJ_ENUM_SLOTS) ObjEnumSlot_empty;
  syscall_hook := None; time_hook := None; entropy_hook := None; store_hook := None |}.

(** One field of the record. *)
Definition set_heap (c : C) (h : Heap) : C := {|
  heap := h; prop := prop c; cancel_masked := cancel_masked c; cancel_flag := cancel_flag c;
  next_cancel_id := next_cancel_id c; persist := persist c; sessions := sessions c; enums := enums c;
  obj_enums := obj_enums c; syscall_hook := syscall_hook c; time_hook := time_hook c;
  entropy_hook := entropy_hook c; store_hook := store_hook c |}.
Definition set_prop (c : C) (p : PropCtx) : C := {|
  heap := heap c; prop := p; cancel_masked := cancel_masked c; cancel_flag := cancel_flag c;
  next_cancel_id := next_cancel_id c; persist := persist c; sessions := sessions c; enums := enums c;
  obj_enums := obj_enums c; syscall_hook := syscall_hook c; time_hook := time_hook c;
  entropy_hook := entropy_hook c; store_hook := store_hook c |}.
Definition set_cancel (c : C) (masked flag : bool) (next : u32) : C := {|
  heap := heap c; prop := prop c; cancel_masked := masked; cancel_flag := flag;
  next_cancel_id := next; persist := persist c; sessions := sessions c; enums := enums c;
  obj_enums := obj_enums c; syscall_hook := syscall_hook c; time_hook := time_hook c;
  entropy_hook := entropy_hook c; store_hook := store_hook c |}.
Definition set_persist (c : C) (p : PersistTime) : C := {|
  heap := heap c; prop := prop c; cancel_masked := cancel_masked c; cancel_flag := cancel_flag c;
  next_cancel_id := next_cancel_id c; persist := p; sessions := sessions c; enums := enums c;
  obj_enums := obj_enums c; syscall_hook := syscall_hook c; time_hook := time_hook c;
  entropy_hook := entropy_hook c; store_hook := store_hook c |}.
Definition set_sessions (c : C) (l : list u32) : C := {|
  heap := heap c; prop := prop c; cancel_masked := cancel_masked c; cancel_flag := cancel_flag c;
  next_cancel_id := next_cancel_id c; persist := persist c; sessions := l; enums := enums c;
  obj_enums := obj_enums c; syscall_hook := syscall_hook c; time_hook := time_hook c;
  entropy_hook := entropy_hook c; store_hook := store_hook c |}.
Definition set_enums (c : C) (l : list EnumSlot) : C := {|
  heap := heap c; prop := prop c; cancel_masked := cancel_masked c; cancel_flag := cancel_flag c;
  next_cancel_id := next_cancel_id c; persist := persist c; sessions := sessions c; enums := l;
  obj_enums := obj_enums c; syscall_hook := syscall_hook c; time_hook := time_hook c;
  entropy_hook := entropy_hook c; store_hook := store_hook c |}.
Definition set_obj_enums (c : C) (l : list ObjEnumSlot) : C := {|
  heap := heap c; prop := prop c; cancel_masked := cancel_masked c; cancel_flag := cancel_flag c;
  next_cancel_id := next_cancel_id c; persist := persist c; sessions := sessions c; enums := enums c;
  obj_enums := l; syscall_hook := syscall_hook c; time_hook := time_hook c;
  entropy_hook := entropy_hook c; store_hook := store_hook c |}.
Definition set_hooks (c : C) (sys : option Sys) (tm : option Tm) (en : option En) (st : option St) : C := {|
  heap := heap c; prop := prop c; cancel_masked := cancel_masked c; cancel_flag := cancel_flag c;
  next_cancel_id := next_cancel_id c; persist := persist c; sessions := sessions c; enums := enums c;
  obj_enums := obj_enums c; syscall_hook := sys; time_hook := tm; entropy_hook := en; store_hook := st |}.

(** ** runtime.rs *)

Definition configure_ta (c : C) (ta : TaProperties) (version description : string) : C :=
  set_prop c {| pc_ta := ta; pc_ta_version := version; pc_ta_description := description; pc_client := pc_client (prop c) |}.

Definition set_client (c : C) (id : Identity) : C :=
  set_prop c {| pc_ta := pc_ta (prop c); pc_ta_version := pc_ta_version (prop c);
                pc_ta_description := pc_ta_description (prop c); pc_client := id |}.

Definition caller_uuid (c : C) : Uuid := tp_uuid (pc_ta (prop c)).

Definition mint_cancel_id (c : C) : u32 * C :=
  let id := next_cancel_id c in
  (id, set_cancel c (cancel_masked c) (cancel_flag c) (Z.max (wrapping_add 32 (next_cancel_id c) 1) 1)).

Definition cancellation_flag (c : C) : bool := cancel_flag c.
Definition set_cancellation_flag (c : C) (v : bool) : C := set_cancel c (cancel_masked c) v (next_cancel_id c).
Definition mask_cancellation (c : C) : bool * C := (negb (cancel_masked c), set_cancel c true (cancel_flag c) (next_cancel_id c)).
Definition unmask_cancellation (c : C) : bool * C := (negb (cancel_masked c), set_cancel c false (cancel_flag c) (next_cancel_id c)).
Definition cancellation_masked (c : C) : bool := cancel_masked c.

Definition syscall (c : C) (cmd : UCmd) (w : W) : option UOut * W :=
  match syscall_hook c with
  | Some s => let '(o, w) := sys_handle s cmd w in (Some o, w)
  | None => (None, w)
  end.

Definition system_time (c : C) (w : W) : TeeTime :=
  match time_hook c with Some t => tm_system t w | None => time_zero end.
Definition ree_time (c : C) (w : W) : TeeTime :=
  match time_hook c with Some t => tm_ree t w | None => time_zero end.
Definition time_wait (c : C) (timeout_ms : u32) (w : W) : u32 * W :=
  match time_hook c with Some t => tm_wait t timeout_ms w | None => (TEE_SUCCESS, w) end.

Definition fill_entropy (c : C) (len : usize) (w : W) : list u8 * W :=
  match entropy_hook c with Some e => en_fill e len w | None => (zeros len, w) end.

Definition rt_malloc (c : C) (m : list u8) (size : usize) (hint : u32) : option (usize * list u8 * C) :=
  '(p, m, h) ← malloc (heap c) m size hint; Some (p, m, set_heap c h).
Definition rt_free (c : C) (p : usize) : C := set_heap c (free (heap c) p).
Definition rt_realloc (c : C) (m : list u8) (p new_size : usize) : option (usize * list u8 * C) :=
  '(p, m, h) ← realloc (heap c) m p new_size; Some (p, m, set_heap c h).
Definition rt_set_instance_data (c : C) (p : usize) : C := set_heap c (UteeMem.set_instance_data (heap c) p).
Definition rt_instance_data (c : C) : usize := UteeMem.instance_data (heap c).

(** The first slot that satisfies [f] replaced by [v]; whether there was one. *)
Fixpoint replace_first {A} (f : A -> bool) (v : A) (l : list A) : option (nat * list A) :=
  match l with
  | [] => None
  | x :: l => if f x then Some (O, v :: l) else '(i, l) ← replace_first f v l; Some (S i, x :: l)
  end.

Definition remember_session (c : C) (id : u32) : bool * C :=
  match replace_first (fun s => s =? 0) id (sessions c) with
  | Some (_, l) => (true, set_sessions c l)
  | None => (false, c)
  end.
Definition forget_session (c : C) (id : u32) : bool * C :=
  match replace_first (fun s => s =? id) 0 (sessions c) with
  | Some (_, l) => (true, set_sessions c l)
  | None => (false, c)
  end.
Definition has_session (c : C) (id : u32) : bool := existsb (fun s => s =? id) (sessions c).

(** *** Property enumerators *)

Definition alloc_enumerator (c : C) : option usize * C :=
  match replace_first (fun e => negb (es_used e)) {| es_used := true; es_set := 0; es_idx := 0; es_started := false |} (enums c) with
  | Some (i, l) => (Some (Z.of_nat i + 1), set_enums c l)
  | None => (None, c)
  end.

Definition slot (c : C) (h : usize) : option EnumSlot :=
  if h =? 0 then None else e ← enums c !! Z.to_nat (h - 1); if es_used e then Some e else None.
Definition put_slot (c : C) (h : usize) (e : EnumSlot) : C := set_enums c (<[Z.to_nat (h - 1) := e]> (enums c)).

Definition free_enumerator (c : C) (h : usize) : C :=
  match slot c h with Some _ => put_slot c h EnumSlot_empty | None => c end.

Definition start_enumerator (c : C) (h set : usize) : bool * C :=
  match slot c h with
  | Some e => (true, put_slot c h {| es_used := es_used e; es_set := set; es_idx := 0; es_started := true |})
  | None => (false, c)
  end.

Definition reset_enumerator (c : C) (h : usize) : C :=
  match slot c h with
  | Some e => put_slot c h {| es_used := es_used e; es_set := es_set e; es_idx := 0; es_started := es_started e |}
  | None => c
  end.

Definition enumerator_name (c : C) (h : usize) : res u32 string :=
  let? e := ok_or (slot c h) TEE_ERROR_ITEM_NOT_FOUND in
  if negb (es_started e) then Err TEE_ERROR_ITEM_NOT_FOUND else
  ok_or (name_at (es_set e) (es_idx e)) TEE_ERROR_ITEM_NOT_FOUND.

Definition enumerator_next (c : C) (h : usize) : u32 * C :=
  match slot c h with
  | Some e =>
      if negb (es_started e) then (TEE_ERROR_ITEM_NOT_FOUND, c) else
      let idx := sat_add 64 (es_idx e) 1 in
      let c := put_slot c h {| es_used := es_used e; es_set := es_set e; es_idx := idx; es_started := es_started e |} in
      (match name_at (es_set e) idx with Some _ => TEE_SUCCESS | None => TEE_ERROR_ITEM_NOT_FOUND end, c)
  | None => (TEE_ERROR_ITEM_NOT_FOUND, c)
  end.

Definition enumerator_current (c : C) (h : usize) : res u32 (usize * string) :=
  let? e := ok_or (slot c h) TEE_ERROR_ITEM_NOT_FOUND in
  if negb (es_started e) then Err TEE_ERROR_ITEM_NOT_FOUND else
  let? n := ok_or (name_at (es_set e) (es_idx e)) TEE_ERROR_ITEM_NOT_FOUND in
  Ok (es_set e, n).

(** *** Object enumerators *)

Definition map_storage_error (e : StorageError) : u32 :=
  match e with
  | TooBig => TEE_ERROR_STORAGE_NO_SPACE
  | Corrupt => TEE_ERROR_CORRUPT_OBJECT
  | Storage.NotFound => TEE_ERROR_ITEM_NOT_FOUND
  | CryptoErr => TEE_ERROR_SECURITY
  | FsErr => TEE_ERROR_STORAGE_NOT_AVAILABLE
  end.

Definition list_persistent (c : C) (ta : Uuid) (w : W) : res StorageError (list ObjectMeta) * W :=
  match store_hook c with Some s => st_list s ta w | None => (Err FsErr, w) end.

Definition obj_slot (c : C) (h : usize) : option ObjEnumSlot :=
  if h =? 0 then None else e ← obj_enums c !! Z.to_nat (h - 1); if oe_used e then Some e else None.
Definition put_obj_slot (c : C) (h : usize) (e : ObjEnumSlot) : C :=
  set_obj_enums c (<[Z.to_nat (h - 1) := e]> (obj_enums c)).

Definition alloc_object_enumerator (c : C) : option usize * C :=
  match replace_first (fun e => negb (oe_used e)) {| oe_used := true; oe_started := false; oe_idx := 0; oe_items := [] |} (obj_enums c) with
  | Some (i, l) => (Some (Z.of_nat i + 1), set_obj_enums c l)
  | None => (None, c)
  end.

Definition free_object_enumerator (c : C) (h : usize) : C :=
  match obj_slot c h with Some _ => put_obj_slot c h ObjEnumSlot_empty | None => c end.

Definition obj_at (e : ObjEnumSlot) (idx : usize) : ObjEnumSlot :=
  {| oe_used := oe_used e; oe_started := oe_started e; oe_idx := idx; oe_items := oe_items e |}.

Definition reset_object_enumerator (c : C) (h : usize) : C :=
  match obj_slot c h with Some e => put_obj_slot c h (obj_at e 0) | None => c end.

Definition start_object_enumerator (c : C) (h : usize) (storage_id : u32) (w : W) : option (u32 * C * W) :=
  if (storage_id =? TEE_STORAGE_PERSO) || (storage_id =? TEE_STORAGE_PROTECTED) then Some (TEE_ERROR_NOT_SUPPORTED, c, w) else
  if negb (storage_id =? TEE_STORAGE_PRIVATE) then Some (TEE_ERROR_ITEM_NOT_FOUND, c, w) else
  if h =? 0 then Some (TEE_ERROR_ITEM_NOT_FOUND, c, w) else
  match list_persistent c (caller_uuid c) w with
  | (Panic, _) => None
  | (Err e, w) => Some (map_storage_error e, c, w)
  | (Ok items, w) =>
      match obj_slot c h with
      | None => Some (TEE_ERROR_ITEM_NOT_FOUND, c, w)
      | Some e => Some (TEE_SUCCESS, put_obj_slot c h {| oe_used := oe_used e; oe_started := true; oe_idx := 0; oe_items := items |}, w)
      end
  end.

Definition object_enum_peek (c : C) (h : usize) : res u32 ObjectMeta :=
  let? e := ok_or (obj_slot c h) TEE_ERROR_ITEM_NOT_FOUND in
  if negb (oe_started e) then Err TEE_ERROR_ITEM_NOT_FOUND else
  ok_or (oe_items e !! Z.to_nat (oe_idx e)) TEE_ERROR_ITEM_NOT_FOUND.

Definition object_enum_advance (c : C) (h : usize) : C :=
  match obj_slot c h with Some e => put_obj_slot c h (obj_at e (sat_add 64 (oe_idx e) 1)) | None => c end.

(** *** Hooks for the duration of a call: the guard restores the old one, also
    when the call panics. *)

Definition with_syscall {R} (c : C) (s : Sys) (f : C -> R * C) : R * C :=
  let prev := syscall_hook c in
  let '(r, c) := f (set_hooks c (Some s) (time_hook c) (entropy_hook c) (store_hook c)) in
  (r, set_hooks c prev (time_hook c) (entropy_hook c) (store_hook c)).
Definition with_time {R} (c : C) (t : Tm) (f : C -> R * C) : R * C :=
  let prev := time_hook c in
  let '(r, c) := f (set_hooks c (syscall_hook c) (Some t) (entropy_hook c) (store_hook c)) in
  (r, set_hooks c (syscall_hook c) prev (entropy_hook c) (store_hook c)).
Definition with_entropy {R} (c : C) (e : En) (f : C -> R * C) : R * C :=
  let prev := entropy_hook c in
  let '(r, c) := f (set_hooks c (syscall_hook c) (time_hook c) (Some e) (store_hook c)) in
  (r, set_hooks c (syscall_hook c) (time_hook c) prev (store_hook c)).
Definition with_persistent_store {R} (c : C) (s : St) (f : C -> R * C) : R * C :=
  let prev := store_hook c in
  let '(r, c) := f (set_hooks c (syscall_hook c) (time_hook c) (entropy_hook c) (Some s)) in
  (r, set_hooks c (syscall_hook c) (time_hook c) (entropy_hook c) prev).

(** ** time_api.rs *)

Definition time_add (base delta : TeeTime) : u32 + TeeTime :=
  let ms := millis base + millis delta in
  let extra := ms / 1000 in
  let ms := ms mod 1000 in
  match (s ← checked_add 64 (seconds base) (seconds delta); checked_add 64 s extra) with
  | None => inl TEE_ERROR_OVERFLOW
  | Some sec =>
      if U32_MAX <? sec then inl TEE_ERROR_OVERFLOW
      else inr {| seconds := as_u32 sec; millis := as_u32 ms |}
  end.

Definition time_sat_sub (later earlier : TeeTime) : TeeTime :=
  let ms := millis later - millis earlier in
  let sec := seconds later - seconds earlier in
  let '(ms, sec) := if ms <? 0 then (ms + 1000, sec - 1) else (ms, sec) in
  if sec <? 0 then time_zero else {| seconds := as_u32 sec; millis := as_u32 ms |}.

(** [time] is whether the pointer is not null; the result is what it receives. *)
Definition get_system_time (c : C) (time : bool) (w : W) : option TeeTime :=
  if time then Some (system_time c w) else None.
Definition get_ree_time (c : C) (time : bool) (w : W) : option TeeTime :=
  if time then Some (ree_time c w) else None.

Definition time_api_wait (c : C) (timeout_ms : u32) (w : W) : u32 * W :=
  if negb (cancellation_masked c) && cancellation_flag c then (TEE_ERROR_CANCEL, w)
  else if timeout_ms =? 0 then (TEE_SUCCESS, w)
  else time_wait c timeout_ms w.

Definition get_ta_persistent_time (c : C) (time : bool) (w : W) : u32 * option TeeTime :=
  if negb time then (TEE_ERROR_BAD_PARAMETERS, None) else
  let p := persist c in
  if negb (pt_set p) then (TEE_ERROR_TIME_NOT_SET, None) else
  match time_add (pt_value p) (time_sat_sub (system_time c w) (pt_sys_base p)) with
  | inr t => (TEE_SUCCESS, Some t)
  | inl e => (e, None)
  end.

Definition set_ta_persistent_time (c : C) (time : option TeeTime) (w : W) : u32 * C :=
  match time with
  | None => (TEE_ERROR_BAD_PARAMETERS, c)
  | Some t =>
      if 1000 <=? millis t then (TEE_ERROR_BAD_PARAMETERS, c)
      else (TEE_SUCCESS, set_persist c {| pt_set := true; pt_sys_base := system_time c w; pt_value := t |})
  end.

(** ** crypto_api.rs *)

Definition is_algorithm_supported (a element : u32) : bool :=
  if element =? ELEMENT_NONE then is_supported a else is_supported_element a element.

(** The bytes for the buffer; [None] when the buffer is null. *)
Definition generate_random (c : C) (buf : bool) (len : usize) (w : W) : option (list u8 * W) :=
  if len =? 0 then Some ([], w) else if negb buf then None else Some (fill_entropy c len w).

(** ** param.rs *)

Definition raw_set_value (r : ParamRaw) (a b : u32) : ParamRaw := {| word0 := a + b * 2 ^ 32; word1 := word1 r |}.
Definition raw_set_size (r : ParamRaw) (n : usize) : ParamRaw := {| word0 := word0 r; word1 := n |}.

(** One turn of the loop of [params_from_gp]. *)
Definition param_slot_from_gp (types : u32) (params : option (list ParamRaw)) (i : usize) : res u32 Param :=
  match params with
  | None => if negb (param_type_get types i =? 0) then Err TEE_ERROR_BAD_PARAMETERS else Ok PNone
  | Some ps =>
      let r := nth (Z.to_nat i) ps ParamRaw_none in
      param_from_gp types i (value_a r) (value_b r) (memref_buffer r) (memref_size r)
  end.

Definition params_from_gp (types : u32) (params : option (list ParamRaw)) : res u32 Params :=
  let? p0 := param_slot_from_gp types params 0 in
  let? p1 := param_slot_from_gp types params 1 in
  let? p2 := param_slot_from_gp types params 2 in
  let? p3 := param_slot_from_gp types params 3 in
  Ok [p0; p1; p2; p3].

(** The arms of [copy_out]: the last two take whatever the first two leave. *)
Definition copy_out_slot (t : u32) (r : ParamRaw) (produced : Param) : ParamRaw :=
  match produced with
  | PValue a b dir =>
      if ((t =? 2) || (t =? 3)) && Dir_is_out dir then raw_set_value r a b
      else match dir with In_ => r | _ => raw_set_value r a b end
  | PMemref _ size dir =>
      if ((t =? 6) || (t =? 7)) && Dir_is_out dir then raw_set_size r size
      else match dir with In_ => r | _ => raw_set_size r size end
  | PNone => r
  end.

Fixpoint copy_out_loop (types : u32) (i : usize) (ps : list ParamRaw) (produced : Params) : list ParamRaw :=
  match ps, produced with
  | r :: ps, p :: produced => copy_out_slot (param_type_get types i) r p :: copy_out_loop types (i + 1) ps produced
  | ps, _ => ps
  end.
Definition utee_copy_out (types : u32) (params : option (list ParamRaw)) (produced : Params) : option (list ParamRaw) :=
  (fun ps => copy_out_loop types 0 ps produced) <$> params.

(** [Params<'a>]: the types and the four slots. *)
Record UParams := { up_types : u32; up_slots : list ParamRaw }.
Definition set_slot (p : UParams) (i : usize) (r : ParamRaw) : UParams :=
  {| up_types := up_types p; up_slots := <[Z.to_nat i := r]> (up_slots p) |}.

Definition is_value_type (t : u32) : bool := (t =? 1) || (t =? 2) || (t =? 3).
Definition is_memref_type (t : u32) : bool := (t =? 5) || (t =? 6) || (t =? 7).

Definition Params_value (p : UParams) (i : usize) : option (option (u32 * u32)) :=
  if is_value_type (param_type_get (up_types p) i)
  then r ← up_slots p !! Z.to_nat i; Some (Some (value_a r, value_b r))
  else Some None.

Definition Params_set_value (p : UParams) (i : usize) (a b : u32) : option UParams :=
  r ← up_slots p !! Z.to_nat i; Some (set_slot p i (raw_set_value r a b)).

(** The address and length of the slice. *)
Definition Params_memref_mut (p : UParams) (i : usize) : option (option (usize * usize)) :=
  if negb (is_memref_type (param_type_get (up_types p) i)) then Some None else
  r ← up_slots p !! Z.to_nat i;
  if (memref_buffer r =? 0) || (memref_size r =? 0) then Some (Some (0, 0))
  else Some (Some (memref_buffer r, memref_size r)).

Definition Params_set_memref_size (p : UParams) (i size : usize) : option UParams :=
  r ← up_slots p !! Z.to_nat i; Some (set_slot p i (raw_set_size r size)).

Definition Params_memref_size (p : UParams) (i : usize) : option (option usize) :=
  if negb (is_memref_type (param_type_get (up_types p) i)) then Some None else
  r ← up_slots p !! Z.to_nat i; Some (Some (memref_size r)).

Definition copy_memref (p : UParams) (m : list u8) (src dst : usize) : option (res u32 usize * UParams * list u8) :=
  if (TEE_NUM_PARAMS <=? src) || (TEE_NUM_PARAMS <=? dst) || (src =? dst) then Some (Err TEE_ERROR_BAD_PARAMETERS, p, m) else
  if negb (is_memref_type (param_type_get (up_types p) src)) || negb (is_memref_type (param_type_get (up_types p) dst))
  then Some (Err TEE_ERROR_BAD_PARAMETERS, p, m) else
  rs ← up_slots p !! Z.to_nat src;
  rd ← up_slots p !! Z.to_nat dst;
  let '(sp, slen) := (memref_buffer rs, memref_size rs) in
  let '(dp, dlen) := (memref_buffer rd, memref_size rd) in
  if dlen <? slen then Some (Err TEE_ERROR_SHORT_BUFFER, set_slot p dst (raw_set_size rd slen), m) else
  if negb (slen =? 0) && ((sp =? 0) || (dp =? 0)) then Some (Err TEE_ERROR_BAD_PARAMETERS, p, m) else
  m ← (if negb (slen =? 0) then bs ← mread m sp slen; mwrite m dp bs else Some m);
  Some (Ok slen, set_slot p dst (raw_set_size rd slen), m).

(** ** client.rs *)

(** What a call of the client API leaves behind: its code, the session handle
    and the origin written (the latter only if that pointer is not null), the
    parameters. *)
Record ClientOut := {
  co_code : u32; co_session : option usize; co_origin : u32; co_params : option (list ParamRaw) }.

Definition handle_from_id (id : SessionId) : usize := id.
Definition id_from_handle (h : usize) : u32 := as_u32 h.

Definition api_error (code : u32) (session : option usize) (params : option (list ParamRaw)) : ClientOut :=
  {| co_code := code; co_session := session; co_origin := TEE_ORIGIN_API; co_params := params |}.

Definition open_ta_session (c : C) (dest : option TeeUuid) (timeout_ms types : u32) (params : option (list ParamRaw))
  (session : bool) (w : W) : option (ClientOut * C * W) :=
  match dest with
  | None => Some (api_error TEE_ERROR_BAD_PARAMETERS None params, c, w)
  | Some dest =>
      if negb session then Some (api_error TEE_ERROR_BAD_PARAMETERS None params, c, w) else
      match params_from_gp types params with
      | Err e => Some (api_error e (Some 0) params, c, w)
      | Panic => None
      | Ok params_abi =>
          let uuid := TeeUuid_to_uuid dest in
          let '(cancel_id, c) := mint_cancel_id c in
          let login := TrustedApp (caller_uuid c) in
          match syscall c (UOpenSession uuid login params_abi cancel_id timeout_ms) w with
          | (None, w) => Some (api_error TEE_ERROR_NOT_IMPLEMENTED (Some 0) params, c, w)
          | (Some out, w) =>
              let params := utee_copy_out types params (uo_params out) in
              let org := Origin_as_gp (origin (uo_result out)) in
              if code (uo_result out) =? TEE_SUCCESS then
                match uo_session out with
                | Some id =>
                    if id =? 0 then Some (api_error TEE_ERROR_BAD_PARAMETERS (Some 0) params, c, w) else
                    let '(_, c) := remember_session c id in
                    Some ({| co_code := code (uo_result out); co_session := Some (handle_from_id id); co_origin := org;
                        co_params := params |}, c, w)
                | None => Some (api_error TEE_ERROR_BAD_PARAMETERS (Some 0) params, c, w)
                end
              else
                Some ({| co_code := code (uo_result out); co_session := Some 0; co_origin := org; co_params := params |}, c, w)
          end
      end
  end.

(** [None]: TEE_Panic. *)
Definition close_ta_session (c : C) (session : usize) (w : W) : option (C * W) :=
  if session =? 0 then Some (c, w) else
  let id := id_from_handle session in
  if (id =? 0) || negb (has_session c id) then None else
  let '(_, w) := syscall c (UCloseSession id) w in
  let '(_, c) := forget_session c id in
  Some (c, w).

Definition invoke_ta_command (c : C) (session : usize) (timeout_ms command_id types : u32)
  (params : option (list ParamRaw)) (w : W) : option (ClientOut * C * W) :=
  if session =? 0 then Some (api_error TEE_ERROR_BAD_PARAMETERS None params, c, w) else
  let id := id_from_handle session in
  if (id =? 0) || negb (has_session c id) then None else
  match params_from_gp types params with
  | Err e => Some (api_error e None params, c, w)
  | Panic => None
  | Ok params_abi =>
      let '(cancel_id, c) := mint_cancel_id c in
      match syscall c (UInvoke id command_id params_abi cancel_id timeout_ms) w with
      | (None, w) => Some (api_error TEE_ERROR_NOT_IMPLEMENTED None params, c, w)
      | (Some out, w) =>
          Some ({| co_code := code (uo_result out); co_session := None;
                   co_origin := Origin_as_gp (origin (uo_result out));
                   co_params := utee_copy_out types params (uo_params out) |}, c, w)
      end
  end.

(** ** ta.rs *)

(** [trait Ta] on the TA's memory; [None] when the TA panics.  [open_session]
    also gives the session context. *)
Class TaImpl := {
  impl_create : list u8 -> option (u32 * list u8);
  impl_destroy : list u8 -> option (list u8);
  impl_open_session : UParams -> list u8 -> option (u32 * UParams * usize * list u8);
  impl_close_session : usize -> list u8 -> option (list u8);
  impl_invoke_command : usize -> u32 -> UParams -> list u8 -> option (u32 * UParams * list u8) }.

(** The slots of [params], or four empty ones when it is null. *)
Definition entry_slots (params : option (list ParamRaw)) : list ParamRaw :=
  default (replicate (Z.to_nat TEE_NUM_PARAMS) ParamRaw_none) params.

Definition open_entry `{!TaImpl} (types : u32) (params : option (list ParamRaw)) (m : list u8)
  : option (u32 * option (list ParamRaw) * usize * list u8) :=
  '(r, p, ctx, m) ← impl_open_session {| up_types := types; up_slots := entry_slots params |} m;
  Some (r, (fun _ => up_slots p) <$> params, ctx, m).

Definition invoke_entry `{!TaImpl} (session_ctx : usize) (command_id types : u32) (params : option (list ParamRaw))
  (m : list u8) : option (u32 * option (list ParamRaw) * list u8) :=
  '(r, p, m) ← impl_invoke_command session_ctx command_id {| up_types := types; up_slots := entry_slots params |} m;
  Some (r, (fun _ => up_slots p) <$> params, m).

(** [TA_CreateEntryPoint] as [rustee_ta!] writes it. *)
Definition TA_CreateEntryPoint `{!TaImpl} (c : C) (ta : TaProperties) (version description : string) (m : list u8)
  : option (u32 * C * list u8) :=
  let c := configure_ta c ta version description in
  '(r, m) ← impl_create m; Some (r, c, m).
End Runtime.
