(* ===== verification/UteeAbi.v ===== *)
(** The C entry points of the runtime (src/crates/rustee-utee/src/c_abi.rs).

    A pointer to a result is a flag (not null) and the value written, [None] when
    nothing is; a pointer to a length is [None] when null and else the length; a
    C string is [None] when null and else its bytes before the NUL; a buffer is
    its address in the TA's memory, 0 when null.  A result [None] of the whole
    call is [TEE_Panic] or an access outside the memory. *)
From Stdlib Require Import ZArith Lia String Ascii.
From stdpp Require Import base list numbers strings.
From S2P Require Import Prelude Crypto Storage Abi Header UteeMem UteeProp Utee.

Local Open Scope Z_scope.
Local Open Scope rust_scope.

(** * c_abi.rs *)

(** [TEE_Identity] *)
Record TeeIdentity := { ti_login : u32; ti_uuid : TeeUuid }.

Definition string_of_bytes (l : list u8) : string := string_of_list_ascii (map (fun b => ascii_of_N (Z.to_N b)) l).

Definition cstr (p : option (list u8)) : res u32 string :=
  match p with
  | None => Err TEE_ERROR_BAD_PARAMETERS
  | Some bs => if utf8_valid bs then Ok (string_of_bytes bs) else Err TEE_ERROR_BAD_PARAMETERS
  end.

(** The code, the length written and the memory. *)
Definition write_buf (src : string) (m : list u8) (buf : usize) (len : option usize) : option (u32 * option usize * list u8) :=
  match len with
  | None => Some (TEE_ERROR_BAD_PARAMETERS, None, m)
  | Some cap =>
      let need := zlen (str src) + 1 in
      if (buf =? 0) || (cap <? need) then Some (TEE_ERROR_SHORT_BUFFER, Some need, m) else
      out ← mread m buf cap;
      match copy_str src out with
      | Ok (_, out) => m ← mwrite m buf out; Some (TEE_SUCCESS, Some need, m)
      | Err e => Some (e, Some need, m)
      | Panic => None
      end
  end.

Section CAbi.
Context {W Sys Tm En St : Type} `{!UteeEnv W Sys Tm En St}.
Abbreviation C := (Core Sys Tm En St).

Definition resolve (c : C) (handle : usize) (name : option (list u8)) : res u32 (usize * string) :=
  if is_propset handle then let? n := cstr name in Ok (handle, n) else enumerator_current c handle.

Definition TEE_GetPropertyAsString (c : C) (m : list u8) (handle : usize) (name : option (list u8))
  (value_buffer : usize) (value_buffer_len : option usize) : option (u32 * option usize * list u8) :=
  match resolve c handle name with
  | Ok (set, n) =>
      match get_str (prop c) set n with
      | Ok s => write_buf s m value_buffer value_buffer_len
      | Err e => Some (e, value_buffer_len, m)
      | Panic => None
      end
  | Err e => Some (e, value_buffer_len, m)
  | Panic => None
  end.

(** The shape the getters of a single value share: [None] is a panic. *)
Definition get_property {A B} (get : PropCtx -> usize -> string -> res u32 A) (out : A -> B) (c : C) (handle : usize)
  (name : option (list u8)) (value : bool) : option (u32 * option B) :=
  if negb value then Some (TEE_ERROR_BAD_PARAMETERS, None) else
  match resolve c handle name with
  | Ok (set, n) =>
      match get (prop c) set n with
      | Ok v => Some (TEE_SUCCESS, Some (out v))
      | Err e => Some (e, None)
      | Panic => None
      end
  | Err e => Some (e, None)
  | Panic => None
  end.

Definition TEE_GetPropertyAsBool := get_property get_bool id.
Definition TEE_GetPropertyAsU32 := get_property get_u32 id.
Definition TEE_GetPropertyAsU64 := get_property get_u64 id.
Definition TEE_GetPropertyAsUUID := get_property get_uuid TeeUuid_from_uuid.
Definition TEE_GetPropertyAsIdentity :=
  get_property get_identity (fun i => {| ti_login := id_login i; ti_uuid := TeeUuid_from_uuid (id_uuid i) |}).

Definition TEE_GetPropertyAsBinaryBlock (c : C) (m : list u8) (handle : usize) (name : option (list u8))
  (value_buffer : usize) (value_buffer_len : option usize) : option (u32 * option usize * list u8) :=
  match value_buffer_len with
  | None => Some (TEE_ERROR_BAD_PARAMETERS, None, m)
  | Some cap =>
      match resolve c handle name with
      | Ok (set, n) =>
          match binary_of (prop c) set n (zeros 256) with
          | Ok (need, tmp) =>
              if (value_buffer =? 0) || (cap <? need) then Some (TEE_ERROR_SHORT_BUFFER, Some need, m)
              else m ← mwrite m value_buffer (sub tmp 0 need); Some (TEE_SUCCESS, Some need, m)
          | Err e => Some (e, Some cap, m)
          | Panic => None
          end
      | Err e => Some (e, Some cap, m)
      | Panic => None
      end
  end.

(** ** Property enumerators *)

Definition TEE_AllocatePropertyEnumerator (c : C) (enumerator : bool) : u32 * option usize * C :=
  if negb enumerator then (TEE_ERROR_BAD_PARAMETERS, None, c) else
  match alloc_enumerator c with
  | (Some h, c) => (TEE_SUCCESS, Some h, c)
  | (None, c) => (TEE_ERROR_OUT_OF_MEMORY, None, c)
  end.

Definition TEE_FreePropertyEnumerator (c : C) (enumerator : usize) : C := free_enumerator c enumerator.

Definition TEE_StartPropertyEnumerator (c : C) (enumerator prop_set : usize) : C :=
  if (prop_set =? PROPSET_TA) || (prop_set =? PROPSET_CLIENT) || (prop_set =? PROPSET_TEE)
  then (start_enumerator c enumerator prop_set).2 else c.

Definition TEE_ResetPropertyEnumerator (c : C) (enumerator : usize) : C := reset_enumerator c enumerator.

Definition TEE_GetPropertyName (c : C) (m : list u8) (enumerator name_buffer : usize) (name_buffer_len : option usize)
  : option (u32 * option usize * list u8) :=
  match enumerator_name c enumerator with
  | Ok n => write_buf n m name_buffer name_buffer_len
  | Err e => Some (e, name_buffer_len, m)
  | Panic => None
  end.

Definition TEE_GetNextProperty (c : C) (enumerator : usize) : u32 * C := enumerator_next c enumerator.

(** ** Persistent-object enumerators *)

Definition TEE_AllocatePersistentObjectEnumerator (c : C) (enumerator : bool) : u32 * option usize * C :=
  if negb enumerator then (TEE_ERROR_BAD_PARAMETERS, None, c) else
  match alloc_object_enumerator c with
  | (Some h, c) => (TEE_SUCCESS, Some h, c)
  | (None, c) => (TEE_ERROR_OUT_OF_MEMORY, None, c)
  end.

Definition TEE_FreePersistentObjectEnumerator (c : C) (enumerator : usize) : C := free_object_enumerator c enumerator.
Definition TEE_ResetPersistentObjectEnumerator (c : C) (enumerator : usize) : C := reset_object_enumerator c enumerator.
Definition TEE_StartPersistentObjectEnumerator (c : C) (enumerator : usize) (storage_id : u32) (w : W)
  : option (u32 * C * W) := start_object_enumerator c enumerator storage_id w.

Record NextOut := { no_code : u32; no_info : option TeeObjectInfo; no_len : option usize; no_mem : list u8 }.

Definition TEE_GetNextPersistentObject (c : C) (m : list u8) (enumerator : usize) (object_info : bool)
  (object_id : usize) (object_id_len : option usize) : option (NextOut * C) :=
  match object_id_len with
  | None => Some ({| no_code := TEE_ERROR_BAD_PARAMETERS; no_info := None; no_len := None; no_mem := m |}, c)
  | Some cap =>
      match object_enum_peek c enumerator with
      | Panic => None
      | Err e => Some ({| no_code := e; no_info := None; no_len := Some cap; no_mem := m |}, c)
      | Ok item =>
          let need := zlen (om_object_id item) in
          if (object_id =? 0) || (cap <? need) then
            Some ({| no_code := TEE_ERROR_SHORT_BUFFER; no_info := None; no_len := Some need; no_mem := m |}, c) else
          m ← (if negb (need =? 0) then mwrite m object_id (om_object_id item) else Some m);
          let info := if object_info then
            Some {| oi_object_type := TEE_TYPE_DATA; oi_object_size := 0; oi_max_object_size := 0; oi_object_usage := 0;
                    oi_data_size := om_data_size item; oi_data_position := 0; oi_handle_flags := om_flags item |}
            else None in
          Some ({| no_code := TEE_SUCCESS; no_info := info; no_len := Some need; no_mem := m |},
                object_enum_advance c enumerator)
      end
  end.

(** ** Forwards *)

Definition TEE_OpenTASession := open_ta_session (W := W) (Sys := Sys) (Tm := Tm) (En := En) (St := St).
Definition TEE_CloseTASession := close_ta_session (W := W) (Sys := Sys) (Tm := Tm) (En := En) (St := St).
Definition TEE_InvokeTACommand := invoke_ta_command (W := W) (Sys := Sys) (Tm := Tm) (En := En) (St := St).
Definition TEE_GetCancellationFlag (c : C) : bool := cancellation_flag c.
Definition TEE_UnmaskCancellation (c : C) : bool * C := unmask_cancellation c.
Definition TEE_MaskCancellation (c : C) : bool * C := mask_cancellation c.
Definition TEE_SetInstanceData (c : C) (instance_data : usize) : C := rt_set_instance_data c instance_data.
Definition TEE_GetInstanceData (c : C) : usize := rt_instance_data c.
Definition TEE_Malloc (c : C) (m : list u8) (size : usize) (hint : u32) := rt_malloc c m size hint.
Definition TEE_Realloc (c : C) (m : list u8) (buffer new_size : usize) := rt_realloc c m buffer new_size.
Definition TEE_Free (c : C) (buffer : usize) : C := rt_free c buffer.
Definition TEE_GetSystemTime (c : C) (time : bool) (w : W) : option TeeTime := get_system_time c time w.
Definition TEE_GetREETime (c : C) (time : bool) (w : W) : option TeeTime := get_ree_time c time w.
Definition TEE_Wait (c : C) (timeout : u32) (w : W) : u32 * W := time_api_wait c timeout w.
Definition TEE_GetTAPersistentTime (c : C) (time : bool) (w : W) := get_ta_persistent_time c time w.
Definition TEE_SetTAPersistentTime (c : C) (time : option TeeTime) (w : W) := set_ta_persistent_time c time w.
Definition TEE_GenerateRandom (c : C) (random_buffer : bool) (random_buffer_len : usize) (w : W) :=
  generate_random c random_buffer random_buffer_len w.
End CAbi.

Definition TEE_IsAlgorithmSupported (alg_id element : u32) : u32 :=
  if is_algorithm_supported alg_id element then TEE_SUCCESS else TEE_ERROR_NOT_SUPPORTED.
Definition TEE_CheckMemoryAccessRights (access_flags : u32) (buffer size : usize) := check_access access_flags buffer size.
Definition TEE_MemMove (m : list u8) (dest src size : usize) := mem_move m dest src size.
Definition TEE_MemCompare (m : list u8) (buffer1 buffer2 size : usize) := mem_compare m buffer1 buffer2 size.
Definition TEE_MemFill (m : list u8) (buff : usize) (x : u32) (size : usize) := mem_fill m buff x size.
