(* ===== verification/UteeArith.v ===== *)
(** The big-number entry points of the runtime
    (src/crates/rustee-utee/src/arith.rs and the forwards of c_abi.rs): they check
    the buffers and call the crypto library.  [None] is [TEE_Panic].

    A buffer given by pointer and length is [None] when null, else the words the
    TA owns from there; the length may be wrong, and a slice beyond the words is
    [None] too. *)
From Stdlib Require Import ZArith Lia.
From stdpp Require Import base list numbers.
From S2P Require Import Prelude Abi Arith ArithBn ArithMod.

Local Open Scope Z_scope.
Local Open Scope rust_scope.

Definition require_len (op : list u32) (min : usize) : option unit := if zlen op <? min then None else Some tt.

Definition dest_slice (p : option (list u32)) (len : usize) : option (list u32) :=
  match p with
  | None => None
  | Some ws => if len <? 2 then None else get_range ws 0 len
  end.

Definition src_slice (p : option (list u32)) : option (list u32) :=
  ws ← p;
  nlimbs ← ws !! 1%nat;
  let words := sat_add 64 nlimbs 2 in
  let max := bigint_size_in_u32 MAX_BIGINT_BITS in
  if (max <? words) || (words <? 2) then None else get_range ws 0 words.

Definition map_arith (e : ArithError) : option u32 :=
  match e with ShortBuffer => Some TEE_ERROR_SHORT_BUFFER | BadSize => None end.

(** The result of a call into the crypto library that gives a buffer or panics. *)
Definition call {E A} (r : res E A) : option A := match r with Ok a => Some a | _ => None end.

Definition utee_fmm_size_in_u32 (bits : usize) : usize := Arith.fmm_size_in_u32 bits.
Definition utee_fmm_context_size_in_u32 (bits : usize) : usize := Arith.fmm_context_size_in_u32 bits.

Definition sat_mul (w x y : Z) : Z := Z.min (x * y) (2 ^ w - 1).

Definition utee_init (op : list u32) : option (list u32) :=
  _ ← require_len op 2; Some (Arith.init op (sat_mul 64 (zlen op - 2) 32)).
Definition utee_init_fmm (op : list u32) : option (list u32) :=
  _ ← require_len op 2; Some (Arith.init_fmm op (sat_mul 64 (zlen op - 2) 32)).
Definition utee_init_fmm_context1 (ctx modulus : list u32) : option (list u32) :=
  _ ← require_len ctx 2; _ ← require_len modulus 2; Some (Arith.init_fmm_context1 ctx modulus).

Definition utee_from_s32 (op : list u32) (v : Z) : option (list u32) := _ ← require_len op 3; call (Arith.from_s32 op v).

Definition utee_to_s32 (op : list u32) : option Z :=
  _ ← require_len op 2;
  match Arith.to_s32 op with Ok v => Some v | Err e => _ ← map_arith e; None | Panic => None end.

Definition utee_add (dest op1 op2 : list u32) : option (list u32) :=
  _ ← require_len dest 2; _ ← require_len op1 2; _ ← require_len op2 2; call (Arith.add dest op1 op2).
Definition utee_sub (dest op1 op2 : list u32) : option (list u32) :=
  _ ← require_len dest 2; _ ← require_len op1 2; _ ← require_len op2 2; call (Arith.sub dest op1 op2).
Definition utee_mul (dest op1 op2 : list u32) : option (list u32) :=
  _ ← require_len dest 2; _ ← require_len op1 2; _ ← require_len op2 2; call (Arith.mul dest op1 op2).
Definition utee_cmp (op1 op2 : list u32) : option Z :=
  _ ← require_len op1 2; _ ← require_len op2 2; Some (Arith.cmp op1 op2).
Definition utee_assign (dest src : list u32) : option (list u32) :=
  _ ← require_len dest 2; _ ← require_len src 2; Some (Arith.assign dest src).
Definition utee_modulo (dest op n : list u32) : option (list u32) :=
  _ ← require_len dest 2; _ ← require_len op 2; _ ← require_len n 2; call (Arith.modulo dest op n).

Definition utee_from_octet_string (op : list u32) (buf : list u8) (sign : Z) : option (u32 * list u32) :=
  _ ← require_len op 2;
  match Arith.from_octet_string op buf sign with
  | (Ok _, op) => Some (TEE_SUCCESS, op)
  | (Err e, op) => r ← map_arith e; Some (r, op)
  | (Panic, _) => None
  end.

Definition utee_to_octet_string (op : list u32) (buf : list u8) : option (res u32 (usize * list u8)) :=
  _ ← require_len op 2;
  match Arith.to_octet_string op buf with
  | Ok r => Some (Ok r)
  | Err e => r ← map_arith e; Some (Err r)
  | Panic => None
  end.

Definition TEE_BigIntFMMSizeInU32 (bits : usize) : usize := utee_fmm_size_in_u32 bits.
Definition TEE_BigIntFMMContextSizeInU32 (bits : usize) : usize := utee_fmm_context_size_in_u32 bits.
Definition TEE_BigIntInit (big_int : option (list u32)) (len : usize) : option (list u32) :=
  op ← dest_slice big_int len; utee_init op.
Definition TEE_BigIntInitFMM (big_int_fmm : option (list u32)) (len : usize) : option (list u32) :=
  op ← dest_slice big_int_fmm len; utee_init_fmm op.
Definition TEE_BigIntInitFMMContext1 (context : option (list u32)) (len : usize) (modulus : option (list u32))
  : option (u32 * list u32) :=
  c ← dest_slice context len; md ← src_slice modulus; c ← utee_init_fmm_context1 c md; Some (TEE_SUCCESS, c).
Definition TEE_BigIntInitFMMContext (context : option (list u32)) (len : usize) (modulus : option (list u32))
  : option (list u32) :=
  '(_, c) ← TEE_BigIntInitFMMContext1 context len modulus; Some c.

(** * Machine integers *)

Lemma to_s32_bn x op : Bn x op -> to_s32 op = if Z.abs x <=? i32_MAX then Ok x else Err BadSize.
Proof.
  intros [ls rest Hw Ht Hl He]. unfold to_s32. rewrite nlimbs_raw. cbn [rbind].
  destruct ls as [|w ls].
  - cbn in He. change (zlen (@nil u32) =? 0) with true. cbn iota. rewrite (proj2 (Z.leb_le _ _)) by (unfold i32_MAX; lia).
    f_equal. lia.
  - pose proof (zlen_nonneg ls) as Hn. rewrite zlen_cons. rewrite (proj2 (Z.eqb_neq _ _)) by lia.
    change (idx _ 2) with (@Ok ArithError Z w). change (idx _ 0) with (@Ok ArithError Z (flag x)). cbn [rbind].
    assert (Z.land (flag x) FLAG_NEG = flag x) as -> by (destruct (flag_01 x) as [-> | ->]; done).
    destruct ls as [|w' ls].
    + cbn [eval] in He. change (1 <? 1 + zlen (@nil u32)) with false. change (1 + zlen (@nil u32) =? 1) with true.
      cbn [orb andb]. assert (w = Z.abs x) as -> by lia. rewrite Z.leb_antisym. destruct (i32_MAX <? Z.abs x); [done|].
      cbn [negb]. f_equal. unfold flag. destruct (Z.ltb_spec x 0); cbn; lia.
    + rewrite zlen_cons. pose proof (zlen_nonneg ls). rewrite (proj2 (Z.ltb_lt _ _)) by lia. cbn [orb].
      pose proof (trimmed_lower _ Hw Ht ltac:(done)) as Hlow. rewrite He, !zlen_cons in Hlow.
      pose proof (W_mono 1 (1 + (1 + zlen ls) - 1) ltac:(lia)) as Hm. rewrite W_1 in Hm.
      by rewrite (proj2 (Z.leb_gt _ _)) by (unfold i32_MAX; lia).
Qed.

(** Machine integers through big numbers: [from_s32] into a buffer of at least
    three words gives the number, and reading a number back gives it when its
    magnitude is below 2^31 and ends the TA otherwise.  So every [i32] comes back
    except the least one, on which the TA panics. *)
Theorem s32_roundtrip op v x d :
  3 <= zlen op -> - 2 ^ 31 <= v < 2 ^ 31 -> Bn x d ->
  (exists b, utee_from_s32 op v = Some b /\ Bn v b /\ zlen b = zlen op /\
     utee_to_s32 b = if v =? - 2 ^ 31 then None else Some v) /\
  utee_to_s32 d = if Z.abs x <? 2 ^ 31 then Some x else None.
Proof.
  intros Hop Hv Hd.
  assert (forall y e, Bn y e -> utee_to_s32 e = if Z.abs y <? 2 ^ 31 then Some y else None) as Hto.
  { intros y e He. pose proof (bn_zlen _ _ He). unfold utee_to_s32, require_len.
    rewrite (proj2 (Z.ltb_ge _ _)) by lia. cbn [mbind option_bind]. rewrite (to_s32_bn _ _ He). unfold i32_MAX.
    destruct (Z.leb_spec (Z.abs y) (2 ^ 31 - 1)), (Z.ltb_spec (Z.abs y) (2 ^ 31)); try done; lia. }
  split; [|by apply Hto].
  destruct (from_s32_bn op v (zlen op - 2)) as (b & Hb & HB & HL); [lia|lia|done|].
  exists b. unfold utee_from_s32, require_len. rewrite (proj2 (Z.ltb_ge _ _) Hop), Hb. cbn [mbind option_bind call].
  split_and!; try done. rewrite (Hto _ _ HB).
  destruct (Z.eqb_spec v (- 2 ^ 31)) as [->|]; [done|]. by rewrite (proj2 (Z.ltb_lt _ _)) by lia.
Qed.

Lemma s32_roundtrip_witness :
  (exists b, utee_from_s32 (zeros 3) (- 2 ^ 31) = Some b /\ utee_to_s32 b = None) /\ utee_to_s32 (zeros 3) = Some 0.
Proof.
  destruct (s32_roundtrip (zeros 3) (- 2 ^ 31) 0 (zeros 3)) as [(b & H1 & _ & _ & H2) H3].
  - by_compute.
  - lia.
  - apply (bn_zero (zeros 3)). by_compute.
  - split; [exists b; split; [exact H1|exact H2]|exact H3].
Defined.
