(* ===== verification/UteeProps.v ===== *)
(** What the runtime promises a TA: handles of sessions with other TAs, the
    TA's persistent time, the enumerators of properties and persistent objects,
    and parameters across the kernel's boundary. *)
From Stdlib Require Import ZArith Lia String Ascii.
From stdpp Require Import base list numbers strings sets.
From S2P Require Import Prelude Crypto Storage Abi Header UteeMem UteeProp Utee UteeAbi.

Local Open Scope Z_scope.
Local Open Scope rust_scope.

(** * Slots *)

Lemma replace_first_None {A} (f : A -> bool) v l : replace_first f v l = None <-> existsb f l = false.
Proof.
  induction l as [|x l IH]; [done|]. cbn. destruct (f x); [done|]. cbn [orb].
  rewrite <- IH. by destruct (replace_first f v l) as [[]|].
Qed.

Lemma replace_first_Some {A} (f : A -> bool) v l i l' : replace_first f v l = Some (i, l') ->
  exists a x b, l = a ++ x :: b /\ l' = a ++ v :: b /\ f x = true /\ existsb f a = false /\ i = length a.
Proof.
  revert i l'. induction l as [|x l IH]; [done|]. cbn. intros i l' H. destruct (f x) eqn:E.
  - injection H as <- <-. by exists [], x, l.
  - destruct (replace_first f v l) as [[j r]|] eqn:Er; [|done]. cbn in H. injection H as <- <-.
    destruct (IH _ _ eq_refl) as (a & y & b & -> & -> & Hy & Ha & ->).
    exists (x :: a), y, b. split_and!; try done. cbn. by rewrite E.
Qed.

Lemma existsb_eqb (l : list Z) x : existsb (fun s => s =? x) l = true <-> x ∈ l.
Proof.
  rewrite existsb_exists. setoid_rewrite Z.eqb_eq. split.
  - intros (y & Hy & ->). by apply list_elem_of_In.
  - intros H. exists x. split; [by apply list_elem_of_In|done].
Qed.

Lemma existsb_eqb_false (l : list Z) x : existsb (fun s => s =? x) l = false <-> x ∉ l.
Proof. rewrite <- existsb_eqb. by destruct (existsb _ l). Qed.

(** Taking the first free slot and giving it back. *)
Lemma slot_free_again (l : list Z) id : 0 ∈ l -> id ∉ l ->
  exists i l', replace_first (fun s => s =? 0) id l = Some (i, l') /\ id ∈ l' /\
    replace_first (fun s => s =? id) 0 l' = Some (i, l).
Proof.
  intros H0 Hid. destruct (replace_first _ id l) as [[i l']|] eqn:E.
  2:{ apply replace_first_None in E. by apply existsb_eqb_false in E. }
  apply replace_first_Some in E as (a & x & b & -> & -> & Hx & _ & ->). apply Z.eqb_eq in Hx as ->.
  eexists _, _. split; [done|]. split; [set_solver|].
  assert (id ∉ a) as Ha by set_solver. clear -Ha.
  induction a as [|y a IH]; cbn; [by rewrite Z.eqb_refl|].
  rewrite (proj2 (Z.eqb_neq _ _)) by set_solver. rewrite IH by set_solver. done.
Qed.

(** * Sessions with other TAs *)

Section Sessions.
Context {W Sys Tm En St : Type} `{!UteeEnv W Sys Tm En St}.
Abbreviation C := (Core Sys Tm En St).
Implicit Types (c : C) (w : W).

(** Calls on a handle the instance does not remember end the TA. *)
Lemma unknown_handle_panics c id w : 0 < id < 2 ^ 32 -> id ∉ sessions c ->
  close_ta_session c (handle_from_id id) w = None /\
  (forall timeout cmd types params, invoke_ta_command c (handle_from_id id) timeout cmd types params w = None).
Proof.
  intros Hid Hn. apply existsb_eqb_false in Hn.
  assert (id_from_handle (handle_from_id id) = id) as E
    by (unfold id_from_handle, handle_from_id, as_u32; apply wrap_id; unfold in_width; lia).
  unfold close_ta_session, invoke_ta_command. rewrite E. unfold handle_from_id.
  rewrite (proj2 (Z.eqb_neq _ _)) by lia. unfold has_session. rewrite Hn. by rewrite orb_true_r.
Qed.

(** The session the kernel opened for a call of [open_ta_session]. *)
Definition opened_as (c : C) (s : Sys) (dest : TeeUuid) (timeout types : u32) (params : option (list ParamRaw)) (w : W)
  (id : SessionId) (w' : W) : Prop :=
  syscall_hook c = Some s /\
  exists abi out, params_from_gp types params = Ok abi /\
    sys_handle s (UOpenSession (TeeUuid_to_uuid dest) (TrustedApp (caller_uuid c)) abi (next_cancel_id c) timeout) w = (out, w') /\
    code (uo_result out) = TEE_SUCCESS /\ uo_session out = Some id.

Lemma open_remembers c s dest timeout types params w id w' :
  opened_as c s dest timeout types params w id w' -> id <> 0 ->
  exists o c', open_ta_session c (Some dest) timeout types params true w = Some (o, c', w') /\
    co_code o = TEE_SUCCESS /\ co_session o = Some (handle_from_id id) /\ syscall_hook c' = Some s /\
    sessions c' = match replace_first (fun x => x =? 0) id (sessions c) with Some (_, l) => l | None => sessions c end.
Proof.
  intros (Hs & abi & out & Hp & Hk & Hc & Ho) Hid. unfold open_ta_session. cbn [negb]. rewrite Hp.
  unfold mint_cancel_id, syscall. cbn [syscall_hook set_cancel]. rewrite Hs.
  change (caller_uuid (set_cancel c _ _ _)) with (caller_uuid c). rewrite Hk, Hc, Ho. rewrite Z.eqb_refl.
  rewrite (proj2 (Z.eqb_neq _ _) Hid). unfold remember_session. cbn [sessions set_cancel].
  destruct (replace_first _ _ _) as [[i l]|]; eexists _, _; split_and!; try done.
Qed.

(** C22. The life of a session handle.  When the kernel opens a session for a TA,
    the TA gets its handle.  With a free slot among the sixteen, the handle is
    known: closing it tells the kernel to close that session and leaves the slots
    as they were.  Without one, the open succeeds all the same, but the session is
    not remembered: every later call on its handle, the close included, ends the TA. *)
Theorem session_handle_life c s dest timeout types params w id w' :
  opened_as c s dest timeout types params w id w' -> 0 < id < 2 ^ 32 -> id ∉ sessions c ->
  exists o c', open_ta_session c (Some dest) timeout types params true w = Some (o, c', w') /\
    co_code o = TEE_SUCCESS /\ co_session o = Some (handle_from_id id) /\
    (0 ∈ sessions c -> has_session c' id = true /\
       forall w1, exists c'', close_ta_session c' (handle_from_id id) w1 = Some (c'', (sys_handle s (UCloseSession id) w1).2) /\
         sessions c'' = sessions c) /\
    (0 ∉ sessions c -> forall w1, close_ta_session c' (handle_from_id id) w1 = None /\
       forall timeout cmd types params, invoke_ta_command c' (handle_from_id id) timeout cmd types params w1 = None).
Proof.
  intros Ho Hid Hn. destruct (open_remembers _ _ _ _ _ _ _ _ _ Ho ltac:(lia)) as (o & c' & E & Hc & Hh & Hs & Hl).
  exists o, c'. split_and!; try done.
  - intros H0. destruct (slot_free_again _ _ H0 Hn) as (i & l' & E1 & Hin & E2). rewrite E1 in Hl.
    assert (has_session c' id = true) as Hhas by (unfold has_session; rewrite Hl; by apply existsb_eqb).
    split; [done|]. intros w1. unfold close_ta_session.
    assert (id_from_handle (handle_from_id id) = id) as ->
      by (unfold id_from_handle, handle_from_id, as_u32; apply wrap_id; unfold in_width; lia).
    unfold handle_from_id. rewrite (proj2 (Z.eqb_neq _ _)) by lia. rewrite Hhas. cbn [orb negb].
    unfold syscall, forget_session. rewrite Hs, Hl, E2. destruct (sys_handle s _ w1) as [? w2].
    eexists. split; done.
  - intros H0 w1. apply unknown_handle_panics; [done|].
    rewrite (proj2 (replace_first_None _ id _)) in Hl; [by rewrite Hl|]. by apply existsb_eqb_false.
Qed.
End Sessions.

(** A kernel whose state is a clock in seconds: it opens session [w] at time [w],
    and stores two objects. *)
Module UteeSample.
Definition meta (id : list u8) (n : u64) : ObjectMeta := {| om_object_id := id; om_flags := 3; om_data_size := n |}.
#[global] Instance env : UteeEnv u32 unit unit unit unit := {|
  sys_handle := fun _ cmd w =>
    ({| uo_result := {| code := 0; origin := OriginTrustedApp |};
        uo_session := match cmd with UOpenSession _ _ _ _ _ => Some w | _ => None end;
        uo_params := [PNone; PNone; PNone; PNone] |}, w);
  tm_system := fun _ w => {| seconds := w; millis := 250 |};
  tm_ree := fun _ w => {| seconds := w; millis := 0 |};
  tm_wait := fun _ ms w => (TEE_SUCCESS, w + ms / 1000);
  en_fill := fun _ n w => (zeros n, w);
  st_list := fun _ _ w => (Ok [meta [1; 2] 5; meta [3] 7], w) |}.
Definition core0 : Core unit unit unit unit := set_hooks (Core_new 16) (Some tt) (Some tt) None (Some tt).
Definition full : Core unit unit unit unit := set_sessions core0 [1; 2; 3; 4; 5; 6; 7; 8; 9; 10; 11; 12; 13; 14; 15; 16].
Definition dest : TeeUuid := {| tu_time_low := 1; tu_time_mid := 2; tu_time_hi := 3; tu_clock_seq_and_node := zeros 8 |}.
End UteeSample.

Lemma session_handle_life_witness :
  (exists o c', open_ta_session UteeSample.full (Some UteeSample.dest) 0 0 None true 17 = Some (o, c', 17) /\
    co_code o = TEE_SUCCESS /\ co_session o = Some 17 /\ close_ta_session c' 17 17 = None) /\
  (exists o c', open_ta_session UteeSample.core0 (Some UteeSample.dest) 0 0 None true 17 = Some (o, c', 17) /\
    co_session o = Some 17 /\ exists c'', close_ta_session c' 17 17 = Some (c'', 17)).
Proof.
  split.
  - destruct (session_handle_life UteeSample.full tt UteeSample.dest 0 0 None 17 17 17) as (o & c' & H1 & H2 & H3 & _ & H4).
    + split; [reflexivity|]. eexists _, _. split_and!; reflexivity.
    + lia.
    + by_compute.
    + exists o, c'. split_and!; try done. apply H4. by_compute.
  - destruct (session_handle_life UteeSample.core0 tt UteeSample.dest 0 0 None 17 17 17) as (o & c' & H1 & H2 & H3 & H4 & _).
    + split; [reflexivity|]. eexists _, _. split_and!; reflexivity.
    + lia.
    + by_compute.
    + exists o, c'. split_and!; try done. destruct H4 as [_ H4]; [by_compute|]. destruct (H4 17) as (c'' & H & _). by exists c''.
Defined.

(** * Time *)

Definition ms (t : TeeTime) : Z := seconds t * 1000 + millis t.
Definition time_ok (t : TeeTime) : Prop := in_width 32 (seconds t) /\ 0 <= millis t < 1000.

Lemma time_sat_sub_ms a b : time_ok a -> time_ok b ->
  time_ok (time_sat_sub a b) /\ ms (time_sat_sub a b) = Z.max 0 (ms a - ms b).
Proof.
  unfold time_ok, in_width, ms, time_sat_sub. intros [Ha1 Ha2] [Hb1 Hb2].
  destruct (Z.ltb_spec (millis a - millis b) 0).
  all: match goal with |- context [if ?x <? 0 then _ else _] => destruct (Z.ltb_spec x 0) end.
  all: cbn [seconds millis time_zero]; unfold as_u32; rewrite ?wrap_id by (unfold in_width; lia); lia.
Qed.

Lemma time_add_ms a b : time_ok a -> time_ok b ->
  if ms a + ms b <? 2 ^ 32 * 1000
  then exists t, time_add a b = inr t /\ time_ok t /\ ms t = ms a + ms b
  else time_add a b = inl TEE_ERROR_OVERFLOW.
Proof.
  unfold time_ok, in_width, ms, time_add. intros [Ha1 Ha2] [Hb1 Hb2].
  pose proof (Z.div_mod (millis a + millis b) 1000 ltac:(lia)) as Hdm.
  pose proof (Z.mod_pos_bound (millis a + millis b) 1000 ltac:(lia)) as Hm.
  set (q := (millis a + millis b) / 1000) in *. set (r := (millis a + millis b) mod 1000) in *.
  assert (0 <= q <= 1) by lia.
  rewrite (checked_add_ok 64 (seconds a)) by lia. cbn [base.mbind option_bind]. rewrite checked_add_ok by lia.
  unfold U32_MAX. destruct (Z.ltb_spec (2 ^ 32 - 1) (seconds a + seconds b + q)).
  - by rewrite (proj2 (Z.ltb_ge _ _)) by lia.
  - rewrite (proj2 (Z.ltb_lt _ _)) by lia. eexists. split; [done|]. cbn [seconds millis].
    unfold as_u32. rewrite !wrap_id by (unfold in_width; lia). lia.
Qed.

Section Time.
Context {W Sys Tm En St : Type} `{!UteeEnv W Sys Tm En St}.

(** C38. A TA's persistent time runs with the system time: after it is set to [t],
    reading it gives [t] plus the milliseconds the system clock has moved since
    (none if it went back), normalized; if that no longer fits the 32-bit
    seconds, the answer is OVERFLOW; before it is set, TIME_NOT_SET; a time with
    more than 999 milliseconds is refused and changes nothing. *)
Theorem persistent_time_runs (c : Core Sys Tm En St) t (w0 w : W) :
  time_ok (system_time c w0) -> time_ok (system_time c w) -> in_width 32 (seconds t) -> in_width 32 (millis t) ->
  (pt_set (persist c) = false -> get_ta_persistent_time c true w = (TEE_ERROR_TIME_NOT_SET, None)) /\
  (1000 <= millis t -> set_ta_persistent_time c (Some t) w0 = (TEE_ERROR_BAD_PARAMETERS, c)) /\
  (millis t < 1000 -> exists c', set_ta_persistent_time c (Some t) w0 = (TEE_SUCCESS, c') /\
     let now := ms t + Z.max 0 (ms (system_time c w) - ms (system_time c w0)) in
     if now <? 2 ^ 32 * 1000
     then exists r, get_ta_persistent_time c' true w = (TEE_SUCCESS, Some r) /\ time_ok r /\ ms r = now
     else get_ta_persistent_time c' true w = (TEE_ERROR_OVERFLOW, None)).
Proof.
  intros H0 H1 Hs Hm. unfold get_ta_persistent_time, set_ta_persistent_time. cbn [negb]. split_and!.
  - by intros ->.
  - intros H. by rewrite (proj2 (Z.leb_le _ _) H).
  - intros H. rewrite (proj2 (Z.leb_gt _ _) H). eexists. split; [done|]. cbn [persist set_persist pt_set pt_value pt_sys_base negb].
    change (system_time (set_persist c _) w) with (system_time c w).
    destruct (time_sat_sub_ms _ _ H1 H0) as [Hd Hdm]. rewrite <- Hdm.
    pose proof (time_add_ms t (time_sat_sub (system_time c w) (system_time c w0))
      ltac:(unfold time_ok, in_width in *; lia) Hd) as Ha.
    destruct (_ <? _); [|by rewrite Ha]. destruct Ha as (r & -> & Hr & Hrm). by exists r.
Qed.
End Time.

Lemma persistent_time_runs_witness : exists c',
  set_ta_persistent_time UteeSample.core0 (Some {| seconds := 100; millis := 900 |}) 20 = (TEE_SUCCESS, c') /\
  exists r, get_ta_persistent_time c' true 25 = (TEE_SUCCESS, Some r) /\ time_ok r /\ ms r = 105900.
Proof.
  destruct (persistent_time_runs UteeSample.core0 {| seconds := 100; millis := 900 |} 20 25) as (_ & _ & H).
  - by_compute.
  - by_compute.
  - by_compute.
  - by_compute.
  - exact (H eq_refl).
Defined.

(** * Enumerators *)

Section Enumerators.
Context {W Sys Tm En St : Type} `{!UteeEnv W Sys Tm En St}.
Abbreviation C := (Core Sys Tm En St).
Implicit Types (c : C) (w : W).

Lemma slot_put c h e e' : slot c h = Some e -> es_used e' = true -> slot (put_slot c h e') h = Some e'.
Proof.
  unfold slot, put_slot. cbn [enums set_enums]. destruct (h =? 0); [done|]. intros H Hu.
  destruct (enums c !! Z.to_nat (h - 1)) as [x|] eqn:E; [|done].
  rewrite list_lookup_insert_eq by (by apply lookup_lt_Some in E). cbn. by rewrite Hu.
Qed.

Lemma obj_slot_put c h e e' : obj_slot c h = Some e -> oe_used e' = true -> obj_slot (put_obj_slot c h e') h = Some e'.
Proof.
  unfold obj_slot, put_obj_slot. cbn [obj_enums set_obj_enums]. destruct (h =? 0); [done|]. intros H Hu.
  destruct (obj_enums c !! Z.to_nat (h - 1)) as [x|] eqn:E; [|done].
  rewrite list_lookup_insert_eq by (by apply lookup_lt_Some in E). cbn. by rewrite Hu.
Qed.

Lemma slot_used c h e : slot c h = Some e -> es_used e = true.
Proof. unfold slot. destruct (h =? 0); [done|]. destruct (_ !! _) as [x|]; [|done]. cbn. destruct (es_used x) eqn:E; [|done]. by intros [= <-]. Qed.

Lemma obj_slot_used c h e : obj_slot c h = Some e -> oe_used e = true.
Proof. unfold obj_slot. destruct (h =? 0); [done|]. destruct (_ !! _) as [x|]; [|done]. cbn. destruct (oe_used x) eqn:E; [|done]. by intros [= <-]. Qed.

(** Enumerator [h] is at the [k]-th name of [set]; at the [k]-th object of [items]. *)
Definition at_prop (c : C) (h set : usize) (k : nat) : Prop :=
  slot c h = Some {| es_used := true; es_set := set; es_idx := Z.of_nat k; es_started := true |}.
Definition at_obj (c : C) (h : usize) (items : list ObjectMeta) (k : nat) : Prop :=
  obj_slot c h = Some {| oe_used := true; oe_started := true; oe_idx := Z.of_nat k; oe_items := items |}.

Lemma at_prop_start c h set e : slot c h = Some e -> is_propset set = true ->
  at_prop (TEE_StartPropertyEnumerator c h set) h set 0.
Proof.
  intros He Hs. unfold TEE_StartPropertyEnumerator. unfold is_propset in Hs. rewrite Hs.
  unfold start_enumerator. rewrite He. cbn [snd]. unfold at_prop. rewrite (slot_used _ _ _ He). by eapply slot_put.
Qed.

Lemma at_prop_next c h set k : at_prop c h set k -> Z.of_nat k + 1 < 2 ^ 64 ->
  exists c', at_prop c' h set (S k) /\
    TEE_GetNextProperty c h = (match names_for set !! S k with Some _ => TEE_SUCCESS | None => TEE_ERROR_ITEM_NOT_FOUND end, c').
Proof.
  intros Ha Hk. unfold TEE_GetNextProperty, enumerator_next. rewrite Ha. cbn [es_started negb es_idx es_set es_used].
  assert (sat_add 64 (Z.of_nat k) 1 = Z.of_nat (S k)) as -> by (unfold sat_add; lia).
  eexists. split; [by eapply slot_put|]. unfold name_at. by rewrite Nat2Z.id.
Qed.

Lemma at_prop_name c h set k : at_prop c h set k -> enumerator_name c h = ok_or (names_for set !! k) TEE_ERROR_ITEM_NOT_FOUND.
Proof. intros Ha. unfold enumerator_name. rewrite Ha. cbn [ok_or rbind es_started negb es_set es_idx]. unfold name_at. by rewrite Nat2Z.id. Qed.

(** The bytes of a name in a buffer. *)
Lemma write_buf_ok s m buf cap : 0 < buf -> buf + cap <= zlen m -> zlen (str s) < cap ->
  exists m', write_buf s m buf (Some cap) = Some (TEE_SUCCESS, Some (zlen (str s) + 1), m') /\
    sub m' buf (zlen (str s) + 1) = str s ++ [0] /\ zlen m' = zlen m.
Proof.
  intros Hb Hm Hc. pose proof (zlen_nonneg (str s)) as Hn. unfold write_buf.
  rewrite (proj2 (Z.eqb_neq _ _)), (proj2 (Z.ltb_ge _ _)) by lia. cbn [orb].
  rewrite mread_ok by lia. cbn [base.mbind option_bind]. unfold copy_str.
  assert (zlen (sub m buf cap) = cap) as Hz by (apply zlen_sub; lia). rewrite Hz.
  rewrite (proj2 (Z.ltb_ge _ _)) by lia.
  assert (zlen (str s ++ [0]) = zlen (str s) + 1) as Hs by (rewrite zlen_app; done).
  assert (zlen (splice (sub m buf cap) 0 (str s ++ [0])) = cap) as Hz' by (rewrite zlen_splice; lia).
  rewrite mwrite_ok by lia. cbn [base.mbind option_bind]. eexists. split; [done|]. split; [|apply zlen_splice; lia].
  assert (sub (splice m buf (splice (sub m buf cap) 0 (str s ++ [0]))) buf cap = splice (sub m buf cap) 0 (str s ++ [0])) as E
    by (apply sub_splice_same; lia).
  trans (take (Z.to_nat (zlen (str s) + 1)) (sub (splice m buf (splice (sub m buf cap) 0 (str s ++ [0]))) buf cap)).
  { unfold sub. rewrite take_take. f_equal. lia. }
  rewrite E. apply (sub_splice_same (sub m buf cap) 0); lia.
Qed.

(** A TA's loop over a set: copy the name, take the next, until an error. *)
Fixpoint walk_names (fuel : nat) (c : C) (m : list u8) (h buf cap : usize) : option (list (list u8) * u32) :=
  match fuel with
  | O => None
  | S fuel =>
      '(r, len, m) ← TEE_GetPropertyName c m h buf (Some cap);
      if negb (r =? TEE_SUCCESS) then Some ([], r) else
      let name := sub m buf (default 0 len) in
      let '(r, c) := TEE_GetNextProperty c h in
      if negb (r =? TEE_SUCCESS) then Some ([name], r) else
      '(names, r) ← walk_names fuel c m h buf cap;
      Some (name :: names, r)
  end.

Lemma walk_names_step fuel c m h set k n buf cap :
  at_prop c h set k -> names_for set !! k = Some n -> 0 < buf -> buf + cap <= zlen m -> zlen (str n) < cap ->
  Z.of_nat k + 1 < 2 ^ 64 ->
  exists c' m', at_prop c' h set (S k) /\ zlen m' = zlen m /\
    walk_names (S fuel) c m h buf cap =
      match names_for set !! S k with
      | Some _ => '(names, r) ← walk_names fuel c' m' h buf cap; Some ((str n ++ [0]) :: names, r)
      | None => Some ([str n ++ [0]], TEE_ERROR_ITEM_NOT_FOUND)
      end.
Proof.
  intros Ha Elk Hb Hm Hc Hk. destruct (at_prop_next c h set k Ha Hk) as (c' & Ha' & Hnext).
  destruct (write_buf_ok n m buf cap Hb Hm Hc) as (m' & Hw & Hs & Hz). exists c', m'. split_and!; [done|done|].
  cbn [walk_names]. rewrite Hnext. unfold TEE_GetPropertyName. rewrite (at_prop_name _ _ _ _ Ha), Elk. cbn [ok_or].
  rewrite Hw. clear -Hs. cbn [base.mbind option_bind]. rewrite Z.eqb_refl. cbn [negb default from_option].
  unfold default, from_option, id. rewrite Hs. by destruct (names_for set !! S k).
Qed.

Lemma walk_from fuel c m h set ns k buf cap :
  names_for set = ns -> at_prop c h set k -> 0 < buf -> buf + cap <= zlen m -> Forall (fun n => zlen (str n) < cap) ns ->
  Z.of_nat (length ns) < 2 ^ 64 -> (k < length ns)%nat -> (length ns <= k + fuel)%nat ->
  walk_names fuel c m h buf cap = Some (map (fun n => str n ++ [0]) (drop k ns), TEE_ERROR_ITEM_NOT_FOUND).
Proof.
  intros Hns. revert c m k. induction fuel as [|fuel IH]; intros c m k Ha Hb Hm Hf Hl Hk Hfuel; [lia|].
  destruct (lookup_lt_is_Some_2 ns k Hk) as [n Elk].
  pose proof (list.Forall_lookup_1 _ _ _ _ Hf Elk) as Hc. cbv beta in Hc.
  assert (Z.of_nat k + 1 < 2 ^ 64) as Hk' by lia.
  rewrite <- Hns in Elk.
  destruct (walk_names_step fuel c m h set k n buf cap Ha Elk Hb Hm Hc Hk') as (c' & m' & Ha' & Hz & ->).
  rewrite Hns in *. rewrite (drop_S _ _ _ Elk). cbn [map]. rewrite <- Hz in Hm.
  destruct (ns !! S k) as [n'|] eqn:Elk'.
  - apply lookup_lt_Some in Elk'. rewrite (IH c' m' (S k) Ha' Hb Hm Hf Hl Elk' ltac:(lia)). reflexivity.
  - apply lookup_ge_None in Elk'. rewrite drop_ge by exact Elk'. reflexivity.
Qed.

(** What a TA learns of an object, and its loop over the objects. *)
Definition described (o : ObjectMeta) : list u8 * TeeObjectInfo :=
  (om_object_id o, {| oi_object_type := TEE_TYPE_DATA; oi_object_size := 0; oi_max_object_size := 0; oi_object_usage := 0;
                      oi_data_size := om_data_size o; oi_data_position := 0; oi_handle_flags := om_flags o |}).

Fixpoint walk_objects (fuel : nat) (c : C) (m : list u8) (h buf cap : usize)
  : option (list (list u8 * TeeObjectInfo) * u32) :=
  match fuel with
  | O => None
  | S fuel =>
      '(o, c) ← TEE_GetNextPersistentObject c m h true buf (Some cap);
      if negb (no_code o =? TEE_SUCCESS) then Some ([], no_code o) else
      info ← no_info o;
      let id := sub (no_mem o) buf (default 0 (no_len o)) in
      '(l, r) ← walk_objects fuel c (no_mem o) h buf cap;
      Some ((id, info) :: l, r)
  end.

(** One call: a short buffer is told the length and the object is not passed. *)
Lemma next_object c m h items k it buf cap : at_obj c h items k -> items !! k = Some it -> Z.of_nat k + 1 < 2 ^ 64 ->
  (cap < zlen (om_object_id it) -> TEE_GetNextPersistentObject c m h true buf (Some cap) =
     Some ({| no_code := TEE_ERROR_SHORT_BUFFER; no_info := None; no_len := Some (zlen (om_object_id it)); no_mem := m |}, c)) /\
  (0 < buf -> buf + cap <= zlen m -> zlen (om_object_id it) <= cap -> exists o c',
     TEE_GetNextPersistentObject c m h true buf (Some cap) = Some (o, c') /\
     no_code o = TEE_SUCCESS /\ no_info o = Some (described it).2 /\ no_len o = Some (zlen (om_object_id it)) /\
     sub (no_mem o) buf (zlen (om_object_id it)) = om_object_id it /\ zlen (no_mem o) = zlen m /\ at_obj c' h items (S k)).
Proof.
  intros Ha Hi Hk. assert (object_enum_peek c h = Ok it) as Hp.
  { unfold object_enum_peek. rewrite Ha. cbn [ok_or rbind oe_started negb oe_items oe_idx]. by rewrite Nat2Z.id, Hi. }
  unfold TEE_GetNextPersistentObject. rewrite Hp. split.
  - intros Hs. by rewrite (proj2 (Z.ltb_lt _ _) Hs), orb_true_r.
  - intros Hb Hm Hc. rewrite (proj2 (Z.eqb_neq _ _)), (proj2 (Z.ltb_ge _ _)) by lia. cbn [orb].
    pose proof (zlen_nonneg (om_object_id it)) as Hn.
    assert (at_obj (object_enum_advance c h) h items (S k)) as Hadv.
    { unfold object_enum_advance. rewrite Ha. unfold at_obj. erewrite (obj_slot_put _ _ _ _ Ha); [|done].
      unfold obj_at. cbn [oe_used oe_started oe_idx oe_items].
      assert (sat_add 64 (Z.of_nat k) 1 = Z.of_nat (S k)) as -> by (unfold sat_add; lia). done. }
    destruct (Z.eqb_spec (zlen (om_object_id it)) 0) as [E|E]; cbn [negb].
    + cbn [base.mbind option_bind]. eexists _, _. split; [done|]. cbn [no_code no_info no_len no_mem]. split_and!; try done.
      rewrite E. by rewrite (nil_length_inv (om_object_id it)) by (unfold zlen in E; lia).
    + rewrite mwrite_ok by lia. cbn [base.mbind option_bind]. eexists _, _. split; [done|]. cbn [no_code no_info no_len no_mem].
      split_and!; try done; [apply sub_splice_same; lia|apply zlen_splice; lia].
Qed.

Lemma walk_objects_from fuel c m h items k buf cap :
  at_obj c h items k -> 0 < buf -> buf + cap <= zlen m -> Forall (fun o => zlen (om_object_id o) <= cap) items ->
  zlen items < 2 ^ 64 -> (k <= length items)%nat -> (length items < k + fuel)%nat ->
  walk_objects fuel c m h buf cap = Some (map described (drop k items), TEE_ERROR_ITEM_NOT_FOUND).
Proof.
  revert c m k. induction fuel as [|fuel IH]; intros c m k Ha Hb Hm Hf Hl Hk Hfuel; [lia|]. cbn [walk_objects].
  destruct (items !! k) as [it|] eqn:Ei.
  - pose proof (lookup_lt_Some _ _ _ Ei) as Hlt.
    destruct (next_object c m h items k it buf cap Ha Ei) as [_ H]; [unfold zlen in Hl; lia|].
    destruct H as (o & c' & -> & H1 & H2 & H3 & H4 & H5 & H6); [done..|by apply (list.Forall_lookup_1 _ _ _ _ Hf Ei)|].
    cbn [base.mbind option_bind]. rewrite H1, H2, H3. change (TEE_SUCCESS =? TEE_SUCCESS) with true. cbn [negb base.mbind option_bind].
    change (default 0 (Some (zlen (om_object_id it)))) with (zlen (om_object_id it)). rewrite H4.
    rewrite (IH c' (no_mem o) (S k)); [|done|done|by rewrite H5|done..|lia|lia]. by rewrite (drop_S _ _ _ Ei).
  - apply lookup_ge_None in Ei as Hge. rewrite drop_ge by done.
    unfold TEE_GetNextPersistentObject, object_enum_peek. rewrite Ha. cbn [ok_or rbind oe_started negb oe_items oe_idx].
    rewrite Nat2Z.id, Ei. done.
Qed.
End Enumerators.

Lemma string_of_bytes_str s : string_of_bytes (str s) = s.
Proof.
  unfold string_of_bytes, str. rewrite map_map. induction s as [|a s IH]; [done|]. cbn. rewrite N2Z.id, ascii_N_embedding.
  f_equal. exact IH.
Qed.

Lemma is_propset_cases set : is_propset set = true -> set = PROPSET_TA \/ set = PROPSET_CLIENT \/ set = PROPSET_TEE.
Proof. unfold is_propset. rewrite !orb_true_iff, !Z.eqb_eq. tauto. Qed.

(** Names fit 64 bytes with their NUL and are plain text; each can be read. *)
Definition name_fine (set : usize) (n : string) : bool :=
  (zlen (str n) <? 64) && utf8_valid (str n) && bool_decide (is_Some (find_prop set n)).
Lemma names_fine set : is_propset set = true ->
  Forall (fun n => name_fine set n = true) (names_for set) /\ (0 < length (names_for set) <= 30)%nat.
Proof. intros H. apply is_propset_cases in H as [-> | [-> | ->]]; by_compute. Qed.

Section EnumClaims.
Context {W Sys Tm En St : Type} `{!UteeEnv W Sys Tm En St}.
Implicit Types (c : Core Sys Tm En St) (w : W).

(** Walking a property set visits every property once: after a start on a set,
    copying the name and taking the next one until an error gives exactly the
    names of the set in order, each with its NUL, and then ITEM_NOT_FOUND; each
    name, given back as a C string, names a property that can be read. *)
Theorem property_walk_complete c e m h set buf :
  slot c h = Some e -> is_propset set = true -> 0 < buf -> buf + 64 <= zlen m ->
  walk_names 30 (TEE_StartPropertyEnumerator c h set) m h buf 64 =
    Some (map (fun n => str n ++ [0]) (names_for set), TEE_ERROR_ITEM_NOT_FOUND) /\
  forall n, n ∈ names_for set -> resolve c set (Some (str n)) = Ok (set, n) /\
    exists k, answer k (prop c) set n = Ok tt.
Proof.
  intros He Hs Hb Hm. destruct (names_fine set Hs) as [Hf Hl]. split.
  - erewrite (walk_from 30 _ m h set (names_for set) 0 buf 64); [by rewrite drop_0|done|by eapply at_prop_start|done..| |lia|lia|lia].
    eapply list.Forall_impl; [exact Hf|]. cbv beta. unfold name_fine. intros n. rewrite !andb_true_iff, Z.ltb_lt. tauto.
  - intros n Hn. pose proof (proj1 (list.Forall_forall _ _) Hf n Hn) as Hfn. cbv beta in Hfn. unfold name_fine in Hfn.
    rewrite !andb_true_iff, bool_decide_eq_true in Hfn. destruct Hfn as [[_ Hu] [p Hp]]. split.
    + unfold resolve. rewrite Hs. cbn [cstr]. rewrite Hu. cbn [rbind]. by rewrite string_of_bytes_str.
    + exists (pr_kind p). rewrite (table_served (prop c) set n p Hp). unfold typed_answer. rewrite bool_decide_true; [done|]. clear. destruct (pr_kind p); apply elem_of_cons; by left.
Qed.

(** Walking the persistent objects reports every object once: after a start on
    the private storage, asking for the next object until an error gives the
    identifier, size and flags of each stored object in order, and then
    ITEM_NOT_FOUND; a buffer too short is told the length and passes no object. *)
Theorem object_walk_complete c e m h items buf cap w w' :
  obj_slot c h = Some e -> list_persistent c (caller_uuid c) w = (Ok items, w') -> zlen items < 2 ^ 64 ->
  0 < buf -> buf + cap <= zlen m ->
  exists c', TEE_StartPersistentObjectEnumerator c h TEE_STORAGE_PRIVATE w = Some (TEE_SUCCESS, c', w') /\
    (Forall (fun o => zlen (om_object_id o) <= cap) items ->
       walk_objects (S (length items)) c' m h buf cap = Some (map described items, TEE_ERROR_ITEM_NOT_FOUND)) /\
    (forall o, head items = Some o -> cap < zlen (om_object_id o) ->
       TEE_GetNextPersistentObject c' m h true buf (Some cap) =
         Some ({| no_code := TEE_ERROR_SHORT_BUFFER; no_info := None; no_len := Some (zlen (om_object_id o)); no_mem := m |}, c')).
Proof.
  intros He Hl Hz Hb Hm. unfold TEE_StartPersistentObjectEnumerator, start_object_enumerator. rewrite Hl, He.
  assert ((h =? 0) = false) as -> by (unfold obj_slot in He; by destruct (h =? 0)). cbn [Z.eqb orb negb].
  eexists. split; [reflexivity|].
  set (c' := put_obj_slot c h _). assert (at_obj c' h items 0) as Ha.
  { unfold at_obj, c'. rewrite (obj_slot_used _ _ _ He). by apply (obj_slot_put _ _ _ _ He). }
  split.
  - intros Hf. rewrite (walk_objects_from _ c' m h items 0 buf cap); [by rewrite drop_0|done..|lia|lia].
  - intros o Ho Hc. destruct items as [|o' items]; [done|]. injection Ho as ->.
    by apply (next_object c' m h (o :: items) 0 o buf cap Ha eq_refl ltac:(lia)).
Qed.
End EnumClaims.

(** Instances with an allocated enumerator of each sort. *)
Definition sample_enum : Core unit unit unit unit := (alloc_enumerator UteeSample.core0).2.
Definition sample_obj_enum : Core unit unit unit unit := (alloc_object_enumerator UteeSample.core0).2.

Lemma property_walk_complete_witness :
  walk_names 30 (TEE_StartPropertyEnumerator sample_enum 1 PROPSET_CLIENT) (zeros 100) 1 8 64 =
    Some ([str "gpd.client.identity" ++ [0]; str "gpd.client.endian" ++ [0]], TEE_ERROR_ITEM_NOT_FOUND).
Proof.
  destruct (property_walk_complete sample_enum {| es_used := true; es_set := 0; es_idx := 0; es_started := false |}
    (zeros 100) 1 PROPSET_CLIENT 8) as [H _]; [reflexivity|reflexivity|lia|by_compute|exact H].
Defined.

Lemma object_walk_complete_witness : exists c',
  TEE_StartPersistentObjectEnumerator sample_obj_enum 1 TEE_STORAGE_PRIVATE 0 = Some (TEE_SUCCESS, c', 0) /\
  walk_objects 3 c' (zeros 100) 1 8 64 =
    Some (map described [UteeSample.meta [1; 2] 5; UteeSample.meta [3] 7], TEE_ERROR_ITEM_NOT_FOUND).
Proof.
  destruct (object_walk_complete sample_obj_enum {| oe_used := true; oe_started := false; oe_idx := 0; oe_items := [] |}
    (zeros 100) 1 [UteeSample.meta [1; 2] 5; UteeSample.meta [3] 7] 8 64 0 0) as (c' & H1 & H2 & _).
  - reflexivity.
  - reflexivity.
  - by_compute.
  - lia.
  - by_compute.
  - exists c'. split; [exact H1|]. apply H2. by_compute.
Defined.
