(* ===== verification/UteeStore.v ===== *)
(** The runtime on the storage: [PersistentStore] for [ReeFs]
    (src/crates/rustee-utee/src/runtime.rs) and what a TA sees of its objects
    through its enumerators. *)
From Stdlib Require Import ZArith Lia String.
From stdpp Require Import base list numbers strings sets.
From S2P Require Import Prelude Crypto Storage StorageProps Abi Header UteeMem UteeProp Utee UteeAbi UteeProps.

Local Open Scope Z_scope.
Local Open Scope rust_scope.

Section Stored.
Context {E H F : Type} `{EL : EntropyLaws E} `{HukOps H} `{FL : FsLaws F} `{CL : CryptoLaws}.
Context {Sys Tm En : Type} (others : UteeEnv (ReeFs E H F) Sys Tm En unit).

(** [list] of the trait: the store's own. *)
Definition ReeFs_list (ta : Uuid) : M (ReeFs E H F) (list ObjectMeta) := list_objects ta.

(** The store behind the runtime; the other hooks are any. *)
#[local] Instance store_env : UteeEnv (ReeFs E H F) Sys Tm En unit := {|
  sys_handle := sys_handle (UteeEnv := others); tm_system := tm_system (UteeEnv := others);
  tm_ree := tm_ree (UteeEnv := others); tm_wait := tm_wait (UteeEnv := others); en_fill := en_fill (UteeEnv := others);
  st_list := fun _ => ReeFs_list |}.

(** C37. A TA's enumerator reports what the storage holds: after an object is
    created next to any others, walking the persistent objects gives all of them
    and the new one last, each with its identifier, size and flags, whether or
    not its contents can still be opened; before the first one is created there
    is nothing to walk. *)
Theorem created_objects_enumerated (c : Core Sys Tm En unit) (s : ReeFs E H F) ta oid flags data es fs h e m buf cap :
  caller_uuid c = ta -> store_hook c = Some tt -> obj_slot c h = Some e ->
  0 < buf -> buf + cap <= zlen m -> 255 <= cap ->
  dir_is s ta es fs -> entries_ok es fs -> zlen es + 1 < 2 ^ 24 ->
  existsb (fun o => beqb (om_object_id o) oid) es = false ->
  zlen ta = 16 -> zlen oid <= 255 -> in_width 32 flags -> zlen data <= MAX_OBJECT ->
  (view s (dir_path ta) = None -> exists s', TEE_StartPersistentObjectEnumerator c h TEE_STORAGE_PRIVATE s = Some (TEE_ERROR_ITEM_NOT_FOUND, c, s')) /\
  exists o s1 c' s2, create ta oid flags data s = (Ok o, s1) /\
    om_object_id (meta_of o) = oid /\ om_flags (meta_of o) = flags /\ om_data_size (meta_of o) = zlen data /\
    TEE_StartPersistentObjectEnumerator c h TEE_STORAGE_PRIVATE s1 = Some (TEE_SUCCESS, c', s2) /\
    walk_objects (S (length (es ++ [meta_of o]))) c' m h buf cap = Some (map described (es ++ [meta_of o]), TEE_ERROR_ITEM_NOT_FOUND).
Proof.
  intros Hc Hs Hslot Hb Hm Hcap Hd He Hn Hnew Hta Hoid Hfl Hdata. split.
  - intros Hv. destruct (load_dir_full_none s ta Hv) as (s' & Hl & _). exists s'.
    unfold TEE_StartPersistentObjectEnumerator, start_object_enumerator, list_persistent. rewrite Hs, Hc.
    assert ((h =? 0) = false) as -> by (unfold obj_slot in Hslot; by destruct (h =? 0)). cbn [Z.eqb orb negb].
    unfold st_list, store_env, ReeFs_list, list_objects, load_dir, Storage.mbind. by rewrite Hl.
  - destruct (create_spec s ta oid flags data es fs Hd He Hn Hnew Hta Hoid Hfl Hdata) as (fid & s1 & E1 & Hh & Hdir & _).
    cbv zeta in *. set (o := new_handle ta fid oid flags data) in *.
    destruct (load_dir_full_spec _ _ _ _ Hdir) as (s2 & Hl & _).
    destruct (object_walk_complete c e m h (es ++ [meta_of o]) buf cap s1 s2 Hslot) as (c' & Hst & Hw & _).
    + unfold list_persistent. rewrite Hs, Hc. unfold st_list, store_env, ReeFs_list, list_objects, load_dir, Storage.mbind. by rewrite Hl.
    + rewrite zlen_app. change (zlen [meta_of o]) with 1. lia.
    + done.
    + done.
    + exists o, s1, c', s2. split_and!; try done. apply Hw. apply Forall_app. split.
      * destruct He as (Hes & _). eapply list.Forall_impl; [exact Hes|]. intros x (Hx & _). lia.
      * constructor; [cbn; lia|constructor].
Qed.
End Stored.

#[local] Existing Instances toy_crates toy_laws.
#[local] Instance sample_huk : HukOps unit := {| huk_material := fun _ => str "0123456789abcdef" |}.

Definition no_hooks : UteeEnv (ReeFs HalVirt.VirtEntropy unit MemFs) unit unit unit unit := {|
  sys_handle := fun _ _ w => ({| uo_result := {| code := 0; origin := OriginTee |}; uo_session := None; uo_params := [] |}, w);
  tm_system := fun _ _ => time_zero; tm_ree := fun _ _ => time_zero; tm_wait := fun _ _ w => (TEE_SUCCESS, w);
  en_fill := fun _ n w => (zeros n, w); st_list := fun _ _ w => (Err FsErr, w) |}.

(** An instance of the TA [ta0] with an object enumerator and the store plugged in. *)
Definition ta0_core : Core unit unit unit unit :=
  (alloc_object_enumerator (set_hooks (set_prop (Core_new 16)
     {| pc_ta := {| tp_uuid := ta0; stack_size := 4096; data_size := 4096; single_instance := true; multi_session := false;
                    instance_keep_alive := false; endian := 0; ta_version := 1 |};
        pc_ta_version := ""; pc_ta_description := ""; pc_client := {| id_login := 0; id_uuid := zeros 16 |} |})
     None None None (Some tt))).2.

Lemma created_objects_enumerated_witness : exists o s1 c' s2,
  create ta0 [1; 2] 7 [5; 6] store0 = (Ok o, s1) /\ om_object_id (meta_of o) = [1; 2] /\
  @TEE_StartPersistentObjectEnumerator _ _ _ _ _ (store_env no_hooks) ta0_core 1 TEE_STORAGE_PRIVATE s1 = Some (TEE_SUCCESS, c', s2) /\
  walk_objects 2 c' (zeros 300) 1 8 255 = Some ([described (meta_of o)], TEE_ERROR_ITEM_NOT_FOUND).
Proof.
  destruct (created_objects_enumerated no_hooks ta0_core store0 ta0 [1; 2] 7 [5; 6] [] [] 1
    {| oe_used := true; oe_started := false; oe_idx := 0; oe_items := [] |} (zeros 300) 8 255)
    as (_ & o & s1 & c' & s2 & H1 & H2 & _ & _ & H5 & H6).
  - reflexivity.
  - reflexivity.
  - reflexivity.
  - lia.
  - by_compute.
  - lia.
  - left. split_and!; [vm_compute; reflexivity|reflexivity|reflexivity].
  - repeat split; constructor.
  - reflexivity.
  - reflexivity.
  - reflexivity.
  - by_compute.
  - by_compute.
  - by_compute.
  - exists o, s1, c', s2. split; [exact H1|]. split; [exact H2|]. split; [exact H5|exact H6].
Defined.
