(* ===== verification/Alloc.v ===== *)
(** The two bump allocators that serve [alloc]: the guest's
    (src/guest/rustee-guest/src/heap.rs) and a Rust TA's
    (src/ta/hello-rs/src/lib.rs, [ta_lang]).  Both take memory with a
    compare-and-exchange loop on one atomic word and never give any back.

    One turn of the loop is a function; callers interleave turn by turn, as the
    steps of a relation on the word and the calls under way. *)
From Stdlib Require Import ZArith Lia.
From stdpp Require Import base list numbers relations sorting.
From S2P Require Import Prelude.

Local Open Scope Z_scope.
Local Open Scope rust_scope.

(** [(x + a - 1) & !(a - 1)] at 64 bits. *)
Definition align_to (x a : u64) : u64 := Z.land (x + a - 1) (Z.lxor (a - 1) U64_MAX).

(** [Layout]: the alignment is a power of two. *)
Record Layout := { l_size : usize; l_align : usize }.

(** * heap.rs *)

Record Bump := { cur : usize; bend : usize }.
Definition Bump_empty : Bump := {| cur := 0; bend := 0 |}.
(** [start + len] is checked: it panics on overflow. *)
Definition Bump_init (start len : usize) : option Bump :=
  e ← checked_add 64 start len; Some {| cur := start; bend := e |}.

(** What a turn of the loop that has seen [seen] in [cur] does: give up, or try
    to put [next] and give [aligned]. *)
Inductive attempt := GiveUp | Try (aligned next : usize).
Definition Bump_turn (end_ seen : usize) (l : Layout) : attempt :=
  let a := Z.max (l_align l) 8 in
  let aligned := align_to seen a in
  let next := sat_add 64 aligned (l_size l) in
  if end_ <? next then GiveUp else Try aligned next.

(** [alloc] with no other caller: the exchange succeeds at once; 0 is null. *)
Definition Bump_alloc (b : Bump) (l : Layout) : usize * Bump :=
  match Bump_turn (bend b) (cur b) l with
  | GiveUp => (0, b)
  | Try aligned next => (aligned, {| cur := next; bend := bend b |})
  end.
Definition Bump_dealloc (b : Bump) (p : usize) (l : Layout) : Bump := b.

(** * ta_lang *)

Definition HEAP_LEN : usize := 32 * 1024.

(** [buf]: the address of the array. *)
Record TaHeap := { hbuf : usize; hoff : usize }.

Definition TaHeap_turn (seen : usize) (l : Layout) : attempt :=
  let a := Z.max (l_align l) 8 in
  let size := l_size l in
  let aligned := align_to seen a in
  let next := sat_add 64 aligned size in
  if HEAP_LEN <? next then GiveUp else Try aligned next.

Definition TaHeap_alloc (h : TaHeap) (l : Layout) : usize * TaHeap :=
  match TaHeap_turn (hoff h) l with
  | GiveUp => (0, h)
  | Try aligned next => (hbuf h + aligned, {| hbuf := hbuf h; hoff := next |})
  end.
Definition TaHeap_dealloc (h : TaHeap) (p : usize) (l : Layout) : TaHeap := h.

(** * Interleaving *)

Definition layout_ok (l : Layout) : Prop :=
  (exists k, 0 <= k <= 62 /\ l_align l = 2 ^ k) /\ 0 <= l_size l < 2 ^ 63.

(** A call under way has loaded [seen]; the blocks given so far are (start, size). *)
Record World := { word : usize; calls : list (Layout * usize); blocks : list (usize * Layout) }.

Inductive alloc_step (turn : usize -> Layout -> attempt) : World -> World -> Prop :=
| step_load w l :
    layout_ok l -> alloc_step turn w {| word := word w; calls := (l, word w) :: calls w; blocks := blocks w |}
| step_give_up w a l seen b :
    calls w = a ++ (l, seen) :: b -> turn seen l = GiveUp ->
    alloc_step turn w {| word := word w; calls := a ++ b; blocks := blocks w |}
| step_exchange w a l seen b aligned next :
    calls w = a ++ (l, seen) :: b -> turn seen l = Try aligned next -> word w = seen ->
    alloc_step turn w {| word := next; calls := a ++ b; blocks := (aligned, l) :: blocks w |}
| step_lost w a l seen b aligned next :
    calls w = a ++ (l, seen) :: b -> turn seen l = Try aligned next -> word w <> seen ->
    alloc_step turn w {| word := word w; calls := a ++ (l, word w) :: b; blocks := blocks w |}.

(** * Properties *)

Lemma mask_shift k : 0 <= k <= 64 -> Z.lxor (2 ^ k - 1) U64_MAX = Z.shiftl (Z.ones (64 - k)) k.
Proof.
  intros Hk. change U64_MAX with (Z.ones 64). replace (2 ^ k - 1) with (Z.ones k) by (rewrite Z.ones_equiv; lia).
  apply Z.bits_inj'. intros i Hi. rewrite Z.lxor_spec, Z.shiftl_spec by lia.
  destruct (Z.lt_ge_cases i k).
  - by rewrite !Z.ones_spec_low, Z.testbit_neg_r by lia.
  - rewrite (Z.ones_spec_high k) by lia. destruct (Z.lt_ge_cases i 64).
    + by rewrite !Z.ones_spec_low by lia.
    + by rewrite !Z.ones_spec_high by lia.
Qed.

(** [z & !(2^k - 1)] rounds down. *)
Lemma land_mask z k : 0 <= k <= 63 -> 0 <= z < 2 ^ 64 -> Z.land z (Z.lxor (2 ^ k - 1) U64_MAX) = z / 2 ^ k * 2 ^ k.
Proof.
  intros Hk Hz. rewrite mask_shift by lia. rewrite <- Z.shiftl_mul_pow2, <- Z.shiftr_div_pow2 by lia. apply Z.bits_inj'. intros i Hi. rewrite Z.land_spec.
  destruct (Z.lt_ge_cases i k); [by rewrite !Z.shiftl_spec_low, andb_false_r by lia|].
  rewrite !Z.shiftl_spec, Z.shiftr_spec by lia. replace (i - k + k) with i by lia.
  destruct (Z.lt_ge_cases i 64); [by rewrite Z.ones_spec_low, andb_true_r by lia|].
  rewrite Z.ones_spec_high, andb_false_r by lia. symmetry. destruct (Z.eq_dec z 0) as [->|]; [apply Z.bits_0|].
  apply Z.bits_above_log2; [lia|]. apply Z.log2_lt_pow2; [lia|].
  apply Z.lt_le_trans with (2 ^ 64); [lia|]. apply Z.pow_le_mono_r; lia.
Qed.

(** Clearing bits under a mask takes away at most the mask, whatever it is. *)
Lemma align_to_any x a : 1 <= a -> 0 <= x -> x + a <= 2 ^ 64 -> x <= align_to x a < x + a.
Proof.
  intros Ha Hx Hl. unfold align_to. set (m := a - 1). replace (x + a - 1) with (x + m) by (unfold m; lia).
  assert (Z.land (x + m) (Z.lxor m U64_MAX) = Z.ldiff (x + m) m) as ->.
  { apply Z.bits_inj'. intros i Hi. rewrite Z.land_spec, Z.lxor_spec, Z.ldiff_spec. change U64_MAX with (Z.ones 64).
    destruct (Z.lt_ge_cases i 64); [by rewrite Z.ones_spec_low, xorb_true_r by lia|].
    rewrite (Z.bits_above_log2 (x + m)); [done|unfold m; lia|]. apply Z.lt_le_trans with 64; [|done].
    destruct (decide (x + m = 0)) as [->|]; [done|]. apply Z.log2_lt_pow2; unfold m in *; lia. }
  pose proof (Z.add_lor_land (Z.ldiff (x + m) m) (Z.land (x + m) m)) as E.
  assert (Z.land (Z.ldiff (x + m) m) (Z.land (x + m) m) = 0) as E0.
  { apply Z.bits_inj'. intros i Hi. rewrite !Z.land_spec, Z.ldiff_spec, Z.bits_0.
    by destruct (Z.testbit (x + m) i), (Z.testbit m i). }
  assert (Z.lor (Z.ldiff (x + m) m) (Z.land (x + m) m) = x + m) as E1.
  { apply Z.bits_inj'. intros i Hi. rewrite Z.lor_spec, Z.land_spec, Z.ldiff_spec.
    by destruct (Z.testbit (x + m) i), (Z.testbit m i). }
  assert (0 <= Z.land (x + m) m <= m) as Hm.
  { apply Z.ldiff_le; [unfold m; lia|]. apply Z.bits_inj'. intros i Hi. rewrite Z.ldiff_spec, Z.land_spec, Z.bits_0.
    by destruct (Z.testbit (x + m) i), (Z.testbit m i). }
  unfold m in *. lia.
Qed.

Lemma align_to_pow2 x k : 0 <= k <= 63 -> 0 <= x -> x + 2 ^ k - 1 < 2 ^ 64 ->
  let y := align_to x (2 ^ k) in x <= y < x + 2 ^ k /\ y mod 2 ^ k = 0.
Proof.
  intros Hk Hx Hlt. assert (0 < 2 ^ k) as Hp by (apply Z.pow_pos_nonneg; lia).
  unfold align_to. cbv zeta. set (z := x + 2 ^ k - 1) in *. rewrite land_mask by (unfold z in *; lia).
  pose proof (Z.div_mod z (2 ^ k) ltac:(lia)). pose proof (Z.mod_pos_bound z (2 ^ k) Hp).
  split; [unfold z in *; lia|]. apply Z.mod_mul. lia.
Qed.

Lemma max8_pow2 l : layout_ok l -> exists k, 3 <= k <= 62 /\ Z.max (l_align l) 8 = 2 ^ k /\ (l_align l | 2 ^ k).
Proof.
  intros [(k & Hk & ->) _]. destruct (Z.le_gt_cases 3 k).
  - exists k. split; [lia|]. pose proof (Z.pow_le_mono_r 2 3 k). split; [lia|apply Z.divide_refl].
  - exists 3. split; [lia|]. pose proof (Z.pow_le_mono_r 2 k 3). split; [lia|].
    exists (2 ^ (3 - k)). rewrite <- Z.pow_add_r by lia. f_equal. lia.
Qed.

(** A turn that tries gives an aligned block after what it saw, inside the heap. *)
Lemma turn_try end_ seen l aligned next : layout_ok l -> 0 <= seen <= end_ -> end_ <= 2 ^ 63 ->
  Bump_turn end_ seen l = Try aligned next ->
  seen <= aligned /\ aligned mod Z.max (l_align l) 8 = 0 /\ aligned mod l_align l = 0 /\
  next = aligned + l_size l /\ next <= end_.
Proof.
  intros Hl Hs He. destruct (max8_pow2 l Hl) as (k & Hk & E & Hd). destruct Hl as [(j & Hj & Ea) Hsz].
  unfold Bump_turn. rewrite E. pose proof (Z.pow_le_mono_r 2 k 62 ltac:(lia) ltac:(lia)).
  destruct (align_to_pow2 seen k) as [H1 H2]; [lia..|]. cbv zeta in *.
  destruct (Z.ltb_spec end_ (sat_add 64 (align_to seen (2 ^ k)) (l_size l))) as [|Hle]; [done|]. intros [= <- <-].
  unfold sat_add in *. split_and!; try lia.
  apply Z.mod_divide; [rewrite Ea; lia|]. eapply Z.divide_trans; [exact Hd|]. by apply Z.mod_divide; [lia|].
Qed.

Section Interleaved.
Context (start end_ : usize) (Hrange : 0 <= start <= end_) (Hend : end_ <= 2 ^ 63).

Definition block_in (top : usize) (b : usize * Layout) : Prop :=
  start <= b.1 /\ b.1 mod l_align b.2 = 0 /\ b.1 mod 8 = 0 /\ b.1 + l_size b.2 <= top.

Record world_ok (w : World) : Prop := {
  wo_word : start <= word w <= end_;
  wo_calls : Forall (fun c => layout_ok c.1) (calls w);
  wo_blocks : Forall (block_in (word w)) (blocks w);
  wo_apart : StronglySorted (fun b c => c.1 + l_size c.2 <= b.1) (blocks w) }.

Lemma alloc_step_ok w w' : alloc_step (Bump_turn end_) w w' -> world_ok w -> world_ok w'.
Proof.
  destruct 1 as [w l Hl|w a l seen b Hc Ht|w a l seen b al nx Hc Ht Hw|w a l seen b al nx Hc Ht Hw];
    intros [H1 H2 H3 H4]; split; cbn [word calls blocks] in *; try done.
  - by constructor.
  - rewrite Hc in H2. apply Forall_app in H2 as [Ha Hb]. apply Forall_app. split; [done|]. by apply list.Forall_cons_1 in Hb as [].
  - rewrite Hc in H2. apply Forall_app in H2 as [_ Hb]. apply list.Forall_cons_1 in Hb as [Hl _].
    destruct (turn_try end_ seen l al nx Hl) as (T1 & _ & _ & T4 & T5); [lia|done|done|]. destruct Hl as [_ Hsz]. cbn in Hsz. lia.
  - rewrite Hc in H2. apply Forall_app in H2 as [Ha Hb]. apply Forall_app. split; [done|]. by apply list.Forall_cons_1 in Hb as [].
  - rewrite Hc in H2. apply Forall_app in H2 as [_ Hb]. apply list.Forall_cons_1 in Hb as [Hl _]. cbn in Hl.
    destruct (turn_try end_ seen l al nx Hl) as (T1 & T2 & T3 & T4 & T5); [lia|done|done|].
    pose proof (proj2 Hl) as Hsz. constructor.
    + unfold block_in. cbn [fst snd]. split_and!; [lia|done| |lia].
      destruct (max8_pow2 l Hl) as (k & Hk & E & _). rewrite E in T2. apply Z.mod_divide; [lia|].
      eapply Z.divide_trans; [|by apply Z.mod_divide; [|exact T2]; apply Z.pow_nonzero; lia].
      exists (2 ^ (k - 3)). change 8 with (2 ^ 3). rewrite <- Z.pow_add_r by lia. f_equal. lia.
    + eapply list.Forall_impl; [exact H3|]. unfold block_in. intros c (? & ? & ? & ?). split_and!; try done. lia.
  - rewrite Hc in H2. apply Forall_app in H2 as [_ Hb]. apply list.Forall_cons_1 in Hb as [Hl _]. cbn in Hl.
    destruct (turn_try end_ seen l al nx Hl) as (T1 & _ & _ & T4 & T5); [lia|done|done|].
    constructor; [done|]. eapply list.Forall_impl; [exact H3|]. unfold block_in. intros c (? & ? & ? & ?). cbn [fst]. lia.
  - rewrite Hc in H2. apply Forall_app in H2 as [Ha Hb]. apply Forall_app. split; [done|].
    apply list.Forall_cons_1 in Hb as []. by constructor.
Qed.

Lemma alloc_run_ok w : rtc (alloc_step (Bump_turn end_)) {| word := start; calls := []; blocks := [] |} w -> world_ok w.
Proof.
  intros Hr. assert (world_ok {| word := start; calls := []; blocks := [] |}) as H0 by (split; cbn; [lia|constructor..]).
  revert H0. generalize dependent {| word := start; calls := []; blocks := [] |}. intros w0 Hr.
  induction Hr as [|w1 w2 w3 Hs Hr IH]; [done|]. intros H0. apply IH. by eapply alloc_step_ok.
Qed.
End Interleaved.

(** C26. However the calls of the allocators interleave, the blocks they give out
    do not overlap and lie inside the heap.  The blocks of the guest's allocator
    start at addresses aligned as asked (and to 8 bytes).  For the allocator in a
    TA, which works with offsets into its array, the offsets are aligned; the
    addresses are so only if the array is ([ta_heap_misaligned]). *)
Theorem allocators_never_overlap start len b w wt :
  Bump_init start len = Some b -> 0 <= start -> 0 <= len -> bend b <= 2 ^ 63 ->
  rtc (alloc_step (Bump_turn (bend b))) {| word := cur b; calls := []; blocks := [] |} w ->
  rtc (alloc_step TaHeap_turn) {| word := 0; calls := []; blocks := [] |} wt ->
  world_ok start (start + len) w /\ world_ok 0 HEAP_LEN wt.
Proof.
  unfold Bump_init, checked_add. destruct (Z.ltb_spec (start + len) (2 ^ 64)); [|done]. cbn. intros [= <-] H0 Hl He Hr Ht.
  cbn [bend cur] in *. split.
  - by apply alloc_run_ok; [lia|lia|].
  - apply alloc_run_ok; [by_compute|by_compute|exact Ht].
Qed.

(** Two calls that load the same word: one exchange wins, the other goes on with
    the new word. *)
Lemma allocators_never_overlap_witness :
  world_ok 4096 8192 {| word := 4124; calls := []; blocks := [(4112, {| l_size := 12; l_align := 16 |}); (4096, {| l_size := 5; l_align := 1 |})] |} /\
  world_ok 0 HEAP_LEN {| word := 0; calls := []; blocks := [] |}.
Proof.
  apply (allocators_never_overlap 4096 4096 {| cur := 4096; bend := 8192 |}); [reflexivity|lia|lia|by_compute| |apply rtc_refl].
  assert (layout_ok {| l_size := 5; l_align := 1 |}) as H1 by (split; [exists 0; by_compute|by_compute]).
  assert (layout_ok {| l_size := 12; l_align := 16 |}) as H2 by (split; [exists 4; by_compute|by_compute]).
  eapply rtc_l; [apply step_load, H1|]. eapply rtc_l; [apply step_load, H2|].
  eapply rtc_l; [apply (step_exchange _ _ [({| l_size := 12; l_align := 16 |}, 4096)] {| l_size := 5; l_align := 1 |} 4096 [] 4096 4101); reflexivity|].
  eapply rtc_l; [apply (step_lost _ _ [] {| l_size := 12; l_align := 16 |} 4096 [] 4096 4108); [reflexivity..|done]|].
  eapply rtc_l; [apply (step_exchange _ _ [] {| l_size := 12; l_align := 16 |} 4101 [] 4112 4124); reflexivity|].
  apply rtc_refl.
Defined.

(** A TA's allocator aligns the offset, not the address: the pointer has the
    alignment asked for only when the array itself has it. *)
Theorem ta_heap_aligns_offsets h l p h' :
  layout_ok l -> 0 <= hoff h <= HEAP_LEN -> TaHeap_alloc h l = (p, h') -> p <> 0 ->
  p mod l_align l = 0 <-> hbuf h mod l_align l = 0.
Proof.
  intros Hl Ho. unfold TaHeap_alloc. destruct (TaHeap_turn (hoff h) l) as [|al nx] eqn:E; [by intros [= <- <-]|].
  intros [= <- <-] _. destruct (turn_try HEAP_LEN (hoff h) l al nx Hl Ho ltac:(by_compute) E) as (_ & _ & H & _).
  destruct Hl as [(k & Hk & Ea) _]. assert (l_align l <> 0) by (rewrite Ea; apply Z.pow_nonzero; lia).
  by rewrite <- Z.add_mod_idemp_r, H, Z.add_0_r by done.
Qed.

Lemma ta_heap_misaligned : (TaHeap_alloc {| hbuf := 0x1008; hoff := 0 |} {| l_size := 16; l_align := 16 |}).1 mod 16 = 8.
Proof. reflexivity. Qed.
