(* ===== verification/Icache.v ===== *)
(** Making a copied TA image executable ([sync_icache] of
    src/crates/rustee-hal-virt/src/lib.rs).  [map_image] copies the image with
    data stores; the instruction side of an Arm core may still hold, or fetch,
    older bytes until the data lines are cleaned to the point of unification and
    the instruction lines are invalidated, in that order.

    The function is the list of maintenance instructions it executes.  The caches
    and the core's front end are a step relation: maintenance completes late and in
    any order unless a DSB waits for it, lines are fetched, written back and
    dropped at any time, and the core may have fetched instructions ahead, which it
    executes as they were unless an ISB discards them. *)
From Stdlib Require Import ZArith Lia.
From stdpp Require Import base list numbers relations.
From S2P Require Import Prelude Alloc.

Local Open Scope Z_scope.
Local Open Scope rust_scope.

(** [dc cvau], [ic ivau], [dsb ish], [isb] *)
Inductive instr := Cvau (a : u64) | Ivau (a : u64) | Dsb | Isb.

(** [while p < end { ..; p = p.saturating_add(64) }]: the addresses. *)
Fixpoint cache_lines (turns : nat) (p e : usize) : list usize :=
  match turns with
  | O => []
  | S turns => if p <? e then p :: cache_lines turns (sat_add 64 p 64) e else []
  end.

Definition sync_icache (ptr : u64) (len : usize) : list instr :=
  if len =? 0 then [] else
  let start := ptr in
  let e := sat_add 64 start len in
  let p := Z.land start (Z.lxor 63 U64_MAX) in
  let turns := Z.to_nat (len / 64 + 2) in
  map Cvau (cache_lines turns p e) ++ [Dsb] ++ map Ivau (cache_lines turns p e) ++ [Dsb; Isb].

(** The loop ends by its own test: more turns give nothing more. *)
Lemma cache_lines_turns n k p e : e <= p + 64 * Z.of_nat n -> e <= U64_MAX -> cache_lines (n + k) p e = cache_lines n p e.
Proof.
  unfold U64_MAX. revert p. induction n as [|n IH]; intros p He Hm; cbn [cache_lines Nat.add].
  - destruct k as [|k]; [done|]. cbn [cache_lines]. by rewrite (proj2 (Z.ltb_ge p e)) by lia.
  - destruct (p <? e); [|done]. rewrite IH; [done| |done]. unfold sat_add. lia.
Qed.

(** Every byte before the end lies in the 64 bytes after one of the addresses. *)
Lemma cache_lines_cover n p e a : p mod 64 = 0 -> p <= a < e -> e <= U64_MAX -> a < p + 64 * Z.of_nat n ->
  exists x, In x (cache_lines n p e) /\ x / 64 = a / 64.
Proof.
  unfold U64_MAX. revert p. induction n as [|n IH]; intros p Hp Ha He Hn; [lia|]. cbn [cache_lines].
  rewrite (proj2 (Z.ltb_lt p e)) by lia. destruct (Z.lt_ge_cases a (p + 64)).
  - exists p. split; [by left|]. Z.to_euclidean_division_equations. lia.
  - assert (sat_add 64 p 64 = p + 64) as E by (unfold sat_add; lia).
    rewrite E. destruct (IH (p + 64)) as (x & Hx & Ex); [Z.to_euclidean_division_equations; lia|lia..|].
    exists x. split; [by right|done].
Qed.

Section Caches.
(** The size of a cache line: a multiple of the 64 bytes the loops step by. *)
Context (L : Z) (HL : 0 < L) (Hdiv : (64 | L)).

Definition line_of (a : Z) : Z := a / L.

Lemma same_line x a : x / 64 = a / 64 -> line_of x = line_of a.
Proof.
  destruct Hdiv as [k Hk]. unfold line_of. intros E. rewrite Hk. rewrite (Z.mul_comm k 64).
  by rewrite <- !Z.div_div, E by lia.
Qed.

(** Maintenance under way, by line. *)
Inductive maint := Clean (l : Z) | Inval (l : Z).

(** What loads and stores see; what lies at the point of unification, where a
    fetch that misses reads; the lines of the instruction cache; the bytes fetched
    ahead into the pipeline; maintenance not complete. *)
Record Caches :=
  { data : Z -> u8; pou : Z -> u8; ic : Z -> option (Z -> u8); pipe : Z -> option u8; pend : list maint }.

Definition to_pou (l : Z) (s : Caches) : Caches :=
  {| data := data s; pou := fun a => if line_of a =? l then data s a else pou s a; ic := ic s;
     pipe := pipe s; pend := pend s |}.
Definition set_line (l : Z) (c : option (Z -> u8)) (s : Caches) : Caches :=
  {| data := data s; pou := pou s; ic := fun x => if x =? l then c else ic s x; pipe := pipe s; pend := pend s |}.
Definition complete (m : maint) (s : Caches) : Caches :=
  match m with Clean l => to_pou l s | Inval l => set_line l None s end.
Definition set_pend (s : Caches) (p : list maint) : Caches :=
  {| data := data s; pou := pou s; ic := ic s; pipe := pipe s; pend := p |}.
Definition set_pipe (s : Caches) (f : Z -> option u8) : Caches :=
  {| data := data s; pou := pou s; ic := ic s; pipe := f; pend := pend s |}.

(** What a fetch gets, and what the core executes: the byte fetched ahead, if
    there is one. *)
Definition fetch (s : Caches) (a : Z) : u8 := match ic s (line_of a) with Some c => c a | None => pou s a end.
Definition executed (s : Caches) (a : Z) : u8 := default (fetch s a) (pipe s a).

(** What the hardware does on its own. *)
Inductive hw_step (s : Caches) : Caches -> Prop :=
| hw_complete p1 m p2 : pend s = p1 ++ m :: p2 -> hw_step s (set_pend (complete m s) (p1 ++ p2))
| hw_fill l : hw_step s (set_line l (Some (pou s)) s)
| hw_drop l : hw_step s (set_line l None s)
| hw_evict l : hw_step s (to_pou l s)
| hw_prefetch a : hw_step s (set_pipe s (fun x => if x =? a then Some (fetch s a) else pipe s x))
| hw_retire a : hw_step s (set_pipe s (fun x => if x =? a then None else pipe s x)).

(** What the core does: a DSB waits for all maintenance, an ISB discards what was
    fetched ahead. *)
Inductive exec : instr -> Caches -> Caches -> Prop :=
| ex_cvau a s : exec (Cvau a) s (set_pend s (pend s ++ [Clean (line_of a)]))
| ex_ivau a s : exec (Ivau a) s (set_pend s (pend s ++ [Inval (line_of a)]))
| ex_dsb s : pend s = [] -> exec Dsb s s
| ex_isb s : exec Isb s (set_pipe s (fun _ => None)).

(** The instructions in order, the hardware at any time, also after the last. *)
Inductive runs : list instr -> Caches -> Caches -> Prop :=
| runs_end s : runs [] s s
| runs_hw p s s1 s2 : hw_step s s1 -> runs p s1 s2 -> runs p s s2
| runs_exec i p s s1 s2 : exec i s s1 -> runs p s1 s2 -> runs (i :: p) s s2.

Lemma runs_app p1 p2 s s' : runs (p1 ++ p2) s s' -> exists s1, runs p1 s s1 /\ runs p2 s1 s'.
Proof.
  remember (p1 ++ p2) as p eqn:Ep. intros H. revert p1 Ep. induction H as [s|p s s1 s2 Hh H IH|i p s s1 s2 He H IH]; intros p1 Ep.
  - destruct p1; [|done]. cbn in Ep. subst p2. exists s. split; constructor.
  - destruct (IH p1 Ep) as (s3 & H1 & H2). exists s3. split; [by eapply runs_hw|done].
  - destruct p1 as [|j p1]; cbn in Ep.
    + subst p2. exists s. split; [constructor|by eapply runs_exec].
    + injection Ep as -> ->. destruct (IH p1 eq_refl) as (s3 & H1 & H2). exists s3. split; [by eapply runs_exec|done].
Qed.

(** A property the hardware and every instruction keep, and one an instruction
    of the program brings about. *)
Lemma runs_keep (I : Caches -> Prop) p s s' : (forall x y, hw_step x y -> I x -> I y) -> (forall i x y, exec i x y -> I x -> I y) ->
  I s -> runs p s s' -> I s'.
Proof. intros Hh He Hs H. revert Hs. induction H as [|p s s1 s2 ? H IH|i p s s1 s2 ? H IH]; intros Hs; [done| |]; eauto. Qed.

Lemma runs_reach (I : Caches -> Prop) i p s s' : (forall x y, hw_step x y -> I x -> I y) -> (forall i x y, exec i x y -> I x -> I y) ->
  (forall x y, exec i x y -> I y) -> In i p -> runs p s s' -> I s'.
Proof.
  intros Hh He Hi Hin H. induction H as [|p s s1 s2 ? H IH|j p s s1 s2 Hj H IH]; [done|by apply IH|].
  destruct Hin as [->|Hin]; [|by apply IH]. eapply runs_keep; eauto.
Qed.

Lemma runs_data p s s' : runs p s s' -> data s' = data s.
Proof.
  intros H. pattern s'. eapply runs_keep; [| | |exact H]; [| |done].
  - intros x y [p1 [] p2 _|l|l|l|l|l]; done.
  - intros i x y [] ?; done.
Qed.

(** A line is clean, or a clean of it is under way; and the same for its lines
    in the instruction cache. *)
Definition clean (l : Z) (s : Caches) : Prop := forall a, line_of a = l -> pou s a = data s a.
Definition fresh (l : Z) (s : Caches) : Prop := forall a c, line_of a = l -> ic s l = Some c -> c a = data s a.
Definition cleaning (l : Z) (s : Caches) : Prop := clean l s \/ In (Clean l) (pend s).
Definition freshening (l : Z) (s : Caches) : Prop := clean l s /\ (fresh l s \/ In (Inval l) (pend s)).

Lemma to_pou_clean l x s : clean l s -> clean l (to_pou x s).
Proof. intros H a Ha. cbn. destruct (_ =? x); [done|by apply H]. Qed.

Lemma hw_clean l x y : hw_step x y -> clean l x -> clean l y.
Proof. intros [p1 [k|k] p2 _|k|k|k|k|k] H; try done; by apply to_pou_clean. Qed.

Lemma exec_keeps i x y : exec i x y -> data y = data x /\ pou y = pou x /\ ic y = ic x /\ incl (pend x) (pend y).
Proof. intros []; split_and!; try done; [by apply incl_appl, incl_refl..|apply incl_refl|apply incl_refl]. Qed.

Lemma hw_cleaning l x y : hw_step x y -> cleaning l x -> cleaning l y.
Proof.
  intros Hs [H|H]; [left; by eapply hw_clean|]. destruct Hs as [p1 m p2 E|k|k|k|k|k]; [|by right..].
  rewrite E in H. apply in_app_iff in H as [H|[->|H]]; [right; apply in_app_iff; by left| |right; apply in_app_iff; by right].
  left. intros a <-. cbn. by rewrite Z.eqb_refl.
Qed.

Lemma hw_fresh l x y : hw_step x y -> clean l x -> fresh l x -> fresh l y.
Proof.
  intros Hs Hc H. destruct Hs as [p1 [k|k] p2 E|k|k|k|k|k]; intros a c Ha; cbn; try (by apply H); destruct (l =? k); try (by apply H); try done.
  intros [= <-]. by apply Hc.
Qed.

Lemma hw_freshening l x y : hw_step x y -> freshening l x -> freshening l y.
Proof.
  intros Hs [Hc [H|H]]; (split; [by eapply hw_clean|]); [left; by eapply hw_fresh|].
  destruct Hs as [p1 m p2 E|k|k|k|k|k]; [|by right..]. rewrite E in H. apply in_app_iff in H as [H|[->|H]]; [right; apply in_app_iff; by left| |right; apply in_app_iff; by right].
  left. intros a c Ha. cbn. by rewrite Z.eqb_refl.
Qed.

Lemma exec_clean l i x y : exec i x y -> clean l x -> clean l y.
Proof. intros He H a Ha. destruct (exec_keeps _ _ _ He) as (-> & -> & _). by apply H. Qed.

Lemma exec_cleaning l i x y : exec i x y -> cleaning l x -> cleaning l y.
Proof.
  intros He [H|H]; [left; by eapply exec_clean|right]. destruct (exec_keeps _ _ _ He) as (_ & _ & _ & Hp). by apply Hp.
Qed.

Lemma exec_fresh l i x y : exec i x y -> fresh l x -> fresh l y.
Proof. intros He H a c Ha. destruct (exec_keeps _ _ _ He) as (-> & _ & -> & _). by apply H. Qed.

Lemma exec_freshening l i x y : exec i x y -> freshening l x -> freshening l y.
Proof.
  intros He [Hc [H|H]]; (split; [by eapply exec_clean|]); [left; by eapply exec_fresh|right].
  destruct (exec_keeps _ _ _ He) as (_ & _ & _ & Hp). by apply Hp.
Qed.

Lemma dsb_settles p s s' : runs (Dsb :: p) s s' -> exists s1, runs [] s s1 /\ pend s1 = [] /\ runs p s1 s'.
Proof.
  remember (Dsb :: p) as q eqn:E. intros H. induction H as [s|q s s1 s2 Hh H IH|i q s s1 s2 He H IH]; [done| |].
  - destruct (IH E) as (s3 & H1 & H2 & H3). exists s3. split_and!; [by eapply runs_hw|done|done].
  - injection E as -> ->. inversion He as [| |x Hp|]; subst. exists s1. split_and!; [constructor|done|done].
Qed.

(** The two loops, for one line: the first cleans it, the second makes it fresh. *)
Lemma clean_phase l a p q s s' : In (Cvau a) p -> line_of a = l -> runs (p ++ Dsb :: q) s s' ->
  exists s1, clean l s1 /\ runs q s1 s' /\ data s1 = data s.
Proof.
  intros Hin Ha H. destruct (runs_app _ _ _ _ H) as (s1 & H1 & H2). destruct (dsb_settles _ _ _ H2) as (s2 & H3 & Hp & H4).
  exists s2. split_and!; [|done|by rewrite (runs_data _ _ _ H3), (runs_data _ _ _ H1)].
  assert (cleaning l s1) as Hc1.
  { eapply runs_reach; [apply hw_cleaning|apply exec_cleaning| |exact Hin|exact H1].
    intros x y He. inversion He; subst. right. apply in_app_iff. right. by left. }
  destruct (runs_keep (cleaning l) _ _ _ (hw_cleaning l) (exec_cleaning l) Hc1 H3) as [Hc|Hc]; [done|]. by rewrite Hp in Hc.
Qed.

Lemma hw_both l x y : hw_step x y -> clean l x /\ fresh l x -> clean l y /\ fresh l y.
Proof. intros Hs [? ?]. split; [by eapply hw_clean|by eapply hw_fresh]. Qed.

Lemma exec_both l i x y : exec i x y -> clean l x /\ fresh l x -> clean l y /\ fresh l y.
Proof. intros Hs [? ?]. split; [by eapply exec_clean|by eapply exec_fresh]. Qed.

Lemma fresh_phase l a p q s s' : In (Ivau a) p -> line_of a = l -> clean l s -> runs (p ++ Dsb :: q) s s' ->
  exists s1, (clean l s1 /\ fresh l s1) /\ runs q s1 s' /\ data s1 = data s.
Proof.
  intros Hin Ha Hc H. destruct (runs_app _ _ _ _ H) as (s1 & H1 & H2). destruct (dsb_settles _ _ _ H2) as (s2 & H3 & Hp & H4).
  pose proof (runs_data _ _ _ H1) as E1. pose proof (runs_data _ _ _ H3) as E3.
  assert (freshening l s1) as Hf1.
  { clear H H2 H3 H4 E1 E3. induction H1 as [|r x x1 x2 Hx H1 IH|i r x x1 x2 Hx H1 IH]; [done| |].
    - apply IH; [done|by eapply hw_clean].
    - destruct Hin as [->|Hin]; [|apply IH; [done|by eapply exec_clean]].
      eapply runs_keep; [apply hw_freshening|apply exec_freshening| |exact H1]. split; [by eapply exec_clean|].
      inversion Hx; subst. right. apply in_app_iff. right. by left. }
  assert (freshening l s2) as [Hc2 [Hf|Hf]] by (eapply runs_keep; [apply hw_freshening|apply exec_freshening|exact Hf1|exact H3]);
    [|by rewrite Hp in Hf]. exists s2. split; [done|]. split; [done|congruence].
Qed.

(** The bytes fetched ahead in a line are those of the stores. *)
Definition piped (l : Z) (s : Caches) : Prop :=
  (clean l s /\ fresh l s) /\ forall a b, line_of a = l -> pipe s a = Some b -> b = data s a.

Lemma fetch_fresh l s a : clean l s /\ fresh l s -> line_of a = l -> fetch s a = data s a.
Proof. intros [Hc Hf] <-. unfold fetch. destruct (ic s (line_of a)) as [c|] eqn:Ei; [by apply Hf|by apply Hc]. Qed.

Lemma hw_piped l x y : hw_step x y -> piped l x -> piped l y.
Proof.
  intros Hs [Hcf Hp]. split; [by eapply hw_both|]. destruct Hs as [p1 [k|k] p2 E|k|k|k|k|k]; try exact Hp; intros a b Ha; cbn.
  - destruct (Z.eqb_spec a k) as [->|]; [|by apply Hp]. intros [= <-]. by eapply fetch_fresh.
  - destruct (a =? k); [done|by apply Hp].
Qed.

Lemma isb_phase l s s' : clean l s /\ fresh l s -> runs [Isb] s s' -> piped l s'.
Proof.
  remember [Isb] as q eqn:E. intros Hcf H. induction H as [|q s s1 s2 Hh H IH|i q s s1 s2 He H IH]; [done| |].
  - apply IH; [done|by eapply hw_both].
  - injection E as -> ->. inversion He; subst. assert (piped l (set_pipe s (fun _ => None))) as Hp by done.
    clear -Hp H. remember [] as q eqn:E. induction H as [|q x y z Hh H IH|i q x y z He H IH]; [done| |done].
    apply IH; [done|by eapply hw_piped].
Qed.

(** The core never waits for good: maintenance under way can complete. *)
Lemma drains s : exists s', rtc hw_step s s' /\ pend s' = [].
Proof.
  remember (pend s) as p eqn:E. revert s E. induction p as [|m p IH]; intros s E; [by exists s|].
  destruct (IH (set_pend (complete m s) p) eq_refl) as (s' & H & Hp). exists s'. split; [|done].
  eapply rtc_l; [|exact H]. apply (hw_complete s [] m p). done.
Qed.

Lemma runs_some p s : exists s', runs p s s'.
Proof.
  revert s. induction p as [|i p IH]; intros s; [exists s; constructor|]. destruct (drains s) as (s1 & Hr & Hp).
  assert (exists s2, exec i s1 s2) as [s2 He] by (destruct i; eexists; by constructor).
  destruct (IH s2) as [s3 H]. exists s3. apply (runs_exec _ _ _ _ _ He) in H. clear He Hp.
  induction Hr as [|x y z Hx Hr IHr]; [done|]. eapply runs_hw; [exact Hx|by apply IHr].
Qed.

(** C29. A TA image copied with data stores is what the core executes, on a core
    whose cache lines are a multiple of 64 bytes.  From any state of the caches
    and of the pipeline, however late and in whatever order maintenance completes
    between barriers and whatever the hardware fetches into a line or ahead into
    the pipeline, writes back or drops meanwhile and afterwards, once
    [sync_icache] has run every byte of the image the core executes is the one the
    stores put there; the function changes no data and never waits for good. *)
Theorem sync_icache_coherent ptr len s : 0 <= ptr -> 0 <= len -> ptr + len < 2 ^ 64 ->
  (exists s', runs (sync_icache ptr len) s s') /\
  forall s', runs (sync_icache ptr len) s s' -> data s' = data s /\ forall a, ptr <= a < ptr + len -> executed s' a = data s a.
Proof.
  intros Hp Hl Hm. split; [apply runs_some|]. intros s' H. pose proof (runs_data _ _ _ H) as Ed. split; [exact Ed|]. intros a Ha.
  unfold sync_icache in H. destruct (Z.eqb_spec len 0) as [|Hnz]; [lia|]. cbv zeta in H. change 63 with (2 ^ 6 - 1) in H.
  rewrite land_mask in H by lia. change (2 ^ 6) with 64 in H.
  replace (sat_add 64 ptr len) with (ptr + len) in H by (unfold sat_add; lia).
  destruct (cache_lines_cover (Z.to_nat (len / 64 + 2)) (ptr / 64 * 64) (ptr + len) a) as (x & Hx & Ex);
    [by apply Z.mod_mul|Z.to_euclidean_division_equations; lia|unfold U64_MAX; lia|Z.to_euclidean_division_equations; lia|].
  pose proof (same_line _ _ Ex) as Hline.
  destruct (clean_phase (line_of a) x _ _ _ _ (in_map Cvau _ _ Hx) Hline H) as (s1 & Hc & H1 & Ed1).
  destruct (fresh_phase (line_of a) x _ _ _ _ (in_map Ivau _ _ Hx) Hline Hc H1) as (s2 & Hcf & H2 & _).
  destruct (isb_phase _ _ _ Hcf H2) as [Hcf' Hpipe]. rewrite <- Ed. unfold executed.
  destruct (pipe s' a) as [b|] eqn:Ei; [by apply (Hpipe a b)|by eapply fetch_fresh].
Qed.
End Caches.

(** Stale instruction lines and a stale pipeline over 130 bytes just written, on 128-byte lines. *)
Module CacheSample.
Definition before : Caches :=
  {| data := fun a => a mod 256; pou := fun _ => 0; ic := fun _ => Some (fun _ => 0xff);
     pipe := fun _ => Some 0xee; pend := [] |}.
(** Nothing cached, and older bytes at the point of unification. *)
Definition cold : Caches :=
  {| data := fun _ => 1; pou := fun _ => 0; ic := fun _ => None; pipe := fun _ => None; pend := [] |}.
End CacheSample.

Lemma sync_icache_coherent_witness :
  sync_icache 1000 130 = [Cvau 960; Cvau 1024; Cvau 1088; Dsb; Ivau 960; Ivau 1024; Ivau 1088; Dsb; Isb] /\
  exists s', runs 128 (sync_icache 1000 130) CacheSample.before s' /\ executed 128 s' 1129 = 1129 mod 256.
Proof.
  split; [reflexivity|].
  destruct (sync_icache_coherent 128 ltac:(lia) ltac:(by exists 2) 1000 130 CacheSample.before) as [[s' H] Hall]; [lia..|].
  exists s'. split; [exact H|]. apply (Hall s' H). lia.
Defined.

(** The step of 64 is not the core's line size: on a core with lines of 32 bytes,
    an image of 64 bytes can keep its second half stale. *)
Theorem short_lines_stay_stale :
  exists s', runs 32 (sync_icache 0 64) CacheSample.cold s' /\ executed 32 s' 32 <> data s' 32.
Proof.
  set (s1 := set_pend (complete 32 (Clean 0) (set_pend CacheSample.cold [Clean 0])) []).
  set (s2 := set_pend (complete 32 (Inval 0) (set_pend s1 [Inval 0])) []).
  exists (set_pipe s2 (fun _ => None)). split; [|vm_compute; discriminate].
  change (sync_icache 0 64) with [Cvau 0; Dsb; Ivau 0; Dsb; Isb].
  eapply runs_exec; [apply ex_cvau|]. eapply runs_hw; [exact (hw_complete 32 (set_pend CacheSample.cold [Clean 0]) [] (Clean 0) [] eq_refl)|].
  eapply runs_exec; [by apply ex_dsb|]. eapply runs_exec; [apply ex_ivau|].
  eapply runs_hw; [exact (hw_complete 32 (set_pend s1 [Inval 0]) [] (Inval 0) [] eq_refl)|].
  eapply runs_exec; [by apply ex_dsb|]. eapply runs_exec; [apply ex_isb|]. apply runs_end.
Qed.
