(* ===== verification/Virtq.v ===== *)
(** The guest's virtqueues (src/guest/rustee-guest/src/virtio.rs, [SplitQ] and
    [Virtq]) next to the device that serves them.

    [SplitQ] is memory shared with the device.  A [Vec<u8>] is its address and
    bytes; the writes to the notify register are a log.  The device takes
    available descriptors in order and gives each back once, in any order; its
    moves interleave with the driver's calls.  Ring indices are 16 bits and wrap. *)
From Stdlib Require Import ZArith Lia.
From stdpp Require Import base list numbers relations sets.
From S2P Require Import Prelude.

Local Open Scope Z_scope.
Local Open Scope rust_scope.

Definition QSIZE : usize := 16.

Record Desc := { d_addr : u64; d_len : u32; d_flags : u16; d_next : u16 }.
Record UsedElem := { ue_id : u32; ue_len : u32 }.
Record SplitQ := {
  desc : list Desc; avail_flags : u16; avail_idx : u16; avail_ring : list u16;
  used_flags : u16; used_idx : u16; used_ring : list UsedElem }.

Record Buf := { b_ptr : u64; b_bytes : list u8 }.

Record Virtq := {
  q : SplitQ; last_used : u16; notify : list u16; qidx : u16; bufs : list (option Buf); inflight : list bool }.

Definition Desc_zero : Desc := {| d_addr := 0; d_len := 0; d_flags := 0; d_next := 0 |}.
Definition SplitQ_zeroed : SplitQ := {|
  desc := replicate 16 Desc_zero; avail_flags := 0; avail_idx := 0; avail_ring := replicate 16 0;
  used_flags := 0; used_idx := 0; used_ring := replicate 16 {| ue_id := 0; ue_len := 0 |} |}.
(** The queue [setup_queue] returns. *)
Definition Virtq_new (idx : u16) : Virtq := {|
  q := SplitQ_zeroed; last_used := 0; notify := []; qidx := idx;
  bufs := replicate 16 None; inflight := replicate 16 false |}.

(** * The driver's operations *)

Definition cap_id (id : u16) : u16 := id mod QSIZE.

(** The part [add_in] and [add_out] share: the descriptor, the ring, the index,
    the notification, here as one step.  [publish_hidden_until_index] shows that a
    device that looks between these writes, in the order of the source, finds
    nothing new before the index is written. *)
Definition publish (v : Virtq) (id : u16) (d : Desc) : Virtq :=
  let s := q v in
  let idx := avail_idx s in
  {| q := {| desc := <[Z.to_nat id := d]> (desc s); avail_flags := avail_flags s; avail_idx := wrapping_add 16 idx 1;
             avail_ring := <[Z.to_nat (idx mod QSIZE) := id]> (avail_ring s);
             used_flags := used_flags s; used_idx := used_idx s; used_ring := used_ring s |};
     last_used := last_used v; notify := notify v ++ [qidx v]; qidx := qidx v; bufs := bufs v; inflight := inflight v |}.

Definition set_inflight (v : Virtq) (id : u16) (x : bool) : Virtq :=
  {| q := q v; last_used := last_used v; notify := notify v; qidx := qidx v; bufs := bufs v;
     inflight := <[Z.to_nat id := x]> (inflight v) |}.
Definition set_buf (v : Virtq) (id : u16) (b : Buf) : Virtq :=
  {| q := q v; last_used := last_used v; notify := notify v; qidx := qidx v; bufs := <[Z.to_nat id := Some b]> (bufs v);
     inflight := inflight v |}.

Definition add_in (v : Virtq) (buf : u64) (len : u32) (id : u16) : Virtq :=
  let id := cap_id id in
  publish (set_inflight v id true) id {| d_addr := buf; d_len := len; d_flags := 2; d_next := 0 |}.

Definition add_out (v : Virtq) (buf : u64) (len : u32) (id : u16) : Virtq :=
  let id := cap_id id in
  publish v id {| d_addr := buf; d_len := len; d_flags := 0; d_next := 0 |}.

Definition poll_used (v : Virtq) : option (u16 * u32) * Virtq :=
  let s := q v in
  if used_idx s =? last_used v then (None, v) else
  let e := nth (Z.to_nat (last_used v mod QSIZE)) (used_ring s) {| ue_id := 0; ue_len := 0 |} in
  let id := as_u16 (ue_id e) mod QSIZE in
  (Some (id, ue_len e),
   {| q := s; last_used := wrapping_add 16 (last_used v) 1; notify := notify v; qidx := qidx v; bufs := bufs v;
      inflight := <[Z.to_nat id := false]> (inflight v) |}).

(** [while self.poll_used().is_some() {}]: as many turns as there are entries. *)
Fixpoint recycle_loop (fuel : nat) (v : Virtq) : Virtq :=
  match fuel with
  | O => v
  | S fuel => match poll_used v with (Some _, v) => recycle_loop fuel v | (None, v) => v end
  end.
Definition recycle_used (v : Virtq) : Virtq := recycle_loop (Z.to_nat (wrap 16 (used_idx (q v) - last_used v))) v.

Fixpoint first_free (l : list bool) : option nat :=
  match l with
  | [] => None
  | false :: _ => Some O
  | true :: l => S <$> first_free l
  end.

Definition alloc_desc (v : Virtq) : option u16 * Virtq :=
  let v := recycle_used v in (Z.of_nat <$> first_free (inflight v), v).

(** [add_out_owned] when a descriptor is free, [None] while it spins. *)
Definition add_out_owned (v : Virtq) (pkt : Buf) : option Virtq :=
  match alloc_desc v with
  | (None, _) => None
  | (Some id, v) =>
      let v := set_inflight (set_buf v id pkt) id true in
      Some (add_out v (b_ptr pkt) (as_u32 (zlen (b_bytes pkt))) id)
  end.

(** [rng_fill]: [dev i] is what the device does before the [i]-th poll; [None]
    is [fail_halt("virtio-rng timeout")]. *)
Fixpoint rng_loop (dev : nat -> SplitQ -> SplitQ) (turns : nat) (i : nat) (v : Virtq) : option Virtq :=
  match turns with
  | O => None
  | S turns =>
      let v := {| q := dev i (q v); last_used := last_used v; notify := notify v; qidx := qidx v; bufs := bufs v;
                  inflight := inflight v |} in
      match poll_used v with (Some _, v) => Some v | (None, v) => rng_loop dev turns (S i) v end
  end.
Definition rng_fill (dev : nat -> SplitQ -> SplitQ) (v : Virtq) (buf : u64) (len : usize) : option Virtq :=
  rng_loop dev (Z.to_nat 1000000) 0 (add_in v buf (as_u32 len) 0).

(** * The device *)

(** How far it has read the available ring, and the descriptors it holds. *)
Record Device := { seen : u16; held : list u16 }.

Definition dev_take (s : SplitQ) (d : Device) : option (u16 * Device) :=
  if avail_idx s =? seen d then None else
  let id := nth (Z.to_nat (seen d mod QSIZE)) (avail_ring s) 0 in
  Some (id, {| seen := wrapping_add 16 (seen d) 1; held := id :: held d |}).

Definition dev_give (s : SplitQ) (id : u16) (len : u32) : SplitQ :=
  {| desc := desc s; avail_flags := avail_flags s; avail_idx := avail_idx s; avail_ring := avail_ring s;
     used_flags := used_flags s; used_idx := wrapping_add 16 (used_idx s) 1;
     used_ring := <[Z.to_nat (used_idx s mod QSIZE) := {| ue_id := id; ue_len := len |}]> (used_ring s) |}.

Definition set_q (v : Virtq) (s : SplitQ) : Virtq :=
  {| q := s; last_used := last_used v; notify := notify v; qidx := qidx v; bufs := bufs v; inflight := inflight v |}.

(** * The rings *)

Lemma wrap16_mod x : wrap 16 x mod QSIZE = x mod QSIZE.
Proof. unfold wrap, QSIZE. apply Z.mod_mod_divide. by exists (2 ^ 12). Qed.

Lemma wrap16_succ x n : wrapping_add 16 (wrap 16 (x + n)) 1 = wrap 16 (x + (n + 1)).
Proof. unfold wrapping_add, wrap. rewrite Z.add_mod_idemp_l by lia. f_equal. lia. Qed.

Lemma wrap16_shift x n : wrap 16 (wrapping_add 16 x 1 + n) = wrap 16 (x + (1 + n)).
Proof. unfold wrapping_add, wrap. rewrite Z.add_mod_idemp_l by lia. f_equal. lia. Qed.

Lemma wrap16_eq x n : in_width 16 x -> 0 <= n <= 16 -> wrap 16 (x + n) = x -> n = 0.
Proof.
  unfold in_width, wrap. intros Hx Hn H. destruct (Z.lt_ge_cases (x + n) (2 ^ 16)).
  - rewrite Z.mod_small in H by lia. lia.
  - rewrite <- (Z.mod_add _ (-1)) in H by lia. rewrite Z.mod_small in H by lia. lia.
Qed.

(** Positions of the ring fewer than sixteen apart differ. *)
Lemma ring_neq x i j : 0 <= i < j -> j < i + 16 -> Z.to_nat ((x + i) mod QSIZE) <> Z.to_nat ((x + j) mod QSIZE).
Proof.
  intros Hi Hj. unfold QSIZE. pose proof (Z.mod_pos_bound (x + i) 16). pose proof (Z.mod_pos_bound (x + j) 16).
  pose proof (Z.div_mod (x + i) 16). pose proof (Z.div_mod (x + j) 16). intros E. apply Z2Nat.inj in E; lia.
Qed.

Lemma ring_lt x (l : nat) : l = 16%nat -> (Z.to_nat (x mod QSIZE) < l)%nat.
Proof. intros ->. unfold QSIZE. pose proof (Z.mod_pos_bound x 16). lia. Qed.

(** [pend] are the descriptors made available and not yet taken, [ret] those given
    back and not yet seen by the driver: with the ones the device holds, they are
    the descriptors in flight, each once. *)
Record rings (v : Virtq) (d : Device) (pend ret : list u16) : Prop := {
  ri_len : length (avail_ring (q v)) = 16%nat /\ length (used_ring (q v)) = 16%nat /\ length (inflight v) = 16%nat;
  ri_width : in_width 16 (seen d) /\ in_width 16 (last_used v);
  ri_avail : avail_idx (q v) = wrap 16 (seen d + zlen pend);
  ri_pend : forall j id, pend !! j = Some id ->
    avail_ring (q v) !! Z.to_nat ((seen d + Z.of_nat j) mod QSIZE) = Some id;
  ri_used : used_idx (q v) = wrap 16 (last_used v + zlen ret);
  ri_ret : forall j id, ret !! j = Some id ->
    exists len, used_ring (q v) !! Z.to_nat ((last_used v + Z.of_nat j) mod QSIZE) = Some {| ue_id := id; ue_len := len |};
  ri_nodup : NoDup (pend ++ held d ++ ret);
  ri_flight : forall id, id ∈ pend ++ held d ++ ret <-> 0 <= id < 16 /\ inflight v !! Z.to_nat id = Some true }.

Lemma ids_bound (l : list u16) : NoDup l -> (forall id, id ∈ l -> 0 <= id < 16) -> (length l <= 16)%nat.
Proof.
  intros Hn Hl. change 16%nat with (length (seqZ 0 16)). apply submseteq_length, NoDup_submseteq; [done|].
  intros x Hx. apply elem_of_seqZ. by apply Hl.
Qed.

Lemma rings_room v d pend ret : rings v d pend ret -> (length pend + length (held d) + length ret <= 16)%nat.
Proof.
  intros R. pose proof (ids_bound _ (ri_nodup _ _ _ _ R)) as H. rewrite !length_app in H.
  enough (length pend + (length (held d) + length ret) <= 16)%nat by lia. apply H. intros id Hid. by apply (ri_flight _ _ _ _ R).
Qed.

Lemma rings_fresh v d pend ret id : rings v d pend ret -> 0 <= id < 16 -> inflight v !! Z.to_nat id = Some false ->
  ~ (id ∈ pend ++ held d ++ ret) /\ (length pend + length (held d) + length ret < 16)%nat.
Proof.
  intros R Hid Hf. assert (id ∉ (pend ++ held d ++ ret)) as Hn.
  { intros Hin. apply (ri_flight _ _ _ _ R) in Hin as [_ E]. congruence. }
  split; [done|]. pose proof (ids_bound (id :: pend ++ held d ++ ret)) as H. rewrite length_cons, !length_app in H.
  enough (S (length pend + (length (held d) + length ret)) <= 16)%nat by lia. apply H.
  - constructor; [done|]. apply (ri_nodup _ _ _ _ R).
  - intros x Hx. apply elem_of_cons in Hx as [->|Hx]; [done|]. by apply (ri_flight _ _ _ _ R).
Qed.

Lemma rings_new idx : rings (Virtq_new idx) {| seen := 0; held := [] |} [] [].
Proof.
  split; try done; cbn -[replicate].
  - constructor.
  - intros id. split; [intros H; by apply elem_of_nil in H|]. intros [_ H]. by apply lookup_replicate in H as [? _].
Qed.

(** ** The driver *)

Lemma rings_publish v v0 d pend ret id D :
  rings v d pend ret -> 0 <= id < 16 -> inflight v !! Z.to_nat id = Some false ->
  q v0 = q v -> last_used v0 = last_used v -> inflight v0 = <[Z.to_nat id := true]> (inflight v) ->
  rings (publish v0 id D) d (pend ++ [id]) ret.
Proof.
  intros R Hid Hf Eq El Ei. destruct (rings_fresh _ _ _ _ _ R Hid Hf) as [Hn Hroom].
  destruct R as [(L1 & L2 & L3) RW RA RP RU RR RN RF]. unfold publish. split; cbn; rewrite ?Eq, ?El, ?Ei, ?length_insert; try done.
  - rewrite RA, zlen_app. change (zlen [id]) with 1. apply wrap16_succ.
  - intros j x Hj. rewrite RA, wrap16_mod. unfold zlen. destruct (decide (j = length pend)) as [->|Hne].
    + rewrite lookup_app_r in Hj by done. rewrite Nat.sub_diag in Hj. injection Hj as ->.
      apply list_lookup_insert_eq. by apply ring_lt.
    + assert (j < length pend)%nat as Hlt by (apply lookup_lt_Some in Hj; rewrite length_app in Hj; cbn in Hj; lia).
      rewrite lookup_app_l in Hj by done. rewrite list_lookup_insert_ne; [by apply RP|].
      apply not_eq_sym, ring_neq; lia.
  - rewrite <- app_assoc, NoDup_app. rewrite NoDup_app in RN. destruct RN as (N1 & N2 & N3).
    split_and!; [done| |].
    + intros x Hx. cbn. rewrite !elem_of_cons. intros [->|Hx']; [by apply Hn, elem_of_app; left|by apply (N2 x)].
    + cbn. constructor; [|done]. intros Hx. apply Hn, elem_of_app. by right.
  - intros x. rewrite <- app_assoc. cbn. rewrite elem_of_app, elem_of_cons.
    destruct (decide (x = id)) as [->|Hne].
    + split; [|by right; left]. intros _. split; [done|]. apply list_lookup_insert_eq. lia.
    + split.
      * intros [Hx|[Hx|Hx]]; [|done|].
        all: assert (x ∈ pend ++ held d ++ ret) as Hx' by (apply elem_of_app; tauto); apply RF in Hx' as [? ?];
          split; [done|]; rewrite list_lookup_insert_ne by (intros E; apply Z2Nat.inj in E; lia); done.
      * intros [Hx1 Hx2]. rewrite list_lookup_insert_ne in Hx2 by (intros E; apply Z2Nat.inj in E; lia).
        assert (x ∈ pend ++ held d ++ ret) as Hx by (apply RF; done). apply elem_of_app in Hx. tauto.
Qed.

Lemma poll_none v d pend : rings v d pend [] -> poll_used v = (None, v).
Proof.
  intros [_ [_ RW] _ _ RU _ _ _]. unfold poll_used. rewrite RU. change (zlen []) with 0.
  rewrite Z.add_0_r, wrap_id, Z.eqb_refl by done. done.
Qed.

Lemma poll_some v d pend id ret : rings v d pend (id :: ret) ->
  exists len v', poll_used v = (Some (id, len), v') /\ rings v' d pend ret /\ q v' = q v /\ bufs v' = bufs v /\ qidx v' = qidx v.
Proof.
  intros R. pose proof (rings_room _ _ _ _ R) as Hroom. destruct R as [(L1 & L2 & L3) [RS RW] RA RP RU RR RN RF].
  destruct (RR O id eq_refl) as (len & He). rewrite Z.add_0_r in He.
  assert (0 <= id < 16) as Hid.
  { apply (RF id). rewrite !elem_of_app. right. right. by apply elem_of_cons; left. }
  exists len. unfold poll_used. rewrite (nth_lookup_Some _ _ _ _ He). cbn [ue_id ue_len].
  assert (as_u16 id mod QSIZE = id) as ->
    by (unfold as_u16; rewrite wrap_id by (unfold in_width; lia); unfold QSIZE; apply Z.mod_small; lia).
  rewrite (proj2 (Z.eqb_neq _ _)).
  2:{ rewrite RU. intros E. apply wrap16_eq in E; [|done|]; rewrite zlen_cons in *; unfold zlen in *; cbn in Hroom; lia. }
  eexists. split; [done|]. split; [|done]. split; cbn; rewrite ?length_insert; try done.
  - split; [done|]. unfold wrapping_add. apply wrap_width. lia.
  - rewrite RU, zlen_cons. by rewrite wrap16_shift.
  - intros j x Hj. destruct (RR (S j) x Hj) as (l & Hl). exists l. rewrite <- Hl. do 2 f_equal.
    rewrite <- (wrap16_mod (wrapping_add _ _ _ + _)), wrap16_shift, wrap16_mod. f_equal. lia.
  - rewrite app_assoc, NoDup_app in RN |- *. destruct RN as (N1 & N2 & N3). split_and!; [done| |].
    + intros x Hx Hx'. apply (N2 x Hx), elem_of_cons. by right.
    + by apply NoDup_cons in N3 as [].
  - intros x. assert (x ∈ pend ++ held d ++ ret <-> x ∈ pend ++ held d ++ id :: ret /\ x <> id) as ->.
    { rewrite !(app_assoc pend), !(elem_of_app (pend ++ _)), elem_of_cons. rewrite app_assoc, NoDup_app in RN.
      destruct RN as (N1 & N2 & N3). apply NoDup_cons in N3 as [N3 _]. split.
      - intros [H|H]; (split; [tauto|]); intros ->; [apply (N2 id H), elem_of_cons; by left|done].
      - tauto. }
    rewrite RF. destruct (decide (x = id)) as [->|Hne].
    + split; [tauto|]. intros [_ H]. rewrite list_lookup_insert_eq in H by lia. done.
    + split; [intros [[? ?] _]; split; [done|]|intros [? H]; split; [split; [done|]|done]].
      * rewrite list_lookup_insert_ne by (intros E; apply Z2Nat.inj in E; lia). done.
      * rewrite list_lookup_insert_ne in H by (intros E; apply Z2Nat.inj in E; lia). done.
Qed.

Lemma recycle_ok v d pend ret : rings v d pend ret ->
  rings (recycle_used v) d pend [] /\ q (recycle_used v) = q v /\ bufs (recycle_used v) = bufs v /\ qidx (recycle_used v) = qidx v.
Proof.
  intros R. pose proof (rings_room _ _ _ _ R) as Hroom. unfold recycle_used.
  assert (Z.to_nat (wrap 16 (used_idx (q v) - last_used v)) = length ret) as ->.
  { rewrite (ri_used _ _ _ _ R). unfold wrap. rewrite Zminus_mod_idemp_l.
    replace (last_used v + zlen ret - last_used v) with (zlen ret) by lia. rewrite Z.mod_small; unfold zlen; lia. }
  clear Hroom. revert v R. induction ret as [|id ret IH]; intros v R; [done|]. cbn [length recycle_loop].
  destruct (poll_some _ _ _ _ _ R) as (len & v' & -> & R' & E1 & E2 & E3). rewrite <- E1, <- E2, <- E3. by apply IH.
Qed.

Lemma first_free_ok l i : first_free l = Some i -> l !! i = Some false.
Proof.
  revert i. induction l as [|[] l IH]; intros i H; [done| |by injection H as <-].
  cbn in H. destruct (first_free l); [|done]. injection H as <-. cbn. by apply IH.
Qed.

Lemma first_free_none l : first_free l = None -> forall i b, l !! i = Some b -> b = true.
Proof.
  induction l as [|[] l IH]; intros H i b Hi; [done| |done]. cbn in H. destruct (first_free l); [done|].
  destruct i; [by injection Hi as <-|]. by eapply IH.
Qed.

(** ** The device *)

Lemma take_ok v d pend ret : rings v d pend ret ->
  match pend with
  | [] => dev_take (q v) d = None
  | id :: pend => exists d', dev_take (q v) d = Some (id, d') /\ held d' = id :: held d /\ rings v d' pend ret
  end.
Proof.
  intros R. pose proof (rings_room _ _ _ _ R) as Hroom. destruct R as [L [RS RW] RA RP RU RR RN RF].
  unfold dev_take. destruct pend as [|id pend].
  - rewrite RA. change (zlen []) with 0. rewrite Z.add_0_r, wrap_id, Z.eqb_refl by done. done.
  - rewrite (proj2 (Z.eqb_neq _ _)).
    2:{ rewrite RA. intros E. apply wrap16_eq in E; [|done|]; rewrite zlen_cons in *; unfold zlen in *; cbn in Hroom; lia. }
    pose proof (RP O id eq_refl) as H0. rewrite Z.add_0_r in H0. rewrite (nth_lookup_Some _ _ _ _ H0).
    eexists. split; [done|]. split; [done|]. split; cbn; try done.
    + split; [unfold wrapping_add; apply wrap_width; lia|done].
    + rewrite RA, zlen_cons. by rewrite wrap16_shift.
    + intros j x Hj. rewrite <- (RP (S j) x Hj). do 2 f_equal.
      rewrite <- (wrap16_mod (wrapping_add _ _ _ + _)), wrap16_shift, wrap16_mod. f_equal. lia.
    + rewrite <- Permutation_middle. exact RN.
    + intros x. rewrite <- Permutation_middle. apply RF.
Qed.

Lemma give_ok v d pend ret h1 id h2 len : rings v d pend ret -> held d = h1 ++ id :: h2 ->
  rings (set_q v (dev_give (q v) id len)) {| seen := seen d; held := h1 ++ h2 |} pend (ret ++ [id]).
Proof.
  intros R Hh. pose proof (rings_room _ _ _ _ R) as Hroom. destruct R as [(L1 & L2 & L3) [RS RW] RA RP RU RR RN RF].
  rewrite Hh, length_app in Hroom. cbn in Hroom.
  assert (pend ++ (h1 ++ h2) ++ ret ++ [id] ≡ₚ pend ++ held d ++ ret) as HP.
  { rewrite Hh. apply Permutation_app_head. rewrite <- !app_assoc. apply Permutation_app_head. cbn.
    rewrite app_assoc. symmetry. apply Permutation_cons_append. }
  split; cbn; rewrite ?length_insert; try done.
  - rewrite RU, zlen_app. change (zlen [id]) with 1. apply wrap16_succ.
  - intros j x Hj. rewrite RU, wrap16_mod. unfold zlen. destruct (decide (j = length ret)) as [->|Hne].
    + rewrite lookup_app_r in Hj by done. rewrite Nat.sub_diag in Hj. injection Hj as ->. exists len.
      apply list_lookup_insert_eq. by apply ring_lt.
    + assert (j < length ret)%nat as Hlt by (apply lookup_lt_Some in Hj; rewrite length_app in Hj; cbn in Hj; lia).
      rewrite lookup_app_l in Hj by done. rewrite list_lookup_insert_ne; [by apply RR|].
      apply not_eq_sym, ring_neq; lia.
  - by rewrite HP.
  - intros x. rewrite HP. apply RF.
Qed.

(** * The transmit queue *)

(** What the device finds at descriptor [id]: the live buffer the descriptor
    names, [None] if there is none. *)
Definition dev_read (v : Virtq) (id : u16) : option Buf :=
  D ← desc (q v) !! Z.to_nat id;
  ob ← bufs v !! Z.to_nat id;
  b ← ob;
  if (d_addr D =? b_ptr b) && (d_len D =? as_u32 (zlen (b_bytes b))) then Some b else None.

(** The queue, the device, the packets sent and what the device read for each
    descriptor it took. *)
Record TxState := { tv : Virtq; td : Device; sent : list Buf; got : list (option Buf) }.

Inductive tx_step : TxState -> TxState -> Prop :=
| tx_send v d s g pkt v' : add_out_owned v pkt = Some v' ->
    tx_step {| tv := v; td := d; sent := s; got := g |} {| tv := v'; td := d; sent := s ++ [pkt]; got := g |}
| tx_spin v d s g : (alloc_desc v).1 = None ->
    tx_step {| tv := v; td := d; sent := s; got := g |} {| tv := (alloc_desc v).2; td := d; sent := s; got := g |}
| tx_take v d s g id d' : dev_take (q v) d = Some (id, d') ->
    tx_step {| tv := v; td := d; sent := s; got := g |} {| tv := v; td := d'; sent := s; got := g ++ [dev_read v id] |}
| tx_give v d s g h1 id h2 len : held d = h1 ++ id :: h2 ->
    tx_step {| tv := v; td := d; sent := s; got := g |}
      {| tv := set_q v (dev_give (q v) id len); td := {| seen := seen d; held := h1 ++ h2 |}; sent := s; got := g |}.

Record tx_ok (s : TxState) (pend ret : list u16) : Prop := {
  to_rings : rings (tv s) (td s) pend ret;
  to_len : length (bufs (tv s)) = 16%nat /\ length (desc (q (tv s))) = 16%nat;
  to_fifo : map Some (sent s) = got s ++ map (dev_read (tv s)) pend;
  to_held : Forall (fun id => exists b, dev_read (tv s) id = Some b /\ Some b ∈ got s) (held (td s)) }.

(** Publishing a packet at a free descriptor leaves the other descriptors alone. *)
Lemma dev_read_send v id pkt x : length (bufs v) = 16%nat -> length (desc (q v)) = 16%nat -> 0 <= id < 16 -> 0 <= x ->
  dev_read (add_out (set_inflight (set_buf v id pkt) id true) (b_ptr pkt) (as_u32 (zlen (b_bytes pkt))) id) x =
    if x =? id then Some pkt else dev_read v x.
Proof.
  intros Hb Hd Hid Hx. unfold dev_read, add_out, cap_id, QSIZE. rewrite (Z.mod_small id) by lia. cbn [q publish desc bufs set_inflight set_buf].
  destruct (Z.eqb_spec x id) as [->|Hne].
  - rewrite !list_lookup_insert_eq by lia. cbn. by rewrite !Z.eqb_refl.
  - by rewrite !list_lookup_insert_ne by (intros E; apply Z2Nat.inj in E; lia).
Qed.

Lemma dev_read_same v v' x : q v' = q v -> bufs v' = bufs v -> dev_read v' x = dev_read v x.
Proof. unfold dev_read. by intros -> ->. Qed.

Lemma add_out_owned_ok v d pend ret pkt v' : rings v d pend ret -> add_out_owned v pkt = Some v' ->
  exists id, rings v' d (pend ++ [id]) [] /\ 0 <= id < 16 /\ ~ (id ∈ pend ++ held d) /\ qidx v' = qidx v /\
    v' = add_out (set_inflight (set_buf (recycle_used v) id pkt) id true) (b_ptr pkt) (as_u32 (zlen (b_bytes pkt))) id.
Proof.
  intros R H. destruct (recycle_ok _ _ _ _ R) as (R1 & E1 & E2 & E3). unfold add_out_owned, alloc_desc in H.
  destruct (first_free (inflight (recycle_used v))) as [i|] eqn:Ef; [|done]. cbn in H. injection H as <-.
  apply first_free_ok in Ef. pose proof (lookup_lt_Some _ _ _ Ef) as Hlt. rewrite (proj2 (proj2 (ri_len _ _ _ _ R1))) in Hlt.
  exists (Z.of_nat i). assert (0 <= Z.of_nat i < 16) as Hi by lia. rewrite <- (Nat2Z.id i) in Ef.
  destruct (rings_fresh _ _ _ _ _ R1 Hi Ef) as [Hn _]. rewrite app_nil_r in Hn.
  split_and!; try done; try lia.
  unfold add_out, cap_id, QSIZE. rewrite Z.mod_small by lia. by apply (rings_publish (recycle_used v)).
Qed.

Lemma tx_step_ok s s' pend ret : tx_step s s' -> tx_ok s pend ret -> exists pend' ret', tx_ok s' pend' ret'.
Proof.
  destruct 1 as [v d s g pkt v' H|v d s g H|v d s g id d' H|v d s g h1 id h2 len H]; intros [R [Lb Ld] F K]; cbn in *.
  - destruct (add_out_owned_ok _ _ _ _ _ _ R H) as (id & R' & Hid & Hn & _ & ->).
    destruct (recycle_ok _ _ _ _ R) as (R1 & E1 & E2 & _). rewrite elem_of_app in Hn.
    assert (forall x, x ∈ pend ++ held d -> dev_read (add_out (set_inflight (set_buf (recycle_used v) id pkt) id true)
      (b_ptr pkt) (as_u32 (zlen (b_bytes pkt))) id) x = dev_read v x) as Hsame.
    { intros x Hx. assert (0 <= x < 16) as Hx' by (apply (ri_flight _ _ _ _ R); rewrite app_assoc; apply elem_of_app; by left).
      apply elem_of_app in Hx. rewrite dev_read_send; [|by rewrite ?E1, ?E2|by rewrite ?E1, ?E2|lia|lia].
      rewrite (proj2 (Z.eqb_neq _ _)) by (intros ->; tauto). by apply dev_read_same. }
    exists (pend ++ [id]), []. split; cbn; [done| | |].
    + rewrite !length_insert. by rewrite E1, E2.
    + rewrite map_app, F, map_app, app_assoc. cbn. rewrite dev_read_send; [|by rewrite ?E1, ?E2|by rewrite ?E1, ?E2|lia|lia].
      rewrite Z.eqb_refl. do 2 f_equal. apply map_ext_in. intros x Hx. symmetry. apply Hsame, elem_of_app. left. by apply list_elem_of_In.
    + apply list.Forall_forall. intros x Hx. rewrite Hsame by (apply elem_of_app; by right).
      by apply (proj1 (list.Forall_forall _ _) K).
  - destruct (recycle_ok _ _ _ _ R) as (R1 & E1 & E2 & _). exists pend, []. split; cbn; [done|by rewrite E1, E2| |].
    + rewrite F. f_equal. apply map_ext. intros x. symmetry. by apply dev_read_same.
    + eapply list.Forall_impl; [exact K|]. intros x. cbv beta. by rewrite (dev_read_same v (recycle_used v)).
  - pose proof (take_ok _ _ _ _ R) as Ht. destruct pend as [|id' pend]; [congruence|].
    destruct Ht as (d1 & H1 & Hh & R'). rewrite H1 in H. injection H as -> ->.
    exists pend, ret. split; cbn; [done|done| |].
    + rewrite F. cbn. by rewrite <- app_assoc.
    + rewrite Hh. constructor.
      * cbn in F. assert (In (dev_read v id) (map Some s)) as Hin by (rewrite F; apply in_app_iff; right; by left).
        apply in_map_iff in Hin as (b & Hb & _). exists b. split; [done|]. apply elem_of_app. right. rewrite Hb. by apply elem_of_cons; left.
      * eapply list.Forall_impl; [exact K|]. intros x (b & ? & ?). exists b. split; [done|]. apply elem_of_app. by left.
  - exists pend, (ret ++ [id]). split; cbn; [by apply give_ok|done|done|].
    rewrite H in K. apply Forall_app in K as [K1 K2]. apply list.Forall_cons_1 in K2 as [_ K2]. by apply Forall_app.
Qed.

(** A send spins only while the device has all sixteen descriptors. *)
Lemma spin_full v d pend ret pkt : rings v d pend ret -> add_out_owned v pkt = None ->
  (length pend + length (held d) = 16)%nat.
Proof.
  intros R H. destruct (recycle_ok _ _ _ _ R) as (R1 & _). unfold add_out_owned, alloc_desc in H.
  destruct (first_free (inflight (recycle_used v))) eqn:Ef; [done|]. pose proof (first_free_none _ Ef) as Hall.
  pose proof (rings_room _ _ _ _ R1) as Hle. rewrite Nat.add_0_r in Hle.
  enough (16 <= length pend + length (held d))%nat by lia. rewrite <- length_app. change 16%nat with (length (seqZ 0 16)).
  apply submseteq_length, NoDup_submseteq; [apply NoDup_seqZ|]. intros x Hx. apply elem_of_seqZ in Hx.
  assert (x ∈ pend ++ held d ++ []) as Hin; [|by rewrite app_nil_r in Hin].
  apply (ri_flight _ _ _ _ R1). split; [lia|].
  destruct (lookup_lt_is_Some_2 (inflight (recycle_used v)) (Z.to_nat x)) as [b Hb].
  { rewrite (proj2 (proj2 (ri_len _ _ _ _ R1))). lia. }
  by rewrite Hb, (Hall _ _ Hb).
Qed.

(** C14. The transmit queue is a FIFO of packets: however the driver's sends and
    the device's moves interleave, what the device has read is a prefix of the
    packets sent, whole and in order, the rest wait in the available ring, and
    every buffer the device can still reach is live and unchanged.  A send waits
    only while the device has all sixteen descriptors. *)
Theorem tx_queue_fifo idx s :
  rtc tx_step {| tv := Virtq_new idx; td := {| seen := 0; held := [] |}; sent := []; got := [] |} s ->
  exists pend ret, rings (tv s) (td s) pend ret /\
    map Some (sent s) = got s ++ map (dev_read (tv s)) pend /\
    Forall (fun id => exists b, dev_read (tv s) id = Some b /\ Some b ∈ got s) (held (td s)) /\
    (forall pkt, add_out_owned (tv s) pkt = None -> (length pend + length (held (td s)) = 16)%nat).
Proof.
  intros Hr. assert (exists pend ret, tx_ok s pend ret) as (pend & ret & [H1 _ H3 H4]).
  2:{ exists pend, ret. split_and!; try done. intros pkt. by eapply spin_full. }
  assert (exists pend ret, tx_ok {| tv := Virtq_new idx; td := {| seen := 0; held := [] |}; sent := []; got := [] |} pend ret) as H0.
  { exists [], []. split; [apply rings_new|done|done|constructor]. }
  revert H0. generalize dependent {| tv := Virtq_new idx; td := {| seen := 0; held := [] |}; sent := []; got := [] |}.
  intros s0 Hr. induction Hr as [|s1 s2 s3 Hs Hr IH]; [done|]. intros (pend & ret & H0). apply IH. by eapply tx_step_ok.
Qed.

(** The three writes of [publish] to shared memory, in the source's order. *)
Definition put_desc (s : SplitQ) (id : u16) (D : Desc) : SplitQ :=
  {| desc := <[Z.to_nat id := D]> (desc s); avail_flags := avail_flags s; avail_idx := avail_idx s; avail_ring := avail_ring s;
     used_flags := used_flags s; used_idx := used_idx s; used_ring := used_ring s |}.
Definition put_ring (s : SplitQ) (id : u16) : SplitQ :=
  {| desc := desc s; avail_flags := avail_flags s; avail_idx := avail_idx s;
     avail_ring := <[Z.to_nat (avail_idx s mod QSIZE) := id]> (avail_ring s);
     used_flags := used_flags s; used_idx := used_idx s; used_ring := used_ring s |}.
Definition put_index (s : SplitQ) : SplitQ :=
  {| desc := desc s; avail_flags := avail_flags s; avail_idx := wrapping_add 16 (avail_idx s) 1; avail_ring := avail_ring s;
     used_flags := used_flags s; used_idx := used_idx s; used_ring := used_ring s |}.

Lemma rings_put_ring v d pend ret id : rings v d pend ret -> (length pend < 16)%nat ->
  rings (set_q v (put_ring (q v) id)) d pend ret.
Proof.
  intros [(L1 & L2 & L3) RW RA RP RU RR RN RF] Hl. split; cbn; rewrite ?length_insert; try done.
  intros j x Hj. rewrite RA, wrap16_mod. apply RP in Hj as Hr. apply lookup_lt_Some in Hj.
  rewrite list_lookup_insert_ne; [done|]. unfold zlen. apply not_eq_sym, ring_neq; lia.
Qed.

(** The order of the writes: while the descriptor and then the ring entry are
    written for a free descriptor, the rings hold for the device what they held
    (the same descriptors are available, in the same order, and it reads the same
    buffers at them and at those it has); the last write, of the index, is the one
    that publishes.  The fence in front of it is what keeps the writes in this
    order for the device. *)
Theorem publish_hidden_until_index v d pend ret id D :
  rings v d pend ret -> 0 <= id < 16 -> inflight v !! Z.to_nat id = Some false ->
  let s1 := put_desc (q v) id D in let s2 := put_ring s1 id in
  rings (set_q v s1) d pend ret /\ rings (set_q v s2) d pend ret /\
  (forall x, x ∈ pend ++ held d -> dev_read (set_q v s1) x = dev_read v x /\ dev_read (set_q v s2) x = dev_read v x) /\
  q (publish v id D) = put_index s2.
Proof.
  intros R Hid Hf s1 s2. destruct (rings_fresh _ _ _ _ _ R Hid Hf) as [Hn Hroom].
  assert (rings (set_q v s1) d pend ret) as R1 by (destruct R; split; done).
  split; [done|]. split; [apply (rings_put_ring _ _ _ _ id R1); lia|]. split; [|done]. intros x Hx.
  assert (desc s1 !! Z.to_nat x = desc (q v) !! Z.to_nat x) as E; [|unfold dev_read; cbn [q set_q bufs]; change (desc s2) with (desc s1); by rewrite E].
  apply list_lookup_insert_ne. intros E. assert (x ∈ pend ++ held d ++ ret) as Hx' by (rewrite app_assoc; apply elem_of_app; by left).
  apply (ri_flight _ _ _ _ R) in Hx' as Hb. assert (x = id) as -> by lia. done.
Qed.

(** Two packets: the first is sent, taken and given back, the second waits. *)
Definition pkt1 : Buf := {| b_ptr := 0x1000; b_bytes := [1; 2; 3] |}.
Definition pkt2 : Buf := {| b_ptr := 0x2000; b_bytes := [4] |}.
Definition sent1 : Virtq := default (Virtq_new 1) (add_out_owned (Virtq_new 1) pkt1).
Definition given1 : Virtq := set_q sent1 (dev_give (q sent1) 0 0).
Definition sent2 : Virtq := default (Virtq_new 1) (add_out_owned given1 pkt2).

Lemma tx_queue_fifo_witness : exists pend ret,
  rings sent2 {| seen := 1; held := [] |} pend ret /\ [Some pkt1; Some pkt2] = [Some pkt1] ++ map (dev_read sent2) pend.
Proof.
  destruct (tx_queue_fifo 1 {| tv := sent2; td := {| seen := 1; held := [] |}; sent := [pkt1; pkt2]; got := [Some pkt1] |})
    as (pend & ret & H1 & H2 & _).
  - eapply rtc_l; [apply (tx_send _ _ _ _ pkt1 sent1); reflexivity|].
    eapply rtc_l; [apply (tx_take _ _ _ _ 0 {| seen := 1; held := [0] |}); reflexivity|].
    eapply rtc_l; [apply (tx_give _ _ _ _ [] 0 [] 0); reflexivity|].
    eapply rtc_l; [apply (tx_send _ _ _ _ pkt2 sent2); reflexivity|].
    apply rtc_refl.
  - exists pend, ret. split; [exact H1|exact H2].
Defined.

(** * The receive queue *)

(** [rust_main]: one buffer, posted again after each packet.  [ours] is whether the
    driver has it. *)
Record RxState := { rv : Virtq; rd : Device; ours : bool }.
Inductive rx_step (buf : u64) : RxState -> RxState -> Prop :=
| rx_post v d : rx_step buf {| rv := v; rd := d; ours := true |} {| rv := add_in v buf 4096 0; rd := d; ours := false |}
| rx_poll v d id len v' : poll_used v = (Some (id, len), v') ->
    rx_step buf {| rv := v; rd := d; ours := false |} {| rv := v'; rd := d; ours := true |}
| rx_take v d o id d' : dev_take (q v) d = Some (id, d') ->
    rx_step buf {| rv := v; rd := d; ours := o |} {| rv := v; rd := d'; ours := o |}
| rx_give v d o h1 id h2 len : held d = h1 ++ id :: h2 ->
    rx_step buf {| rv := v; rd := d; ours := o |}
      {| rv := set_q v (dev_give (q v) id len); rd := {| seen := seen d; held := h1 ++ h2 |}; ours := o |}.

(** The one descriptor in flight, exactly while the driver does not have the buffer. *)
Definition rx_ok (s : RxState) : Prop := exists pend ret, rings (rv s) (rd s) pend ret /\
  pend ++ held (rd s) ++ ret = (if ours s then [] else [0]).

Lemma singleton_app3 {A} (a b c : list A) x : a ++ b ++ c = [x] ->
  (a = [x] /\ b = [] /\ c = []) \/ (a = [] /\ b = [x] /\ c = []) \/ (a = [] /\ b = [] /\ c = [x]).
Proof.
  destruct a as [|y [|]]; cbn; [|intros [= -> H]; apply app_eq_nil in H as []; tauto|done].
  destruct b as [|y [|]]; cbn; [tauto|intros [= -> ->]; tauto|done].
Qed.

Lemma rx_step_ok buf s s' : rx_step buf s s' -> rx_ok s -> rx_ok s'.
Proof.
  destruct 1 as [v d|v d id len v' H|v d o id d' H|v d o h1 id h2 len H]; intros (pend & ret & R & E); cbn in *.
  - apply app_eq_nil in E as [-> E]. apply app_eq_nil in E as [Eh ->]. exists [0], []. cbn. rewrite Eh. split; [|done].
    unfold add_in. change (cap_id 0) with 0. apply (rings_publish v _ d [] []); [done|lia| |done..].
    pose proof (ri_flight _ _ _ _ R 0) as [_ Hf]. rewrite Eh in Hf. cbn in Hf.
    destruct (inflight v !! 0%nat) as [[]|] eqn:Ei; [|done|].
    + specialize (Hf ltac:(split; [lia|exact Ei])). by apply elem_of_nil in Hf.
    + apply lookup_ge_None in Ei. rewrite (proj2 (proj2 (ri_len _ _ _ _ R))) in Ei. lia.
  - destruct ret as [|r ret]; [by rewrite (poll_none _ _ _ R) in H|].
    destruct (poll_some _ _ _ _ _ R) as (len' & v1 & E1 & R1 & _). rewrite E1 in H. injection H as -> -> ->.
    exists pend, ret. split; [done|]. cbn. apply singleton_app3 in E as [(_ & _ & [=])|[(_ & _ & [=])|(-> & -> & [= _ ->])]]. done.
  - pose proof (take_ok _ _ _ _ R) as Ht. destruct pend as [|p pend]; [congruence|].
    destruct Ht as (d1 & H1 & Hh & R'). rewrite H1 in H. injection H as -> ->. exists pend, ret. split; [done|]. cbn.
    destruct o; [done|]. apply singleton_app3 in E as [([= -> ->] & E1 & ->)|[([=] & _)|([=] & _)]]. by rewrite Hh, E1.
  - exists pend, (ret ++ [id]). cbn. split; [by apply give_ok|]. destruct o.
    + apply app_eq_nil in E as [_ E]. apply app_eq_nil in E as [E _]. rewrite H in E. by destruct h1.
    + apply singleton_app3 in E as [(_ & E & _)|[(-> & E & ->)|(_ & E & _)]]; rewrite H in E; [by destruct h1| |by destruct h1].
      destruct h1 as [|? h1]; [injection E as -> ->; done|]. injection E as _ E. by destruct h1.
Qed.

(** The receive buffer has one owner: in every state the guest's loop and the
    device can reach, while the loop reads a packet the device has no descriptor
    of the queue, available, held or given back; and after the buffer is posted
    exactly one descriptor is in flight. *)
Theorem rx_buffer_exclusive buf idx s :
  rtc (rx_step buf) {| rv := Virtq_new idx; rd := {| seen := 0; held := [] |}; ours := true |} s ->
  exists pend ret, rings (rv s) (rd s) pend ret /\ pend ++ held (rd s) ++ ret = (if ours s then [] else [0]) /\
    (ours s = true -> dev_take (q (rv s)) (rd s) = None /\ poll_used (rv s) = (None, rv s)).
Proof.
  intros Hr. assert (rx_ok s) as (pend & ret & R & E).
  { assert (rx_ok {| rv := Virtq_new idx; rd := {| seen := 0; held := [] |}; ours := true |}) as H0.
    { exists [], []. split; [apply rings_new|done]. }
    revert H0. generalize dependent {| rv := Virtq_new idx; rd := {| seen := 0; held := [] |}; ours := true |}.
    intros s0 Hr. induction Hr as [|s1 s2 s3 Hs Hr IH]; [done|]. intros H0. apply IH. by eapply rx_step_ok. }
  exists pend, ret. split_and!; [done|done|]. intros Ho. rewrite Ho in E. apply app_eq_nil in E as [-> E]. apply app_eq_nil in E as [_ ->].
  split; [exact (take_ok _ _ _ _ R)|by eapply poll_none].
Qed.

Lemma rx_buffer_exclusive_witness :
  exists pend ret, rings (add_in (Virtq_new 0) 0x3000 4096 0) {| seen := 1; held := [0] |} pend ret /\ pend ++ [0] ++ ret = [0].
Proof.
  destruct (rx_buffer_exclusive 0x3000 0 {| rv := add_in (Virtq_new 0) 0x3000 4096 0; rd := {| seen := 1; held := [0] |}; ours := false |})
    as (pend & ret & H1 & H2 & _).
  - eapply rtc_l; [apply rx_post|]. eapply rtc_l; [apply (rx_take _ _ _ _ 0 {| seen := 1; held := [0] |}); reflexivity|]. apply rtc_refl.
  - exists pend, ret. split; [exact H1|exact H2].
Defined.
