(* ===== verification/Pci.v ===== *)
(** The guest's PCI and virtio-pci set-up (src/guest/rustee-guest/src/pci.rs and
    [VirtioPci] of virtio.rs), its page tables (mmu.rs) and its console (uart.rs).

    The configuration space and the device registers are hardware: the class
    [Bus] gives what a read returns in a state and the state a write leaves.
    [fail_halt] and a panic are [None]. *)
From Stdlib Require Import ZArith Lia.
From stdpp Require Import base list numbers sorting relations.
From S2P Require Import Prelude Alloc Virtq.

Local Open Scope Z_scope.
Local Open Scope rust_scope.

(** * pci.rs *)

Definition ECAM : u64 := 0x4010000000.
Definition MMIO32_BASE : u64 := 0x10000000.
Definition MMIO32_END : u64 := 0x3e000000.
Definition VENDOR_VIRTIO : u16 := 0x1af4.
Definition DEV_VSOCK : u16 := 0x1053.
Definition DEV_RNG : u16 := 0x1044.

(** Volatile accesses of a number of bytes by address; [bus_tick] is time passing. *)
Class Bus (W : Type) := {
  bus_read : Z -> u64 -> W -> Z;
  bus_write : Z -> u64 -> Z -> W -> W;
  bus_tick : W -> W }.

Record BarCache := { bc_bus : u8; bc_dev : u8; bc_func : u8; bc_bar : u8; bc_base : u64 }.
Record PciDev := { pd_bus : u8; pd_dev : u8; pd_func : u8; pd_device_id : u16 }.

Definition BAR_SLOTS : nat := 24.

(** [NEXT_MMIO32] and [BAR_CACHE]. *)
Record Pci := { next_mmio32 : u64; bar_cache : list (option BarCache) }.
Definition Pci_init : Pci := {| next_mmio32 := MMIO32_BASE; bar_cache := replicate BAR_SLOTS None |}.

Definition cfg_ptr (bus dev func : u8) (off : u16) : u64 :=
  ECAM + Z.shiftl bus 20 + Z.shiftl dev 15 + Z.shiftl func 12 + off.

Section Cfg.
Context {W : Type} `{!Bus W}.

Definition cfg_read32 (bus dev func : u8) (off : u16) (w : W) : u32 := bus_read 4 (cfg_ptr bus dev func off) w.
Definition cfg_write32 (bus dev func : u8) (off : u16) (v : u32) (w : W) : W := bus_write 4 (cfg_ptr bus dev func off) v w.
Definition cfg_read8 (bus dev func : u8) (off : u16) (w : W) : u8 :=
  let x := cfg_read32 bus dev func (Z.land off (Z.lxor 3 0xFFFF)) w in
  Z.land (Z.shiftr x (Z.land off 3 * 8)) 0xff.
Definition cfg_read16 (bus dev func : u8) (off : u16) (w : W) : u16 :=
  let x := cfg_read32 bus dev func (Z.land off (Z.lxor 3 0xFFFF)) w in
  Z.land (Z.shiftr x (Z.land off 3 * 8)) 0xffff.

(** [for dev in 0..32u8] *)
Definition find_at (device_id : u16) (w : W) (dev : u8) : option PciDev :=
  let id := cfg_read32 0 dev 0 0 w in
  if id =? 0xffffffff then None else
  let vendor := Z.land id 0xffff in
  let device := as_u16 (Z.shiftr id 16) in
  if (vendor =? VENDOR_VIRTIO) && (device =? device_id)
  then Some {| pd_bus := 0; pd_dev := dev; pd_func := 0; pd_device_id := device_id |} else None.
Fixpoint find_loop (device_id : u16) (w : W) (devs : list u8) : option PciDev :=
  match devs with
  | [] => None
  | dev :: devs => match find_at device_id w dev with Some d => Some d | None => find_loop device_id w devs end
  end.
Definition find (device_id : u16) (w : W) : option PciDev := find_loop device_id w (seqZ 0 32).

Definition cache_hit (d : PciDev) (bar : u8) (c : BarCache) : bool :=
  (bc_bus c =? pd_bus d) && (bc_dev c =? pd_dev d) && (bc_func c =? pd_func d) && (bc_bar c =? bar).
Fixpoint cached_in (d : PciDev) (bar : u8) (l : list (option BarCache)) : option u64 :=
  match l with
  | [] => None
  | Some c :: l => if cache_hit d bar c then Some (bc_base c) else cached_in d bar l
  | None :: l => cached_in d bar l
  end.
Definition cached (p : Pci) (d : PciDev) (bar : u8) : option u64 := cached_in d bar (bar_cache p).

Fixpoint fill_slot (c : BarCache) (l : list (option BarCache)) : list (option BarCache) :=
  match l with
  | [] => []
  | None :: l => Some c :: l
  | Some x :: l => Some x :: fill_slot c l
  end.
Definition remember (p : Pci) (d : PciDev) (bar : u8) (base : u64) : Pci :=
  {| next_mmio32 := next_mmio32 p;
     bar_cache := fill_slot {| bc_bus := pd_bus d; bc_dev := pd_dev d; bc_func := pd_func d; bc_bar := bar; bc_base := base |}
                            (bar_cache p) |}.

(** The sum is checked. *)
Definition align_up (addr align : u64) : option u64 :=
  if align <=? 1 then Some addr else _ ← checked_add 64 addr align; Some (align_to addr align).

Definition alloc_mmio (p : Pci) (size : u64) (is_64 : bool) : option (u64 * Pci) :=
  let size := Z.max size 0x1000 in
  base ← align_up (next_mmio32 p) size;
  let next := sat_add 64 base size in
  if MMIO32_END <? next then None else Some (base, {| next_mmio32 := next; bar_cache := bar_cache p |}).

Definition enable_mem_busmaster (d : PciDev) (w : W) : W :=
  let cmd := cfg_read16 (pd_bus d) (pd_dev d) (pd_func d) 4 w in
  cfg_write32 (pd_bus d) (pd_dev d) (pd_func d) 4 (Z.lor cmd 6) w.

(** The size a BAR reports after ones were written to it: the two's complement
    of the address bits, at [w] bits. *)
Definition bar_size (width : Z) (sz : Z) : Z := wrap width (2 ^ width - Z.land sz (Z.lxor 0xf (2 ^ width - 1))).
Definition at_least_page (size : u64) : u64 := if size =? 0 then 0x1000 else Z.max size 0x1000.

(** The first half of [map_bar]: the size of the BAR. *)
Definition probe_size (d : PciDev) (bar : u8) (is_64 : bool) (w : W) : option (u64 * W) :=
  let rd := cfg_read32 (pd_bus d) (pd_dev d) (pd_func d) in
  let wr := cfg_write32 (pd_bus d) (pd_dev d) (pd_func d) in
  let off := 0x10 + bar * 4 in
  if is_64 then
    if 5 <=? bar then None else
    let hi_off := off + 4 in
    let w := wr off 0xffffffff w in
    let w := wr hi_off 0xffffffff w in
    let sz_lo := rd off w in
    let sz_hi := rd hi_off w in
    let sz := Z.lor (Z.shiftl sz_hi 32) sz_lo in
    Some (at_least_page (bar_size 64 sz), w)
  else
    let w := wr off 0xffffffff w in
    let sz := rd off w in
    Some (at_least_page (bar_size 32 sz), w).

Definition map_bar (p : Pci) (d : PciDev) (bar : u8) (w : W) : option (option u64 * Pci * W) :=
  match cached p d bar with
  | Some b => Some (Some b, p, w)
  | None =>
      let wr := cfg_write32 (pd_bus d) (pd_dev d) (pd_func d) in
      let off := 0x10 + bar * 4 in
      let orig_lo := cfg_read32 (pd_bus d) (pd_dev d) (pd_func d) off w in
      if negb (Z.land orig_lo 1 =? 0) then Some (None, p, w) else
      let is_64 := Z.land orig_lo 6 =? 4 in
      '(size, w) ← probe_size d bar is_64 w;
      '(base, p) ← alloc_mmio p size is_64;
      let w := wr off (Z.lor (Z.land (as_u32 base) (Z.lxor 0xf U32_MAX)) (Z.land orig_lo 0xf)) w in
      let '(p, w) :=
        if is_64 then (remember (remember p d bar base) d (bar + 1) base, wr (off + 4) (Z.shiftr base 32) w)
        else (remember p d bar base, w) in
      let w := enable_mem_busmaster d w in
      Some (Some base, p, w)
  end.

(** * VirtioPci *)

Definition CAP_COMMON : u8 := 1.
Definition CAP_NOTIFY : u8 := 2.
Definition CAP_ISR : u8 := 3.
Definition CAP_DEVICE : u8 := 4.
Definition S_ACK : u8 := 1.
Definition S_DRIVER : u8 := 2.
Definition S_DRIVER_OK : u8 := 4.
Definition S_FEATURES_OK : u8 := 8.

Record VirtioPci := { common : u64; vp_notify : u64; device : u64; notify_off_mul : u32 }.

(** type, bar, next, offset, length *)
Definition cap_at (d : PciDev) (off : u8) (w : W) : u8 * u8 * u8 * u32 * u32 :=
  let r8 := cfg_read8 (pd_bus d) (pd_dev d) (pd_func d) in
  let r32 := cfg_read32 (pd_bus d) (pd_dev d) (pd_func d) in
  (r8 (off + 3) w, r8 (off + 4) w, r8 (off + 1) w, r32 (off + 8) w, r32 (off + 12) w).

(** The walk over the capabilities, at most [fuel] of them. *)
Fixpoint probe_loop (fuel : nat) (d : PciDev) (cap : u8) (p : Pci) (v : VirtioPci) (w : W) : option (VirtioPci * Pci * W) :=
  match fuel with
  | O => Some (v, p, w)
  | S fuel =>
      if cap =? 0 then Some (v, p, w) else
      let id := cfg_read8 (pd_bus d) (pd_dev d) (pd_func d) cap w in
      let next := cfg_read8 (pd_bus d) (pd_dev d) (pd_func d) (cap + 1) w in
      if negb (id =? 9) then probe_loop fuel d next p v w else
      let '(t, bar, _, off, _) := cap_at d cap w in
      if negb ((t =? CAP_COMMON) || (t =? CAP_NOTIFY) || (t =? CAP_ISR) || (t =? CAP_DEVICE))
      then probe_loop fuel d next p v w else
      '(b, p, w) ← map_bar p d bar w;
      match b with
      | None => probe_loop fuel d next p v w
      | Some base =>
          addr ← checked_add 64 base off;
          let v :=
            if t =? CAP_COMMON then
              {| common := addr; vp_notify := vp_notify v; device := device v; notify_off_mul := notify_off_mul v |}
            else if t =? CAP_NOTIFY then
              {| common := common v; vp_notify := addr; device := device v;
                 notify_off_mul := cfg_read32 (pd_bus d) (pd_dev d) (pd_func d) (cap + 16) w |}
            else if t =? CAP_DEVICE then
              {| common := common v; vp_notify := vp_notify v; device := addr; notify_off_mul := notify_off_mul v |}
            else v in
          probe_loop fuel d next p v w
      end
  end.

Definition probe (p : Pci) (d : PciDev) (w : W) : option (option VirtioPci * Pci * W) :=
  let cap := cfg_read8 (pd_bus d) (pd_dev d) (pd_func d) 0x34 w in
  '(v, p, w) ← probe_loop 16 d cap p {| common := 0; vp_notify := 0; device := 0; notify_off_mul := 0 |} w;
  Some (if common v =? 0 then None else Some v, p, w).

Definition vw (n : Z) (v : VirtioPci) (off : usize) (x : Z) (w : W) : W := bus_write n (common v + off) x w.
Definition vr (n : Z) (v : VirtioPci) (off : usize) (w : W) : Z := bus_read n (common v + off) w.

(** [for _ in 0..100_000 { if self.r8(20) == 0 { break } spin_loop() }] *)
Fixpoint await_reset (turns : nat) (v : VirtioPci) (w : W) : W :=
  match turns with
  | O => w
  | S turns => if vr 1 v 20 w =? 0 then w else await_reset turns v (bus_tick w)
  end.

Definition reset_and_ack (v : VirtioPci) (w : W) : option W :=
  let w := vw 1 v 20 0 w in
  let w := await_reset (Z.to_nat 100000) v w in
  let w := vw 1 v 20 (Z.lor S_ACK S_DRIVER) w in
  let w := vw 4 v 8 0 w in
  let w := vw 4 v 12 0 w in
  let w := vw 4 v 8 1 w in
  let w := vw 4 v 12 1 w in
  let w := vw 1 v 20 (Z.lor (Z.lor S_ACK S_DRIVER) S_FEATURES_OK) w in
  if Z.land (vr 1 v 20 w) S_FEATURES_OK =? 0 then None else Some w.

(** [offset_of!(SplitQ, avail_flags)] and [offset_of!(SplitQ, used_flags)] *)
Definition avail_off : u64 := 256.
Definition used_off : u64 := 256 + 4 + 32 + 4.

(** [pa]: the zeroed memory of the queue.  Gives the queue and the address its
    notifications are written to. *)
Definition setup_queue (v : VirtioPci) (idx : u16) (pa : u64) (w : W) : option (Virtq * u64 * W) :=
  let w := vw 2 v 22 idx w in
  let size := as_u16 QSIZE in
  let w := vw 2 v 24 size w in
  let w := vw 2 v 26 0xffff w in
  let w := vw 8 v 32 pa w in
  let w := vw 8 v 40 (pa + avail_off) w in
  let w := vw 8 v 48 (pa + used_off) w in
  let w := vw 2 v 28 1 w in
  let n_off := vr 2 v 30 w in
  if vp_notify v =? 0 then None else
  m ← (if n_off * notify_off_mul v <? 2 ^ 32 then Some (n_off * notify_off_mul v) else None);
  Some (Virtq_new idx, vp_notify v + m, w).

Definition driver_ok (v : VirtioPci) (w : W) : W :=
  vw 1 v 20 (Z.lor (Z.lor (Z.lor S_ACK S_DRIVER) S_FEATURES_OK) S_DRIVER_OK) w.
End Cfg.

(** * uart.rs *)

Definition UART : u64 := 0x09000000.
Definition UARTFR : u64 := 0x09000018.
Definition TXFF : u32 := 32.

Section Uart.
Context {W : Type} `{!Bus W}.

(** [while UARTFR.read_volatile() & TXFF != 0 {}] then the byte; [None] while the
    FIFO stays full for [turns] reads. *)
Fixpoint write_byte (turns : nat) (b : u8) (w : W) : option W :=
  match turns with
  | O => None
  | S turns => if negb (Z.land (bus_read 4 UARTFR w) TXFF =? 0) then write_byte turns b (bus_tick w) else Some (bus_write 4 UART b w)
  end.

Fixpoint write_str (turns : nat) (s : list u8) (w : W) : option W :=
  match s with
  | [] => Some w
  | b :: s =>
      w ← (if b =? 10 then write_byte turns 13 w else Some w);
      w ← write_byte turns b w;
      write_str turns s w
  end.
End Uart.

(** * mmu.rs *)

Definition AF : u64 := Z.shiftl 1 10.
Definition VALID_BLOCK : u64 := 1.
Definition VALID_TABLE : u64 := 3.
Definition ATTR_DEV : u64 := Z.shiftl 0 2.
Definition ATTR_MEM : u64 := Z.shiftl 1 2.
Definition SH_ISH : u64 := Z.shiftl 3 8.

Definition map_gb (l1 : list u64) (idx : usize) (pa : u64) (mem : bool) : list u64 :=
  let attr := if mem then Z.lor ATTR_MEM SH_ISH else ATTR_DEV in
  <[Z.to_nat idx := Z.lor (Z.lor (Z.lor pa VALID_BLOCK) attr) AF]> l1.

(** The tables and the translation registers. *)
Record Mmu := { L0 : list u64; L1_LOW : list u64; L1_HIGH : list u64; mair : u64; tcr : u64 }.

Definition table0 : list u64 := replicate 512 0.

(** [a_low], [a_high]: where the two tables lie. *)
Definition enable (a_low a_high : u64) : Mmu :=
  let low := map_gb table0 0 0 false in
  let low := map_gb low 1 0x40000000 true in
  let low := map_gb low 256 0x4000000000 false in
  let high := map_gb table0 0 0x800000000000 false in
  let l0 := <[0%nat := Z.lor a_low VALID_TABLE]> table0 in
  let l0 := <[1%nat := Z.lor a_high VALID_TABLE]> l0 in
  {| L0 := l0; L1_LOW := low; L1_HIGH := high;
     mair := Z.lor 4 (Z.shiftl 0xff 8);
     tcr := Z.lor (Z.lor (Z.lor (Z.lor 24 (Z.shiftl 3 12)) (Z.shiftl 3 10)) (Z.shiftl 3 8)) (Z.shiftl 2 32) |}.

(** The translation these registers select (Arm architecture, 4 KiB granule,
    level 0 first): T0SZ gives the size of the address space, a level-0 entry
    covers 512 GiB and a level-1 block 1 GiB. *)
Definition va_bits (m : Mmu) : Z := 64 - Z.land (tcr m) 63.
Definition block_pa (e va : u64) : option u64 :=
  if Z.land e 3 =? 1 then Some (Z.land e 0xFFFFC0000000 + va mod 2 ^ 30) else None.
Definition translate (m : Mmu) (a_low a_high : u64) (va : u64) : option u64 :=
  if 2 ^ va_bits m <=? va then None else
  let e0 := nth (Z.to_nat (va / 2 ^ 39)) (L0 m) 0 in
  if negb (Z.land e0 3 =? 3) then None else
  let i1 := Z.to_nat ((va / 2 ^ 30) mod 512) in
  let next := Z.land e0 0xFFFFFFFFF000 in
  if next =? a_low then block_pa (nth i1 (L1_LOW m) 0) va
  else if next =? a_high then block_pa (nth i1 (L1_HIGH m) 0) va
  else None.

(** * Properties *)

Definition gb : Z := 2 ^ 30.

Lemma nth_insert_cases (l : list Z) i j x : (i < length l)%nat -> nth j (<[i := x]> l) 0 = if decide (j = i) then x else nth j l 0.
Proof.
  intros Hi. rewrite !nth_lookup. destruct (decide (j = i)) as [->|].
  - by rewrite list_lookup_insert_eq.
  - by rewrite list_lookup_insert_ne.
Qed.

Lemma nth_table0 j : nth j table0 0 = 0.
Proof. rewrite nth_lookup. destruct (table0 !! j) eqn:E; [|done]. by apply lookup_replicate in E as [-> _]. Qed.

(** Where a page-aligned table address survives the descriptor bits. *)
Lemma table_entry a : a mod 2 ^ 12 = 0 -> 0 <= a < 2 ^ 48 -> Z.land (Z.lor a VALID_TABLE) 3 = 3 /\ Z.land (Z.lor a VALID_TABLE) 0xFFFFFFFFF000 = a.
Proof.
  intros Ha Hr. split.
  - unfold VALID_TABLE. change 3 with (Z.ones 2). apply Z.bits_inj'. intros i Hi. rewrite Z.land_spec, Z.lor_spec.
    destruct (Z.lt_ge_cases i 2); [by rewrite Z.ones_spec_low, orb_true_r by lia|by rewrite Z.ones_spec_high, andb_false_r by lia].
  - unfold VALID_TABLE. change 0xFFFFFFFFF000 with (Z.shiftl (Z.ones 36) 12). change 3 with (Z.ones 2).
    apply Z.bits_inj'. intros i Hi. rewrite Z.land_spec, Z.lor_spec.
    destruct (Z.lt_ge_cases i 12).
    + rewrite Z.shiftl_spec_low, andb_false_r by lia. symmetry.
      rewrite <- (Z.mod_pow2_bits_low a 12) by lia. by rewrite Ha, Z.bits_0.
    + rewrite Z.shiftl_spec, (Z.ones_spec_high 2), orb_false_r by lia. destruct (Z.lt_ge_cases i 48).
      * by rewrite Z.ones_spec_low, andb_true_r by lia.
      * rewrite Z.ones_spec_high, andb_false_r by lia. symmetry. rewrite <- (Z.mod_small a (2 ^ 48)) by lia.
        apply Z.mod_pow2_bits_high. lia.
Qed.

Lemma low_entry i : nth i (L1_LOW (enable 0 0)) 0 =
  if decide (i = 256%nat) then 0x4000000401 else if decide (i = 1%nat) then 0x40000705 else if decide (i = 0%nat) then 0x401 else 0.
Proof.
  cbn [enable L1_LOW]. unfold map_gb. rewrite !nth_insert_cases by (rewrite ?length_insert; unfold table0; rewrite length_replicate; lia).
  rewrite nth_table0. change (Z.to_nat 256) with 256%nat. change (Z.to_nat 1) with 1%nat. change (Z.to_nat 0) with 0%nat.
  by repeat destruct (decide _).
Qed.

Lemma high_entry i : nth i (L1_HIGH (enable 0 0)) 0 = if decide (i = 0%nat) then 0x800000000401 else 0.
Proof.
  cbn [enable L1_HIGH]. unfold map_gb. rewrite !nth_insert_cases by (unfold table0; rewrite length_replicate; lia).
  rewrite nth_table0. change (Z.to_nat 0) with 0%nat. by repeat destruct (decide _).
Qed.

Lemma l0_entry a b i : nth i (L0 (enable a b)) 0 =
  if decide (i = 1%nat) then Z.lor b VALID_TABLE else if decide (i = 0%nat) then Z.lor a VALID_TABLE else 0.
Proof.
  cbn [enable L0]. rewrite !nth_insert_cases by (rewrite ?length_insert; unfold table0; rewrite length_replicate; lia).
  by rewrite nth_table0.
Qed.

(** The block an address of a 512 GiB half falls in. *)
Lemma block_index va k (c : nat) : 0 <= k -> 2 ^ 39 * k <= va < 2 ^ 39 * (k + 1) -> (c < 512)%nat ->
  Z.to_nat ((va / 2 ^ 30) mod 512) = c <-> 2 ^ 39 * k + gb * Z.of_nat c <= va < 2 ^ 39 * k + gb * (Z.of_nat c + 1).
Proof.
  intros Hk Hva Hc. unfold gb. pose proof (Z.div_mod va (2 ^ 30) ltac:(lia)). pose proof (Z.mod_pos_bound va (2 ^ 30) ltac:(lia)).
  set (x := va / 2 ^ 30) in *. assert (x mod 512 = x - 512 * k) as ->.
  { rewrite (Zmod_unique_full x 512 k (x - 512 * k)); [done| |lia]. left. lia. }
  lia.
Qed.

(** The page tables: the first two gigabytes (devices and RAM) and the gigabyte
    of PCI configuration space are mapped to themselves; the third block, meant
    for the 64-bit window at 2^47, is reached at 2^39 instead, and 2^47 itself,
    like every other address, faults. *)
Theorem mmu_maps a_low a_high va :
  a_low mod 2 ^ 12 = 0 -> a_high mod 2 ^ 12 = 0 -> 0 <= a_low < 2 ^ 48 -> 0 <= a_high < 2 ^ 48 -> a_low <> a_high ->
  0 <= va < 2 ^ 64 ->
  translate (enable a_low a_high) a_low a_high va =
    if va <? 2 * gb then Some va
    else if (0x4000000000 <=? va) && (va <? 0x4000000000 + gb) then Some va
    else if (2 ^ 39 <=? va) && (va <? 2 ^ 39 + gb) then Some (2 ^ 47 + (va - 2 ^ 39))
    else None.
Proof.
  intros Hl Hh Rl Rh Hne Hva. unfold translate. change (va_bits (enable a_low a_high)) with 40. rewrite l0_entry.
  change (L1_LOW (enable a_low a_high)) with (L1_LOW (enable 0 0)). change (L1_HIGH (enable a_low a_high)) with (L1_HIGH (enable 0 0)).
  rewrite low_entry, high_entry. destruct (table_entry a_low Hl Rl) as [El1 El2], (table_entry a_high Hh Rh) as [Eh1 Eh2].
  pose proof (Z.div_mod va (2 ^ 39) ltac:(lia)) as Hdm. pose proof (Z.mod_pos_bound va (2 ^ 39) ltac:(lia)).
  pose proof (Z.div_mod va (2 ^ 30) ltac:(lia)) as Hdb. pose proof (Z.mod_pos_bound va (2 ^ 30) ltac:(lia)).
  unfold gb. destruct (Z.leb_spec (2 ^ 40) va) as [H40|H40].
  { rewrite !(proj2 (Z.ltb_ge _ _)) by lia. by rewrite !andb_false_r. }
  destruct (Z.lt_ge_cases va (2 ^ 39)) as [Hlo|Hhi].
  - replace (va / 2 ^ 39) with 0 by lia. destruct (decide (Z.to_nat 0 = 1%nat)) as [|_]; [done|].
    destruct (decide (Z.to_nat 0 = 0%nat)) as [_|]; [|done]. rewrite El1, El2, !Z.eqb_refl. cbn [negb].
    pose proof (block_index va 0 0 ltac:(lia) ltac:(lia) ltac:(lia)) as B0. pose proof (block_index va 0 1 ltac:(lia) ltac:(lia) ltac:(lia)) as B1.
    pose proof (block_index va 0 256 ltac:(lia) ltac:(lia) ltac:(lia)) as B256. unfold gb in *.
    rewrite (proj2 (Z.leb_gt (2 ^ 39) va)) by lia. cbn [andb].
    repeat destruct (decide _); unfold block_pa; cbn [Z.land Z.eqb].
    + destruct B256 as [B256 _]. specialize (B256 ltac:(done)). rewrite (proj2 (Z.ltb_ge _ _)), (proj2 (Z.leb_le _ _)), (proj2 (Z.ltb_lt _ _)) by lia.
      cbn [andb]. f_equal. change (Z.land _ _) with 0x4000000000. lia.
    + destruct B1 as [B1 _]. specialize (B1 ltac:(done)). rewrite (proj2 (Z.ltb_lt _ _)) by lia. f_equal. change (Z.land _ _) with 0x40000000. lia.
    + destruct B0 as [B0 _]. specialize (B0 ltac:(done)). rewrite (proj2 (Z.ltb_lt _ _)) by lia. f_equal. change (Z.land _ _) with 0. lia.
    + rewrite (proj2 (Z.ltb_ge _ _)) by lia. destruct (Z.leb_spec 0x4000000000 va), (Z.ltb_spec va (0x4000000000 + 2 ^ 30)); try done; lia.
  - replace (va / 2 ^ 39) with 1 by lia. destruct (decide (Z.to_nat 1 = 1%nat)) as [_|]; [|done].
    rewrite Eh1, Eh2, Z.eqb_refl. cbn [negb]. rewrite (proj2 (Z.eqb_neq a_high a_low)) by done. rewrite Z.eqb_refl.
    pose proof (block_index va 1 0 ltac:(lia) ltac:(lia) ltac:(lia)) as B0. unfold gb in *.
    rewrite (proj2 (Z.ltb_ge va (2 * _))), (proj2 (Z.ltb_ge va (0x4000000000 + _))), andb_false_r by lia.
    rewrite (proj2 (Z.leb_le (2 ^ 39) va)) by lia. cbn [andb].
    destruct (decide _); unfold block_pa; cbn [Z.land Z.eqb].
    + rewrite (proj2 (Z.ltb_lt _ _)) by lia. f_equal. change (Z.land _ _) with 0x800000000000. lia.
    + by rewrite (proj2 (Z.ltb_ge _ _)) by lia.
Qed.

Lemma mmu_maps_witness : translate (enable 0x40001000 0x40002000) 0x40001000 0x40002000 0x800000000000 = None.
Proof. apply (mmu_maps 0x40001000 0x40002000 0x800000000000); by_compute. Defined.

(** ** BARs *)

Section Bars.
Context {W : Type} `{!Bus W}.

Lemma alloc_mmio_ok p size is_64 base p' :
  0x1000 <= size -> 0 <= next_mmio32 p ->
  alloc_mmio p size is_64 = Some (base, p') ->
  next_mmio32 p <= base /\ next_mmio32 p' = base + size /\ next_mmio32 p' <= MMIO32_END /\
  bar_cache p' = bar_cache p /\ (forall k, 0 <= k -> size = 2 ^ k -> base mod size = 0).
Proof.
  intros Hs Hn. unfold alloc_mmio, align_up. rewrite Z.max_l by lia.
  rewrite (proj2 (Z.leb_gt size 1)) by lia. unfold checked_add.
  destruct (Z.ltb_spec (next_mmio32 p + size) (2 ^ 64)) as [Hlt|]; [|done]. cbn [base.mbind option_bind].
  destruct (align_to_any (next_mmio32 p) size) as [A1 A2]; [lia..|].
  destruct (Z.ltb_spec MMIO32_END (sat_add 64 (align_to (next_mmio32 p) size) size)) as [|Hle]; [done|].
  intros [= <- <-]. unfold sat_add, MMIO32_END in *. cbn [next_mmio32 bar_cache]. split_and!; try done; [lia..|].
  intros k Hk ->. assert (k <= 63) as Hk63.
  { destruct (Z.le_gt_cases k 63); [done|]. pose proof (Z.pow_le_mono_r 2 64 k). lia. }
  by destruct (align_to_pow2 (next_mmio32 p) k) as [_ B2]; [lia..|].
Qed.

(** Whatever the device answers, the size it is given is a page at least. *)
Lemma probe_size_page d bar is_64 w size w1 : probe_size d bar is_64 w = Some (size, w1) -> 0x1000 <= size.
Proof.
  unfold probe_size, at_least_page. cbv zeta. destruct is_64; [destruct (5 <=? bar); [done|]|];
    destruct (_ =? 0); intros [= <- _]; lia.
Qed.

Lemma cached_in_fill d bar c l : cached_in d bar l = None -> cache_hit d bar c = true -> None ∈ l ->
  cached_in d bar (fill_slot c l) = Some (bc_base c).
Proof.
  intros Hn Hc. induction l as [|[x|] l IH]; intros Hin; [by apply elem_of_nil in Hin| |].
  - cbn in *. destruct (cache_hit d bar x); [done|]. apply IH; [done|]. by apply elem_of_cons in Hin as [?|].
  - cbn. by rewrite Hc.
Qed.


(** What [map_bar] mapped: the windows so far, by base and size. *)
Inductive bar_step : Pci * list (u64 * u64) -> Pci * list (u64 * u64) -> Prop :=
| bar_map p l d bar w size w1 base p' w' :
    cached p d bar = None -> map_bar p d bar w = Some (Some base, p', w') ->
    probe_size d bar (Z.land (cfg_read32 (pd_bus d) (pd_dev d) (pd_func d) (0x10 + bar * 4) w) 6 =? 4) w = Some (size, w1) ->
    bar_step (p, l) (p', (base, size) :: l)
| bar_again p l d bar w r p' w' :
    (cached p d bar <> None \/ r = None) -> map_bar p d bar w = Some (r, p', w') -> bar_step (p, l) (p', l).

Lemma cached_in_fill_miss d bar c l : cache_hit d bar c = false -> cached_in d bar (fill_slot c l) = cached_in d bar l.
Proof.
  intros Hc. induction l as [|[x|] l IH]; [done| |].
  - cbn. destruct (cache_hit d bar x); [done|exact IH].
  - cbn. by rewrite Hc.
Qed.

Definition cache_entries (l : list (option BarCache)) : list BarCache := omap id l.

Lemma cache_entries_fill c l x : x ∈ cache_entries (fill_slot c l) -> x = c \/ x ∈ cache_entries l.
Proof.
  induction l as [|[y|] l IH]; cbn; [tauto| |].
  - rewrite !elem_of_cons. intros [->|H]; [tauto|]. destruct (IH H); tauto.
  - rewrite elem_of_cons. tauto.
Qed.

Lemma cached_entry d bar l b : cached_in d bar l = Some b -> exists c, c ∈ cache_entries l /\ bc_base c = b.
Proof.
  induction l as [|[y|] l IH]; cbn; [done| |exact IH]. destruct (cache_hit d bar y).
  - intros [= <-]. exists y. split; [by apply elem_of_cons; left|done].
  - intros H. destruct (IH H) as (c & Hc & E). exists c. split; [by apply elem_of_cons; right|done].
Qed.

(** A new window: what was allocated, and what is remembered. *)
Lemma map_bar_fresh p d bar w base p' w' : cached p d bar = None -> map_bar p d bar w = Some (Some base, p', w') ->
  exists size w1 p1, probe_size d bar (Z.land (cfg_read32 (pd_bus d) (pd_dev d) (pd_func d) (0x10 + bar * 4) w) 6 =? 4) w = Some (size, w1) /\
    alloc_mmio p size (Z.land (cfg_read32 (pd_bus d) (pd_dev d) (pd_func d) (0x10 + bar * 4) w) 6 =? 4) = Some (base, p1) /\
    p' = if Z.land (cfg_read32 (pd_bus d) (pd_dev d) (pd_func d) (0x10 + bar * 4) w) 6 =? 4
         then remember (remember p1 d bar base) d (bar + 1) base else remember p1 d bar base.
Proof.
  intros Hc. unfold map_bar. rewrite Hc. cbv zeta. destruct (negb _); [done|].
  destruct (probe_size _ _ _ _) as [[size w1]|]; [|done]. cbn [base.mbind option_bind].
  destruct (alloc_mmio _ _ _) as [[b p1]|] eqn:Ea; [|done]. cbn [base.mbind option_bind].
  destruct (_ =? 4) eqn:E4; intros [= <- <- <-]; exists size, w1, p1; by rewrite Ea.
Qed.

Record bars_ok (p : Pci) (l : list (u64 * u64)) : Prop := {
  bo_next : MMIO32_BASE <= next_mmio32 p <= MMIO32_END;
  bo_in : Forall (fun b => MMIO32_BASE <= b.1 /\ 0x1000 <= b.2 /\ b.1 + b.2 <= next_mmio32 p) l;
  bo_aligned : Forall (fun b => forall k, 0 <= k -> b.2 = 2 ^ k -> b.1 mod b.2 = 0) l;
  bo_apart : StronglySorted (fun b c => c.1 + c.2 <= b.1) l;
  bo_cache : forall c, c ∈ cache_entries (bar_cache p) -> exists size, (bc_base c, size) ∈ l }.

Lemma bar_step_ok s s' : bar_step s s' -> bars_ok s.1 s.2 -> bars_ok s'.1 s'.2.
Proof.
  destruct 1 as [p l d bar w size w1 base p' w' Hc Hm Hp|p l d bar w r p' w' Hr Hm]; intros [B1 B2 B2' B3 B4]; cbn in *.
  - destruct (map_bar_fresh _ _ _ _ _ _ _ Hc Hm) as (size' & w2 & p1 & Hp' & Ha & E). rewrite Hp in Hp'. injection Hp' as <- <-.
    apply probe_size_page in Hp. unfold MMIO32_BASE, MMIO32_END in *.
    destruct (alloc_mmio_ok p size _ base p1 Hp ltac:(lia) Ha) as (A1 & A3 & A4 & A5 & A2). unfold MMIO32_END in *.
    assert (next_mmio32 p' = base + size) as En by (rewrite E; by destruct (_ =? 4)).
    assert (forall c, c ∈ cache_entries (bar_cache p') -> bc_base c = base \/ c ∈ cache_entries (bar_cache p)) as Ec.
    { intros c. rewrite E, <- A5. destruct (_ =? 4); cbn; intros H; apply cache_entries_fill in H as [->|H]; [by left| |by left|by right].
      apply cache_entries_fill in H as [->|H]; [by left|by right]. }
    split; cbn; rewrite ?En; unfold MMIO32_BASE, MMIO32_END.
    + lia.
    + constructor; [cbn; lia|]. eapply list.Forall_impl; [exact B2|]. intros b (? & ? & ?). lia.
    + by constructor.
    + constructor; [done|]. eapply list.Forall_impl; [exact B2|]. intros b (? & ? & ?). cbn. lia.
    + intros c Hc'. destruct (Ec c Hc') as [->|H]; [exists size; by apply elem_of_cons; left|].
      destruct (B4 c H) as (sz & ?). exists sz. by apply elem_of_cons; right.
  - assert (p' = p) as ->; [|done]. unfold map_bar in Hm. destruct (cached p d bar) as [b|]; [by injection Hm as _ -> _|].
    destruct Hr as [Hr| ->]; [done|]. cbv zeta in Hm. destruct (negb _); [by injection Hm as -> _|].
    destruct (probe_size _ _ _ _) as [[]|]; [|done]. cbn in Hm. destruct (alloc_mmio _ _ _) as [[]|]; [|done]. cbn in Hm.
    by destruct (_ =? 4).
Qed.

(** C27. Device windows: whatever BARs are mapped, in whatever order and whatever
    the devices answer when they are sized, the windows lie apart inside the
    32-bit MMIO window, each at least a page; a window whose size is a power of
    two, as PCI wants of a BAR, is aligned to it (for another size nothing is
    said of the alignment); a remembered BAR is one of the windows; and a BAR
    mapped while the cache has room is given again without touching the device. *)
Theorem bars_apart p l :
  rtc bar_step (Pci_init, []) (p, l) ->
  bars_ok p l /\
  (forall d bar b, cached p d bar = Some b -> exists size, (b, size) ∈ l) /\
  (forall d bar w base p' w', cached p d bar = None -> None ∈ bar_cache p -> map_bar p d bar w = Some (Some base, p', w') ->
     forall w2, map_bar p' d bar w2 = Some (Some base, p', w2)).
Proof.
  intros Hr. assert (bars_ok p l) as B.
  { assert (bars_ok (Pci_init, @nil (u64 * u64)).1 (Pci_init, @nil (u64 * u64)).2) as H0.
    { split; [by_compute|constructor..|]. intros c. change (cache_entries (bar_cache Pci_init)) with (@nil BarCache).
      intros H. by apply elem_of_nil in H. }
    change (bars_ok (p, l).1 (p, l).2). revert H0. generalize dependent (Pci_init, @nil (u64 * u64)). generalize (p, l). intros s' s Hr.
    induction Hr as [|s1 s2 s3 Hs Hr IH]; [done|]. intros H0. apply IH. by eapply bar_step_ok. }
  split_and!; [done| |].
  - intros d bar b Hc. apply cached_entry in Hc as (c & Hc & <-). by apply (bo_cache _ _ B).
  - intros d bar w base p' w' Hc Hn Hm w2. destruct (map_bar_fresh _ _ _ _ _ _ _ Hc Hm) as (size & w1 & p1 & _ & Ha & E).
    assert (bar_cache p1 = bar_cache p) as Eb.
    { unfold alloc_mmio in Ha. destruct (align_up _ _) as [x|]; [|done]. cbn in Ha. destruct (MMIO32_END <? _); [done|]. by injection Ha as _ <-. }
    assert (cached_in d bar (fill_slot {| bc_bus := pd_bus d; bc_dev := pd_dev d; bc_func := pd_func d; bc_bar := bar; bc_base := base |}
      (bar_cache p)) = Some base) as Hhit.
    { rewrite cached_in_fill; [done|done| |done]. unfold cache_hit. cbn. by rewrite !Z.eqb_refl. }
    assert (cached p' d bar = Some base) as Hc'; [|unfold map_bar; by rewrite Hc'].
    unfold cached. rewrite E. destruct (_ =? 4); cbn; rewrite Eb; [|done]. rewrite cached_in_fill_miss; [done|].
    unfold cache_hit. cbn. rewrite !Z.eqb_refl. cbn. apply Z.eqb_neq. lia.
Qed.
End Bars.

(** A bus of one device whose BAR 0 is 64 bits wide with 16 KiB: a write of ones
    makes the BAR read back its size. *)
Module BusSample.
Definition state := bool.
#[global] Instance bus : Bus state := {|
  bus_read := fun _ a (w : bool) => if a =? ECAM + 0x10 then (if w then 0xffffc004 else 4) else if a =? ECAM + 0x14 then (if w then 0xffffffff else 0) else 0;
  bus_write := fun _ a v (w : bool) => if a =? ECAM + 0x10 then (v =? 0xffffffff) else w;
  bus_tick := fun w => w |}.
Definition dev : PciDev := {| pd_bus := 0; pd_dev := 0; pd_func := 0; pd_device_id := DEV_RNG |}.
Definition after : Pci := match map_bar Pci_init dev 0 false with Some (_, p, _) => p | None => Pci_init end.
End BusSample.

Lemma bars_apart_witness : bars_ok BusSample.after [(0x10000000, 0x4000)].
Proof.
  apply (bars_apart (W := BusSample.state) BusSample.after [(0x10000000, 0x4000)]).
  apply rtc_once.
  apply (bar_map (W := BusSample.state) Pci_init [] BusSample.dev 0 false 0x4000 true 0x10000000 BusSample.after false);
    [reflexivity|reflexivity|reflexivity].
Defined.
