(* ===== verification/Boot.v ===== *)
(** How the guest comes up: [rust_main] and [run]
    (src/guest/rustee-guest/src/main.rs) from the page tables to the vsock loop.
    The drivers of [Pci] and [Virtq] bring up virtio-rng and virtio-vsock, the
    kernel of [Kernel] is made on the virt HAL of [HalVirt], and its notices go to
    the console before the host can reach the guest.

    The hardware is any [Bus]; [traced_bus] records the writes, in order, next to
    it.  Memory the allocator and the linker choose is the record [BootMem]. *)
From Stdlib Require Import ZArith Lia String.
From stdpp Require Import base list numbers.
From S2P Require Import KernelProps.
From S2P Require Import Prelude Alloc Virtq Pci Proto Abi Header Iface Tables Elf Kernel HalVirt ProtoCmd Guest.

Local Open Scope Z_scope.
Local Open Scope rust_scope.

Definition VIRTIO_PCI_DEVICE_RNG : u16 := 0x1044.
Definition VIRTIO_PCI_DEVICE_VSOCK : u16 := 0x1053.

(** The level-1 tables, the heap, the queues, the bounce pool and the buffers. *)
Record BootMem := {
  m_l1_low : u64; m_l1_high : u64; m_heap_start : usize; m_heap_end : usize;
  m_rng_q : u64; m_rng_buf : u64; m_pool : u64;
  m_rx_q : u64; m_tx_q : u64; m_ev_q : u64; m_rxbuf : u64; m_evbuf : u64 }.

(** [heap_end.saturating_sub(heap_start)] *)
Definition heap_of (m : BootMem) : option Bump := Bump_init (m_heap_start m) (Z.max 0 (m_heap_end m - m_heap_start m)).

(** [VirtHal::boot_notices]: this crate's texts, not those of the kernel. *)
Definition boot_notices : list u8 * list u8 :=
  (str "RUSTEE virt entropy is ReeHost (virtio-rng / host), not Isolated",
   str "RUSTEE virt HUK is a compile-time test key, not a product HUK").

Section Boot.
Context {W : Type} `{!Bus W}.

(** [writeln!(uart, ..)] *)
Definition say (turns : nat) (line : list u8) (w : W) : option W := write_str turns (line ++ [10]) w.

(** [add_in] and the notification it ends with. *)
Definition add_in_at (na : u64) (v : Virtq) (buf : u64) (len : u32) (w : W) : Virtq * W :=
  (add_in v buf len 0, bus_write 2 na (qidx v) w).

(** virtio-rng; [dev]: what the device does to the queue between two polls. *)
Definition rng_up (turns : nat) (m : BootMem) (dev : nat -> SplitQ -> SplitQ) (p : Pci) (w : W) : option (Pci * W) :=
  d ← (match find VIRTIO_PCI_DEVICE_RNG w with Some d => Some d | None => find 0x1005 w end);
  w ← say turns (str "rng-pci") w;
  '(ov, p, w) ← probe p d w;
  v ← ov;
  w ← say turns (str "rng-probe") w;
  w ← reset_and_ack v w;
  w ← say turns (str "rng-features") w;
  '(rq, na, w) ← setup_queue v 0 (m_rng_q m) w;
  let w := driver_ok v w in
  w ← say turns (str "rng-driver-ok") w;
  let w := bus_write 2 na (qidx rq) w in
  _ ← rng_fill dev rq (m_rng_buf m) 64;
  w ← say turns (str "rng-entropy") w;
  Some (p, w).

(** The receive, transmit and event queues of virtio-vsock. *)
Record Queues := { q_rx : Virtq; q_tx : Virtq; q_ev : Virtq }.

Definition vsock_up (turns : nat) (m : BootMem) (p : Pci) (w : W) : option (Queues * Pci * W) :=
  d ← find VIRTIO_PCI_DEVICE_VSOCK w;
  w ← say turns (str "vsock-pci") w;
  '(ov, p, w) ← probe p d w;
  v ← ov;
  w ← say turns (str "vsock-probe") w;
  w ← reset_and_ack v w;
  '(rx, na_rx, w) ← setup_queue v 0 (m_rx_q m) w;
  '(tx, _, w) ← setup_queue v 1 (m_tx_q m) w;
  '(ev, na_ev, w) ← setup_queue v 2 (m_ev_q m) w;
  let w := driver_ok v w in
  w ← say turns (str "vsock-driver-ok") w;
  let '(rx, w) := add_in_at na_rx rx (m_rxbuf m) 4096 w in
  let '(ev, w) := add_in_at na_ev ev (m_evbuf m) 8 w in
  w ← say turns (str "listen 3 : 7007") w;
  Some ({| q_rx := rx; q_tx := tx; q_ev := ev |}, p, w).

Context {PTA : Type} `{!CryptoProvider} `{!PtaOps PTA} `{!TaCode VirtHal}.
Context (image_addr : list (list u8) -> u64).
#[local] Instance boot_hal : HalOps VirtHal VirtAs := virt_hal image_addr.

(** The console takes both notices: its [write_str] never fails. *)
Definition uart : Writer := {| written := []; lines_left := 2 |}.

(** What [vsock_loop] starts with. *)
Record Booted := {
  b_mmu : Mmu; b_heap : Bump; b_guest : GuestState (PTA:=PTA); b_queues : Queues; b_pci : Pci; b_world : W }.

Definition run (turns : nat) (m : BootMem) (h : VirtHal) (p : Pci) (w : W) : option (GuestState * Queues * Pci * W) :=
  if bool_decide (vsock_bound h <> Some (VSOCK_GUEST_CID, VSOCK_PORT)) then None else
  let k : Kernel VirtHal VirtAs PTA := Kernel_new h in
  w ← say turns (str "kernel") w;
  let '(_, out, k) := emit_ree_notices k uart (Some boot_notices) in
  w ← write_str turns (written out) w;
  '(qs, p, w) ← vsock_up turns m p w;
  Some ({| gk := k; waiting := None; tx := [] |}, qs, p, w).

(** [buf]: the 64 bytes virtio-rng delivered. *)
Definition rust_main (turns : nat) (m : BootMem) (dev : nat -> SplitQ -> SplitQ) (buf : list u8) (w : W) : option Booted :=
  let mmu := enable (m_l1_low m) (m_l1_high m) in
  heap ← heap_of m;
  w ← say turns (str "RUSTEE guest EL1") w;
  '(p, w) ← rng_up turns m dev Pci_init w;
  let h := feed_rng (VirtHal_init (m_pool m)) buf in
  '(g, qs, p, w) ← run turns m h p w;
  Some {| b_mmu := mmu; b_heap := heap; b_guest := g; b_queues := qs; b_pci := p; b_world := w |}.
End Boot.

(** * The log of writes *)

(** Size, address and value. *)
Abbreviation Wr := (Z * Z * Z)%type.

(** One step of an option computation that gave a result. *)
Tactic Notation "bind_step" hyp(H) "as" simple_intropattern(x) ident(E) := apply bind_Some in H as (x & E & H).

Section Trace.
Context {W : Type} `{!Bus W}.

#[global] Instance traced_bus : Bus (W * list Wr) := {|
  bus_read := fun n a w => bus_read n a w.1;
  bus_write := fun n a v w => (bus_write n a v w.1, w.2 ++ [(n, a, v)]);
  bus_tick := fun w => (bus_tick w.1, w.2) |}.

Implicit Types w : W * list Wr.

(** The bytes of a text as the console sends them. *)
Definition crlf (s : list u8) : list u8 := concat (map (fun b => if b =? 10 then [13; 10] else [b]) s).
Definition console (s : list u8) : list Wr := map (fun b => (4, UART, b)) (crlf s).
Definition line (s : string) : list Wr := console (str s ++ [10]).

Lemma write_byte_log turns b w w' : write_byte turns b w = Some w' -> w'.2 = w.2 ++ [(4, UART, b)].
Proof.
  revert w. induction turns as [|n IH]; intros w; cbn [write_byte]; [done|]. destruct (negb _).
  - intros H. by apply IH in H.
  - intros H. by injection H as <-.
Qed.

Lemma write_str_log turns s w w' : write_str turns s w = Some w' -> w'.2 = w.2 ++ console s.
Proof.
  revert w. induction s as [|b s IH]; intros w; cbn [write_str]; [intros [= ->]; by rewrite app_nil_r|].
  unfold console, crlf in *. cbn [map concat]. rewrite map_app, app_assoc.
  destruct (b =? 10) eqn:Eb; cbn [base.mbind option_bind].
  - apply Z.eqb_eq in Eb as ->. destruct (write_byte turns 13 w) as [w1|] eqn:E1; [|done]. cbn [base.mbind option_bind].
    destruct (write_byte turns 10 w1) as [w2|] eqn:E2; [|done]. cbn [base.mbind option_bind]. intros H. apply IH in H.
    apply write_byte_log in E1, E2. rewrite H, E2, E1. cbn [map]. by rewrite <- !app_assoc.
  - destruct (write_byte turns b w) as [w2|] eqn:E2; [|done]. cbn [base.mbind option_bind]. intros H. apply IH in H.
    apply write_byte_log in E2. by rewrite H, E2.
Qed.

(** A write to the configuration space of a function of the bus. *)
Definition in_config (d : PciDev) (x : Wr) : Prop :=
  let '(_, a, _) := x in cfg_ptr (pd_bus d) (pd_dev d) (pd_func d) 0 <= a < cfg_ptr (pd_bus d) (pd_dev d) (pd_func d) 0 + 0x1000.

(** [w'] is [w] after writes to the configuration space of [d] only. *)
Definition configures (d : PciDev) w w' : Prop := exists l, w'.2 = w.2 ++ l /\ Forall (in_config d) l.

Lemma configures_refl d w : configures d w w.
Proof. exists []. by rewrite app_nil_r. Qed.

Lemma configures_trans d w1 w2 w3 : configures d w1 w2 -> configures d w2 w3 -> configures d w1 w3.
Proof. intros (l1 & E1 & F1) (l2 & E2 & F2). exists (l1 ++ l2). rewrite E2, E1, app_assoc. split; [done|]. by apply Forall_app. Qed.

(** Writes made one after the other, each in the configuration space. *)
Ltac by_config :=
  eexists; split;
  [cbn [snd]; rewrite <- ?app_assoc; reflexivity|repeat (constructor; [unfold in_config, cfg_ptr; lia|]); constructor].

Lemma probe_size_log d bar is_64 w size w' : 0 <= bar < 256 -> probe_size d bar is_64 w = Some (size, w') -> configures d w w'.
Proof.
  intros Hb. unfold probe_size. cbv zeta. destruct is_64; [destruct (5 <=? bar); [done|]|]; intros [= _ <-]; by_config.
Qed.

Lemma map_bar_log p d bar w r p' w' : 0 <= bar < 256 -> map_bar p d bar w = Some (r, p', w') -> configures d w w'.
Proof.
  intros Hb. unfold map_bar. destruct (cached p d bar); [intros [= _ _ <-]; apply configures_refl|]. cbv zeta.
  destruct (negb _); [intros [= _ _ <-]; apply configures_refl|].
  destruct (probe_size _ _ _ _) as [[size w1]|] eqn:Ep; [|done]. cbn [base.mbind option_bind].
  apply probe_size_log in Ep; [|done]. destruct (alloc_mmio _ _ _) as [[base p1]|]; [|done]. cbn [base.mbind option_bind].
  unfold enable_mem_busmaster.
  destruct (_ =? 4); intros [= _ _ <-]; (eapply configures_trans; [exact Ep|]); by_config.
Qed.

Lemma byte_bound x : 0 <= Z.land x 0xff < 256.
Proof. change 0xff with (Z.ones 8). rewrite Z.land_ones by lia. apply Z.mod_pos_bound. lia. Qed.

Lemma probe_loop_log fuel d cap p v w r p' w' : probe_loop fuel d cap p v w = Some (r, p', w') -> configures d w w'.
Proof.
  revert cap p v w. induction fuel as [|n IH]; intros cap p v w; cbn [probe_loop]; [intros [= _ _ <-]; apply configures_refl|].
  destruct (cap =? 0); [intros [= _ _ <-]; apply configures_refl|]. destruct (negb _); [apply IH|].
  unfold cap_at. cbv beta iota zeta. destruct (negb _); [apply IH|].
  destruct (map_bar _ _ _ _) as [[[b p1] w1]|] eqn:Em; [|done]. cbn [base.mbind option_bind].
  apply map_bar_log in Em; [|apply byte_bound]. destruct b as [base|].
  - destruct (checked_add 64 base _) as [a|]; [|done]. cbn [base.mbind option_bind]. intros H. by eapply configures_trans, IH.
  - intros H. by eapply configures_trans, IH.
Qed.

Lemma probe_log p d w r p' w' : probe p d w = Some (r, p', w') -> configures d w w'.
Proof.
  unfold probe. destruct (probe_loop _ _ _ _ _ _) as [[[v p1] w1]|] eqn:E; [|done]. cbn [base.mbind option_bind].
  intros [= _ _ <-]. by eapply probe_loop_log.
Qed.

(** A write to the common configuration of a device. *)
Definition reg (n : Z) (v : VirtioPci) (off x : Z) : Wr := (n, common v + off, x).

(** Reset, ACKNOWLEDGE and DRIVER, the feature words (VERSION_1 alone), FEATURES_OK. *)
Definition reset_regs (v : VirtioPci) : list Wr :=
  [reg 1 v 20 0; reg 1 v 20 3; reg 4 v 8 0; reg 4 v 12 0; reg 4 v 8 1; reg 4 v 12 1; reg 1 v 20 11].
(** Select, size, no vector, the three rings, enable. *)
Definition queue_regs (v : VirtioPci) (idx : u16) (pa : u64) : list Wr :=
  [reg 2 v 22 idx; reg 2 v 24 16; reg 2 v 26 0xffff; reg 8 v 32 pa; reg 8 v 40 (pa + 256); reg 8 v 48 (pa + 296); reg 2 v 28 1].
Definition ok_regs (v : VirtioPci) : list Wr := [reg 1 v 20 15].

Lemma await_reset_log turns v w : (await_reset turns v w).2 = w.2.
Proof. revert w. induction turns as [|n IH]; intros w; cbn [await_reset]; [done|]. destruct (_ =? 0); [done|]. by rewrite IH. Qed.

Lemma reset_log v w w' : reset_and_ack v w = Some w' -> w'.2 = w.2 ++ reset_regs v.
Proof.
  unfold reset_and_ack. cbv zeta. generalize (Z.to_nat 100000). intros turns.
  pose proof (await_reset_log turns v (vw 1 v 20 0 w)) as Ha.
  change (vw 1 v 20 0 w).2 with (w.2 ++ [reg 1 v 20 0]) in Ha. generalize dependent (await_reset turns v (vw 1 v 20 0 w)).
  intros w1 Ha. destruct (_ =? 0); [done|]. intros [= <-]. cbn [snd]. rewrite Ha. by rewrite <- !app_assoc.
Qed.

Lemma setup_log v idx pa w vq na w' : setup_queue v idx pa w = Some (vq, na, w') ->
  vq = Virtq_new idx /\ w'.2 = w.2 ++ queue_regs v idx pa.
Proof.
  unfold setup_queue. cbv zeta. destruct (_ =? 0); [done|]. destruct (_ <? _); [|done]. cbn [base.mbind option_bind].
  intros [= <- _ <-]. split; [done|]. cbn [snd]. by rewrite <- !app_assoc.
Qed.

Lemma driver_ok_log v w : (driver_ok v w).2 = w.2 ++ ok_regs v.
Proof. done. Qed.

Lemma say_log turns s w w' : say turns (str s) w = Some w' -> w'.2 = w.2 ++ line s.
Proof. apply write_str_log. Qed.

Lemma find_id id w d : find id w = Some d -> pd_device_id d = id /\ pd_bus d = 0 /\ pd_func d = 0 /\ 0 <= pd_dev d < 32.
Proof.
  unfold find. assert (Forall (fun x => 0 <= x < 32) (seqZ 0 32)) as Hs.
  { apply Forall_forall. intros x Hx. apply list_elem_of_In, elem_of_seqZ in Hx. lia. }
  revert Hs. induction (seqZ 0 32) as [|x l IH]; intros Hs; cbn [find_loop]; [done|]. apply list.Forall_cons_1 in Hs as [Hx Hs].
  destruct (find_at id w x) as [d'|] eqn:E; [|by apply IH]. intros [= <-]. unfold find_at in E. destruct (_ =? _); [done|].
  destruct (_ && _); [|done]. by injection E as <-.
Qed.

(** A function found on bus 0 under one of the ids. *)
Definition found (ids : list u16) (d : PciDev) : Prop :=
  In (pd_device_id d) ids /\ pd_bus d = 0 /\ pd_func d = 0 /\ 0 <= pd_dev d < 32.

(** What bringing up virtio-rng writes. *)
Lemma rng_up_log turns m dev p w p' w' : rng_up turns m dev p w = Some (p', w') ->
  exists d v na c, found [0x1044; 0x1005] d /\ Forall (in_config d) c /\
    w'.2 = w.2 ++ line "rng-pci" ++ c ++ line "rng-probe" ++ reset_regs v ++ line "rng-features" ++
      queue_regs v 0 (m_rng_q m) ++ ok_regs v ++ line "rng-driver-ok" ++ [(2, na, 0)] ++ line "rng-entropy".
Proof.
  unfold rng_up. intros H. bind_step H as d Ed. bind_step H as w1 E1. apply say_log in E1.
  bind_step H as [[ov p1] w2] E2. apply probe_log in E2 as (c & E2 & Hc).
  bind_step H as v Ev. bind_step H as w3 E3. apply say_log in E3. bind_step H as w4 E4. apply reset_log in E4.
  bind_step H as w5 E5. apply say_log in E5. bind_step H as [[rq na] w6] E6. apply setup_log in E6 as [-> E6].
  bind_step H as w7 E7. apply say_log in E7. rewrite driver_ok_log in E7. bind_step H as vq E8. bind_step H as w8 E9. apply say_log in E9.
  injection H as _ <-. exists d, v, na, c. split_and!; [|done|].
  - destruct (find VIRTIO_PCI_DEVICE_RNG w) as [d'|] eqn:Ef; [injection Ed as ->; apply find_id in Ef|apply find_id in Ed];
      unfold found; destruct_and!; split_and!; try done; [by left|right; by left].
  - rewrite E9. cbn [bus_write traced_bus snd qidx Virtq_new]. rewrite E7, E6, E5, E4, E3, E2, E1. by rewrite <- !app_assoc.
Qed.

(** What bringing up virtio-vsock writes, and the queues it leaves. *)
Lemma vsock_up_log turns m p w qs p' w' : vsock_up turns m p w = Some (qs, p', w') ->
  qs = {| q_rx := add_in (Virtq_new 0) (m_rxbuf m) 4096 0; q_tx := Virtq_new 1; q_ev := add_in (Virtq_new 2) (m_evbuf m) 8 0 |} /\
  exists d v nrx nev c, found [0x1053] d /\ Forall (in_config d) c /\
    w'.2 = w.2 ++ line "vsock-pci" ++ c ++ line "vsock-probe" ++ reset_regs v ++
      queue_regs v 0 (m_rx_q m) ++ queue_regs v 1 (m_tx_q m) ++ queue_regs v 2 (m_ev_q m) ++ ok_regs v ++
      line "vsock-driver-ok" ++ [(2, nrx, 0); (2, nev, 2)] ++ line "listen 3 : 7007".
Proof.
  unfold vsock_up. intros H. bind_step H as d Ed. bind_step H as w1 E1. apply say_log in E1.
  bind_step H as [[ov p1] w2] E2. apply probe_log in E2 as (c & E2 & Hc).
  bind_step H as v Ev. bind_step H as w3 E3. apply say_log in E3. bind_step H as w4 E4. apply reset_log in E4.
  bind_step H as [[rx nrx] w5] E5. apply setup_log in E5 as [-> E5]. bind_step H as [[txq ntx] w6] E6. apply setup_log in E6 as [-> E6].
  bind_step H as [[ev nev] w7] E7. apply setup_log in E7 as [-> E7].
  bind_step H as w8 E8. apply say_log in E8. rewrite driver_ok_log in E8. unfold add_in_at in H. bind_step H as w9 E9. apply say_log in E9.
  injection H as <- _ <-. split; [done|]. exists d, v, nrx, nev, c. split_and!; [|done|].
  - apply find_id in Ed. unfold found. destruct_and!. split_and!; try done. by left.
  - rewrite E9. cbn [bus_write traced_bus snd qidx Virtq_new]. rewrite E8, E7, E6, E5, E4, E3, E2, E1. by rewrite <- !app_assoc.
Qed.

Context {PTA : Type} `{!CryptoProvider} `{!PtaOps PTA} `{!TaCode VirtHal}.
Context (image_addr : list (list u8) -> u64).
#[local] Instance traced_hal : HalOps VirtHal VirtAs := virt_hal image_addr.

(** The lines of the two notices. *)
Definition notice_text : list u8 := fst boot_notices ++ [10] ++ snd boot_notices ++ [10].

(** The kernel [run] makes, and that its notices are out. *)
Lemma notices_printed h : hal_entropy_origin h = ReeHost ->
  let '(ok, out, k) := emit_ree_notices (Kernel_new h : Kernel VirtHal VirtAs PTA) uart (Some boot_notices) in
  written out = notice_text /\ notices_ok k = true /\ k = KernelProps.boot h uart (Some boot_notices) [] [].
Proof.
  intros Ho. unfold KernelProps.boot. cbn [fold_left]. unfold emit_ree_notices.
  change (entropy_origin (Kernel_new h : Kernel VirtHal VirtAs PTA)) with (hal_entropy_origin h). rewrite Ho.
  rewrite bool_decide_false by (intros Hc; by apply Hc). unfold uart, notice_text. cbn -[boot_notices]. destruct boot_notices as [n0 n1].
  cbn. split_and!; [|done..]. by rewrite <- !app_assoc.
Qed.

(** The steps of [rust_main] on hardware; the guest reaches its loop when they
    succeed. *)
Definition hardware_steps (turns : nat) (m : BootMem) (dev : nat -> SplitQ -> SplitQ) w : option (Bump * (Queues * Pci * (W * list Wr))) :=
  heap ← heap_of m;
  w ← say turns (str "RUSTEE guest EL1") w;
  '(p, w) ← rng_up turns m dev Pci_init w;
  w ← say turns (str "kernel") w;
  w ← write_str turns notice_text w;
  x ← vsock_up turns m p w;
  Some (heap, x).

Lemma rust_main_up turns m dev buf w : is_Some (hardware_steps turns m dev w) ->
  is_Some (rust_main image_addr turns m dev buf w : option (Booted (PTA:=PTA))).
Proof.
  intros [x E]. unfold hardware_steps in E. bind_step E as heap Eh. bind_step E as w1 E1. bind_step E as [p w2] E2. bind_step E as w3 E3.
  bind_step E as w4 E4. bind_step E as [[qs p'] w5] E5. unfold rust_main, run. rewrite Eh. cbn [base.mbind option_bind].
  rewrite E1. cbn [base.mbind option_bind]. rewrite E2. cbn [base.mbind option_bind].
  rewrite bool_decide_false by (intros Hc; by apply Hc). rewrite E3. cbn [base.mbind option_bind].
  pose proof (notices_printed (feed_rng (VirtHal_init (m_pool m)) buf) eq_refl) as Hn.
  unfold boot_hal. fold traced_hal. destruct (emit_ree_notices _ _ _) as [[ok out] k]. destruct Hn as (-> & _ & _).
  rewrite E4. cbn [base.mbind option_bind]. rewrite E5. by eexists.
Qed.

(** C28. The guest comes up in order, whatever the hardware answers.  When
    [rust_main] reaches its loop, everything written to hardware is exactly this
    log: the banner; virtio-rng found, configured in its own configuration space,
    reset, its features and its queue set before DRIVER_OK, one request for
    entropy; then the kernel's two notices, in full, on the console; and only
    after them the first write to virtio-vsock, whose three queues are set before
    DRIVER_OK and whose receive and event buffers are offered after it.  The
    kernel of the loop is the one just made, with its notices given and the bytes
    virtio-rng delivered; no call waits and nothing was sent; the receive queue
    offers one 4096-byte buffer, the event queue one of 8 bytes, the transmit
    queue is empty. *)
Theorem boot_sequence turns m dev buf (w : W) (b : Booted (PTA:=PTA)) :
  rust_main image_addr turns m dev buf (w, []) = Some b ->
  b_guest b = {| gk := KernelProps.boot (feed_rng (VirtHal_init (m_pool m)) buf) uart (Some boot_notices) [] []; waiting := None; tx := [] |} /\
  notices_ok (gk (b_guest b)) = true /\
  b_queues b = {| q_rx := add_in (Virtq_new 0) (m_rxbuf m) 4096 0; q_tx := Virtq_new 1; q_ev := add_in (Virtq_new 2) (m_evbuf m) 8 0 |} /\
  exists rng r nr c1 vs v nrx nev c2,
    found [0x1044; 0x1005] rng /\ Forall (in_config rng) c1 /\ found [0x1053] vs /\ Forall (in_config vs) c2 /\
    (b_world b).2 =
      line "RUSTEE guest EL1" ++ line "rng-pci" ++ c1 ++ line "rng-probe" ++ reset_regs r ++ line "rng-features" ++
      queue_regs r 0 (m_rng_q m) ++ ok_regs r ++ line "rng-driver-ok" ++ [(2, nr, 0)] ++ line "rng-entropy" ++
      line "kernel" ++ console notice_text ++
      line "vsock-pci" ++ c2 ++ line "vsock-probe" ++ reset_regs v ++
      queue_regs v 0 (m_rx_q m) ++ queue_regs v 1 (m_tx_q m) ++ queue_regs v 2 (m_ev_q m) ++ ok_regs v ++
      line "vsock-driver-ok" ++ [(2, nrx, 0); (2, nev, 2)] ++ line "listen 3 : 7007".
Proof.
  unfold rust_main, run. intros Hm. bind_step Hm as heap Eh. bind_step Hm as w1 E1. apply say_log in E1. bind_step Hm as [p1 w2] E2.
  apply rng_up_log in E2 as (rng & r & nr & c1 & Hf1 & Hc1 & E2). bind_step Hm as [[[g qs] p3] w3] E3. injection Hm as <-.
  cbn [b_guest b_queues b_world]. destruct (bool_decide _); [done|]. bind_step E3 as w4 E4. apply say_log in E4.
  pose proof (notices_printed (feed_rng (VirtHal_init (m_pool m)) buf) eq_refl) as Hn.
  unfold boot_hal in E3. fold traced_hal in E3. destruct (emit_ree_notices _ _ _) as [[ok out] k]. destruct Hn as (Hw & Hk & ->).
  bind_step E3 as w5 E5. apply write_str_log in E5. bind_step E3 as [[qs' p4] w6] E6. apply vsock_up_log in E6 as (-> & vs & v & nrx & nev & c2 & Hf2 & Hc2 & E6).
  injection E3 as <- <- _ <-. split_and!; [done|done|done|]. exists rng, r, nr, c1, vs, v, nrx, nev, c2. split_and!; [done..|].
  rewrite E6, E5, E4, E2, E1, Hw. cbn [snd]. by rewrite <- !app_assoc.
Qed.
End Trace.

(** * A machine that boots *)

(** virtio-rng at device 1 and virtio-vsock at device 2, each with two
    capabilities behind a 64-bit BAR of 16 KiB.  A register reads as last
    written; the console is always ready. *)
Module Machine.
Definition regs := list (Z * Z).
Fixpoint reg_at (a : Z) (l : regs) : Z :=
  match l with [] => 0 | (b, v) :: l => if a =? b then v else reg_at a l end.
Definition ids (dev : Z) : Z := if dev =? 1 then 0x10441af4 else if dev =? 2 then 0x10531af4 else 0xffffffff.
Definition cfg_word (dev off : Z) (l : regs) : Z :=
  if off =? 0 then ids dev else if off =? 0x34 then 0x40
  else if off =? 0x10 then Z.lor (Z.land (reg_at (cfg_ptr 0 dev 0 off) l) 0xffffc000) 4
  else if off =? 0x40 then 0x01145409 else if off =? 0x4c then 0x38
  else if off =? 0x54 then 0x02140009 else if off =? 0x5c then 0x1000 else if off =? 0x60 then 0x100 else if off =? 0x64 then 4
  else reg_at (cfg_ptr 0 dev 0 off) l.
#[global] Instance machine : Bus regs := {|
  bus_read := fun _ a l => if ECAM <=? a then cfg_word ((a - ECAM) / 0x8000) ((a - ECAM) mod 0x8000) l else reg_at a l;
  bus_write := fun _ a v l => if a =? UART then l else (a, v) :: l;
  bus_tick := fun l => l |}.

Definition mem : BootMem := {|
  m_l1_low := 0x40001000; m_l1_high := 0x40002000; m_heap_start := 0x40100000; m_heap_end := 0x44000000;
  m_rng_q := 0x40100000; m_rng_buf := 0x400ff000; m_pool := 0x40101000;
  m_rx_q := 0x41200000; m_tx_q := 0x41200200; m_ev_q := 0x41200400; m_rxbuf := 0x41200600; m_evbuf := 0x41201600 |}.
Definition dev (i : nat) (s : SplitQ) : SplitQ := dev_give s 0 64.
Definition entropy64 : list u8 := seqZ 1 64.

Lemma is_Some_bool {A} (o : option A) : (match o with Some _ => true | None => false end) = true -> is_Some o.
Proof. destruct o as [x|]; [by exists x|done]. Qed.

Lemma hardware_up : is_Some (hardware_steps 1 mem dev ([], [])).
Proof. apply is_Some_bool. vm_compute. reflexivity. Qed.

Definition addr_of : list (list u8) -> u64 := fun _ => 0x50000000.
Lemma boots : is_Some (rust_main addr_of 1 mem dev entropy64 ([], []) : option (Booted (W := regs * list Wr) (PTA := unit))).
Proof. exact (rust_main_up addr_of 1 mem dev entropy64 ([], []) hardware_up). Qed.
End Machine.

Lemma boot_sequence_witness : exists b : Booted (W := Machine.regs * list Wr) (PTA := unit),
  rust_main Machine.addr_of 1 Machine.mem Machine.dev Machine.entropy64 ([], []) = Some b /\ notices_ok (gk (b_guest b)) = true.
Proof.
  destruct Machine.boots as [b Hb]. exists b. split; [exact Hb|].
  destruct (boot_sequence Machine.addr_of 1 Machine.mem Machine.dev Machine.entropy64 [] b Hb) as (_ & Hn & _). exact Hn.
Defined.
