(* ===== verification/Hello.v ===== *)
(** The sample TA (src/ta/hello-rs/src/lib.rs) on the runtime's entry points: its
    one command copies a client's buffer into another, and what its header says
    is what it reports at run time. *)
From Stdlib Require Import ZArith Lia String.
From stdpp Require Import base list numbers strings.
From S2P Require Import Prelude Crypto Storage StorageProps Abi Header UteeMem UteeProp Utee.

Local Open Scope Z_scope.
Local Open Scope rust_scope.

Definition echo_shm (p : UParams) (m : list u8) : option (u32 * UParams * list u8) :=
  match copy_memref p m 0 1 with
  | Some (Ok _, p, m) => Some (TEE_SUCCESS, p, m)
  | Some (Err e, p, m) => Some (e, p, m)
  | _ => None
  end.

#[global] Instance HelloTa : TaImpl := {|
  impl_create := fun m => Some (TEE_SUCCESS, m);
  impl_destroy := fun m => Some m;
  impl_open_session := fun p m => Some (TEE_SUCCESS, p, 0, m);
  impl_close_session := fun _ m => Some m;
  impl_invoke_command := fun _ command_id p m =>
    if command_id =? 0 then echo_shm p m else Some (TEE_ERROR_NOT_SUPPORTED, p, m) |}.

(** * The header a TA is built with (rustee-utee's header.rs) *)

(** [store_u16], [store_u32] *)
Definition store (n : nat) (b : list u8) (off : usize) (v : Z) : list u8 := splice b off (to_le n v).

Definition utee_encode_ta_head (p : TaProperties) : list u8 :=
  let b := zeros 40 in
  let b := store 4 b 0 RTAH_MAGIC in
  let b := store 2 b 4 RTAH_ABI in
  let b := store 2 b 6 RTAH_SIZE in
  let b := splice b 8 (tp_uuid p) in
  let b := store 4 b 24 (stack_size p) in
  let b := store 4 b 28 (data_size p) in
  let b := <[32%nat := bool_u8 (single_instance p)]> b in
  let b := <[33%nat := bool_u8 (multi_session p)]> b in
  let b := <[34%nat := bool_u8 (instance_keep_alive p)]> b in
  let b := <[35%nat := endian p]> b in
  store 4 b 36 (ta_version p).

(** [bytes.get(off..off + n).and_then(|b| from_utf8(b).ok())], the text as bytes. *)
Definition trailer_str (bs : list u8) (off n : usize) : option (list u8) :=
  b ← get_range bs off (off + n); if utf8_valid b then Some b else None.

Definition parse_trailer (bs : list u8) : option (list u8) * option (list u8) :=
  if zlen bs <? 40 + 4 then (None, None) else
  let desc_len := le16 bs 40 in
  let ver_len := le16 bs 42 in
  let '(desc, off) := if desc_len =? 0 then (None, 44) else (trailer_str bs 44 desc_len, 44 + desc_len) in
  let ver := if ver_len =? 0 then None else trailer_str bs off ver_len in
  (desc, ver).

(** The arguments of [rustee_ta!]. *)
Definition HELLO_UUID : Uuid :=
  [0x8d; 0x82; 0x5f; 0x6a; 0x1c; 0x4b; 0x4c; 0x9f; 0x9e; 0x3a; 0x2b; 0x7c; 0x6d; 0x5e; 0x4f; 0x30].
Definition hello_props : TaProperties := {|
  tp_uuid := HELLO_UUID; stack_size := 8192; data_size := 8192; single_instance := true; multi_session := false;
  instance_keep_alive := false; endian := 0; ta_version := 1 |}.
Definition RUSTEE_TA_HEAD : list u8 := utee_encode_ta_head hello_props.
Definition hello_create {Sys Tm En St} (c : Core Sys Tm En St) (m : list u8) :=
  TA_CreateEntryPoint c hello_props "0.1.0" "hello-rs" m.

(** * Properties *)


(** The echo command, for any types, parameters and memory: with two memory
    references and room in the second, the bytes of the first are copied (as they
    were before, also when the two overlap), the second's size becomes their
    number and nothing else changes; without room the needed size is reported and
    no byte moves; a command other than 0 or parameters of other types are
    refused and change nothing. *)
Theorem hello_echoes ctx cmd types r0 r1 r2 r3 m :
  let t0 := param_type_get types 0 in
  let t1 := param_type_get types 1 in
  let n := memref_size r0 in
  let call := @invoke_entry HelloTa ctx cmd types (Some [r0; r1; r2; r3]) m in
  (cmd <> 0 -> call = Some (TEE_ERROR_NOT_SUPPORTED, Some [r0; r1; r2; r3], m)) /\
  (cmd = 0 -> is_memref_type t0 && is_memref_type t1 = false ->
     call = Some (TEE_ERROR_BAD_PARAMETERS, Some [r0; r1; r2; r3], m)) /\
  (cmd = 0 -> is_memref_type t0 && is_memref_type t1 = true ->
     (memref_size r1 < n -> call = Some (TEE_ERROR_SHORT_BUFFER, Some [r0; raw_set_size r1 n; r2; r3], m)) /\
     (0 < n <= memref_size r1 -> 0 < memref_buffer r0 -> 0 < memref_buffer r1 ->
      memref_buffer r0 + n <= zlen m -> memref_buffer r1 + n <= zlen m ->
      call = Some (TEE_SUCCESS, Some [r0; raw_set_size r1 n; r2; r3], splice m (memref_buffer r1) (sub m (memref_buffer r0) n)) /\
      sub (splice m (memref_buffer r1) (sub m (memref_buffer r0) n)) (memref_buffer r1) n = sub m (memref_buffer r0) n)).
Proof.
  cbv zeta. unfold invoke_entry, HelloTa. cbn [impl_invoke_command entry_slots default from_option]. unfold default, from_option, id.
  split_and!.
  - intros H. by rewrite (proj2 (Z.eqb_neq _ _) H).
  - intros -> H. rewrite Z.eqb_refl. unfold echo_shm, copy_memref. cbn [up_types up_slots]. cbn [Z.leb Z.eqb orb Z.compare TEE_NUM_PARAMS].
    by rewrite <- negb_andb, H.
  - intros -> H. rewrite Z.eqb_refl. unfold echo_shm, copy_memref. cbn [up_types up_slots]. change ((4 <=? 0) || (4 <=? 1) || (0 =? 1)) with false.
    rewrite <- negb_andb, H. cbn [negb]. change ([r0; r1; r2; r3] !! Z.to_nat 0) with (Some r0).
    change ([r0; r1; r2; r3] !! Z.to_nat 1) with (Some r1). cbn [base.mbind option_bind]. split.
    + intros Hs. by rewrite (proj2 (Z.ltb_lt _ _) Hs).
    + intros Hs Hb0 Hb1 Hm0 Hm1. rewrite (proj2 (Z.ltb_ge _ _)) by lia.
      rewrite !(proj2 (Z.eqb_neq _ _)) by lia. cbn [negb andb orb]. rewrite mread_ok by lia. cbn [base.mbind option_bind].
      assert (zlen (sub m (memref_buffer r0) (memref_size r0)) = memref_size r0) as Hz by (apply zlen_sub; lia).
      rewrite mwrite_ok by lia. cbn [base.mbind option_bind]. split; [done|]. apply sub_splice_same; lia.
Qed.

(** The test of the TA: eight bytes into a buffer of sixteen. *)
Lemma hello_echoes_example :
  @invoke_entry HelloTa 0 0 0x65 (Some [{| word0 := 1; word1 := 8 |}; {| word0 := 16; word1 := 16 |}; ParamRaw_none; ParamRaw_none])
    ([0] ++ str "hello-rs" ++ zeros 30) =
  Some (TEE_SUCCESS, Some [{| word0 := 1; word1 := 8 |}; {| word0 := 16; word1 := 8 |}; ParamRaw_none; ParamRaw_none],
        [0] ++ str "hello-rs" ++ zeros 7 ++ str "hello-rs" ++ zeros 15).
Proof. reflexivity. Qed.

(** C40. A TA reports what its header says: for a TA made with [rustee_ta!] and valid
    properties, the kernel reads exactly these from the header in the image, and
    after the create entry point the TA's own property calls give the same UUID,
    flags and sizes, with the version and description of the macro. *)
Theorem header_matches_properties {Sys Tm En St} `{!TaImpl} (c : Core Sys Tm En St) p version description m r c' m' :
  props_wf p -> validate p = Ok tt ->
  TA_CreateEntryPoint c p version description m = Some (r, c', m') ->
  parse_ta_head (utee_encode_ta_head p) = Ok p /\
  get_uuid (prop c') PROPSET_TA "gpd.ta.appID" = Ok (tp_uuid p) /\ caller_uuid c' = tp_uuid p /\
  get_bool (prop c') PROPSET_TA "gpd.ta.singleInstance" = Ok (single_instance p) /\
  get_bool (prop c') PROPSET_TA "gpd.ta.multiSession" = Ok (multi_session p) /\
  get_bool (prop c') PROPSET_TA "gpd.ta.instanceKeepAlive" = Ok (instance_keep_alive p) /\
  get_u32 (prop c') PROPSET_TA "gpd.ta.stackSize" = Ok (stack_size p) /\
  get_u32 (prop c') PROPSET_TA "gpd.ta.dataSize" = Ok (data_size p) /\
  get_u32 (prop c') PROPSET_TA "gpd.ta.endian" = Ok 0 /\
  get_str (prop c') PROPSET_TA "gpd.ta.version" = Ok version /\
  get_str (prop c') PROPSET_TA "gpd.ta.description" = Ok description.
Proof.
  intros Hwf Hv. unfold TA_CreateEntryPoint. destruct (impl_create m) as [[r0 m0]|]; [|done]. cbn [base.mbind option_bind].
  intros [= <- <- <-]. split.
  - change (utee_encode_ta_head p) with (encode_ta_head p). destruct (read_props_encode p [] Hwf) as [Hr Hm]. rewrite app_nil_r in *. unfold parse_ta_head, RTAH_SIZE.
    rewrite zlen_encode_ta_head by apply Hwf. change (40 <? 40) with false. rewrite Hm, Hr. cbn. by rewrite Hv.
  - assert (endian p = 0) as He by (by apply validate_ok in Hv as (? & _)).
    unfold configure_ta. cbn [prop set_prop]. split_and!; try reflexivity.
    change (Ok (E := u32) (endian p) = Ok 0). by rewrite He.
Qed.

Definition hello_core : Core unit unit unit unit := configure_ta (Core_new 16) hello_props "0.1.0" "hello-rs".

Lemma header_matches_properties_witness :
  hello_create (Core_new 16) [] = Some (TEE_SUCCESS, hello_core, []) /\
  parse_ta_head RUSTEE_TA_HEAD = Ok hello_props /\ get_uuid (prop hello_core) PROPSET_TA "gpd.ta.appID" = Ok HELLO_UUID.
Proof.
  split; [reflexivity|].
  destruct (header_matches_properties (Core_new 16) hello_props "0.1.0" "hello-rs" [] TEE_SUCCESS hello_core [])
    as (H1 & H2 & _); [by_compute|reflexivity|reflexivity|]. split; [exact H1|exact H2].
Defined.

(** The optional trailer comes back: a description and a version, each non-empty
    text shorter than 64 KiB, after the 40 bytes of the header. *)
Theorem trailer_roundtrip head desc ver rest :
  zlen head = 40 -> 0 < zlen desc < 2 ^ 16 -> 0 < zlen ver < 2 ^ 16 -> utf8_valid desc = true -> utf8_valid ver = true ->
  parse_trailer (head ++ to_le 2 (zlen desc) ++ to_le 2 (zlen ver) ++ desc ++ ver ++ rest) = (Some desc, Some ver).
Proof.
  intros Hh Hd Hv Ud Uv. unfold parse_trailer. set (bs := head ++ _). pose proof (zlen_nonneg rest).
  assert (zlen bs = 44 + zlen desc + zlen ver + zlen rest) as Hz.
  { unfold bs. rewrite !zlen_app. change (zlen (to_le 2 (zlen desc))) with 2. change (zlen (to_le 2 (zlen ver))) with 2. lia. }
  rewrite (proj2 (Z.ltb_ge _ _)) by lia. cbv zeta.
  assert (forall n v, zlen (to_le n v) = Z.of_nat n) as Hle by (intros; unfold zlen; by rewrite length_to_le).
  assert (sub bs 40 2 = to_le 2 (zlen desc)) as E1 by (apply sub_at; [lia|by rewrite Hle]).
  assert (sub bs 42 2 = to_le 2 (zlen ver)) as E2
    by (unfold bs; rewrite app_assoc; apply sub_at; rewrite ?zlen_app, ?Hle; lia).
  assert (sub bs 44 (zlen desc) = desc) as E3
    by (unfold bs; rewrite !app_assoc, <- (app_assoc _ ver rest), <- (app_assoc _ desc); apply sub_at; rewrite ?zlen_app, ?Hle; lia).
  assert (sub bs (44 + zlen desc) (zlen ver) = ver) as E4
    by (unfold bs; rewrite !app_assoc, <- (app_assoc _ ver rest); apply sub_at; rewrite ?zlen_app, ?Hle; lia).
  unfold le16. rewrite E1, E2, !from_to_le by lia. rewrite !(proj2 (Z.eqb_neq _ _)) by lia. unfold trailer_str.
  rewrite !get_range_some by lia. cbn [base.mbind option_bind].
  replace (44 + zlen desc - 44) with (zlen desc) by lia. replace (44 + zlen desc + zlen ver - (44 + zlen desc)) with (zlen ver) by lia.
  by rewrite E3, E4, Ud, Uv.
Qed.
