(* ===== verification/HalTz.v ===== *)
(** The TrustZone HAL (src/crates/rustee-hal-tz/src/lib.rs), a stub: the interface
    of the kernel with nothing behind it. *)
From Stdlib Require Import ZArith Lia.
From stdpp Require Import base list numbers.
From S2P Require Import Prelude Proto Abi Header Iface Elf Kernel.

Local Open Scope Z_scope.
Local Open Scope rust_scope.

(** [TzGate] *)
Definition tz_recv : HalError + CallFrame := inl Unsupported.
Definition tz_complete (f : CallFrame) : HalError + unit := inl Unsupported.
Definition tz_rpc_yield (f : CallFrame) : HalError + CallFrame := inl Unsupported.

(** [TzEntropy]: [fill] leaves the buffer as it is. *)
Definition tz_fill (dest : list u8) : list u8 := dest.

(** [TzHal] holds a fixed key of zeros; [TzAs] has no state. *)
Record TzHal := { tz_huk : list u8 }.
Definition TzHal_default : TzHal := {| tz_huk := zeros 32 |}.
Definition tz_init : HalError + TzHal := inr TzHal_default.

Inductive TzAs := TzAs_.

Definition tz_map_image (asp : TzAs) (va : u64) (bs : list u8) (perms : Perms) : (HalError + u64) * TzAs := (inl Unsupported, asp).

#[global] Instance tz_hal : HalOps TzHal TzAs := {|
  hal_entropy_origin := fun _ => Isolated;
  new_address_space := fun h => (TzAs_, h);
  shm_len := fun _ _ => None;
  shm_sync_in := fun _ _ => None;
  shm_sync_out := fun _ _ => None;
  shm_map_into := fun _ _ _ _ => None;
  map_image := tz_map_image;
  as_unmap := fun asp _ => asp;
  as_drop_all := fun asp => asp |}.

(** * Properties *)

Definition is_ree (p : Param) : Prop := match p with PMemref (Ree _ _) _ _ => True | _ => False end.

Lemma tz_map_ree h asp p : is_ree p -> map_param (H := TzHal) h asp p = MapFail h.
Proof. destruct p as [| |[] ? []]; try done. Qed.

Lemma tz_map_loop ps h asp raw vas h' asp' :
  map_loop (H := TzHal) ps h asp = MapOk raw vas h' asp' -> Forall (fun p => ~ is_ree p) ps.
Proof.
  revert h asp raw vas h' asp'. induction ps as [|p ps IH]; intros h asp raw vas h' asp'; [constructor|]. cbn [map_loop].
  assert (is_ree p \/ ~ is_ree p) as [Hp|Hp] by (destruct p as [| |[]]; cbn; tauto).
  - by rewrite tz_map_ree.
  - destruct (map_param h asp p); [|done..]. destruct (map_loop ps _ _) eqn:E; [|done..]. intros _. constructor; [done|]. by eapply IH.
Qed.

(** On the stub HAL nothing of the normal world reaches a TA: no image with a
    loadable segment can be mapped, and no call with a shared-memory parameter
    passes the mapping of its parameters. *)
Theorem tz_maps_nothing aarch64 asp bs eps asp' ps h raw vas h' asp'' :
  (map_elf (H := TzHal) aarch64 asp bs = (Ok eps, asp') -> exists img, parse_elf bs = Ok img /\ img_segs img = []) /\
  (map_loop (H := TzHal) ps h asp = MapOk raw vas h' asp'' -> Forall (fun p => ~ is_ree p) ps).
Proof.
  split; [|apply tz_map_loop]. unfold map_elf. destruct (parse_elf bs) as [img| |]; [|done..].
  destruct (img_segs img) as [|s segs] eqn:E; [by exists img|]. by destruct (elf_blob bs (s :: segs)).
Qed.
