(* ===== verification/EndToEnd.v ===== *)
(** A command with buffers across the whole stack: the client's [invoke_shm]
    (Client) over a vsock connection to the guest (Guest), which decodes the
    message, maps the buffers for the TA (Kernel on HalVirt), runs the sample TA
    (Hello) and answers, up to the bytes in the caller's buffer. *)
From Stdlib Require Import ZArith Lia String.
From stdpp Require Import base list numbers gmap strings.
From S2P Require Import KernelProps UteeMem Utee Hello ClientConn.
From S2P Require Import Prelude Proto Abi Header Iface Tables Elf Client ClientProps HalVirt Kernel KernelInv ProtoCmd Guest GuestProps.

Local Open Scope Z_scope.
Local Open Scope rust_scope.

(** * The TA in the memory the HAL mapped *)

(** What a TA sees at its addresses: the pool at the address the HAL gave it, and
    [low] below. *)
Definition ta_view (low : list u8) (h : VirtHal) : list u8 := low ++ bounce_mem h.

(** The entry point [TA_InvokeCommandEntryPoint] of [rustee_ta!] in that memory. *)
Definition run_invoke `{!TaImpl} (low : list u8) (ctx : usize) (cmd types : u32) (raw : list ParamRaw) (h : VirtHal)
  : call_out VirtHal (u32 * list ParamRaw) :=
  match invoke_entry ctx cmd types (Some raw) (ta_view low h) with
  | Some (code, Some raw, m) => Returned (code, raw) (set_mem h (drop (length low) m))
  | _ => Panicked h
  end.

(** The code at an address is that of the TA [I]. *)
Class RunsTa (I : TaImpl) (T : TaCode VirtHal) (addr : usize) :=
  runs_ta ctx cmd types raw h : 0 <= pool_va h ->
    exists low, zlen low = pool_va h /\ ta_invoke addr ctx cmd types raw h = @run_invoke I low ctx cmd types raw h.

(** What the echo command does to a pool with [n] bytes at [i] and room for [m]
    at [o]: the code, the size reported and the pool. *)
Definition echoed (cmd : u32) (mem : list u8) (i n o m : Z) : u32 * Z * list u8 :=
  if negb (cmd =? 0) then (TEE_ERROR_NOT_SUPPORTED, m, mem)
  else if m <? n then (TEE_ERROR_SHORT_BUFFER, n, mem)
  else (TEE_SUCCESS, n, splice mem o (sub mem i n)).

Definition shm_user (i n o m : Z) : Params := [PMemref (Ree i 0) n In_; PMemref (Ree o 0) m Out; PNone; PNone].

Lemma splice_app_r {A} (a b new : list A) off : 0 <= off -> splice (a ++ b) (zlen a + off) new = a ++ splice b off new.
Proof.
  intros H. unfold splice, zlen. rewrite take_app_ge, drop_app_ge by lia.
  rewrite <- !app_assoc. do 2 f_equal; [f_equal; lia|]. f_equal. f_equal. lia.
Qed.

Lemma hello_run low ctx cmd h i n o m :
  zlen low = pool_va h -> zlen (bounce_mem h) = BOUNCE_POOL_SIZE ->
  0 < i -> 0 <= n -> i + n <= BOUNCE_POOL_SIZE -> 0 < o -> 0 <= m -> o + m <= BOUNCE_POOL_SIZE ->
  let '(code, size, mem) := echoed cmd (bounce_mem h) i n o m in
  @run_invoke HelloTa low ctx cmd (param_types_of (shm_user i n o m))
    [raw_memref (pool_va h + i) n; raw_memref (pool_va h + o) m; ParamRaw_none; ParamRaw_none] h =
  Returned (code, [raw_memref (pool_va h + i) n; raw_memref (pool_va h + o) size; ParamRaw_none; ParamRaw_none]) (set_mem h mem).
Proof.
  intros Hlow Hz Hi Hn Hin Ho Hm Hom. pose proof (zlen_nonneg low).
  assert (drop (length low) (ta_view low h) = bounce_mem h) as Hdrop by apply drop_app_length.
  unfold run_invoke, invoke_entry, HelloTa, echoed. cbn [impl_invoke_command entry_slots default from_option].
  change (param_types_of (shm_user i n o m)) with 0x65. unfold default, from_option, id.
  destruct (cmd =? 0); cbn [negb]; [|cbn [base.mbind option_bind]; by rewrite Hdrop].
  unfold echo_shm, copy_memref. cbn [up_types up_slots].
  change ((TEE_NUM_PARAMS <=? 0) || (TEE_NUM_PARAMS <=? 1) || (0 =? 1)) with false.
  change (is_memref_type (param_type_get 0x65 0)) with true. change (is_memref_type (param_type_get 0x65 1)) with true.
  cbn [negb orb]. set (r0 := raw_memref _ n). set (r1 := raw_memref _ m).
  change ([r0; r1; _; _] !! Z.to_nat 0) with (Some r0). change ([r0; r1; _; _] !! Z.to_nat 1) with (Some r1).
  cbn [base.mbind option_bind]. change (memref_size r0) with n. change (memref_size r1) with m.
  change (memref_buffer r0) with (pool_va h + i). change (memref_buffer r1) with (pool_va h + o).
  destruct (Z.ltb_spec m n) as [Hs|Hs]; [cbn [base.mbind option_bind]; by rewrite Hdrop|].
  rewrite !(proj2 (Z.eqb_neq (pool_va h + _) 0)) by lia. cbn [orb]. rewrite andb_false_r.
  assert (exists m', (if negb (n =? 0) then (bs ← mread (ta_view low h) (pool_va h + i) n; mwrite (ta_view low h) (pool_va h + o) bs)
    else Some (ta_view low h)) = Some m' /\ drop (length low) m' = splice (bounce_mem h) o (sub (bounce_mem h) i n))
    as (m' & Em & Hm').
  { destruct (Z.eqb_spec n 0) as [->|]; cbn [negb].
    - eexists. split; [done|]. rewrite Hdrop. symmetry. change (sub (bounce_mem h) i 0) with (@nil u8).
      unfold splice. cbn [app]. rewrite Nat.add_0_r. apply take_drop.
    - assert (zlen (ta_view low h) = pool_va h + BOUNCE_POOL_SIZE) as Hv by (unfold ta_view; rewrite zlen_app; lia).
      rewrite mread_ok by lia. cbn [base.mbind option_bind]. unfold ta_view.
      rewrite sub_app_r by lia. replace (pool_va h + i - zlen low) with i by lia. rewrite <- Hlow.
      eexists. split; [apply mwrite_ok; rewrite ?zlen_app, ?zlen_sub by lia; lia|].
      rewrite splice_app_r by lia. apply drop_app_length. }
  rewrite Em. cbn [base.mbind option_bind]. by rewrite Hm'.
Qed.

(** * The kernel *)

Section Stack.
Context {PTA : Type} `{!CryptoProvider} `{!PtaOps PTA} {T : TaCode VirtHal}.
Context (image_addr : list (list u8) -> u64).
#[local] Instance stack_hal : HalOps VirtHal VirtAs := virt_hal image_addr.
Abbreviation K := (Kernel VirtHal VirtAs PTA).
Abbreviation G := (GuestState (PTA:=PTA)).
Implicit Types (k : K) (g : G).

(** A TA instance that can take a call: not held by another, with an address
    space over this pool and the entry points [ep]. *)
Definition inst_ready (I : InstanceTable.t VirtAs) (va : u64) (iid : InstanceId) (ep : TaEntryPoints) (held : bool) : Prop :=
  InstanceTable.ok I /\ exists x asp, InstanceTable.get I iid = Some x /\ busy x = held /\ aspace x = Some asp /\
    as_pool_va asp = va /\ inst_entries x = Some ep.

(** A session of such an instance, in a kernel that runs. *)
Definition session_ready k (sid : SessionId) (iid : InstanceId) (ep : TaEntryPoints) : Prop :=
  notices_ok k = true /\ cancelled k 0 = false /\
  (exists s, SessionTable.get (sessions k) sid = Some s /\ sess_state s <> SessDead /\ kind s = UserTa /\
     instance s = Some iid) /\
  inst_ready (instances k) (pool_va (hal k)) iid ep false.

Lemma inst_ready_mut I va iid ep b b' f :
  inst_ready I va iid ep b -> (forall x, inst_id (f x) = inst_id x /\ inst_entries (f x) = inst_entries x) ->
  (forall x a, busy x = b -> aspace x = Some a -> busy (f x) = b' /\
     exists a', aspace (f x) = Some a' /\ as_pool_va a' = as_pool_va a) ->
  inst_ready (InstanceTable.get_mut I iid f) va iid ep b'.
Proof.
  intros (Hok & x & a & Hg & Hb & Ha & Hv & He) Hf Hfb. destruct (get_mut_get I iid f Hok (fun y => proj1 (Hf y))) as [G1 G2].
  split; [done|]. destruct (Hfb x a Hb Ha) as (B & a' & A1 & A2). exists (f x), a'. rewrite G2, Hg.
  split_and!; try done; [congruence|]. by rewrite (proj2 (Hf x)).
Qed.

Lemma session_ready_hal k h sid iid ep :
  session_ready k sid iid ep -> pool_va h = pool_va (hal k) -> session_ready (set_hal k h) sid iid ep.
Proof. intros (H1 & H2 & H3 & H4) Hv. split_and!; try done. cbn [hal set_hal]. by rewrite Hv. Qed.

(** The object the guest imports for a buffer of [n] bytes at [off]. *)
Definition imported (off n : Z) (p : Perms) : VirtShm := {| shm_cookie := off; vshm_len := Z.max n 1; shm_perms := p |}.

Lemma map_one h a off n d :
  lookup_shm h off = Some (imported off n (dir_perms d)) -> 0 <= off -> 0 <= n -> off + Z.max n 1 <= BOUNCE_POOL_SIZE ->
  0 <= as_pool_va a -> as_pool_va a + BOUNCE_POOL_SIZE < 2 ^ 64 ->
  exists a', map_memref (H:=VirtHal) h a off 0 n d =
    MapOk [raw_memref (as_pool_va a + off) n] [Some (as_pool_va a + off)] h a' /\ as_pool_va a' = as_pool_va a.
Proof.
  intros Hl Ho Hn Hfit Hv Hv2. unfold BOUNCE_POOL_SIZE in *.
  eexists. unfold map_memref, map_sync_in. cbn [shm_sync_in shm_len shm_map_into stack_hal virt_hal]. rewrite Hl.
  cbn [option_map]. assert ((if bool_decide (d <> Out) then Some (inr tt, h) else Some (inr tt, h)) =
    Some (@inr HalError unit tt, h)) as -> by (by destruct (bool_decide _)).
  rewrite Hl. cbn [option_map vshm_len imported].
  unfold sat_add. rewrite (proj2 (Z.ltb_ge _ _)) by (rewrite Z.min_l; lia).
  unfold map_shm. cbn [shm_perms shm_cookie vshm_len imported]. assert (p_exec (dir_perms d) = false) as -> by (by destruct d).
  cbn [orb]. rewrite (proj2 (Z.eqb_neq _ _)) by lia. rewrite checked_add_ok by lia. unfold BOUNCE_POOL_SIZE.
  rewrite (proj2 (Z.ltb_ge _ _)) by lia. unfold wrapping_add. rewrite !wrap_id by (rewrite ?wrap_id; unfold in_width; lia).
  rewrite Z.add_0_r. split; [done|]. done.
Qed.

(** The two buffers in the pool. *)
Definition buffers_in (h : VirtHal) (i n o m : Z) : Prop :=
  0 < i /\ 0 <= n /\ i + Z.max n 1 <= BOUNCE_POOL_SIZE /\ 0 < o /\ 0 <= m /\ o + Z.max m 1 <= BOUNCE_POOL_SIZE /\
  0 <= pool_va h /\ pool_va h + BOUNCE_POOL_SIZE < 2 ^ 64 /\ zlen (bounce_mem h) = BOUNCE_POOL_SIZE /\
  lookup_shm h i = Some (imported i n Perms_READ) /\ lookup_shm h o = Some (imported o m Perms_WRITE).

Definition raws (va i n o m : Z) : list ParamRaw :=
  [raw_memref (va + i) n; raw_memref (va + o) m; ParamRaw_none; ParamRaw_none].
Definition vas_of (va i o : Z) : list (option u64) := [Some (va + i); Some (va + o); None; None].

Lemma map_user h a i n o m : buffers_in h i n o m -> as_pool_va a = pool_va h ->
  exists a', map_loop (H:=VirtHal) (shm_user i n o m) h a =
    MapOk (raws (pool_va h) i n o m) (vas_of (pool_va h) i o) h a' /\ as_pool_va a' = pool_va h.
Proof.
  intros (I0 & I1 & I2 & O0 & O1 & O2 & V0 & V1 & _ & L1 & L2) Ha.
  destruct (map_one h a i n In_ L1) as (a1 & M1 & A1); [lia..|].
  destruct (map_one h a1 o m Out L2) as (a2 & M2 & A2); [lia..|].
  exists a2. cbn [map_loop shm_user map_param]. rewrite M1, M2. split; [|congruence].
  rewrite A1, Ha. reflexivity.
Qed.

(** Taking the address space out and putting another back. *)
Lemma remap_ready I va iid ep b a : inst_ready I va iid ep b -> as_pool_va a = va ->
  inst_ready (InstanceTable.get_mut (InstanceTable.get_mut I iid (inst_set_aspace None)) iid (inst_set_aspace (Some a)))
    va iid ep b.
Proof.
  intros (Hok & x & a0 & Hg & Hb & Ha & Hv & He) Hva.
  destruct (get_mut_get I iid (inst_set_aspace None) Hok ltac:(done)) as [O1 G1].
  destruct (get_mut_get _ iid (inst_set_aspace (Some a)) O1 ltac:(done)) as [O2 G2].
  split; [done|]. rewrite G2, G1, Hg. by eexists _, a.
Qed.

(** Unmapping the two buffers leaves the HAL, the sessions and the instance's
    readiness. *)
Lemma unmap_user k iid ep va i n o m b :
  inst_ready (instances k) va iid ep b ->
  let k' := unmap_params k iid (shm_user i n o m) (vas_of va i o) in
  inst_ready (instances k') va iid ep b /\ hal k' = hal k /\ sessions k' = sessions k /\
  notices_ok k' = notices_ok k /\ cancelled_ids k' = cancelled_ids k.
Proof.
  intros Hr. cbv zeta. cbn [shm_user vas_of unmap_params]. set (k1 := unmap_param k iid (PMemref (Ree i 0) n In_) _).
  assert (k1 = unmap_aspace k iid (va + i)) as -> by done.
  set (k2 := unmap_param _ iid _ _).
  assert (k2 = unmap_aspace (unmap_aspace k iid (va + i)) iid (va + o)) as ->.
  { unfold k2, unmap_param. change (bool_decide (Out <> In_)) with true. cbn iota.
    cbn [shm_sync_out stack_hal virt_hal]. destruct (lookup_shm _ o); [|done]. cbn [option_map]. reflexivity. }
  split_and!; try done.
  do 2 (eapply inst_ready_mut; [|by intros []|intros x a Hb Ha; split; [exact Hb|]; cbn; rewrite Ha; by eexists]).
  exact Hr.
Qed.

Lemma invoke_hello k sid iid ep cmd i n o m tmo :
  session_ready k sid iid ep -> RunsTa HelloTa T (ep_invoke ep) -> buffers_in (hal k) i n o m ->
  let '(c, size, mem) := echoed cmd (bounce_mem (hal k)) i n o m in
  exists k', handle true k (Invoke sid cmd (shm_user i n o m) 0 tmo) =
      KRet (Done (if c =? TEE_SUCCESS then TeeResult_ok else TeeResult_ta c) (Some sid) (shm_user i n o size)) k' /\
    hal k' = set_mem (hal k) mem /\ session_ready k' sid iid ep.
Proof.
  intros (Hno & Hca & (s & Hs & Hst & Hk & Hi) & Hr) Hrun Hbuf.
  cbn [handle]. unfold handle. rewrite Hno. cbn [negb]. unfold invoke. rewrite Hca, Hs.
  rewrite bool_decide_false by done. rewrite Hk, Hi.
  pose proof Hr as (Hok & x & asp & Hg & Hb & Ha & Hv & He).
  unfold lock_instance. rewrite Hg, Hb.
  set (k1 := set_instances k _). unfold invoke_locked. set (k2 := set_current_instance k1 _).
  assert (inst_ready (instances k2) (pool_va (hal k)) iid ep true) as Hr2.
  { eapply inst_ready_mut; [exact Hr|by intros []|]. intros y a _ Hy. split; [done|]. by exists a. }
  pose proof Hr2 as (Hok2 & x2 & asp2 & Hg2 & Hb2 & Ha2 & Hv2 & He2).
  unfold map_params. rewrite Hg2. cbn [base.mbind option_bind]. rewrite Ha2.
  change (hal (put_aspace k2 iid None)) with (hal k).
  destruct (map_user (hal k) asp2 i n o m Hbuf Hv2) as (a3 & -> & Hv3).
  set (k3 := put_aspace _ iid (Some a3)).
  assert (inst_ready (instances k3) (pool_va (hal k)) iid ep true) as Hr3 by (by apply (remap_ready _ _ _ _ _ _ Hr2)).
  assert (entries_of k3 iid = Some ep) as ->
    by (destruct Hr3 as (_ & x3 & a & G3 & _ & _ & _ & E3); unfold entries_of; by rewrite G3).
  change (hal k3) with (hal k).
  destruct Hbuf as (I0 & I1 & I2 & O0 & O1 & O2 & V0 & V1 & Z0 & _).
  destruct (runs_ta (I:=HelloTa) (T:=T) (addr:=ep_invoke ep) (ta_sess_ctx s) cmd (param_types_of (shm_user i n o m))
    (raws (pool_va (hal k)) i n o m) (hal k) V0) as (low & Hlow & ->).
  pose proof (hello_run low (ta_sess_ctx s) cmd (hal k) i n o m Hlow Z0) as Hh.
  destruct (echoed cmd (bounce_mem (hal k)) i n o m) as [[c size] mem]. unfold raws. rewrite Hh by lia. clear Hh.
  change (params_from_raw (shm_user i n o m) _) with (shm_user i n o size).
  destruct (unmap_user (set_hal k3 (set_mem (hal k) mem)) iid ep (pool_va (hal k)) i n o size true Hr3)
    as (Hr4 & H4 & S4 & N4 & C4).
  eexists. split; [reflexivity|]. split; [exact H4|]. split_and!.
  - etransitivity; [exact N4|exact Hno].
  - etransitivity; [exact (f_equal (existsb (fun c => c =? 0)) C4)|exact Hca].
  - exists s. split_and!; try done. cbn [sessions unlock_instance set_instances set_current_instance]. by rewrite S4.
  - cbn [hal unlock_instance set_instances set_current_instance instances]. rewrite H4.
    eapply inst_ready_mut; [exact Hr4|by intros []|]. intros y a _ Hy. split; [done|]. by exists a.
Qed.

(** * Importing the buffers *)

Fixpoint free_slots (l : list (option VirtShm)) : Z :=
  match l with
  | [] => 0
  | None :: l' => 1 + free_slots l'
  | Some _ :: l' => free_slots l'
  end.

Lemma free_slots_nonneg l : 0 <= free_slots l.
Proof. induction l as [|[] l IH]; cbn [free_slots]; lia. Qed.

Lemma reimport_free l off len p l' : reimport l off len p = Some l' -> free_slots l' = free_slots l.
Proof.
  revert l'. induction l as [|[s|] l IH]; intros l'; cbn [reimport]; [done| |].
  - destruct (shm_cookie s =? off); [by intros [= <-]|]. destruct (reimport l off len p) as [l1|]; [|done].
    intros [= <-]. exact (IH l1 eq_refl).
  - destruct (reimport l off len p) as [l1|]; [|done]. intros [= <-]. cbn [free_slots]. by rewrite (IH l1 eq_refl).
Qed.

Lemma add_shm_free l s : 1 <= free_slots l -> exists l', add_shm l s = Some l' /\ free_slots l' = free_slots l - 1.
Proof.
  induction l as [|[x|] l IH]; cbn [add_shm free_slots]; intros Hfree; [lia| |].
  - destruct (IH Hfree) as (l' & -> & Hf). by eexists.
  - eexists. split; [done|]. cbn [free_slots]. lia.
Qed.

(** With a free slot a buffer of the pool is imported, at the cost of one slot. *)
Lemma import_room h off n p :
  p_exec p = false -> 0 <= off -> off + Z.max n 1 <= BOUNCE_POOL_SIZE -> bounce_len h = BOUNCE_POOL_SIZE -> off mod 8 = 0 ->
  1 <= free_slots (shms h) ->
  exists l, import_shm h off (Z.max n 1) p = Ok (set_shms h l) /\ lookup_shm (set_shms h l) off = Some (imported off n p) /\
    (forall c, c <> off -> lookup_shm (set_shms h l) c = lookup_shm h c) /\ free_slots (shms h) - 1 <= free_slots l.
Proof.
  intros Hp Ho Hfit Hl Ha Hf. unfold import_shm. rewrite Hp. unfold BOUNCE_POOL_SIZE in *. rewrite uadd_ok by lia. cbn [rbind].
  rewrite Hl, (proj2 (Z.ltb_ge _ _)) by lia. change MSG_ARG_ALIGN with 8. rewrite Ha. cbn [Z.eqb negb].
  pose proof (reimport_spec (shms h) off (Z.max n 1) p) as Hr. fold (imported off n p).
  destruct (reimport (shms h) off (Z.max n 1) p) as [l|] eqn:E.
  - exists l. destruct Hr as (_ & H1 & H2). split_and!; [done|exact H1|exact H2|]. rewrite (reimport_free _ _ _ _ _ E). lia.
  - destruct (add_shm_free (shms h) (imported off n p) Hf) as (l & El & Hfl).
    pose proof (add_shm_spec (shms h) (imported off n p) Hr) as Hs. rewrite El in Hs |- *. destruct Hs as (_ & H1 & H2).
    cbn [ok_or rbind]. exists l. split_and!; [done|exact H1|exact H2|lia].
Qed.

Lemma import_user h sid cmd i n o m ci tmo :
  bounce_len h = BOUNCE_POOL_SIZE -> zlen (bounce_mem h) = BOUNCE_POOL_SIZE -> 0 <= pool_va h ->
  pool_va h + BOUNCE_POOL_SIZE < 2 ^ 64 -> 2 <= free_slots (shms h) ->
  0 < i -> 0 <= n -> i + Z.max n 1 <= o -> 0 <= m -> o + Z.max m 1 <= BOUNCE_POOL_SIZE -> i mod 8 = 0 -> o mod 8 = 0 ->
  exists l, import_memrefs h (Invoke sid cmd (shm_user i n o m) ci tmo) = Ok (set_shms h l) /\
    buffers_in (set_shms h l) i n o m /\ free_slots (shms h) - 2 <= free_slots l.
Proof.
  intros Hb Hz Hv Hv2 Hf Hi Hn Hio Hm Hom Ai Ao. cbn [import_memrefs shm_user import_params import_param import_perms].
  unfold BOUNCE_POOL_SIZE in Hom. rewrite uadd_ok by lia. cbn [rbind]. rewrite Z.add_0_r.
  destruct (import_room h i n Perms_READ) as (l1 & -> & L1 & K1 & F1); [done|lia|unfold BOUNCE_POOL_SIZE; lia|done|done|lia|].
  cbn [rbind]. rewrite uadd_ok by lia. cbn [rbind]. rewrite Z.add_0_r.
  destruct (import_room (set_shms h l1) o m Perms_WRITE) as (l2 & -> & L2 & K2 & F2);
    [done|lia|unfold BOUNCE_POOL_SIZE; lia|done|done|cbn [shms set_shms]; lia|].
  cbn [rbind]. exists l2. cbn [shms set_shms] in *. split; [done|]. split; [|lia].
  unfold buffers_in, BOUNCE_POOL_SIZE in *. cbn [pool_va bounce_mem set_shms]. split_and!; try done; try lia.
  change (set_shms h l2) with (set_shms (set_shms h l1) l2). rewrite K2 by lia. exact L1.
Qed.

(** * The connection *)

Definition vsock_wf (h : VirtioVsockHdr) : Prop :=
  Forall (in_width 64) [src_cid h; dst_cid h] /\ Forall (in_width 16) [HalVirt.ty h; op h] /\
  Forall (in_width 32) [src_port h; dst_port h; vh_len h; flags h; buf_alloc h; fwd_cnt h].

Lemma vsock_hdr_roundtrip h tl : vsock_wf h ->
  zlen (VirtioVsockHdr_encode h) = 44 /\ VirtioVsockHdr_decode (sub (VirtioVsockHdr_encode h ++ tl) 0 VIRTIO_VSOCK_HDR_LEN) = Ok h.
Proof.
  intros (H64 & H16 & H32). inv_forall. split; [reflexivity|]. rewrite sub_app_l by reflexivity.
  set (e := VirtioVsockHdr_encode h). unfold VirtioVsockHdr_decode. change (zlen e <? VIRTIO_VSOCK_HDR_LEN) with false.
  cbn iota. unfold le64, le32, le16.
  change (sub e 0 8) with (to_le 8 (src_cid h)). change (sub e 8 8) with (to_le 8 (dst_cid h)).
  change (sub e 16 4) with (to_le 4 (src_port h)). change (sub e 20 4) with (to_le 4 (dst_port h)).
  change (sub e 24 4) with (to_le 4 (vh_len h)). change (sub e 28 2) with (to_le 2 (HalVirt.ty h)).
  change (sub e 30 2) with (to_le 2 (op h)). change (sub e 32 4) with (to_le 4 (flags h)).
  change (sub e 36 4) with (to_le 4 (buf_alloc h)). change (sub e 40 4) with (to_le 4 (fwd_cnt h)).
  rewrite !from_to_le by done. by destruct h.
Qed.

Definition conn_wf (c : VsockConn) : Prop :=
  Forall (in_width 64) [guest_cid c; host_cid c] /\ Forall (in_width 32) [guest_port c; host_port c; conn_fwd_cnt c].

(** A packet of the host's driver with a piece of what the client wrote. *)
Definition host_packet (c : VsockConn) (payload : list u8) : list u8 := VirtioVsockHdr_encode (host_rw c payload) ++ payload.

(** What the host's driver hands the client of a packet of the guest: the payload
    of data, nothing of the others. *)
Definition host_recv (pkt : list u8) : list u8 :=
  match VirtioVsockHdr_decode (sub pkt 0 VIRTIO_VSOCK_HDR_LEN) with
  | Ok h => if op h =? VIRTIO_VSOCK_OP_RW then drop (Z.to_nat VIRTIO_VSOCK_HDR_LEN) pkt else []
  | _ => []
  end.

Lemma host_recv_rw c pdu : conn_wf c -> zlen pdu < 2 ^ 32 -> host_recv (VirtioVsockHdr_encode (wrap_rw c pdu) ++ pdu) = pdu.
Proof.
  intros [H64 H32] Hl. pose proof (zlen_nonneg pdu). inv_forall.
  assert (vsock_wf (wrap_rw c pdu)) as Hwf.
  { unfold vsock_wf, wrap_rw. cbn. unfold as_u32. rewrite wrap_id by (unfold in_width; lia). rewrite !Forall_cons_iff.
    split_and!; done || by_compute. }
  unfold host_recv. destruct (vsock_hdr_roundtrip (wrap_rw c pdu) pdu Hwf) as [Hz ->]. cbn [op wrap_rw Z.eqb].
  change (VIRTIO_VSOCK_OP_RW =? VIRTIO_VSOCK_OP_RW) with true. cbn iota.
  change (Z.to_nat VIRTIO_VSOCK_HDR_LEN) with (length (VirtioVsockHdr_encode (wrap_rw c pdu))). apply drop_app_length.
Qed.

Lemma host_recv_credit c : conn_wf c -> host_recv (VirtioVsockHdr_encode (conn_credit_update c)) = [].
Proof.
  intros [H64 H32]. inv_forall.
  assert (vsock_wf (conn_credit_update c)) as Hwf.
  { unfold vsock_wf. cbn. rewrite !Forall_cons_iff. split_and!; done || by_compute. }
  unfold host_recv. destruct (vsock_hdr_roundtrip (conn_credit_update c) [] Hwf) as [Hz Hd]. rewrite app_nil_r in Hd.
  rewrite Hd. done.
Qed.

(** A guest that serves the session [sid] on a connection: no call is under way,
    [rx] is the part of a PDU it has received, and at least [free] buffers can be
    imported. *)
Definition serving_guest g (sid : SessionId) (iid : InstanceId) (ep : TaEntryPoints) (free : Z) (rx : list u8) : Prop :=
  let h := hal (gk g) in
  waiting g = None /\ pool_full h /\ 0 <= pool_va h /\ pool_va h + BOUNCE_POOL_SIZE < 2 ^ 64 /\
  g_yielding (gate h) = false /\ session_ready (gk g) sid iid ep /\ free <= free_slots (shms h) /\
  exists c, conn h = Some c /\ conn_wf c /\ conn_rx c = rx.

Lemma conn_with_wf c n rx : conn_wf c -> conn_wf (conn_with c (wrapping_add 32 (conn_fwd_cnt c) n) rx).
Proof.
  intros [H64 H32]. inv_forall. unfold conn_wf. cbn. rewrite !Forall_cons_iff. split_and!; try done.
  by apply wrap_width.
Qed.

(** A data packet reaches the stream of the connection. *)
Lemma step_rw g c payload : conn (hal (gk g)) = Some c -> conn_wf c -> zlen payload <= RW_MAX ->
  vsock_step image_addr g (host_packet c payload) = on_rw image_addr g (host_rw c payload) payload /\
  push_host_rw (hal (gk g)) (host_rw c payload) payload =
    Ok (set_conn (hal (gk g)) (Some (conn_with c (wrapping_add 32 (conn_fwd_cnt c) (zlen payload)) (conn_rx c ++ payload)))).
Proof.
  intros Hc Hwf Hl. pose proof (zlen_nonneg payload). unfold RW_MAX, RXBUF_LEN, VIRTIO_VSOCK_HDR_LEN in Hl. split.
  - assert (vsock_wf (host_rw c payload)) as Hv.
    { destruct Hwf as [H64 H32]. inv_forall. unfold vsock_wf. cbn. rewrite !Forall_cons_iff.
      assert (in_width 32 (zlen payload)) by (unfold in_width; lia). split_and!; done || by_compute. }
    destruct (vsock_hdr_roundtrip _ payload Hv) as [Hz Hd].
    unfold vsock_step, host_packet. rewrite Hd. rewrite zlen_app, Hz. change VIRTIO_VSOCK_HDR_LEN with 44.
    rewrite (proj2 (Z.ltb_ge _ _)) by lia. unfold RXBUF_LEN. rewrite (proj2 (Z.ltb_ge _ _)) by lia. change (op (host_rw c payload) =? VIRTIO_VSOCK_OP_REQUEST) with false.
    change (op (host_rw c payload) =? VIRTIO_VSOCK_OP_RW) with true. reflexivity.
  - unfold push_host_rw. rewrite Hc. cbn [ok_or rbind]. unfold push_rw, host_rw. cbn [op dst_cid dst_port src_cid vh_len].
    by rewrite !Z.eqb_refl.
Qed.

(** A packet that leaves the PDU incomplete only grows the stream; the guest
    answers with its credit. *)
Lemma push_partial g sid iid ep free rx ch p rest c :
  serving_guest g sid iid ep free rx -> conn (hal (gk g)) = Some c -> pdu_wf p -> pdu_bytes p = (rx ++ ch) ++ rest ->
  rest <> [] -> zlen ch <= RW_MAX ->
  exists g' credit, vsock_step image_addr g (host_packet c ch) = Running g' /\
    serving_guest g' sid iid ep free (rx ++ ch) /\ tx g' = tx g ++ [credit] /\ host_recv credit = [].
Proof.
  intros (Hw & Hp & V0 & V1 & Hy & Hs & Hf & c' & Hc & Hwf & Hrx) Hc' Hpwf Hpb Hne Hl.
  assert (c' = c) as -> by congruence. destruct (step_rw g c ch Hc Hwf Hl) as [-> Hpush].
  set (c1 := conn_with c (wrapping_add 32 (conn_fwd_cnt c) (zlen ch)) (conn_rx c ++ ch)) in *.
  assert (conn_wf c1) as Hwf1 by (by apply conn_with_wf).
  assert (take_pdu c1 = (Err NotFound, c1)) as Ht.
  { apply (take_pdu_partial c1 p rest Hpwf); [|done]. cbn [conn_rx conn_with c1]. by rewrite Hrx. }
  unfold on_rw. rewrite Hpush. cbn [waiting hal_mut set_k]. rewrite Hw.
  unfold recv_enter, next_pdu. cbn [conn set_conn]. unfold read_pdu. rewrite Ht. cbn [gbind].
  unfold send_credit, credit_update. cbn [gk hal_mut set_k hal set_hal conn set_conn ok_or rbind].
  eexists _, _. split; [reflexivity|]. split; [|split; [reflexivity|by apply host_recv_credit]].
  split_and!; try done. exists c1. split_and!; try done. cbn. by rewrite Hrx.
Qed.

(** * A call, from the packet that completes it to the answer *)

Lemma enter_frame_wf ck : 0 <= ck < 2 ^ 32 -> CallFrame_wf (yielding_enter ck).
Proof.
  intros Hck. split; [done|]. change (cf_r (yielding_enter ck)) with
    [SMC_CALL_WITH_ARG; Z.shiftr ck 32; Z.land ck 0xffffffff; 0; 0; 0; 0; 0].
  assert (Z.shiftr ck 32 = 0) as -> by (rewrite Z.shiftr_div_pow2 by lia; apply Z.div_small; lia).
  change 0xffffffff with (Z.ones 32). rewrite Z.land_ones, Z.mod_small by lia.
  rewrite !Forall_cons_iff. unfold in_width. split_and!; try done; lia.
Qed.

(** The PDUs of a call with a window at [ck]. *)
Lemma call_pdu_wf kind seq ck w : In kind [KIND_ENTER; KIND_RPC; KIND_COMPLETE; KIND_RPC_REPLY] -> in_width 32 seq ->
  0 <= ck -> ck + zlen w <= BOUNCE_POOL_SIZE -> pdu_wf (PduHeader_yielding kind seq (zlen w), yielding_enter ck, w).
Proof.
  intros Hk Hs H0 Hfit. pose proof (zlen_nonneg w). unfold BOUNCE_POOL_SIZE in Hfit. split_and!; [|apply enter_frame_wf; lia|done].
  split_and!; [done|done|done|]. cbn. unfold in_width. lia.
Qed.

(** What the guest receives: the ENTER with the window of the client's pool. *)
Lemma recv_whole h c seq ck w :
  pool_full h -> g_yielding (gate h) = false -> conn h = Some c -> in_width 32 seq ->
  cookie_a1a2 (yielding_enter ck) = ck -> 0 <= ck -> ck + zlen w <= BOUNCE_POOL_SIZE ->
  conn_rx c = pdu_bytes (PduHeader_yielding KIND_ENTER seq (zlen w), yielding_enter ck, w) ->
  recv_enter h = (Ok (yielding_enter ck),
    set_gate (set_mem (set_conn h (Some (conn_with c (conn_fwd_cnt c) []))) (splice (bounce_mem h) ck w))
      {| g_yielding := false; g_rx := None; g_tx := g_tx (gate h); g_seq := seq; last_cookie := ck;
         last_bounce_len := zlen w |}).
Proof.
  intros (P1 & P2 & P3) Hy Hc Hseq Hck H0 Hfit Hrx. pose proof (zlen_nonneg w).
  unfold recv_enter, next_pdu. rewrite Hc. unfold read_pdu.
  rewrite (take_pdu_whole c (PduHeader_yielding KIND_ENTER seq (zlen w), yielding_enter ck, w) [])
    by ((by apply call_pdu_wf; [left|..]) || by rewrite app_nil_r).
  unfold feed_pdu. cbn [pdu_arg_len PduHeader_yielding pdu_bounce_len].
  change (as_u32 CALL_FRAME_LEN) with CALL_FRAME_LEN. rewrite !Z.eqb_refl. cbn [negb]. rewrite Hck.
  unfold copy_bounce_in. rewrite checked_add_ok by (unfold BOUNCE_POOL_SIZE in *; lia). cbn [ok_or rbind].
  cbn [bounce_len bounce_mem set_conn]. rewrite P2, (proj2 (Z.ltb_ge _ _)) by lia.
  unfold index_range. rewrite get_range_some by (unfold BOUNCE_POOL_SIZE in *; lia). cbn [or_panic rbind].
  unfold gate_recv. cbn [gate set_gate set_mem set_conn gate_set_rx g_yielding g_rx]. rewrite Hy.
  change (is_frame_of KIND_ENTER _) with true. cbn [pdu_seq pdu_bounce_len PduHeader_yielding]. by rewrite Hck.
Qed.

(** The answer in the message: the result, and the size of the output. *)
Definition result_of (c : u32) : TeeResult := if c =? TEE_SUCCESS then TeeResult_ok else TeeResult_ta c.

Lemma write_done_echo mem ck hdr c sid i n o m size :
  bytes_ok mem -> zlen mem = BOUNCE_POOL_SIZE -> 0 <= ck -> ck + 96 <= BOUNCE_POOL_SIZE -> m_num_params hdr = 2 ->
  decode_msg mem ck = Ok (hdr, pad6 (shm_params i n o m), 96) ->
  in_width 32 c -> in_width 32 sid -> Forall (in_width 64) [i; n; o; size] ->
  let r := result_of c in
  exists mem', write_done mem ck (code r) (Origin_as_gp (origin r)) sid (shm_user i n o size) = Ok mem' /\
    zlen mem' = BOUNCE_POOL_SIZE /\ bytes_ok mem' /\
    decode_msg mem' ck = Ok (done_hdr hdr c (Origin_as_gp (origin r)) sid, pad6 (shm_params i n o size), 96) /\
    sub mem' ck 96 = hdr_bytes (done_hdr hdr c (Origin_as_gp (origin r)) sid) ++ params_bytes (shm_params i n o size) /\
    forall off len, 0 <= off -> 0 <= len -> ck + 96 <= off -> sub mem' off len = sub mem off len.
Proof.
  intros Hb Hz H0 Hck Hn Hd Hc Hs Hw r. inv_forall. unfold BOUNCE_POOL_SIZE in *.
  assert (code r = c) as -> by (unfold r, result_of; by destruct (Z.eqb_spec c TEE_SUCCESS) as [->|]).
  assert (in_width 32 (Origin_as_gp (origin r))) as Ho by (unfold r, result_of; destruct (c =? TEE_SUCCESS); by_compute).
  destruct (write_done_total mem ck c (Origin_as_gp (origin r)) sid (shm_user i n o size) Hb) as (m1 & E1 & Z1 & B1);
    [lia|lia|].
  destruct (write_done_message mem ck c (Origin_as_gp (origin r)) sid (shm_user i n o size) hdr
    (pad6 (shm_params i n o m)) 96 Hb) as (m2 & out & E2 & D2 & _ & _ & Hout & _ & K2 & I2);
    [lia|lia|rewrite !Forall_cons_iff; by split_and!|done| |exact Hd|].
  { unfold shm_user. rewrite !Forall_cons_iff. cbn [param_ok]. assert (in_width 64 0) by by_compute. by split_and!. }
  assert (m2 = m1) as -> by congruence. assert (out = shm_params i n o size) as ->.
  { rewrite Hn in Hout. apply Hout; [|by apply Nat.leb_le].
    change (take (Z.to_nat 2) (pad6 (shm_params i n o m))) with (shm_params i n o m).
    unfold shm_params. by rewrite !Forall_cons_iff. }
  exists m1. split_and!; [done|congruence|done|done|done|]. intros off len Hoff Hk Hge. apply K2; lia.
Qed.

(** What the guest's pool holds after the call: the answer in the message, and
    above it what the TA left. *)
Definition echo_answer (mem mem' : list u8) (ck : u64) (hdr : MsgArgHdr) (sid cmd i n o m : Z) : Prop :=
  let '(c, size, mem2) := echoed cmd mem i n o m in
  decode_msg mem' ck = Ok (done_hdr hdr c (Origin_as_gp (origin (result_of c))) sid, pad6 (shm_params i n o size), 96) /\
  sub mem' ck 96 = hdr_bytes (done_hdr hdr c (Origin_as_gp (origin (result_of c))) sid) ++ params_bytes (shm_params i n o size) /\
  forall off len, 0 <= off -> 0 <= len -> ck + 96 <= off -> sub mem' off len = sub mem2 off len.

(** The message is read in the first 96 bytes of its window. *)
Definition reads_as (mem : list u8) (ck : u64) (hdr : MsgArgHdr) (sid cmd i n o m : Z) : Prop :=
  m_num_params hdr = 2 /\ forall pool, zlen pool = BOUNCE_POOL_SIZE -> sub pool ck 96 = sub mem ck 96 ->
    decode_msg pool ck = Ok (hdr, pad6 (shm_params i n o m), 96) /\
    decode_cmd pool ck = Ok (Invoke sid cmd (shm_user i n o m) 0 TEE_TIMEOUT_INFINITE).

(** Message, input and output in the pool, in this order. *)
Definition laid_out (ck i n o m : Z) : Prop :=
  0 <= ck /\ ck + 96 <= i /\ 0 <= n /\ i + Z.max n 1 <= o /\ 0 <= m /\ o + Z.max m 1 <= BOUNCE_POOL_SIZE /\
  i mod 8 = 0 /\ o mod 8 = 0.

Lemma echoed_pool cmd mem i n o m c size mem2 ck :
  echoed cmd mem i n o m = (c, size, mem2) -> laid_out ck i n o m -> zlen mem = BOUNCE_POOL_SIZE -> bytes_ok mem ->
  zlen mem2 = BOUNCE_POOL_SIZE /\ bytes_ok mem2 /\ sub mem2 ck 96 = sub mem ck 96 /\ in_width 32 c /\ in_width 64 size.
Proof.
  intros E (L0 & L1 & L2 & L3 & L4 & L5 & _) Hz Hb. unfold BOUNCE_POOL_SIZE in *. unfold echoed in E.
  destruct (cmd =? 0); cbn [negb] in E; [|injection E as <- <- <-; split_and!; try done; unfold in_width; lia].
  destruct (Z.ltb_spec m n); injection E as <- <- <-; (split_and!; try done; try (unfold in_width; lia)).
  - rewrite zlen_splice; [done|lia|]. rewrite zlen_sub; lia.
  - auto with rust.
  - apply sub_splice_other; rewrite ?zlen_sub; lia.
Qed.

(** The packet that answers a call: COMPLETE with the window of the pool. *)
Definition complete_pdu (seq : u32) (ck : u64) (mem : list u8) (blen : Z) : Pdu :=
  (PduHeader_yielding KIND_COMPLETE seq blen, yielding_enter ck, sub mem ck blen).
Definition complete_packet (c : VsockConn) (p : Pdu) : list u8 :=
  VirtioVsockHdr_encode (wrap_rw c (pdu_bytes p)) ++ pdu_bytes p.

Lemma complete_rw_window g c ck :
  pool_full (hal (gk g)) -> conn (hal (gk g)) = Some c -> last_cookie (gate (hal (gk g))) = ck ->
  0 <= ck -> 0 <= last_bounce_len (gate (hal (gk g))) -> ck + last_bounce_len (gate (hal (gk g))) <= BOUNCE_POOL_SIZE ->
  exists gt, g_yielding gt = false /\ complete_rw g (yielding_enter ck) =
    Running (add_out (hal_mut g (set_gate (hal (gk g)) gt)) (complete_packet c
      (complete_pdu (g_seq (gate (hal (gk g)))) ck (bounce_mem (hal (gk g))) (last_bounce_len (gate (hal (gk g))))))).
Proof.
  intros (P1 & P2 & P3) Hc Hl H0 H1 Hfit. unfold BOUNCE_POOL_SIZE in *. unfold complete_rw, complete_stream, take_tx.
  cbn [gate set_gate gate_complete g_tx gate_take_tx last_cookie out_hdr pdu_bounce_len bounce_mem].
  rewrite Hl, uadd_ok by lia. cbn [rbind conn set_gate]. rewrite Hc, P1. rewrite (proj2 (Z.leb_le _ _)) by lia. cbn [ok_or rbind].
  eexists. split; [|reflexivity]. done.
Qed.

Lemma handle_enter_echo g sid iid ep free c ck hdr cmd i n o m blen :
  let h := hal (gk g) in let mem := bounce_mem h in
  RunsTa HelloTa T (ep_invoke ep) -> session_ready (gk g) sid iid ep -> pool_full h -> 0 <= pool_va h ->
  pool_va h + BOUNCE_POOL_SIZE < 2 ^ 64 -> free <= free_slots (shms h) -> 2 <= free -> conn h = Some c ->
  cookie_a1a2 (yielding_enter ck) = ck -> last_cookie (gate h) = ck -> last_bounce_len (gate h) = blen -> 96 <= blen ->
  ck + blen <= BOUNCE_POOL_SIZE -> laid_out ck i n o m -> in_width 32 sid -> reads_as mem ck hdr sid cmd i n o m ->
  exists k' mem', handle_enter image_addr g (yielding_enter ck) =
      Running (add_out (set_k g k') (complete_packet c (complete_pdu (g_seq (gate h)) ck mem' blen))) /\
    echo_answer mem mem' ck hdr sid cmd i n o m /\ zlen mem' = BOUNCE_POOL_SIZE /\ bytes_ok mem' /\
    session_ready k' sid iid ep /\ pool_full (hal k') /\ pool_va (hal k') = pool_va h /\ conn (hal k') = Some c /\
    g_yielding (gate (hal k')) = false /\ free - 2 <= free_slots (shms (hal k')).
Proof.
  intros h mem Hrun Hs Hp V0 V1 Hf Hf2 Hc Hck Hlc Hlb Hbl Hfit Hlay Hsid [Hn Hread].
  pose proof Hp as (P1 & P2 & P3). pose proof Hlay as (L0 & L1 & L2 & L3 & L4 & L5 & L6 & L7).
  destruct (Hread mem P1 eq_refl) as [_ Hcmd].
  unfold handle_enter. fold h. rewrite Hck, bounce_at_full by done. fold mem. rewrite Hcmd.
  destruct (import_user h sid cmd i n o m 0 TEE_TIMEOUT_INFINITE P2 P1 V0 V1) as (l & -> & Hbuf & Hfree); [lia..|done|done|].
  set (h1 := set_shms h l) in *. unfold handle_cmd. change (guest_hal image_addr) with stack_hal.
  change (gk (hal_mut g h1)) with (set_hal (gk g) h1).
  pose proof (invoke_hello (set_hal (gk g) h1) sid iid ep cmd i n o m TEE_TIMEOUT_INFINITE Hs Hrun Hbuf) as Hinv.
  change (bounce_mem (hal (set_hal (gk g) h1))) with mem in Hinv. unfold echo_answer.
  destruct (echoed cmd mem i n o m) as [[cd size] mem2] eqn:Eech.
  destruct (echoed_pool _ _ _ _ _ _ _ _ _ ck Eech Hlay P1 P3) as (Z2 & B2 & W2 & Wc & Ws).
  destruct Hinv as (k1 & -> & Hh1 & Hs1). cbn [dispatch_out]. fold (result_of cd).
  change (default 0 (Some sid)) with sid. rewrite Hck.
  destruct (Hread mem2 Z2 W2) as [Hmsg _].
  destruct (write_done_echo mem2 ck hdr cd sid i n o m size B2 Z2) as (mem3 & Hw & Z3 & B3 & Hd3 & I3 & K3);
    [lia..|done|done|done|done|rewrite !Forall_cons_iff; unfold BOUNCE_POOL_SIZE in *; unfold in_width in *; split_and!; try done; lia|].
  assert (pool_full (hal k1)) as Hp1 by (rewrite Hh1; by split_and!).
  unfold write_done_at. change (gk (set_k (hal_mut g h1) k1)) with k1. rewrite bounce_at_full by done.
  assert (bounce_mem (hal k1) = mem2) as Hm1 by (by rewrite Hh1). rewrite Hm1, Hw.
  rewrite splice_all by congruence. cbn [gbind]. rewrite Hh1.
  set (h3 := set_mem (set_mem (hal (set_hal (gk g) h1)) mem2) mem3).
  destruct (complete_rw_window (hal_mut (set_k (hal_mut g h1) k1) h3) c ck) as (gt & Hy & Hcr); try done;
    [change (0 <= last_bounce_len (gate h)); lia|change (ck + last_bounce_len (gate h) <= BOUNCE_POOL_SIZE); lia|].
  rewrite Hcr. exists (set_hal (set_hal k1 h3) (set_gate h3 gt)), mem3.
  split; [by rewrite <- Hlb|]. split_and!; try done.
  - apply (session_ready_hal k1); [done|]. by rewrite Hh1.
  - change (free - 2 <= free_slots l). lia.
Qed.

(** The packet that completes the ENTER: the guest runs the call and sends
    COMPLETE and its credit. *)
Lemma push_last g sid iid ep free rx ch c seq ck w hdr cmd i n o m :
  RunsTa HelloTa T (ep_invoke ep) -> serving_guest g sid iid ep free rx -> conn (hal (gk g)) = Some c -> 2 <= free ->
  rx ++ ch = pdu_bytes (PduHeader_yielding KIND_ENTER seq (zlen w), yielding_enter ck, w) ->
  zlen ch <= RW_MAX -> bytes_ok w -> in_width 32 seq -> cookie_a1a2 (yielding_enter ck) = ck -> 96 <= zlen w ->
  ck + zlen w <= BOUNCE_POOL_SIZE -> laid_out ck i n o m -> in_width 32 sid ->
  reads_as (splice (bounce_mem (hal (gk g))) ck w) ck hdr sid cmd i n o m ->
  exists g' mem' pkt credit, vsock_step image_addr g (host_packet c ch) = Running g' /\
    serving_guest g' sid iid ep (free - 2) [] /\ tx g' = tx g ++ [pkt; credit] /\
    host_recv pkt = pdu_bytes (complete_pdu seq ck mem' (zlen w)) /\ host_recv credit = [] /\
    echo_answer (splice (bounce_mem (hal (gk g))) ck w) mem' ck hdr sid cmd i n o m /\ zlen mem' = BOUNCE_POOL_SIZE /\
    bytes_ok mem'.
Proof.
  intros Hrun (Hw & Hp & V0 & V1 & Hy & Hs & Hf & c' & Hc & Hwf & Hrx) Hc' Hf2 Hpdu Hl Hb Hseq Hck Hbl Hfit Hlay Hsid Hread.
  assert (c' = c) as -> by congruence. destruct (step_rw g c ch Hc Hwf Hl) as [-> Hpush].
  set (c1 := conn_with c (wrapping_add 32 (conn_fwd_cnt c) (zlen ch)) (conn_rx c ++ ch)) in *.
  assert (0 <= ck) as H0 by (rewrite <- Hck; apply cookie_nonneg).
  unfold on_rw. rewrite Hpush. cbn [waiting hal_mut set_k]. rewrite Hw.
  rewrite (recv_whole (set_conn (hal (gk g)) (Some c1)) c1 seq ck w); try done; [|cbn [conn_rx c1 conn_with]; by rewrite Hrx].
  set (c2 := conn_with c1 (conn_fwd_cnt c1) []). assert (conn_wf c2) as Hwf2 by exact (conn_with_wf c (zlen ch) [] Hwf).
  set (h2 := set_gate _ _). set (g1 := hal_mut (hal_mut g _) h2).
  assert (pool_full h2) as Hp2.
  { destruct Hp as (P1 & P2 & P3). split_and!; [|done|].
    - change (zlen (splice (bounce_mem (hal (gk g))) ck w) = BOUNCE_POOL_SIZE). rewrite zlen_splice; [done|done|]. by rewrite P1.
    - change (bytes_ok (splice (bounce_mem (hal (gk g))) ck w)). auto with rust. }
  destruct (handle_enter_echo g1 sid iid ep free c2 ck hdr cmd i n o m (zlen w) Hrun) as
    (k' & mem' & -> & Ha & Zm & Bm & Hs' & Hp' & Hv' & Hc2 & Hy' & Hf'); try done.
  cbn [gbind]. unfold send_credit, credit_update. cbn [gk add_out set_k]. rewrite Hc2. cbn [ok_or rbind].
  eexists _, mem', _, _. split; [reflexivity|]. split; [|split; [cbn [tx add_out set_k]; rewrite <- app_assoc; reflexivity|]].
  - split_and!; try done; cbn [gk add_out set_k]; rewrite ?Hv'; try done. by exists c2.
  - split_and!; [|by apply host_recv_credit|done..]. apply host_recv_rw; [done|]. cbn [pdu_bytes complete_pdu].
    unfold BOUNCE_POOL_SIZE in *. rewrite zlen_pdu_bytes by (apply enter_frame_wf; lia). rewrite zlen_sub; lia.
Qed.

(** * The link between client and guest *)

(** The client's end of the connection: the guest at the other end and what it
    has sent that the client has not read.  What the client writes reaches the
    guest in packets the host's driver cuts, whatever it cuts them into, as long
    as each fits the receive buffer the guest offered. *)
Record Link := { lk_guest : gout (PTA:=PTA); lk_in : list u8 }.

Class Packets (cut : list u8 -> list (list u8)) := cut_ok b : concat (cut b) = b /\ Forall (fun ch => ch <> [] /\ zlen ch <= RW_MAX) (cut b).
Context (cut : list u8 -> list (list u8)) `{!Packets cut}.

Fixpoint deliver (chs : list (list u8)) (o : gout (PTA:=PTA)) : gout :=
  match chs with
  | [] => o
  | ch :: chs' =>
      deliver chs' (gbind o (fun g => match conn (hal (gk g)) with
                                      | Some c => vsock_step image_addr g (host_packet c ch)
                                      | None => Running g
                                      end))
  end.

Definition received (old new : G) : list u8 := concat (map host_recv (drop (length (tx old)) (tx new))).

#[local] Instance link_stream : Stream Link :=
  {| write_all := fun s b =>
       match lk_guest s with
       | Running g =>
           match deliver (cut b) (Running g) with
           | Running g' => (true, {| lk_guest := Running g'; lk_in := lk_in s ++ received g g' |})
           | o => (true, {| lk_guest := o; lk_in := lk_in s |})
           end
       | _ => (false, s)
       end;
     read_exact := fun s n =>
       if zlen (lk_in s) <? n then (false, lk_in s, {| lk_guest := lk_guest s; lk_in := [] |})
       else (true, sub (lk_in s) 0 n, {| lk_guest := lk_guest s; lk_in := drop (Z.to_nat n) (lk_in s) |}) |}.

#[local] Program Instance link_bytes : ByteStream Link :=
  {| pending := lk_in; set_pending := fun s b => {| lk_guest := lk_guest s; lk_in := b |} |}.
Next Obligation. done. Qed.
Next Obligation. done. Qed.
Next Obligation. intros s a b n Hi Hn. cbn. rewrite Hi. by destruct (read_front a b n Hn) as (-> & -> & ->). Qed.

(** Packets that leave the PDU incomplete. *)
Lemma deliver_partial chs g sid iid ep free rx p rest :
  serving_guest g sid iid ep free rx -> pdu_wf p -> pdu_bytes p = rx ++ concat chs ++ rest -> rest <> [] ->
  Forall (fun ch => ch <> [] /\ zlen ch <= RW_MAX) chs ->
  exists g' pkts, deliver chs (Running g) = Running g' /\ serving_guest g' sid iid ep free (rx ++ concat chs) /\
    tx g' = tx g ++ pkts /\ concat (map host_recv pkts) = [].
Proof.
  revert g rx. induction chs as [|ch chs IH]; intros g rx Hg Hp Hb Hne Hl.
  { exists g, []. cbn [concat] in *. rewrite !app_nil_r. by split_and!. }
  cbn [concat] in *. apply Forall_cons_iff in Hl as [[_ Hch] Hl].
  pose proof Hg as (_ & _ & _ & _ & _ & _ & _ & c & Hc & _).
  destruct (push_partial g sid iid ep free rx ch p (concat chs ++ rest) c Hg Hc Hp) as (g1 & cr & E1 & Hg1 & T1 & R1);
    [by rewrite <- !app_assoc in *|by destruct (concat chs)|done|].
  destruct (IH g1 (rx ++ ch) Hg1 Hp) as (g2 & pkts & E2 & Hg2 & T2 & R2); [by rewrite <- !app_assoc in *|done|done|].
  exists g2, (cr :: pkts). cbn [deliver gbind]. rewrite Hc, E1. split; [done|]. split; [by rewrite app_assoc|].
  split; [rewrite T2, T1, <- app_assoc; done|]. cbn [map concat]. by rewrite R1, R2.
Qed.

(** What the client sends: [L] bytes of its pool from [ck], the message first. *)
Definition call_ok (b : list u8) (seq : u32) (ck : u64) (L : Z) (hdr : MsgArgHdr) (sid cmd i n o m : Z) : Prop :=
  zlen b = BOUNCE_POOL_SIZE /\ bytes_ok b /\ in_width 32 seq /\ cookie_a1a2 (yielding_enter ck) = ck /\ 96 <= L /\
  ck + L <= BOUNCE_POOL_SIZE /\ laid_out ck i n o m /\ in_width 32 sid /\ reads_as b ck hdr sid cmd i n o m.

(** What comes back: a pool of the guest whose window the COMPLETE carries, with
    the answer to the call made on the window sent. *)
Definition answered_call (b mem' : list u8) (ck : u64) (L : Z) (hdr : MsgArgHdr) (sid cmd i n o m : Z) : Prop :=
  zlen mem' = BOUNCE_POOL_SIZE /\ bytes_ok mem' /\
  exists gmem, zlen gmem = BOUNCE_POOL_SIZE /\ echo_answer (splice gmem ck (sub b ck L)) mem' ck hdr sid cmd i n o m.

Definition enter_pdu (b : list u8) (seq : u32) (ck : u64) (L : Z) : Pdu :=
  (PduHeader_yielding KIND_ENTER seq L, yielding_enter ck, sub b ck L).

Lemma reads_as_window gmem b ck L hdr sid cmd i n o m :
  reads_as b ck hdr sid cmd i n o m -> zlen gmem = BOUNCE_POOL_SIZE -> zlen b = BOUNCE_POOL_SIZE -> 0 <= ck -> 96 <= L ->
  ck + L <= BOUNCE_POOL_SIZE -> reads_as (splice gmem ck (sub b ck L)) ck hdr sid cmd i n o m.
Proof.
  intros [Hn Hr] Hg Hb H0 H96 Hfit. split; [done|]. intros pool Hp Hs. apply Hr; [done|]. rewrite Hs.
  assert (sub (splice gmem ck (sub b ck L)) ck L = sub b ck L) as Hw by (apply sub_splice_same; rewrite ?zlen_sub; lia).
  pose proof (sub_sub (splice gmem ck (sub b ck L)) ck L 0 96) as S1. pose proof (sub_sub b ck L 0 96) as S2.
  rewrite Z.add_0_r in S1, S2. rewrite <- S1, <- S2, Hw by lia. done.
Qed.

Lemma deliver_last chs g sid iid ep free rx b seq ck L hdr cmd i n o m :
  RunsTa HelloTa T (ep_invoke ep) -> serving_guest g sid iid ep free rx -> 2 <= free ->
  call_ok b seq ck L hdr sid cmd i n o m -> rx ++ concat chs = pdu_bytes (enter_pdu b seq ck L) ->
  Forall (fun ch => ch <> [] /\ zlen ch <= RW_MAX) chs -> chs <> [] ->
  exists g' pkts mem', deliver chs (Running g) = Running g' /\ serving_guest g' sid iid ep (free - 2) [] /\
    tx g' = tx g ++ pkts /\ concat (map host_recv pkts) = pdu_bytes (complete_pdu seq ck mem' L) /\
    answered_call b mem' ck L hdr sid cmd i n o m.
Proof.
  intros Hrun Hg Hf Hcall. pose proof Hcall as (Zb & Bb & Hseq & Hck & HL & Hfit & Hlay & Hsid & Hread).
  assert (0 <= ck) as H0 by (rewrite <- Hck; apply cookie_nonneg).
  assert (zlen (sub b ck L) = L) as Hw by (apply zlen_sub; lia).
  revert g rx Hg. induction chs as [|ch chs IH]; intros g rx Hg Hpdu Hne Hnil; [done|].
  apply Forall_cons_iff in Hne as [[Hch Hlch] Hne]. cbn [concat] in Hpdu.
  pose proof Hg as (_ & (Pz & _) & _ & _ & _ & _ & _ & c & Hc & _). cbn [deliver gbind]. rewrite Hc.
  destruct chs as [|ch2 chs].
  - cbn [concat] in Hpdu. rewrite app_nil_r in Hpdu.
    destruct (push_last g sid iid ep free rx ch c seq ck (sub b ck L) hdr cmd i n o m Hrun Hg Hc Hf)
      as (g' & mem' & pkt & cr & E & Hg' & Tx & R1 & R2 & Ha & Zm & Bm); rewrite ?Hw; try done.
    { by apply bytes_ok_sub. }
    { by apply reads_as_window. }
    exists g', [pkt; cr], mem'. cbn [deliver]. split; [exact E|]. split; [done|]. split; [done|].
    cbn [map concat]. rewrite R1, R2, Hw, !app_nil_r. split; [done|]. split_and!; [done|done|].
    exists (bounce_mem (hal (gk g))). by split.
  - assert (concat (ch2 :: chs) <> []) as Hrest by (apply Forall_cons_iff in Hne as [[H2 _] _]; by destruct ch2).
    destruct (push_partial g sid iid ep free rx ch (enter_pdu b seq ck L) (concat (ch2 :: chs)) c Hg Hc)
      as (g1 & cr & E1 & Hg1 & T1 & R1);
      [unfold enter_pdu; rewrite <- Hw at 1; apply call_pdu_wf; [by left|done|done|by rewrite Hw]|by rewrite <- app_assoc, <- Hpdu|done|done|].
    destruct (IH g1 (rx ++ ch) Hg1) as (g2 & pkts & mem' & E2 & Hg2 & T2 & R2 & Ha);
      [by rewrite <- app_assoc|done|done|].
    exists g2, (cr :: pkts), mem'. rewrite E1. split; [exact E2|]. split; [done|].
    split; [rewrite T2, T1, <- app_assoc; done|]. cbn [map concat]. rewrite R1. by split.
Qed.

Lemma write_link s g x g' pkts :
  lk_guest s = Running g -> deliver (cut x) (Running g) = Running g' -> tx g' = tx g ++ pkts ->
  write_all s x = (true, {| lk_guest := Running g'; lk_in := lk_in s ++ concat (map host_recv pkts) |}).
Proof.
  intros Hs Hd Ht. cbn [write_all link_stream]. rewrite Hs, Hd. unfold received. by rewrite Ht, drop_app_length.
Qed.

Lemma enter_cookie ck : 0 <= ck < 2 ^ 32 -> cookie (yielding_enter ck) = ck.
Proof.
  intros Hck. unfold cookie. change (reg (yielding_enter ck) 1) with (Z.shiftr ck 32).
  change (reg (yielding_enter ck) 2) with (Z.land ck 0xffffffff).
  assert (Z.shiftr ck 32 = 0) as -> by (rewrite Z.shiftr_div_pow2 by lia; apply Z.div_small; lia).
  change 0xffffffff with (Z.ones 32). rewrite !Z.land_ones by lia. rewrite Z.mod_mod, (Z.mod_small ck) by lia. apply Z.lor_0_l.
Qed.

(** Writing the ENTER runs the call. *)
Lemma link_write_enter s g sid iid ep free b seq ck L hdr cmd i n o m :
  RunsTa HelloTa T (ep_invoke ep) -> lk_guest s = Running g -> lk_in s = [] -> serving_guest g sid iid ep free [] ->
  2 <= free -> call_ok b seq ck L hdr sid cmd i n o m ->
  exists g' mem', write_pdu s KIND_ENTER seq (yielding_enter ck) b L =
      (Ok tt, {| lk_guest := Running g'; lk_in := pdu_bytes (complete_pdu seq ck mem' L) |}) /\
    serving_guest g' sid iid ep (free - 2) [] /\ answered_call b mem' ck L hdr sid cmd i n o m.
Proof.
  intros Hrun Hs Hin Hg Hf Hcall. pose proof Hcall as (Zb & _ & Hseq & Hck & HL & Hfit & _).
  assert (0 <= ck) as H0 by (rewrite <- Hck; apply cookie_nonneg). unfold BOUNCE_POOL_SIZE in Hfit, Zb.
  set (x1 := PduHeader_encode (PduHeader_yielding KIND_ENTER seq L)). set (x2 := CallFrame_encode (yielding_enter ck)).
  set (x3 := sub b ck L). assert (zlen x3 = L) as H3 by (apply zlen_sub; lia).
  assert (x3 <> []) as N3 by (intros E; rewrite E in H3; change (0 = L) in H3; lia).
  assert (pdu_wf (enter_pdu b seq ck L)) as Hpwf.
  { unfold enter_pdu. fold x3. rewrite <- H3 at 1. apply call_pdu_wf; [by left|done|done|unfold BOUNCE_POOL_SIZE; lia]. }
  assert (pdu_bytes (enter_pdu b seq ck L) = x1 ++ x2 ++ x3) as Hpb by reflexivity.
  assert (zlen x1 = 16) as H1 by reflexivity.
  assert (zlen x2 = 64) as H2 by (apply (zlen_encode_frame (yielding_enter ck)), enter_frame_wf; lia).
  destruct (cut_ok x1) as [C1 N1], (cut_ok x2) as [C2 N2], (cut_ok x3) as [C3 N].
  destruct (deliver_partial (cut x1) g sid iid ep free [] _ (x2 ++ x3) Hg Hpwf) as (g1 & p1 & E1 & Hg1 & T1 & R1);
    [by rewrite C1|by destruct x2|done|]. rewrite C1 in Hg1.
  destruct (deliver_partial (cut x2) g1 sid iid ep free x1 _ x3 Hg1 Hpwf) as (g2 & p2 & E2 & Hg2 & T2 & R2);
    [by rewrite C2|done|done|]. rewrite C2 in Hg2.
  destruct (deliver_last (cut x3) g2 sid iid ep free (x1 ++ x2) b seq ck L hdr cmd i n o m Hrun Hg2 Hf Hcall)
    as (g3 & p3 & mem' & E3 & Hg3 & T3 & R3 & Ha); [by rewrite C3, <- app_assoc|done|by intros E; rewrite E in C3|].
  exists g3, mem'. split; [|by split]. unfold write_pdu. fold x1 x2.
  rewrite (write_link s g x1 g1 p1 Hs E1 T1). cbn [negb]. erewrite write_link; [|reflexivity|exact E2|exact T2]. cbn [negb].
  rewrite enter_cookie by lia. rewrite checked_add_ok by lia. rewrite (proj2 (Z.ltb_ge _ _)) by lia. fold x3.
  erewrite write_link; [|reflexivity|exact E3|exact T3]. cbn [negb lk_in]. by rewrite Hin, R1, R2, R3.
Qed.

(** * The client's call *)

(** The transport: at most [fuel] requests of the guest before it completes; none
    is made here.  [None] of the loop is a peer that asks for more. *)
Context (fuel : nat).
#[local] Instance link_transport : Transport (StreamTransport Link) :=
  {| enter := fun t f b n => default (Panic, b, t) (stream_enter (S fuel) t f b n) |}.

(** A client connected to a guest that serves its session. *)
Definition connected (c : Context (StreamTransport Link)) (sid : SessionId) (iid : InstanceId) (ep : TaEntryPoints)
  (free : Z) : Prop :=
  zlen (bounce c) = BOUNCE_POOL_SIZE /\ bytes_ok (bounce c) /\ 0 <= bump c /\ Client.yielding (transport c) = false /\
  in_width 32 (st_seq (transport c)) /\
  exists g, sock (transport c) = {| lk_guest := Running g; lk_in := [] |} /\ serving_guest g sid iid ep free [].

(** One call over the link: the window comes back with the answer. *)
Lemma enter_link (c : Context (StreamTransport Link)) sid iid ep free ck L hdr cmd i n o m :
  RunsTa HelloTa T (ep_invoke ep) -> connected c sid iid ep free -> 2 <= free ->
  call_ok (bounce c) (st_seq (transport c)) ck L hdr sid cmd i n o m ->
  exists c' mem', ctx_enter c (yielding_enter ck) L = (Ok (yielding_enter ck), c') /\
    connected c' sid iid ep (free - 2) /\ bump c' = bump c /\
    bounce c' = splice (bounce c) ck (sub mem' ck L) /\ answered_call (bounce c) mem' ck L hdr sid cmd i n o m.
Proof.
  intros Hrun (Zc & Bc & H0 & Hy & Hseq & g & Hsock & Hg) Hf Hcall.
  pose proof Hcall as (_ & _ & _ & Hck & HL & Hfit & _).
  assert (0 <= ck) as Hck0 by (rewrite <- Hck; apply cookie_nonneg). unfold BOUNCE_POOL_SIZE in Hfit, Zc.
  destruct (link_write_enter (sock (transport c)) g sid iid ep free (bounce c) (st_seq (transport c)) ck L hdr cmd i n o m)
    as (g' & mem' & Hw & Hg' & Ha); try done; [by rewrite Hsock..|].
  pose proof Ha as (Zm & Bm & _). unfold BOUNCE_POOL_SIZE in Zm.
  assert (zlen (sub mem' ck L) = L) as Hz by (apply zlen_sub; lia).
  unfold ctx_enter. cbn [enter link_transport]. unfold stream_enter. rewrite Hy. cbn [sock]. rewrite Hw.
  cbn [enter_loop sock set_sock].
  rewrite (wire_read_bytes _ (bounce c) (PduHeader_yielding KIND_COMPLETE (st_seq (transport c)) L) (yielding_enter ck)
    (sub mem' ck L) []);
    [|rewrite <- Hz at 1; apply call_pdu_wf; [by right; right; left|done|done|unfold BOUNCE_POOL_SIZE; lia]
     |by rewrite app_nil_r|rewrite enter_cookie by lia; lia|rewrite enter_cookie by lia; lia|lia].
  rewrite enter_cookie by lia.
  change (pdu_kind (PduHeader_yielding KIND_COMPLETE (st_seq (transport c)) L) =? KIND_COMPLETE) with true.
  cbn [default]. eexists _, mem'. split; [reflexivity|]. split; [|by split_and!].
  split_and!; cbn [bounce bump transport Client.yielding set_st_yielding set_sock st_seq sock]; try done.
  - rewrite zlen_splice; [done|lia|lia].
  - apply bytes_ok_splice; [done|by apply bytes_ok_sub].
  - by apply wrap_width.
  - by exists g'.
Qed.

(** A part of a window copied from one pool into another. *)
Lemma sub_copied (x y : list u8) ck L off len :
  0 <= ck -> 0 <= L -> zlen x = zlen y -> ck + L <= zlen y -> ck <= off -> 0 <= len -> off + len <= ck + L ->
  sub (splice x ck (sub y ck L)) off len = sub y off len.
Proof.
  intros H0 HL Hz Hfit Ho Hl He. assert (zlen (sub y ck L) = L) as Hw by (apply zlen_sub; lia).
  pose proof (sub_sub (splice x ck (sub y ck L)) ck L (off - ck) len) as S1. pose proof (sub_sub y ck L (off - ck) len) as S2.
  replace (ck + (off - ck)) with off in S1, S2 by lia. rewrite <- S1, <- S2 by lia. f_equal. apply sub_splice_same; lia.
Qed.

(** What the caller of the echo command gets: its bytes back, or the TA's error. *)
Definition hello_answer (cmd : u32) (src dst : list u8) : res u32 (usize * list u8) :=
  if negb (cmd =? 0) then Err TEE_ERROR_NOT_SUPPORTED
  else if zlen dst <? zlen src then Err TEE_ERROR_SHORT_BUFFER
  else Ok (zlen src, src ++ drop (length src) dst).

(** The client reads the answer out of the window that came back. *)
Lemma read_echo (c' : Context (StreamTransport Link)) b mem' ck cmd sid i o src dst :
  let n := zlen src in let m := zlen dst in let L := o + m - ck in
  laid_out ck i n o m -> zlen b = BOUNCE_POOL_SIZE -> ck mod 8 = 0 -> sub b i n = src ->
  answered_call b mem' ck L (msg_hdr MSG_CMD_INVOKE_COMMAND cmd sid 2) sid cmd i n o m ->
  bounce c' = splice b ck (sub mem' ck L) ->
  (let? (_, params) := read_answer c' ck in copy_out c' o dst params) = hello_answer cmd src dst.
Proof.
  intros n m L (L0 & L1 & L2 & L3 & L4 & L5 & _) Zb C8 Hsrc (Zm & Bm & gmem & Zg & Ha) Hb. unfold BOUNCE_POOL_SIZE in *.
  unfold echo_answer in Ha. set (w := splice gmem ck (sub b ck L)) in *.
  assert (zlen w = BOUNCE_POOL_SIZE) as Zw by (unfold w; rewrite zlen_splice; rewrite ?zlen_sub; unfold L, BOUNCE_POOL_SIZE; lia).
  assert (zlen (bounce c') = BOUNCE_POOL_SIZE) as Zc
    by (rewrite Hb, zlen_splice; rewrite ?zlen_sub; unfold L, BOUNCE_POOL_SIZE; lia).
  assert (forall off len, ck <= off -> 0 <= len -> off + len <= o + m -> sub (bounce c') off len = sub mem' off len) as Hwin.
  { intros off len H1 H2 H3. rewrite Hb. apply sub_copied; unfold L; lia. }
  assert (sub w i n = src) as Hwi by (rewrite <- Hsrc; apply sub_copied; unfold L; lia).
  destruct (echoed cmd w i n o m) as [[cd size] mem2] eqn:E. destruct Ha as (Hd & Hi & Hk).
  set (h' := done_hdr _ _ _ _) in *. set (ps := shm_params i n o size) in *.
  destruct (decode_msg_wf mem' ck _ _ _ Bm ltac:(lia) ltac:(lia) Hd) as (Hwf & Hps & _).
  assert (Forall MsgParam_wf ps) as Hps' by exact (list.Forall_take _ 2 _ Hps).
  assert (decode_msg (bounce c') ck = Ok (h', pad6 ps, 96)) as Hdc.
  { apply (decode_sent (bounce c') mem' ck h' ps); try done; change (byte_size h') with 96; [unfold BOUNCE_POOL_SIZE; lia|].
    rewrite Hwin by lia. rewrite sub_splice_same; [exact Hi|by rewrite <- Hi, zlen_sub by lia|lia|lia]. }
  unfold read_answer. rewrite Hdc. cbn [map_err rbind]. change (m_ret h') with cd.
  unfold echoed in E. unfold hello_answer. fold n m.
  destruct (cmd =? 0); cbn [negb] in E |- *; [|by injection E as <- <- <-].
  destruct (Z.ltb_spec m n); injection E as <- <- <-; [done|]. cbn [negb Z.eqb TEE_SUCCESS TEEC_SUCCESS rbind].
  unfold copy_out. change (pad6 ps !! 1%nat) with (Some (MsgParam_tmem ATTR_TYPE_TMEM_OUTPUT o n o)).
  cbn [or_panic rbind p_b MsgParam_tmem]. fold m. rewrite Z.min_l by lia.
  unfold index_range. unfold BOUNCE_POOL_SIZE in Zc, Zw. rewrite get_range_some by lia. cbn [or_panic rbind].
  replace (o + n - o) with n by lia. rewrite Hwin, Hk by lia.
  rewrite sub_splice_same by (rewrite ?zlen_sub; lia). rewrite Hwi. do 2 f_equal.
Qed.

Lemma invoke_shm_echo c sid iid ep free cmd src dst :
  RunsTa HelloTa T (ep_invoke ep) -> connected c sid iid ep free -> 2 <= free -> in_width 32 sid -> in_width 32 cmd ->
  bytes_ok src -> zlen src <= TEEC_CONFIG_SHAREDMEM_MAX_SIZE -> zlen dst <= TEEC_CONFIG_SHAREDMEM_MAX_SIZE ->
  bump c + zlen src + zlen dst + 128 <= BOUNCE_POOL_SIZE ->
  exists c', invoke_shm c sid cmd src dst = (hello_answer cmd src dst, c') /\ connected c' sid iid ep (free - 2) /\
    bump c' <= bump c + zlen src + zlen dst + 122.
Proof.
  intros Hrun Hc Hf Hsid Hcmd Bs Ls Ld Hroom. pose proof Hc as (Zc & Bc & H0 & Hy & Hseq & g & Hsock & Hg).
  pose proof (zlen_nonneg src). pose proof (zlen_nonneg dst).
  destruct (invoke_shm_reaches_kernel c sid cmd src dst Zc H0 Ls Ld Hroom Hsid Hcmd) as
    (ck & i & o & b & Hck & Hge & C8 & G1 & G2 & I8 & O8 & G3 & G4 & Zb & Bb & Hsrc & Heq & Hread).
  cbv zeta in Heq, Hread. set (c1 := set_bounce _ b) in Heq.
  assert (connected c1 sid iid ep free) as Hc1.
  { split_and!; [done|by apply Bb|cbn; lia|done|done|by exists g]. }
  assert (laid_out ck i (zlen src) o (zlen dst)) as Hlay by (split_and!; try done; lia).
  destruct (enter_link c1 sid iid ep free ck (o + zlen dst - ck) (msg_hdr MSG_CMD_INVOKE_COMMAND cmd sid 2) cmd i
    (zlen src) o (zlen dst) Hrun Hc1 Hf) as (c' & mem' & Ee & Hc' & Hbump & Hb & Ha).
  { split_and!; [done|by apply Bb|done|done|lia|lia|done|done|]. split; [done|]. intros pool Hp Hs. by apply Hread. }
  rewrite Heq, Ee. cbn [rbind]. exists c'. split; [|split; [done|rewrite Hbump; cbn [bump c1 set_bounce set_bump]; lia]].
  f_equal. by apply (read_echo c' b mem' ck cmd sid i o src dst).
Qed.

(** A client that makes one call after the other on its session. *)
Fixpoint invoke_all (c : Context (StreamTransport Link)) (sid : SessionId) (reqs : list (u32 * list u8 * list u8))
  : list (res u32 (usize * list u8)) * Context (StreamTransport Link) :=
  match reqs with
  | [] => ([], c)
  | (cmd, src, dst) :: reqs' =>
      let '(r, c) := invoke_shm c sid cmd src dst in
      let '(rs, c) := invoke_all c sid reqs' in (r :: rs, c)
  end.

Definition req_ok (r : u32 * list u8 * list u8) : Prop :=
  let '(cmd, src, dst) := r in
  in_width 32 cmd /\ bytes_ok src /\ zlen src <= TEEC_CONFIG_SHAREDMEM_MAX_SIZE /\ zlen dst <= TEEC_CONFIG_SHAREDMEM_MAX_SIZE.
Definition req_size (r : u32 * list u8 * list u8) : Z := let '(_, src, dst) := r in zlen src + zlen dst + 128.
Definition req_sizes (rs : list (u32 * list u8 * list u8)) : Z := foldr (fun r acc => req_size r + acc) 0 rs.

End Stack.

(** * A session of three calls *)

Module Demo.
Import KernelProps.Sample.
(** The entry points of hello-rs. *)
#[global] Instance hello_code : TaCode VirtHal :=
  {| ta_create := fun _ h => Returned TEE_SUCCESS h;
     ta_destroy := fun _ h => Returned tt h;
     ta_open_session := fun _ _ raw h => Returned (TEE_SUCCESS, raw, 0) h;
     ta_close_session := fun _ _ h => Returned tt h;
     ta_invoke := fun _ ctx cmd types raw h => @run_invoke HelloTa (zeros (pool_va h)) ctx cmd types raw h |}.
#[global] Instance hello_runs addr : RunsTa HelloTa hello_code addr.
Proof. intros ctx cmd types raw h Hv. exists (zeros (pool_va h)). split; [by apply zlen_zeros|done]. Qed.

(** One byte per packet. *)
Definition bytewise (b : list u8) : list (list u8) := map (fun x => [x]) b.
#[global] Instance bytewise_ok : Packets bytewise.
Proof.
  intros b. unfold bytewise. induction b as [|x b [IH1 IH2]]; [done|]. cbn [map concat app].
  split; [by rewrite IH1|]. by constructor; [split; [|by_compute]|].
Qed.

Definition addr_of : list (list u8) -> u64 := fun _ => 0x50000000.
#[local] Instance demo_hal : HalOps VirtHal VirtAs := virt_hal addr_of.
Definition early_hello : EarlyTa :=
  {| et_uuid := HELLO_UUID; et_props := hello_props; et_image := []; et_entries := Some eps |}.
Definition kernel : Kernel VirtHal VirtAs unit := KernelProps.boot HalVirt.Sample.small writer None [] [early_hello].
Definition opened : Kernel VirtHal VirtAs unit :=
  match handle true kernel (OpenSession HELLO_UUID Public none_params 9 0) with KRet _ k => k | KPanic k => k end.

Lemma opened_table : InstanceTable.ok (instances opened).
Proof.
  pose proof (KernelProps.boot_ok (H:=VirtHal) (AS:=VirtAs) (PTA:=unit) HalVirt.Sample.small writer None [] [early_hello])
    as (Hb & Hid & _).
  pose proof (handle_inv true 1 1 kernel (OpenSession HELLO_UUID Public none_params 9 0) Hb Hid ltac:(by_compute)
    ltac:(by_compute)) as Hh.
  unfold opened. destruct (handle true kernel _) as [o k|k] eqn:E; [apply Hh|].
  exfalso. vm_compute in E. discriminate E.
Qed.

Lemma opened_ready : session_ready opened 1 1 eps.
Proof.
  split; [vm_compute; reflexivity|]. split; [vm_compute; reflexivity|]. split.
  - exists (sess_set_id 1 (new_session HELLO_UUID UserTa (Some 1) 0 Public)).
    split_and!; [vm_compute; reflexivity|discriminate|reflexivity|reflexivity].
  - split; [exact opened_table|].
    destruct (InstanceTable.get (instances opened) 1) as [x|] eqn:Ex; [|vm_compute in Ex; discriminate Ex].
    exists x, {| mapped := 0; as_pool_va := 0x10000; images := [] |}. split; [done|]. vm_compute in Ex. injection Ex as <-.
    split_and!; reflexivity.
Qed.

(** The guest with its pool, and a client connected to it. *)
Definition guest_hal : VirtHal := set_conn (VirtHal_init 0x10000) (Some HalVirt.Sample.fresh_conn).
Definition guest : GuestState (PTA:=unit) := {| gk := set_hal opened guest_hal; waiting := None; tx := [] |}.
Definition client : Context (StreamTransport (Link (PTA:=unit))) :=
  Context_new (StreamTransport_new {| lk_guest := Running guest; lk_in := [] |}).
Lemma guest_full : pool_full guest_hal.
Proof. split; [apply zlen_zeros; discriminate|]. split; [reflexivity|apply bytes_ok_zeros]. Qed.
Lemma client_connected : connected client 1 1 eps 32.
Proof.
  split; [apply zlen_zeros; discriminate|]. split; [apply bytes_ok_zeros|]. split; [discriminate|]. split; [reflexivity|].
  split; [by_compute|]. exists guest. split; [reflexivity|]. split; [reflexivity|]. split; [exact guest_full|].
  split; [discriminate|]. split; [reflexivity|]. split; [reflexivity|].
  split; [exact (session_ready_hal opened guest_hal 1 1 eps opened_ready eq_refl)|]. split; [discriminate|].
  exists HalVirt.Sample.fresh_conn. split; [reflexivity|]. split; [by_compute|reflexivity].
Qed.

(** An echo, a buffer too small and an unknown command. *)
Definition reqs : list (u32 * list u8 * list u8) := [(0, str "hello-rs", zeros 16); (0, [1; 2; 3], [0; 0]); (7, [], [])].
End Demo.

Import KernelProps.Sample.

